(* ===== verification/_CoqProject ===== *)
-Q . S2P
Prelude.v
GoStrings.v
Sha256.v
Naming.v
Http.v
GoUrl.v
GoPath.v
GoFlag.v
Routing.v
Allowlist.v
TransportPool.v
HttpServer.v
UserServer.v
Impersonation.v
AuthProviders.v
ExpiringCache.v
TokenCache.v
Oidc.v
ServiceProxy.v
OidcSetup.v
Manifests.v
Api.v
Controller.v
DeepCopy.v
StatusCopy.v
RestClient.v
Clientset.v
Informers.v
FakeClient.v
Pem.v
Certificates.v
Rotation.v
Agent.v
ClusterProfile.v
PortForward.v
AddonAgent.v
Features.v
AddonManager.v
ManagerClient.v
Command.v
