(* ===== verification/Prelude.v ===== *)
(** * Cluster Proxy: a verification library

    ** The program

    Cluster Proxy lets users of a hub cluster reach the Kubernetes API and
    the services of managed clusters through a reverse tunnel.  Its own code
    (src/pkg, src/cmd) has these parts:

    - the user-server on the hub (src/pkg/userserver): takes a user's
      request, finds the managed cluster and the service it names, checks
      the cluster against the transport pool and the service against the
      allowlist, and forwards over the tunnel;
    - the service-proxy on each managed cluster (src/pkg/serviceproxy):
      resolves the target from the headers that the user-server wrote,
      authenticates requests to the kube-apiserver against the managed
      cluster, the hub or an OIDC issuer, and forwards, impersonating the
      authenticated user with its own service account;
    - what both share (src/pkg/utils, src/pkg/util): routing, names, the
      HTTP servers and their shutdown;
    - the controller of the proxy-server (src/pkg/proxyserver/controllers):
      renders the manifests of the tunnel's server from a configuration
      object, applies them, rotates certificates and reports a status;
    - the signing authority (src/pkg/proxyserver/operator/authentication,
      src/pkg/controllers): one CA in a secret, shared by all managers, and
      the serving certificate of the service-proxies;
    - the agent add-on (src/pkg/proxyagent/agent): the values with which
      the agent is deployed on each managed cluster;
    - the cluster profile controller: publishes how to reach a cluster;
    - the local proxy of the add-on agent (src/pkg/util/portforward.go):
      reaches the proxy-server through port-forwards of the Kubernetes API;
    - the commands (src/cmd): the addon-manager on the hub, the add-on agent
      on the clusters, and cluster-proxy with the sub-commands user-server,
      service-proxy and controllers; and generated code.

    ** The files

    - Prelude: errors, results, tactics, the hint database [proxy], generic
      lemmas, the closure of a step relation.
    - GoStrings, Sha256, Http, GoUrl, GoPath, GoFlag: what the code uses of Go's strings,
      strconv, crypto/sha256, net/http and net/http/httputil (headers and
      the reverse proxy, with hop-by-hop headers removed after the caller's
      edits) and net/url (the class [UrlParse] states what is relied on,
      [go_url] is an executable instance; the escaping of paths on the
      wire), and flag (registration, parsing, the values of
      "--feature-gates").
    - Naming: src/pkg/util/serviceurl.go and the constants.
    - Routing: src/pkg/utils/utils.go.
    - Allowlist: src/pkg/userserver/service_allowlist.go and its watcher.
    - TransportPool: src/pkg/userserver/transport_pool.go, each critical
      section an atomic operation, a run an arbitrary interleaving.
    - HttpServer: src/pkg/utils/http_server.go, a labelled state machine
      with a clock.
    - UserServer: src/pkg/userserver/user_server.go; [ServeHTTP], [init],
      [Run].
    - Impersonation, AuthProviders: src/pkg/serviceproxy/authentication.go,
      auth_provider.go, token_authenticator.go, hub_auth_provider.go,
      managed_cluster_auth_provider.go; the class [IdentityProvider] is what
      a provider promises, [processAuthentication] is proved against it.
    - ExpiringCache, TokenCache: the cache that token_authenticator.go puts
      around its reviews, from the vendored sources (expiring.go of
      apimachinery, the package token/cache of apiserver, singleflight of
      golang.org/x/sync); the classes [cache] and [CacheLaws] are the
      interface between the authenticator and its store, the expiring map
      and the stripes are instances.  Requests, shared lookups and the
      clock interleave.
    - Oidc: src/pkg/serviceproxy/oidc_*.go, the delegate's life cycle as a
      step relation, the ConfigMap controller as its client.
    - ServiceProxy: src/pkg/serviceproxy/service_proxy.go.
    - OidcSetup: how the service-proxy gets from its flags to its chain of
      providers: oidc_auth_provider.go and buildDelegate of
      oidc_authenticator.go, defaultAuthProviderFactories of
      auth_provider.go, the flags of hub_auth_provider.go.
    - Manifests: src/pkg/proxyserver/controllers/manifests.go and the types
      it reads.
    - Api: the API server as a store with resource versions, other writers
      and failing calls, in a state monad.
    - Controller: managedproxyconfiguration_controller.go.
    - DeepCopy: src/pkg/apis/proxy/v1alpha1 (the types and
      zz_generated.deepcopy.go) on a memory of pointers, slices and maps.
    - StatusCopy: the edits that refreshStatus makes in memory, on the
      copies of [DeepCopy], against the values of [Controller].
    - RestClient: what the generated clients use of client-go (vendored:
      rest/request.go, config.go, url_utils.go, client.go, and
      conversion/queryparams of apimachinery): a request is built by
      settings of which the first failure wins, its path by Go's path.Join.
    - Clientset: src/pkg/generated/clientset/versioned (clientset.go, the
      typed client, scheme/register.go), src/pkg/apis/proxy/v1alpha1/
      groupversion_info.go; each method is the request it builds and what
      it makes of the answer.
    - Informers: src/pkg/generated/informers and listers; a factory is a
      state machine over the calls of its users.
    - FakeClient: src/pkg/generated/clientset/versioned/fake and
      typed/proxy/v1alpha1/fake, with the object tracker, the reactors and
      the watchers of client-go (vendored) that they are made of.
    - Pem: base64 and PEM printing, the class [PemDecoder] of what is relied
      on when reading, and a decoder that implements it.
    - Certificates: selfsigned/self_sign_certificate.go and secret.go,
      src/pkg/controllers/certcontroller.go, src/pkg/common/help.go,
      src/pkg/util/secrets.go; the classes [Crypto] and [CryptoLaws] are the
      cryptography they rely on, [Sample.crypto] an instance.
    - Rotation: how certificates are kept fresh, from the vendored sources
      (certrotation/target.go and helpers/resourceapply.go of sdk-go,
      crypto.go of library-go), as the two controllers configure it; the
      class [X509Laws] is what is relied on of signatures.
    - Agent: src/pkg/proxyagent/agent/agent.go and additional_values.go,
      src/pkg/config/agent.go, src/pkg/common/cluster.go; the package
      variable that holds the agent's image is passed in and out.
    - ClusterProfile: clusterprofile_controller.go.
    - PortForward: src/pkg/util/portforward.go; a connection is a state
      machine of the handler, the error reader and the two copiers.
    - AddonAgent: src/cmd/addon-agent/main.go.
    - Features: src/pkg/features/features.go on the feature gates of
      component-base, for every order in which maps are visited.
    - AddonManager: src/cmd/addon-manager/main.go, [NewAgentAddon], the
      registration of the reconciler; a start-up is a computation over the
      API server that records what it sets up and may end the process.
    - ManagerClient: the manager's reading of its configuration, start-up
      and typed client composed.
    - Command: src/cmd/cluster-proxy/main.go, src/pkg/controllers/manager.go.

    State is passed explicitly; a Go [error] is a [result] (or the error
    case of the monad); a nil dereference is [Panics] or [Panicked]; a
    nil-able pointer is an option; an HTTP response is the status code and
    message, or the request that is forwarded.

    ** What is shown

    - Access: a request leaves the hub only for an allowed cluster and an
      exposed service, a permitted one is forwarded, the managed cluster
      resolves nothing but the approved target whatever headers the client
      sends, and the same under every interleaving with the informers
      (UserServer, Routing, TransportPool, Allowlist).
    - Identity: providers are tried in order, only a definite rejection
      falls through, a request reaches the kube-apiserver unchanged or with
      exactly one identity; the path through the user-server preserves this
      end to end, a direct request may not (Impersonation, AuthProviders,
      Oidc, ServiceProxy).
    - Cached verdicts: an identity comes from a review of the same token
      that is at most the time to live and 30 seconds old, plus what the
      goroutine of the lookup was delayed by, so a revoked token is refused
      after that; reviews of a token do not overlap and are spaced by the
      time to live; the cache answers as the reviews do; in every fair run
      requests return; but rejections are not cached (TokenCache).
    - Certificates over time: a rotation settles until the renewal time, its
      leaf covers the names asked for and does not outlive the authority, a
      failed one keeps the old secret but for the case the theorem names,
      and under an expired authority every new leaf is expired (Rotation).
    - Life cycles: transports and OIDC delegates are closed exactly once,
      the servers become unready before they stop listening and always
      return after a cancellation, nothing is served before start-up is
      complete (TransportPool, Oidc, HttpServer, UserServer, ServiceProxy).
    - The controller: applying objects terminates under interference,
      rewrites exactly what is out of date and converges without it, keeps
      what the cluster assigned; the status is written last, after
      everything else succeeded; the manifests fit together; and its known defects are
      stated as theorems about what the code does (Controller, Manifests).
    - The issuer: with a CA ConfigMap, tokens are verified only against an
      issuer that the ConfigMap vouches for; what the flags mean; the order
      of the providers; an issuer that cannot be set up stops the start-up
      (OidcSetup).
    - The generated code: a typed client sends nothing or exactly the
      request of its operation, inside its resource, with the timeouts and
      the rate limits that its options and configuration ask for, up to the
      overflow that a theorem names; informers are shared and run once;
      listers read the cache; the fake clientset refines a store of objects
      by name, and its watches deliver what changes after they were opened
      (Clientset, Informers, FakeClient).
    - Memory: deep copies read as their originals and share nothing with
      them, and refreshing a status writes to copies only (DeepCopy,
      StatusCopy).
    - The authority: racing managers end up with the one CA of the secret,
      which is never replaced; CA bundles merge without loss or duplicates;
      serial numbers increase (Certificates).
    - The parts fit: the agent registers under the host the user-server
      dials, the serving certificate is valid for that host, agents dial a
      name of the proxy-server's certificate, and a cluster profile's URL
      is routed back to its cluster (Agent, Certificates, Rotation,
      ClusterProfile).
    - The processes fit: a manager that starts has set up everything
      before, with one authority, that of the signer secret, which is the
      one that agents are told to trust and the one that the certificate
      controller signs with; that secret is owned by the configuration read
      with one GET through the generated client (ManagerClient);
      a manager that cannot be set up starts nothing;
      the arguments rendered for the add-on agent are the flags it
      understands; feature gates mean what they say; the command's exit
      status and messages (AddonManager, Command, AddonAgent, Features).
    - Port forwarding: a connection goes to a running pod under an
      identifier of its own, ends, and releases what it holds, but for the
      error paths that the theorems name; the probe waits for the first
      connection (PortForward, AddonAgent).
    - Paths: which request paths arrive as they were sent (Routing, GoPath).
    - Names: generated names are valid DNS labels of a fixed length.

    ** Bounds and fuel

    Integers are [Z]; a generation is assumed within int64 where it is
    printed and parsed back.  [Controller.ensure] and
    [Certificates.NewSelfSignerFromSecretOrGenerate] take fuel: they recurse
    when another writer interfered, which uses up a turn of the schedule,
    and [ensure_terminates] and [signer_load_terminates] show that more fuel
    than turns is enough.  The addon-manager's start-up inherits the latter.
    The cache's garbage collection runs for the length of its heap, which
    every round shortens; its generations are 64 bits wide, and the theorems
    on it assume fewer than 2^64 stored records.  The differences of times in a
    rotation saturate as in Go.
    The PEM loop runs for the length of its input, which every block
    shortens, flag parsing for the number of arguments, [TrimSpace] for the
    length of the string.  The interleavings of the pool, the drain, the
    OIDC delegate, the token cache and a forwarded connection are lists or reachability
    relations of any length.  The request counter of the local proxy and
    the durations of the typed client are 64-bit integers that wrap around.
    A watch channel of the fake clientset holds 100 events, as in the code;
    the 101st panics.

    ** Parameters

    What lies outside the repository is an argument: the YAML parser, the
    TokenReview call, the OIDC library, certificate parsing, the clock, the
    spec hash, the label validators, the TLS strings of
    the SDK, the tunnel, RSA and X.509, the add-on framework, the CSV reader
    of pflag, certificate pools, the API server's answers and the encoder of
    bodies behind the typed client, and for the fake one the patch libraries
    and the parsers of selectors.  AuthProviders takes the cache, and
    Controller and Certificates take the rotation as arguments, which
    TokenCache and Rotation model by themselves.  The keyed hash of the
    cache is assumed to have no collision among the tokens presented.  How
    long a lookup is delayed is a parameter of the theorem that depends on
    it, and fair scheduling a hypothesis of the one that does.  [UrlParse],
    [IdentityProvider], [PemDecoder], [CryptoLaws] and [X509Laws] state what
    is relied on and have instances here.

    ** Not modelled

    Logging, the schemes of the two managers and the build-info metric,
    pflag's own parsing of a command line (the flags of the cobra commands
    are their values; what the OIDC flags do with theirs is modelled), the
    bytes of bodies and tunnels, the retries of client-go, the internals of
    controller-runtime, of shared informers and of the add-on framework, the
    directory that a rotation can load its secret into, which no controller
    sets, the audit annotations and warnings of a cached review, the wrapper [conn] of portforward.go, which
    nothing uses, and the capacity of slices. *)

From stdpp Require Export base tactics list gmap strings.
From Stdlib Require Export Ascii ZArith.

(** Concatenation computes on a constructor (stdpp keeps it folded). *)
#[global] Arguments String.append !s1 s2 / : simpl nomatch.

(** ** Errors

    Go's [error] values as the code observes them: the message that
    [Error()] prints, and the chain that [errors.Is] and the predicates of
    k8s.io/apimachinery's [api/errors] walk.  [ENew] is [errors.New] (or
    [fmt.Errorf] without [%w]); [EWrap] is [fmt.Errorf] with [%w] or
    [errors.Wrapf], carrying the formatted message and the cause. *)

(** The outcome of a call to the Kubernetes API that the code tells apart. *)
Inductive api_reason :=
| NotFound
| AlreadyExists
| Conflict
| OtherReason.

#[export] Instance api_reason_eq_dec : EqDecision api_reason.
Proof. solve_decision. Defined.

Inductive goerror :=
| ENew (msg : string)
| EWrap (msg : string) (cause : goerror)
| EApi (reason : api_reason) (msg : string)
| EDeadlineExceeded
| ECanceled
| ETokenNotAuthenticated.

#[export] Instance goerror_eq_dec : EqDecision goerror.
Proof. solve_decision. Defined.

(** [err.Error()]. *)
Definition error_string (e : goerror) : string :=
  match e with
  | ENew m => m
  | EWrap m _ => m
  | EApi _ m => m
  | EDeadlineExceeded => "context deadline exceeded"
  | ECanceled => "context canceled"
  | ETokenNotAuthenticated => "token not authenticated"
  end.

(** [errors.Is(e, target)]: equality somewhere along the chain of causes. *)
Fixpoint errors_is (e target : goerror) : bool :=
  bool_decide (e = target) ||
  match e with
  | EWrap _ c => errors_is c target
  | _ => false
  end.

(** [apierrors.ReasonForError]: the reason of the first API status error on
    the chain ([errors.As]). *)
Fixpoint api_reason_of (e : goerror) : option api_reason :=
  match e with
  | EApi r _ => Some r
  | EWrap _ c => api_reason_of c
  | _ => None
  end.

Definition IsNotFound (e : goerror) : bool :=
  bool_decide (api_reason_of e = Some NotFound).
Definition IsAlreadyExists (e : goerror) : bool :=
  bool_decide (api_reason_of e = Some AlreadyExists).
Definition IsConflict (e : goerror) : bool :=
  bool_decide (api_reason_of e = Some Conflict).

(** ** Results: Go's pair of a value and an [error]. *)

Inductive result (A : Type) : Type :=
| Ok (a : A)
| Err (e : goerror).
Arguments Ok {A} a.
Arguments Err {A} e.

#[export] Instance result_ret : MRet result := fun A a => Ok a.
#[export] Instance result_bind : MBind result := fun A B f m =>
  match m with Ok a => f a | Err e => Err e end.
#[export] Instance result_fmap : FMap result := fun A B f m =>
  match m with Ok a => Ok (f a) | Err e => Err e end.

Definition is_ok {A} (r : result A) : bool :=
  match r with Ok _ => true | Err _ => false end.

(** ** Tactics

    [break] splits the first [match] or [if] of a hypothesis or of the
    goal, keeping the equation; [inv_ok] turns an equation between results
    into its components; [crunch] repeats both and closes the goal. *)

Ltac break_in H :=
  match type of H with
  | context [match ?x with _ => _ end] =>
      first [ is_var x; destruct x | destruct x eqn:? ]
  end.

Ltac break_goal :=
  match goal with
  | |- context [match ?x with _ => _ end] =>
      first [ is_var x; destruct x | destruct x eqn:? ]
  end.

Ltac inv_ok :=
  repeat match goal with
  | H : Ok _ = Ok _ |- _ => injection H as H; subst
  | H : Err _ = Err _ |- _ => injection H as H; subst
  | H : Ok _ = Err _ |- _ => discriminate H
  | H : Err _ = Ok _ |- _ => discriminate H
  | H : mret _ = Ok _ |- _ => injection H as H; subst
  | H : Some _ = Some _ |- _ => injection H as H; subst
  | H : Some _ = None |- _ => discriminate H
  | H : None = Some _ |- _ => discriminate H
  end.

Ltac bool_to_prop :=
  repeat match goal with
  | H : _ && _ = true |- _ => apply andb_true_iff in H as [? ?]
  | H : _ || _ = false |- _ => apply orb_false_iff in H as [? ?]
  | H : negb _ = true |- _ => apply negb_true_iff in H
  | H : negb _ = false |- _ => apply negb_false_iff in H
  | H : bool_decide _ = true |- _ => apply bool_decide_eq_true in H
  | H : bool_decide _ = false |- _ => apply bool_decide_eq_false in H
  | H : String.eqb _ _ = true |- _ => apply String.eqb_eq in H
  | H : String.eqb _ _ = false |- _ => apply String.eqb_neq in H
  end.

(** Automation shared by the components: [eauto with proxy]. *)
Create HintDb proxy discriminated.

(** ** Generic lemmas *)

Lemma bind_ok {A B} (m : result A) (f : A → result B) b :
  (m ≫= f) = Ok b ↔ ∃ a, m = Ok a ∧ f a = Ok b.
Proof.
  destruct m as [a|e]; cbn; split.
  - eauto.
  - intros (a' & Ha & Hf). by inv_ok.
  - done.
  - intros (a' & Ha & _). done.
Qed.

Lemma bind_err {A B} (m : result A) (f : A → result B) e :
  (m ≫= f) = Err e ↔ m = Err e ∨ ∃ a, m = Ok a ∧ f a = Err e.
Proof.
  destruct m as [a|e']; cbn; split.
  - eauto.
  - intros [? | (a' & Ha & Hf)]; by inv_ok.
  - intros. inv_ok. by left.
  - intros [? | (a' & Ha & _)]; by inv_ok.
Qed.

Lemma errors_is_refl e : errors_is e e = true.
Proof. destruct e; cbn; by rewrite bool_decide_true. Qed.

Lemma errors_is_wrap m c t : errors_is c t = true → errors_is (EWrap m c) t = true.
Proof. intros H. cbn. rewrite H. apply orb_true_r. Qed.

#[export] Hint Resolve errors_is_refl errors_is_wrap : proxy.

Lemma existsb_exists_elem {A} (f : A → bool) l :
  existsb f l = true ↔ ∃ x, x ∈ l ∧ f x = true.
Proof.
  rewrite existsb_exists. split; intros (x & Hx & Hf); exists x; split; auto;
    by apply list_elem_of_In.
Qed.

Lemma existsb_perm {A} (f : A → bool) l1 l2 :
  l1 ≡ₚ l2 → existsb f l1 = existsb f l2.
Proof.
  intros Hp. apply eq_iff_eq_true. rewrite !existsb_exists_elem.
  by setoid_rewrite Hp.
Qed.

(** ** Reflexive transitive closure of a step relation

    [steps R] is what the components use to state what every reachable
    state satisfies. *)
Section closure.
Context {A : Type} (R : A → A → Prop).

Inductive steps : A → A → Prop :=
| steps_refl a : steps a a
| steps_snoc a b c : steps a b → R b c → steps a c.

Lemma steps_invariant (P : A → Prop) a b :
  P a → (∀ x y, P x → R x y → P y) → steps a b → P b.
Proof. intros Ha Hstep. induction 1; eauto. Qed.

Lemma steps_one a b : R a b → steps a b.
Proof. intros H. eapply steps_snoc; [apply steps_refl | exact H]. Qed.

Lemma steps_trans a b c : steps a b → steps b c → steps a c.
Proof. intros Hab. induction 1; eauto using steps. Qed.

(** What is preserved from a state on, relative to that state. *)
Lemma steps_relation (Q : A → A → Prop) a b :
  (∀ x, Q x x) → (∀ x y z, Q x y → R y z → Q x z) → steps a b → Q a b.
Proof. intros Hr Hs. induction 1; eauto. Qed.
End closure.
#[export] Hint Constructors steps : proxy.
