(* ===== verification/GoStrings.v ===== *)
(** * Go's [strings] and [strconv] packages, as the code uses them

    A Go string is a sequence of bytes: [String.string].  This file holds
    the functions the modelled code calls, with the laws the components
    need.  The separators and patterns of every call in the code are
    constants, and all of them are ASCII; the definitions are exact for
    such patterns (the comments say where that matters). *)

From Stdlib Require Import DecimalString DecimalZ DecimalPos DecimalFacts.
From S2P Require Import Prelude.

Local Open Scope string_scope.

(** ** Splitting and joining *)

(** [strings.Split(s, sep)] for a separator of one byte. *)
Fixpoint Split (sep : ascii) (s : string) : list string :=
  match s with
  | EmptyString => [""]
  | String c s' =>
      if Ascii.eqb c sep then "" :: Split sep s'
      else match Split sep s' with
           | h :: t => String c h :: t
           | [] => [String c ""]
           end
  end.

(** [strings.Join(l, sep)]. *)
Fixpoint Join (l : list string) (sep : string) : string :=
  match l with
  | [] => ""
  | [x] => x
  | x :: l' => x ++ sep ++ Join l' sep
  end.

(** Does byte [c] occur in [s]? *)
Fixpoint has_byte (c : ascii) (s : string) : bool :=
  match s with
  | EmptyString => false
  | String c' s' => Ascii.eqb c' c || has_byte c s'
  end.

(** All bytes of [s] satisfy [p]. *)
Fixpoint all_bytes (p : ascii → bool) (s : string) : bool :=
  match s with
  | EmptyString => true
  | String c s' => p c && all_bytes p s'
  end.

(** ** Prefixes and substrings *)

(** [strings.HasPrefix(s, p)]. *)
Fixpoint HasPrefix (s p : string) {struct p} : bool :=
  match p, s with
  | EmptyString, _ => true
  | String a p', String b s' => Ascii.eqb a b && HasPrefix s' p'
  | String _ _, EmptyString => false
  end.

(** [s[n:]], and [s[:n]]; both are total here, while Go panics when [n]
    exceeds the length (the callers guard or bound it). *)
Fixpoint str_drop (n : nat) (s : string) : string :=
  match n, s with
  | S n', String _ s' => str_drop n' s'
  | _, _ => s
  end.

Fixpoint str_take (n : nat) (s : string) : string :=
  match n, s with
  | S n', String c s' => String c (str_take n' s')
  | _, _ => ""
  end.

(** [strings.TrimPrefix(s, p)]. *)
Definition TrimPrefix (s p : string) : string :=
  if HasPrefix s p then str_drop (String.length p) s else s.

(** [strings.Contains(s, p)]. *)
Fixpoint Contains (s p : string) : bool :=
  HasPrefix s p ||
  match s with
  | EmptyString => false
  | String _ s' => Contains s' p
  end.

(** [strings.Cut(s, sep)] for a one-byte separator: before, after, found. *)
Fixpoint Cut (sep : ascii) (s : string) : string * string * bool :=
  match s with
  | EmptyString => ("", "", false)
  | String c s' =>
      if Ascii.eqb c sep then ("", s', true)
      else let '(b, a, f) := Cut sep s' in (String c b, a, f)
  end.

(** ** Case *)

Definition is_upper (c : ascii) : bool :=
  (65 <=? N_of_ascii c)%N && (N_of_ascii c <=? 90)%N.
Definition is_lower (c : ascii) : bool :=
  (97 <=? N_of_ascii c)%N && (N_of_ascii c <=? 122)%N.
Definition is_digit (c : ascii) : bool :=
  (48 <=? N_of_ascii c)%N && (N_of_ascii c <=? 57)%N.
Definition is_letter (c : ascii) : bool := is_upper c || is_lower c.

Definition lower_byte (c : ascii) : ascii :=
  if is_upper c then ascii_of_N (N_of_ascii c + 32) else c.
Definition upper_byte (c : ascii) : ascii :=
  if is_lower c then ascii_of_N (N_of_ascii c - 32) else c.

(** [strings.ToLower], as far as ASCII patterns can tell.  Two runes
    outside ASCII are mapped into ASCII by [unicode.ToLower]: the Kelvin
    sign U+212A (bytes E2 84 AA, to [k]) and the dotted capital I U+0130
    (bytes C4 B0, to [i]).  Every other rune outside ASCII stays outside
    ASCII, so its bytes are kept: no ASCII pattern can match them. *)
Fixpoint ToLower (s : string) : string :=
  match s with
  | String "226" (String "132" (String "170" s')) => String "k" (ToLower s')
  | String "196" (String "176" s') => String "i" (ToLower s')
  | String c s' => String (lower_byte c) (ToLower s')
  | EmptyString => ""
  end.

(** The folding that [strings.EqualFold(s, t)] compares when [t] is ASCII:
    the two runes outside ASCII in the simple-folding orbit of an ASCII
    letter are the Kelvin sign U+212A (with [k]) and the long s U+017F
    (bytes C5 BF, with [s]). *)
Fixpoint fold_case (s : string) : string :=
  match s with
  | String "226" (String "132" (String "170" s')) => String "k" (fold_case s')
  | String "197" (String "191" s') => String "s" (fold_case s')
  | String c s' => String (lower_byte c) (fold_case s')
  | EmptyString => ""
  end.

(** [strings.EqualFold(s, t)] for an ASCII constant [t]. *)
Definition EqualFold (s t : string) : bool :=
  String.eqb (fold_case s) (fold_case t).

(** ** Numbers *)

(** [strings.HasSuffix]. *)
Definition HasSuffix (s suffix : string) : bool :=
  (String.length suffix <=? String.length s)%nat &&
  String.eqb (str_drop (String.length s - String.length suffix) s) suffix.

(** [strconv.Itoa]. *)
Definition Itoa (z : Z) : string := NilZero.string_of_int (Z.to_int z).

(** [strconv.Atoi] on a 64-bit platform: an optional sign, decimal digits,
    and an error outside the range of [int]. *)
Definition int_min : Z := (- 2 ^ 63)%Z.
Definition int_max : Z := (2 ^ 63 - 1)%Z.

Definition Atoi (s : string) : result Z :=
  let digits := match s with
                | String "+" (String "-" _) => "x"
                | String "+" s' => s'
                | _ => s
                end in
  match NilZero.int_of_string digits with
  | Some i =>
      let z := Z.of_int i in
      if (int_min <=? z)%Z && (z <=? int_max)%Z then Ok z
      else Err (ENew ("strconv.Atoi: parsing " ++ s ++ ": value out of range"))
  | None => Err (ENew ("strconv.Atoi: parsing " ++ s ++ ": invalid syntax"))
  end.

(** ** Quoting *)

Definition dquote : ascii := "034".
Definition backslash : ascii := "092".

Definition nibble (n : N) : ascii :=
  if (n <? 10)%N then ascii_of_N (48 + n) else ascii_of_N (87 + n).

(** One byte as [strconv.Quote] writes it; bytes outside ASCII, which belong
    to runes that [Quote] keeps when they are printable, are kept. *)
Definition quote_byte (c : ascii) : string :=
  let n := N_of_ascii c in
  if Ascii.eqb c dquote || Ascii.eqb c backslash then String backslash (String c "")
  else if (n =? 7)%N then String backslash "a"
  else if (n =? 8)%N then String backslash "b"
  else if (n =? 12)%N then String backslash "f"
  else if (n =? 10)%N then String backslash "n"
  else if (n =? 13)%N then String backslash "r"
  else if (n =? 9)%N then String backslash "t"
  else if (n =? 11)%N then String backslash "v"
  else if (n <? 32)%N || (n =? 127)%N
  then String backslash (String "x" (String (nibble (n / 16)) (String (nibble (n mod 16)) "")))
  else String c "".

Fixpoint quote_body (s : string) : string :=
  match s with
  | EmptyString => ""
  | String c s' => quote_byte c ++ quote_body s'
  end.

(** The [%q] verb on a string. *)
Definition Quote (s : string) : string :=
  String dquote "" ++ quote_body s ++ String dquote "".

(** ** Laws of [Split] and [Join] *)

Lemma Split_nonempty sep s : Split sep s ≠ [].
Proof.
  destruct s as [|c s']; cbn; [done|].
  destruct (Ascii.eqb c sep); [done|]. by destruct (Split sep s').
Qed.

Lemma Split_cons sep c s :
  Ascii.eqb c sep = false →
  ∃ h t, Split sep s = h :: t ∧ Split sep (String c s) = String c h :: t.
Proof.
  intros Hc. destruct (Split sep s) as [|h t] eqn:E.
  - by apply Split_nonempty in E.
  - exists h, t. split; [done|]. cbn. by rewrite Hc, E.
Qed.

Lemma Join_cons x l sep : l ≠ [] → Join (x :: l) sep = x ++ sep ++ Join l sep.
Proof. by destruct l. Qed.

(** Joining with the separator undoes splitting. *)
Lemma Join_Split sep s : Join (Split sep s) (String sep "") = s.
Proof.
  induction s as [|c s IH]; [done|].
  destruct (Ascii.eqb c sep) eqn:Hc.
  - apply Ascii.eqb_eq in Hc as ->. cbn. rewrite Ascii.eqb_refl.
    rewrite Join_cons by apply Split_nonempty. by rewrite IH.
  - destruct (Split_cons sep c s Hc) as (h & t & Hs & ->).
    rewrite Hs in IH. destruct t as [|y t].
    + cbn in *. by rewrite IH.
    + rewrite Join_cons in * by done. by rewrite <- IH.
Qed.

Lemma Split_no_sep sep s : has_byte sep s = false → Split sep s = [s].
Proof.
  induction s as [|c s IH]; [done|]. cbn. intros H.
  apply orb_false_iff in H as [-> H]. by rewrite IH.
Qed.

(** A separator in the middle splits into the two splits. *)
Lemma Split_app sep a b :
  Split sep (a ++ String sep b) = (Split sep a ++ Split sep b)%list.
Proof.
  induction a as [|c a IH]; cbn.
  - by rewrite Ascii.eqb_refl.
  - rewrite IH. destruct (Ascii.eqb c sep); [done|].
    by destruct (Split sep a) eqn:E; [apply Split_nonempty in E|].
Qed.

(** Splitting undoes joining when no piece holds the separator. *)
Lemma Split_Join sep l :
  l ≠ [] → Forall (λ s, has_byte sep s = false) l →
  Split sep (Join l (String sep "")) = l.
Proof.
  intros Hne Hl. induction Hl as [|x l Hx Hl IH]; [done|].
  destruct l as [|y l].
  - by apply Split_no_sep.
  - rewrite Join_cons by done. change (String sep "" ++ Join (y :: l) (String sep ""))
      with (String sep (Join (y :: l) (String sep ""))).
    rewrite Split_app, IH by done. by rewrite Split_no_sep.
Qed.

(** No piece of a split holds the separator. *)
Lemma Split_pieces sep s : Forall (λ x, has_byte sep x = false) (Split sep s).
Proof.
  induction s as [|c s IH]; cbn; [by repeat constructor|].
  destruct (Ascii.eqb c sep) eqn:Hc; [by constructor|].
  destruct (Split sep s) as [|h t]; inversion IH; subst; constructor; cbn;
    rewrite ?Hc; auto.
Qed.

Lemma has_byte_app c a b : has_byte c (a ++ b) = has_byte c a || has_byte c b.
Proof. induction a as [|x a IH]; cbn; [done|]. by rewrite IH, orb_assoc. Qed.

Lemma all_bytes_app p a b : all_bytes p (a ++ b) = all_bytes p a && all_bytes p b.
Proof. induction a as [|x a IH]; cbn; [done|]. by rewrite IH, andb_assoc. Qed.

Lemma all_bytes_mono (p q : ascii → bool) s :
  (∀ c, p c = true → q c = true) → all_bytes p s = true → all_bytes q s = true.
Proof.
  intros Hpq. induction s as [|c s IH]; cbn; [done|].
  intros H. apply andb_true_iff in H as [Hc Hs]. by rewrite (Hpq _ Hc), IH.
Qed.

(** A string all of whose bytes satisfy [p] holds no byte outside [p]. *)
Lemma all_bytes_no_byte p c s :
  p c = false → all_bytes p s = true → has_byte c s = false.
Proof.
  intros Hc. induction s as [|x s IH]; cbn; [done|].
  intros H. apply andb_true_iff in H as [Hx Hs]. rewrite IH by done.
  destruct (Ascii.eqb x c) eqn:E; [|done].
  apply Ascii.eqb_eq in E as ->. congruence.
Qed.

(** [Cut] finds the first separator. *)
Lemma Cut_app sep a b : has_byte sep a = false → Cut sep (a ++ String sep b) = (a, b, true).
Proof.
  induction a as [|c a IH]; cbn; intros H.
  - by rewrite Ascii.eqb_refl.
  - apply orb_false_iff in H as [-> H]. by rewrite IH.
Qed.

(** ** Laws of prefixes *)

Lemma HasPrefix_spec s p : HasPrefix s p = true ↔ ∃ r, s = p ++ r.
Proof.
  revert s. induction p as [|a p IH]; intros s; cbn; [by split; eauto|].
  destruct s as [|b s]; [by split; [|intros [? ?]]|].
  rewrite andb_true_iff, Ascii.eqb_eq, IH. split.
  - intros [-> [r ->]]. by exists r.
  - intros [r [= -> ->]]. eauto.
Qed.

Lemma HasPrefix_app p r : HasPrefix (p ++ r) p = true.
Proof. apply HasPrefix_spec. eauto. Qed.

Lemma str_drop_app p r : str_drop (String.length p) (p ++ r) = r.
Proof. by induction p. Qed.

Lemma TrimPrefix_app p r : TrimPrefix (p ++ r) p = r.
Proof. unfold TrimPrefix. by rewrite HasPrefix_app, str_drop_app. Qed.

Lemma str_take_length n s : String.length (str_take n s) = Nat.min n (String.length s).
Proof. revert s. induction n as [|n IH]; intros [|c s]; cbn; auto. Qed.

Lemma str_take_app n a b :
  (n <= String.length a)%nat → str_take n (a ++ b) = str_take n a.
Proof.
  revert n. induction a as [|c a IH]; intros [|n] H; cbn in *; try done; try lia.
  by rewrite IH by lia.
Qed.

Lemma str_length_app a b :
  String.length (a ++ b) = (String.length a + String.length b)%nat.
Proof. induction a as [|c a IH]; cbn; auto. Qed.

Lemma str_app_nil_r s : s ++ "" = s.
Proof. by induction s as [|c s IH]; cbn; rewrite ?IH. Qed.

Lemma str_app_assoc a b c : a ++ b ++ c = (a ++ b) ++ c.
Proof. by induction a as [|x a IH]; cbn; rewrite ?IH. Qed.

(** ** Laws of the numbers *)

(** Parsing what [Itoa] prints gives the number back, inside the range of
    [int]. *)
Lemma Atoi_Itoa z : (int_min <= z <= int_max)%Z → Atoi (Itoa z) = Ok z.
Proof.
  intros Hz. unfold Atoi, Itoa.
  assert (Hplus : ∀ i, match NilZero.string_of_int i with
                       | String "+" (String "-" _) => "x"
                       | String "+" s' => s'
                       | _ => NilZero.string_of_int i
                       end = NilZero.string_of_int i).
  { intros [[]|[]]; reflexivity. }
  rewrite Hplus, NilZero.isi, DecimalZ.of_to; [|by destruct z as [|p|p]; cbn; try done;
    intros [= E]; destruct (DecimalPos.Unsigned.to_uint_nonnil p)..].
  by rewrite (proj2 (Z.leb_le _ _)), (proj2 (Z.leb_le _ _)) by lia.
Qed.

Lemma Itoa_inj a b : Itoa a = Itoa b → a = b.
Proof.
  assert (H : ∀ z, NilZero.int_of_string (Itoa z) = Some (Z.to_int z)).
  { intros z. unfold Itoa. rewrite NilZero.isi; [done|by destruct z as [|p|p]; cbn; try done;
    intros [= E]; destruct (DecimalPos.Unsigned.to_uint_nonnil p)..]. }
  intros E. apply DecimalZ.to_int_inj. pose proof (H a). pose proof (H b). congruence.
Qed.
