(* ===== verification/Sha256.v ===== *)
(** * [crypto/sha256] and the [%x] verb

    [sha256.Sum256] of a byte string, executable, with 32-bit words as [Z]
    reduced modulo [2^32], and the lower-case hexadecimal rendering that
    [fmt.Sprintf] gives to the digest.  The code derives host names,
    configuration keys and annotation hashes from it. *)

From S2P Require Import Prelude GoStrings.

Local Open Scope Z_scope.

Definition w32 (z : Z) : Z := z mod 2 ^ 32.
Definition add32 (a b : Z) : Z := w32 (a + b).
Definition rotr (n x : Z) : Z := Z.lor (Z.shiftr x n) (w32 (Z.shiftl x (32 - n))).
Definition not32 (x : Z) : Z := Z.lxor x (2 ^ 32 - 1).

Definition big_sigma0 (x : Z) : Z := Z.lxor (rotr 2 x) (Z.lxor (rotr 13 x) (rotr 22 x)).
Definition big_sigma1 (x : Z) : Z := Z.lxor (rotr 6 x) (Z.lxor (rotr 11 x) (rotr 25 x)).
Definition small_sigma0 (x : Z) : Z := Z.lxor (rotr 7 x) (Z.lxor (rotr 18 x) (Z.shiftr x 3)).
Definition small_sigma1 (x : Z) : Z := Z.lxor (rotr 17 x) (Z.lxor (rotr 19 x) (Z.shiftr x 10)).
Definition choose (x y z : Z) : Z := Z.lxor (Z.land x y) (Z.land (not32 x) z).
Definition majority (x y z : Z) : Z :=
  Z.lxor (Z.land x y) (Z.lxor (Z.land x z) (Z.land y z)).

(** The constants of the standard, derived from their definition: the first
    32 bits of the fractional parts of the roots of the first primes. *)
Definition is_prime (n : nat) : bool :=
  forallb (λ d, negb (Nat.modulo n d =? 0)%nat) (seq 2 (n - 2)).

Definition small_primes : list Z :=
  map Z.of_nat (List.filter is_prime (seq 2 310)).

(** The integer cube root, from the bit [n - 1] down. *)
Fixpoint cube_root (n : nat) (x acc : Z) : Z :=
  match n with
  | O => acc
  | S n' =>
      let acc' := acc + 2 ^ Z.of_nat n' in
      cube_root n' x (if acc' * acc' * acc' <=? x then acc' else acc)
  end.

Definition round_constants : list Z :=
  Eval vm_compute in map (λ p, w32 (cube_root 36 (p * 2 ^ 96) 0)) small_primes.

(** The eight chaining words. *)
Record chain := Chain { ca : Z; cb : Z; cc : Z; cd : Z; ce : Z; cf : Z; cg : Z; ch : Z }.

Definition sqrt_word (i : nat) : Z := w32 (Z.sqrt (nth i small_primes 0 * 2 ^ 64)).

Definition initial_chain : chain :=
  Eval vm_compute in
    Chain (sqrt_word 0) (sqrt_word 1) (sqrt_word 2) (sqrt_word 3)
          (sqrt_word 4) (sqrt_word 5) (sqrt_word 6) (sqrt_word 7).

Definition chain_add (x y : chain) : chain :=
  Chain (add32 (ca x) (ca y)) (add32 (cb x) (cb y)) (add32 (cc x) (cc y)) (add32 (cd x) (cd y))
        (add32 (ce x) (ce y)) (add32 (cf x) (cf y)) (add32 (cg x) (cg y)) (add32 (ch x) (ch y)).

Definition sha_round (s : chain) (kw : Z * Z) : chain :=
  let '(k, w) := kw in
  let t1 := w32 (ch s + big_sigma1 (ce s) + choose (ce s) (cf s) (cg s) + k + w) in
  let t2 := w32 (big_sigma0 (ca s) + majority (ca s) (cb s) (cc s)) in
  Chain (add32 t1 t2) (ca s) (cb s) (cc s) (add32 (cd s) t1) (ce s) (cf s) (cg s).

(** The message schedule, newest word first; [n] more words. *)
Fixpoint schedule (n : nat) (ws : list Z) : list Z :=
  match n with
  | O => ws
  | S n' =>
      let w := w32 (small_sigma1 (nth 1 ws 0) + nth 6 ws 0
                    + small_sigma0 (nth 14 ws 0) + nth 15 ws 0) in
      schedule n' (w :: ws)
  end.

Definition compress (s : chain) (block : list Z) : chain :=
  chain_add s (fold_left sha_round
                 (combine round_constants (rev (schedule 48 (rev block)))) s).

Definition be_word (b : list Z) : Z :=
  fold_left (λ acc x, acc * 256 + x) b 0.

Fixpoint chunks {A} (fuel n : nat) (l : list A) : list (list A) :=
  match fuel, l with
  | _, [] => []
  | O, _ => []
  | S f, _ => firstn n l :: chunks f n (skipn n l)
  end.

Definition be_bytes (n : nat) (z : Z) : list Z :=
  map (λ i, Z.shiftr z (8 * Z.of_nat i) mod 256) (rev (seq 0 n)).

Definition pad (msg : list Z) : list Z :=
  let len := Z.of_nat (length msg) in
  let zeros := Z.to_nat ((55 - len) mod 64) in
  msg ++ [0x80] ++ repeat 0 zeros ++ be_bytes 8 (8 * len).

Definition chain_bytes (s : chain) : list Z :=
  be_bytes 4 (ca s) ++ be_bytes 4 (cb s) ++ be_bytes 4 (cc s) ++ be_bytes 4 (cd s)
  ++ be_bytes 4 (ce s) ++ be_bytes 4 (cf s) ++ be_bytes 4 (cg s) ++ be_bytes 4 (ch s).

Definition bytes_of_string (s : string) : list Z :=
  map (λ c, Z.of_N (N_of_ascii c)) (String.list_ascii_of_string s).

(** [sha256.Sum256([]byte(s))]. *)
Definition Sum256 (s : string) : list Z :=
  let p := pad (bytes_of_string s) in
  let blocks := chunks (length p) 64 p in
  chain_bytes (fold_left (λ c b, compress c (map be_word (chunks (length b) 4 b)))
                         blocks initial_chain).

Definition hex_digit (d : Z) : ascii :=
  if d <? 10 then ascii_of_N (Z.to_N (48 + d)) else ascii_of_N (Z.to_N (87 + d)).

(** [fmt.Sprintf("%x", bytes)]. *)
Fixpoint hex (l : list Z) : string :=
  match l with
  | [] => ""
  | b :: l' => String (hex_digit (b / 16)) (String (hex_digit (b mod 16)) (hex l'))
  end.

(** The hexadecimal digest the code prints. *)
Definition sha256_hex (s : string) : string := hex (Sum256 s).

(** ** Shape of the digest *)

Definition is_hex_digit (c : ascii) : bool :=
  is_digit c || ((97 <=? N_of_ascii c)%N && (N_of_ascii c <=? 102)%N).

Lemma hex_length l : String.length (hex l) = (2 * length l)%nat.
Proof. induction l as [|b l IH]; cbn; [done|]. rewrite IH. lia. Qed.

Lemma Sum256_length s : length (Sum256 s) = 32%nat.
Proof. done. Qed.

Lemma sha256_hex_length s : String.length (sha256_hex s) = 64%nat.
Proof. unfold sha256_hex. by rewrite hex_length, Sum256_length. Qed.

Lemma hex_digit_is_hex d : 0 <= d < 16 → is_hex_digit (hex_digit d) = true.
Proof.
  intros Hd.
  assert (d = 0 ∨ d = 1 ∨ d = 2 ∨ d = 3 ∨ d = 4 ∨ d = 5 ∨ d = 6 ∨ d = 7 ∨
          d = 8 ∨ d = 9 ∨ d = 10 ∨ d = 11 ∨ d = 12 ∨ d = 13 ∨ d = 14 ∨ d = 15) as H by lia.
  by repeat destruct H as [->|H]; try subst.
Qed.

Lemma hex_is_hex l :
  Forall (λ b, 0 <= b < 256) l → all_bytes is_hex_digit (hex l) = true.
Proof.
  induction 1 as [|b l Hb _ IH]; cbn; [done|].
  rewrite !hex_digit_is_hex, IH; [done|..].
  - apply Z.mod_pos_bound. lia.
  - split; [apply Z.div_pos | apply Z.div_lt_upper_bound]; lia.
Qed.

Lemma be_bytes_range n z : Forall (λ b, 0 <= b < 256) (be_bytes n z).
Proof.
  unfold be_bytes. apply Forall_forall. intros b Hb.
  apply list_elem_of_In, in_map_iff in Hb as (i & <- & _).
  apply Z.mod_pos_bound. lia.
Qed.

Lemma sha256_hex_is_hex s : all_bytes is_hex_digit (sha256_hex s) = true.
Proof.
  apply hex_is_hex. unfold Sum256, chain_bytes.
  repeat apply Forall_app_2; apply be_bytes_range.
Qed.

(** The test vector of FIPS 180-4 for ["abc"]. *)
Example sha256_abc :
  sha256_hex "abc" = "ba7816bf8f01cfea414140de5dae2223b00361a396177a9cb410ff61f20015ad".
Proof. vm_compute. reflexivity. Qed.
