(* ===== verification/Naming.v ===== *)
(** * Host and service names (pkg/util/serviceurl.go, pkg/constant)

    The names under which a managed cluster is reachable through the
    tunnel.  The hub derives them from the cluster name alone, and the
    add-on manager registers the same names as agent identifiers, so the
    properties here are about their shape: every input gives a name that
    DNS and Kubernetes accept. *)

From S2P Require Import Prelude GoStrings Sha256.

Local Open Scope string_scope.

(** ** Constants (pkg/constant/constant.go, pkg/common/constants.go) *)

Definition AddonName : string := "cluster-proxy".
Definition ServiceProxyPort : Z := 7443.
Definition UserServerServiceName : string := "cluster-proxy-addon-user".
Definition UserServerSecretName : string := "cluster-proxy-user-serving-cert".
Definition ServerCertSecretName : string := "cluster-proxy-service-proxy-server-cert".

(** [GenerateServiceURL]. *)
Definition GenerateServiceURL (cluster namespace service : string) : string :=
  str_take 63
    ("cluster-proxy-" ++ sha256_hex (cluster ++ " " ++ namespace ++ " " ++ service)).

(** [GenerateServiceProxyHost]: the slice [[:64-len("cluster-")]] applies to
    the formatted string, before the domain is appended. *)
Definition GenerateServiceProxyHost (clusterName : string) : string :=
  str_take (64 - String.length "cluster-") ("cluster-" ++ sha256_hex clusterName)
  ++ ".open-cluster-management.proxy".

(** [serviceProxyURL] (pkg/userserver/user_server.go). *)
Definition serviceProxyURL (clusterName : string) : string :=
  "https://" ++ GenerateServiceProxyHost clusterName ++ ":" ++ Itoa ServiceProxyPort.

(** ** What DNS accepts *)

Definition is_dns_byte (c : ascii) : bool :=
  is_lower c || is_digit c || Ascii.eqb c "-".

Fixpoint str_last (s : string) : option ascii :=
  match s with
  | EmptyString => None
  | String c EmptyString => Some c
  | String _ s' => str_last s'
  end.

(** An RFC 1035 label: [a-z]([-a-z0-9]*[a-z0-9])?, 63 bytes at most. *)
Definition is_dns1035_label (s : string) : bool :=
  (String.length s <=? 63)%nat && all_bytes is_dns_byte s &&
  match s with String c _ => is_lower c | EmptyString => false end &&
  match str_last s with Some c => negb (Ascii.eqb c "-") | None => false end.

(** A host name: dot-separated labels, 253 bytes at most. *)
Definition is_dns_subdomain (s : string) : bool :=
  (String.length s <=? 253)%nat && forallb is_dns1035_label (Split "." s).

(** ** Lemmas *)

Lemma str_take_app_ge n a b :
  (String.length a <= n)%nat → str_take n (a ++ b) = a ++ str_take (n - String.length a) b.
Proof.
  revert n. induction a as [|c a IH]; intros n H; cbn in *.
  - by rewrite Nat.sub_0_r.
  - destruct n as [|n]; [lia|]. cbn. by rewrite IH by lia.
Qed.

Lemma all_bytes_take p n s : all_bytes p s = true → all_bytes p (str_take n s) = true.
Proof.
  revert s. induction n as [|n IH]; intros [|c s]; cbn; try done.
  intros H. apply andb_true_iff in H as [-> H]. by apply IH.
Qed.

Lemma str_last_all p s c : all_bytes p s = true → str_last s = Some c → p c = true.
Proof.
  induction s as [|x s IH]; cbn; [done|]. intros H.
  apply andb_true_iff in H as [Hx Hs]. destruct s as [|y s]; [congruence|].
  by apply IH.
Qed.

Lemma str_last_app a b : b ≠ "" → str_last (a ++ b) = str_last b.
Proof.
  intros Hb. induction a as [|x a IH]; cbn; [done|].
  destruct (a ++ b) eqn:E; [|done]. by destruct a, b.
Qed.

Lemma str_last_nonempty s : s ≠ "" → is_Some (str_last s).
Proof.
  induction s as [|x s IH]; cbn; [done|]. intros _.
  destruct s; [by eexists|]. by apply IH.
Qed.

Lemma hex_is_dns c : is_hex_digit c = true → is_dns_byte c = true.
Proof. destruct c as [[] [] [] [] [] [] [] []]; vm_compute; congruence. Qed.

Lemma hex_not_dash c : is_hex_digit c = true → negb (Ascii.eqb c "-") = true.
Proof. destruct c as [[] [] [] [] [] [] [] []]; vm_compute; congruence. Qed.

(** A lower-case prefix that starts with a letter, followed by at least one
    hexadecimal digit of a digest, is a DNS label. *)
Lemma prefixed_digest_is_label pre s n :
  all_bytes is_dns_byte pre = true →
  (String.length pre + n <= 63)%nat → (0 < n <= 64)%nat →
  match pre with String c _ => is_lower c | EmptyString => false end = true →
  is_dns1035_label (pre ++ str_take n (sha256_hex s)) = true.
Proof.
  intros Hpre Hlen Hn Hfirst. pose proof (sha256_hex_is_hex s) as Hhex.
  apply (all_bytes_take _ n) in Hhex.
  assert (str_take n (sha256_hex s) ≠ "") as Hne.
  { intros E. apply (f_equal String.length) in E.
    rewrite str_take_length, sha256_hex_length in E. cbn in E. lia. }
  unfold is_dns1035_label. rewrite all_bytes_app, Hpre.
  rewrite (all_bytes_mono is_hex_digit is_dns_byte) by auto using hex_is_dns.
  rewrite str_last_app by done.
  destruct (str_last_nonempty _ Hne) as [c Hc]. rewrite Hc.
  rewrite (hex_not_dash c) by (by eapply str_last_all).
  rewrite str_length_app, str_take_length, sha256_hex_length.
  rewrite (proj2 (Nat.leb_le _ _)) by lia.
  destruct pre as [|p pre]; [done|]. cbn. by rewrite Hfirst.
Qed.

Lemma service_url_shape cluster namespace service :
  GenerateServiceURL cluster namespace service =
  "cluster-proxy-" ++
    str_take 49 (sha256_hex (cluster ++ " " ++ namespace ++ " " ++ service)).
Proof. unfold GenerateServiceURL. rewrite str_take_app_ge by (cbn; lia). done. Qed.

Lemma service_proxy_host_shape clusterName :
  GenerateServiceProxyHost clusterName =
  ("cluster-" ++ str_take 48 (sha256_hex clusterName)) ++ ".open-cluster-management.proxy".
Proof.
  unfold GenerateServiceProxyHost. rewrite str_take_app_ge by (cbn; lia). done.
Qed.

Lemma no_dot_in_label s : is_dns1035_label s = true → has_byte "." s = false.
Proof.
  intros H. unfold is_dns1035_label in H. bool_to_prop.
  eapply (all_bytes_no_byte is_dns_byte); done.
Qed.

Lemma service_proxy_host_label clusterName :
  is_dns1035_label ("cluster-" ++ str_take 48 (sha256_hex clusterName)) = true.
Proof. apply prefixed_digest_is_label; cbn; try done; lia. Qed.

(** ** Properties *)

(** Every cluster, namespace and service gives a name of
    exactly 63 bytes that is a DNS label, so a Service of that name can
    always be created. *)
Theorem GenerateServiceURL_is_label cluster namespace service :
  String.length (GenerateServiceURL cluster namespace service) = 63 ∧
  is_dns1035_label (GenerateServiceURL cluster namespace service) = true.
Proof.
  rewrite service_url_shape. split.
  - rewrite str_length_app, str_take_length, sha256_hex_length. done.
  - apply prefixed_digest_is_label; cbn; try done; lia.
Qed.

(** For every cluster name the service-proxy host is a valid DNS
    name whose first label is 56 bytes long, and the whole host is 86 bytes
    long, whatever the cluster is called: the 64-byte bound that the code
    comment announces holds for the label, not for the host name. *)
Theorem GenerateServiceProxyHost_shape clusterName :
  is_dns_subdomain (GenerateServiceProxyHost clusterName) = true ∧
  String.length (GenerateServiceProxyHost clusterName) = 86 ∧
  ∃ label rest, Split "." (GenerateServiceProxyHost clusterName) = label :: rest ∧
    String.length label = 56.
Proof.
  rewrite service_proxy_host_shape.
  change ".open-cluster-management.proxy" with (String "." "open-cluster-management.proxy").
  pose proof (service_proxy_host_label clusterName) as Hl.
  assert (Hlen : String.length ("cluster-" ++ str_take 48 (sha256_hex clusterName)) = 56).
  { rewrite str_length_app, str_take_length, sha256_hex_length. done. }
  pose proof (no_dot_in_label _ Hl) as Hdot. unfold is_dns_subdomain.
  rewrite Split_app, (Split_no_sep "." _ Hdot), str_length_app, Hlen. split; [|split].
  - cbn [forallb app]. by rewrite Hl.
  - done.
  - by eexists _, _.
Qed.

(** The value the project's own unit test expects. *)
Example GenerateServiceURL_unit_test :
  GenerateServiceURL "cluster1" "default" "service1"
  = "cluster-proxy-1f28e10e03e76d3df8306b102a1da1adc79e744dd27fe48eb".
Proof. vm_compute. reflexivity. Qed.
