(* ===== verification/Http.v ===== *)
(** * HTTP requests, headers and the reverse proxy (net/http, net/http/httputil)

    The part of Go's HTTP stack that both proxies rely on.  A header is a
    map from keys to lists of values, exactly as [http.Header]; the reverse
    proxy is [httputil.NewSingleHostReverseProxy] up to the request it
    hands to its transport, including the removal of hop-by-hop headers,
    which happens after the caller has edited the request. *)

From S2P Require Import Prelude GoStrings.

Local Open Scope string_scope.

(** ** Header keys *)

(** [validHeaderFieldByte]: the token characters of RFC 7230. *)
Definition is_token_byte (c : ascii) : bool :=
  is_letter c || is_digit c ||
  existsb (Ascii.eqb c)
    ["!"; "#"; "$"; "%"; "&"; "'"; "*"; "+"; "-"; "."; "^"; "_"; "`"; "|"; "~"]%char.

Fixpoint canon_from (upper : bool) (s : string) : string :=
  match s with
  | EmptyString => ""
  | String c s' =>
      String (if upper then upper_byte c else lower_byte c)
             (canon_from (Ascii.eqb c "-") s')
  end.

(** [textproto.CanonicalMIMEHeaderKey]. *)
Definition CanonicalHeaderKey (s : string) : string :=
  if all_bytes is_token_byte s then canon_from true s else s.

(** ** Headers *)

Abbreviation header := (gmap string (list string)).

Definition hget (h : header) (k : string) : string :=
  match h !! CanonicalHeaderKey k with
  | Some (v :: _) => v
  | _ => ""
  end.

Definition hset (h : header) (k v : string) : header :=
  <[CanonicalHeaderKey k := [v]]> h.

Definition hadd (h : header) (k v : string) : header :=
  <[CanonicalHeaderKey k := (default [] (h !! CanonicalHeaderKey k) ++ [v])%list]> h.

Definition hdel (h : header) (k : string) : header :=
  delete (CanonicalHeaderKey k) h.

(** All values of a key, [h[k]] for a canonical [k]. *)
Definition hvalues (h : header) (k : string) : list string := default [] (h !! k).

(** ** Requests

    The fields of [http.Request] the proxies read or write.  [RequestURI]
    is the request target as the client sent it, [URLPath] the decoded
    path. *)
Record Request := MkRequest {
  RequestURI : string;
  Method : string;
  URLPath : string;
  RawQuery : string;
  RemoteIP : option string;   (* [net.SplitHostPort(req.RemoteAddr)] *)
  Header : header
}.

Definition set_header (r : Request) (h : header) : Request :=
  MkRequest (RequestURI r) (Method r) (URLPath r) (RawQuery r) (RemoteIP r) h.

Definition set_path (r : Request) (p : string) : Request :=
  MkRequest (RequestURI r) (Method r) p (RawQuery r) (RemoteIP r) (Header r).

(** ** Tokens in header values *)

Definition is_ows (c : ascii) : bool :=
  Ascii.eqb c " " || Ascii.eqb c "009" || Ascii.eqb c "010" || Ascii.eqb c "013".

Fixpoint trim_left (s : string) : string :=
  match s with
  | String c s' => if is_ows c then trim_left s' else s
  | EmptyString => ""
  end.

Fixpoint trim_right (s : string) : string :=
  match s with
  | EmptyString => ""
  | String c s' =>
      match trim_right s' with
      | EmptyString => if is_ows c then "" else String c ""
      | t => String c t
      end
  end.

(** [textproto.TrimString] (and the trimming of httpguts). *)
Definition TrimString (s : string) : string := trim_right (trim_left s).

Fixpoint lower_ascii (s : string) : string :=
  match s with
  | EmptyString => ""
  | String c s' => String (lower_byte c) (lower_ascii s')
  end.

(** [httpguts.HeaderValuesContainsToken] for an ASCII token. *)
Definition values_contain_token (vs : list string) (token : string) : bool :=
  existsb (λ v, existsb (λ t, String.eqb (lower_ascii (TrimString t)) (lower_ascii token))
                        (Split "," v)) vs.

(** ** The reverse proxy *)

Definition hopHeaders : list string :=
  ["Connection"; "Proxy-Connection"; "Keep-Alive"; "Proxy-Authenticate";
   "Proxy-Authorization"; "Te"; "Trailer"; "Transfer-Encoding"; "Upgrade"].

(** The header names a request designates as hop-by-hop. *)
Definition connection_names (h : header) : list string :=
  filter (λ t, t ≠ "")
    (map TrimString (concat (map (Split ",") (hvalues h "Connection")))).

(** [removeHopByHopHeaders]. *)
Definition removeHopByHopHeaders (h : header) : header :=
  fold_left hdel (connection_names h ++ hopHeaders)%list h.

(** [upgradeType]. *)
Definition upgradeType (h : header) : string :=
  if values_contain_token (hvalues h "Connection") "Upgrade" then hget h "Upgrade" else "".

Definition is_print (c : ascii) : bool :=
  (32 <=? N_of_ascii c)%N && (N_of_ascii c <=? 126)%N.

Definition forwarded_for (h : header) (ip : option string) : header :=
  match ip with
  | None => h
  | Some ip =>
      match h !! "X-Forwarded-For" with
      | Some prior =>
          hset h "X-Forwarded-For"
            (match prior with [] => ip | _ => Join prior ", " ++ ", " ++ ip end)
      | None => hset h "X-Forwarded-For" ip
      end
  end.

(** The headers of the request that [ReverseProxy.ServeHTTP] sends with a
    [Director], or the error it answers with when the client asks to switch
    to an unprintable protocol. *)
Definition reverse_proxy_headers (req : Request) : result header :=
  let h := Header req in
  let upType := upgradeType h in
  if negb (all_bytes is_print upType)
  then Err (ENew ("client tried to switch to invalid protocol " ++ Quote upType))
  else
    let h1 := removeHopByHopHeaders h in
    let h2 := if values_contain_token (hvalues h "Te") "trailers"
              then hset h1 "Te" "trailers" else h1 in
    let h3 := if String.eqb upType "" then h2
              else hset (hset h2 "Connection" "Upgrade") "Upgrade" upType in
    let h4 := forwarded_for h3 (RemoteIP req) in
    Ok (match h4 !! "User-Agent" with
        | Some _ => h4
        | None => hset h4 "User-Agent" ""
        end).

(** [singleJoiningSlash], the path of the outgoing request. *)
Definition singleJoiningSlash (a b : string) : string :=
  let aslash := HasSuffix a "/" in
  let bslash := HasPrefix b "/" in
  if aslash && bslash then a ++ str_drop 1 b
  else if negb aslash && negb bslash then a ++ "/" ++ b
  else a ++ b.

(** [IsUpgradeRequest] (k8s.io/streaming/pkg/httpstream). *)
Definition IsUpgradeRequest (req : Request) : bool :=
  existsb (λ h, Contains (ToLower h) (ToLower "Upgrade")) (hvalues (Header req) "Connection").

(** ** Laws of headers *)

Section header_laws.
Implicit Types h : header.

Lemma hget_hset_eq h k k' v :
  CanonicalHeaderKey k = CanonicalHeaderKey k' → hget (hset h k v) k' = v.
Proof. intros E. unfold hget, hset. by rewrite E, lookup_insert_eq. Qed.

Lemma hget_hset_ne h k k' v :
  CanonicalHeaderKey k ≠ CanonicalHeaderKey k' → hget (hset h k v) k' = hget h k'.
Proof. intros E. unfold hget, hset. by rewrite lookup_insert_ne. Qed.

Lemma lookup_hset_ne h k k' v :
  CanonicalHeaderKey k ≠ k' → hset h k v !! k' = h !! k'.
Proof. intros E. unfold hset. by rewrite lookup_insert_ne. Qed.

Lemma lookup_hset_eq h k k' v :
  CanonicalHeaderKey k = k' → hset h k v !! k' = Some [v].
Proof. intros E. unfold hset. by rewrite E, lookup_insert_eq. Qed.

Lemma hget_of_lookup h k v vs :
  h !! CanonicalHeaderKey k = Some (v :: vs) → hget h k = v.
Proof. intros E. unfold hget. by rewrite E. Qed.

(** Deleting a list of keys keeps exactly the others. *)
Lemma lookup_fold_hdel ks h k :
  fold_left hdel ks h !! k =
  if decide (k ∈ map CanonicalHeaderKey ks) then None else h !! k.
Proof.
  revert h. induction ks as [|x ks IH]; intros h; cbn.
  - case_decide as H; [by apply not_elem_of_nil in H|done].
  - rewrite IH. unfold hdel. destruct (decide (k = CanonicalHeaderKey x)) as [->|Hne].
    + rewrite lookup_delete_eq, (decide_True _ _ (list_elem_of_here _ _)). by case_decide.
    + rewrite lookup_delete_ne by done. apply decide_ext. rewrite elem_of_cons. tauto.
Qed.

(** What [removeHopByHopHeaders] leaves: the headers that are neither in
    the fixed list nor designated by the [Connection] header. *)
Lemma lookup_removeHopByHopHeaders h k :
  removeHopByHopHeaders h !! k =
  if decide (k ∈ map CanonicalHeaderKey (connection_names h ++ hopHeaders)%list)
  then None else h !! k.
Proof. apply lookup_fold_hdel. Qed.
End header_laws.

Lemma forwarded_for_ne h ip k :
  k ≠ "X-Forwarded-For" → forwarded_for h ip !! k = h !! k.
Proof.
  intros Hk. unfold forwarded_for. destruct ip; [|done].
  destruct (h !! "X-Forwarded-For"); by rewrite lookup_hset_ne.
Qed.

(** Is [k] a header that the reverse proxy may rewrite on its own? *)
Definition proxy_managed (k : string) : bool :=
  bool_decide (k ∈ ["Connection"; "Upgrade"; "Te"; "X-Forwarded-For"; "User-Agent"]).

(** Outside the headers it manages, the reverse proxy forwards exactly the
    headers that are not hop-by-hop. *)
Lemma reverse_proxy_headers_lookup req h k :
  reverse_proxy_headers req = Ok h → proxy_managed k = false →
  h !! k = removeHopByHopHeaders (Header req) !! k.
Proof.
  unfold reverse_proxy_headers, proxy_managed. intros H Hk.
  apply bool_decide_eq_false in Hk.
  assert (Hm : k ≠ "Connection" ∧ k ≠ "Upgrade" ∧ k ≠ "Te" ∧
               k ≠ "X-Forwarded-For" ∧ k ≠ "User-Agent") by set_solver.
  destruct Hm as (? & ? & ? & ? & ?).
  destruct (negb _); inv_ok. case_match; [|rewrite lookup_hset_ne by done];
    rewrite forwarded_for_ne by done;
    repeat case_match; by rewrite ?lookup_hset_ne.
Qed.

(** After the reverse proxy, the only header a request can designate as
    hop-by-hop is [Upgrade]: nothing a client wrote in [Connection]
    survives. *)
Lemma reverse_proxy_connection req h :
  reverse_proxy_headers req = Ok h →
  h !! "Connection" = None ∨ h !! "Connection" = Some ["Upgrade"].
Proof.
  unfold reverse_proxy_headers. intros H. destruct (negb _); inv_ok.
  set (h1 := removeHopByHopHeaders (Header req)).
  assert (Hc : h1 !! "Connection" = None).
  { unfold h1. rewrite lookup_removeHopByHopHeaders, decide_True; [done|].
    rewrite map_app. apply elem_of_app. right. apply list_elem_of_In. by left. }
  case_match; [|rewrite lookup_hset_ne by done];
    rewrite forwarded_for_ne by done; repeat case_match;
    rewrite ?lookup_hset_ne by done; auto;
    right; by apply lookup_hset_eq.
Qed.

Lemma connection_names_upgrade h :
  h !! "Connection" = None ∨ h !! "Connection" = Some ["Upgrade"] →
  connection_names h = [] ∨ connection_names h = ["Upgrade"].
Proof. intros [E|E]; unfold connection_names, hvalues; rewrite E; [by left|by right]. Qed.
