(* ===== verification/GoUrl.v ===== *)
(** * [net/url]: the parser as an interface, and an implementation of it

    Both proxies build a URL string and hand it to [url.Parse].  What they
    rely on is stated as the class [UrlParse]: an absolute URL made of a
    scheme, a plain host and an optional numeric port is accepted, its
    scheme and host are returned as written, and its path is empty.  The
    clients are proved against the class; [go_url_parse] implements it
    after the algorithm of net/url (fragment, control characters, scheme,
    query, authority, port, path), rejecting what it does not model
    (bracketed IP literals and percent escapes in the authority). *)

From S2P Require Import Prelude GoStrings.

Local Open Scope string_scope.

(** The components of [url.URL] that the proxies use. *)
Record URL := MkURL { Scheme : string; Host : string; Path : string; Query : string }.

(** Bytes of a plain host: the letters of a DNS name. *)
Definition is_host_byte (c : ascii) : bool :=
  is_letter c || is_digit c || Ascii.eqb c "-" || Ascii.eqb c ".".

Definition plain_host (s : string) : bool := all_bytes is_host_byte s.
Definition plain_port (s : string) : bool := all_bytes is_digit s.
Definition plain_scheme (s : string) : bool :=
  String.eqb s "http" || String.eqb s "https".

(** What the standard library promises to its callers. *)
Class UrlParse := {
  url_parse : string → result URL;
  url_parse_host : ∀ scheme host,
    plain_scheme scheme = true → plain_host host = true →
    url_parse (scheme ++ "://" ++ host) = Ok (MkURL scheme host "" "");
  url_parse_host_port : ∀ scheme host port,
    plain_scheme scheme = true → plain_host host = true → plain_port port = true →
    url_parse (scheme ++ "://" ++ host ++ ":" ++ port)
    = Ok (MkURL scheme (host ++ ":" ++ port) "" "")
}.

(** ** An implementation *)

Definition is_ctl (c : ascii) : bool :=
  (N_of_ascii c <? 32)%N || (N_of_ascii c =? 127)%N.

(** [getScheme]: the scheme, if any, and what follows its colon. *)
Fixpoint get_scheme (first : bool) (s : string) : option (string * string) :=
  match s with
  | EmptyString => None
  | String c s' =>
      if is_letter c || (negb first && (is_digit c || existsb (Ascii.eqb c) ["+"; "-"; "."]%char))
      then '(sch, rest) ← get_scheme false s'; Some (String c sch, rest)
      else if Ascii.eqb c ":" then if first then None else Some ("", s')
      else None
  end.

(** [validOptionalPort] of what follows the only colon of a host. *)
Definition check_host (h : string) : result string :=
  match Split ":" h with
  | [n] => if all_bytes is_host_byte n then Ok h else Err (ENew "invalid host")
  | [n; p] =>
      if all_bytes is_host_byte n && all_bytes is_digit p then Ok h
      else Err (ENew "invalid port after host")
  | _ => Err (ENew "invalid host")
  end.

Definition go_url_parse (raw : string) : result URL :=
  let '(u, _, _) := Cut "#" raw in
  if negb (all_bytes (λ c, negb (is_ctl c)) u)
  then Err (ENew "net/url: invalid control character in URL")
  else match get_scheme true u with
  | None => Err (ENew "missing protocol scheme")
  | Some (sch, rest) =>
      let '(rest, q, _) := Cut "?" rest in
      if negb (HasPrefix rest "//") then Err (ENew "net/url: no authority")
      else
        let '(authority, path, slash) := Cut "/" (str_drop 2 rest) in
        host ← check_host authority;
        Ok (MkURL (ToLower sch) host (if slash then "/" ++ path else "") q)
  end.

(** ** The implementation keeps the promises *)

Lemma Cut_none sep s : has_byte sep s = false → Cut sep s = (s, "", false).
Proof.
  induction s as [|c s IH]; cbn; [done|]. intros H.
  apply orb_false_iff in H as [-> H]. by rewrite IH.
Qed.

(** A byte string of the shape both callers build. *)
Lemma plain_scheme_cases s : plain_scheme s = true → s = "http" ∨ s = "https".
Proof. unfold plain_scheme. intros H. apply orb_true_iff in H as [H|H]; bool_to_prop; auto. Qed.

Definition is_url_byte (c : ascii) : bool := is_host_byte c || Ascii.eqb c ":".

Lemma url_byte_facts c :
  is_url_byte c = true →
  is_ctl c = false ∧ Ascii.eqb c "#" = false ∧ Ascii.eqb c "?" = false ∧ Ascii.eqb c "/" = false.
Proof. destruct c as [[] [] [] [] [] [] [] []]; vm_compute; intuition congruence. Qed.

Lemma digit_url_byte c : is_digit c = true → is_url_byte c = true.
Proof. destruct c as [[] [] [] [] [] [] [] []]; vm_compute; congruence. Qed.

Lemma host_url_byte c : is_host_byte c = true → is_url_byte c = true.
Proof. unfold is_url_byte. by intros ->. Qed.

Lemma host_no_colon h : plain_host h = true → has_byte ":" h = false.
Proof. by apply all_bytes_no_byte. Qed.

Lemma port_no_colon p : plain_port p = true → has_byte ":" p = false.
Proof. by apply all_bytes_no_byte. Qed.

Lemma go_url_parse_authority sch auth :
  plain_scheme sch = true → all_bytes is_url_byte auth = true →
  go_url_parse (sch ++ "://" ++ auth)
  = (host ← check_host auth; Ok (MkURL sch host "" "")).
Proof.
  intros Hs Ha.
  assert (Hno : ∀ c, is_url_byte c = false → has_byte c auth = false).
  { intros c Hc. by eapply all_bytes_no_byte. }
  assert (Hctl : all_bytes (λ c, negb (is_ctl c)) auth = true).
  { eapply all_bytes_mono; [|exact Ha]. intros c Hc. by apply url_byte_facts in Hc as [-> _]. }
  assert (Hcut : ∀ c s, has_byte c auth = false → has_byte c s = false →
                 Cut c (s ++ auth) = (s ++ auth, "", false)).
  { intros c s H1 H2. apply Cut_none. by rewrite has_byte_app, H1, H2. }
  assert (Hsch : get_scheme true (sch ++ "://" ++ auth) = Some (sch, "//" ++ auth)
                 ∧ all_bytes (λ c, negb (is_ctl c)) sch = true
                 ∧ has_byte "#" sch = false ∧ ToLower sch = sch).
  { by destruct (plain_scheme_cases _ Hs) as [-> | ->]. }
  destruct Hsch as (Hget & Hsctl & Hhash & Hlow). unfold go_url_parse.
  rewrite str_app_assoc, (Hcut "#"%char), <- str_app_assoc by
    (rewrite ?has_byte_app, ?Hhash, ?Hno by done; done).
  rewrite !all_bytes_app, Hctl, Hsctl, Hget.
  rewrite (Hcut "?"%char), HasPrefix_app by (rewrite ?Hno; done).
  change (str_drop 2 ("//" ++ auth)) with auth. cbn -[Cut check_host].
  by rewrite (Cut_none "/"%char), Hlow by (by apply Hno).
Qed.

Lemma go_url_parse_host scheme host :
  plain_scheme scheme = true → plain_host host = true →
  go_url_parse (scheme ++ "://" ++ host) = Ok (MkURL scheme host "" "").
Proof.
  intros Hs Hh. rewrite go_url_parse_authority; [|done|].
  - unfold check_host. rewrite Split_no_sep by (by apply host_no_colon).
    unfold plain_host in Hh. by rewrite Hh.
  - eapply all_bytes_mono; [|exact Hh]. apply host_url_byte.
Qed.

Lemma go_url_parse_host_port scheme host port :
  plain_scheme scheme = true → plain_host host = true → plain_port port = true →
  go_url_parse (scheme ++ "://" ++ host ++ ":" ++ port)
  = Ok (MkURL scheme (host ++ ":" ++ port) "" "").
Proof.
  intros Hs Hh Hp. rewrite go_url_parse_authority; [|done|].
  - unfold check_host. change (":" ++ port) with (String ":" port).
    rewrite Split_app, !Split_no_sep by auto using host_no_colon, port_no_colon.
    cbn. unfold plain_host, plain_port in *. by rewrite Hh, Hp.
  - rewrite all_bytes_app. cbn.
    rewrite (all_bytes_mono is_host_byte is_url_byte), (all_bytes_mono is_digit is_url_byte);
      auto using host_url_byte, digit_url_byte.
Qed.

#[export] Instance go_url : UrlParse := {|
  url_parse := go_url_parse;
  url_parse_host := go_url_parse_host;
  url_parse_host_port := go_url_parse_host_port
|}.
