(* ===== verification/GoPath.v ===== *)
(** * Paths on the wire ([net/url], [net/http/httputil])

    A [url.URL] keeps the decoded path, and beside it the path as it was
    written where the default encoding of the decoded one differs.  The
    reverse proxy joins both, and the client writes [EscapedPath]. *)

From S2P Require Import Prelude GoStrings Http.

Local Open Scope string_scope.

(** [shouldEscape(c, encodePath)]. *)
Definition shouldEscape (c : ascii) : bool :=
  negb (is_letter c || is_digit c ||
        existsb (Ascii.eqb c) ["-"; "_"; "."; "~"; "$"; "&"; "+"; ","; "/"; ":"; ";"; "="; "@"]%char).

Definition upperhex (n : N) : ascii :=
  if (n <? 10)%N then ascii_of_N (48 + n) else ascii_of_N (55 + n).

Fixpoint escape (s : string) : string :=
  match s with
  | EmptyString => ""
  | String c s' =>
      if shouldEscape c
      then String "%" (String (upperhex (N_of_ascii c / 16))
             (String (upperhex (N_of_ascii c mod 16)) (escape s')))
      else String c (escape s')
  end.

Definition unhex (c : ascii) : option N :=
  let n := N_of_ascii c in
  if (48 <=? n)%N && (n <=? 57)%N then Some (n - 48)%N
  else if (97 <=? n)%N && (n <=? 102)%N then Some (n - 87)%N
  else if (65 <=? n)%N && (n <=? 70)%N then Some (n - 55)%N
  else None.

(** [unescape(s, encodePath)]; [None] is an [EscapeError]. *)
Fixpoint unescape (s : string) : option string :=
  match s with
  | EmptyString => Some ""
  | String "%" (String a (String b s')) =>
      match unhex a, unhex b, unescape s' with
      | Some x, Some y, Some r => Some (String (ascii_of_N (16 * x + y)) r)
      | _, _, _ => None
      end
  | String "%" _ => None
  | String c s' => match unescape s' with Some r => Some (String c r) | None => None end
  end.

(** [validEncoded(s, encodePath)]. *)
Definition validEncoded (s : string) : bool :=
  all_bytes (λ c, existsb (Ascii.eqb c)
                    ["!"; "$"; "&"; "'"; "("; ")"; "*"; "+"; ","; ";"; "="; ":"; "@"; "["; "]"; "%"]%char
                  || negb (shouldEscape c)) s.

(** [URL.EscapedPath]. *)
Definition EscapedPath (path rawPath : string) : string :=
  if negb (String.eqb rawPath "") && validEncoded rawPath && bool_decide (unescape rawPath = Some path)
  then rawPath
  else if String.eqb path "*" then "*" else escape path.

(** [joinURLPath] of a target without a path: the path and the raw path. *)
Definition joinURLPath (path rawPath : string) : string * string :=
  if String.eqb rawPath "" then (singleJoiningSlash "" path, "")
  else
    let bpath := EscapedPath path rawPath in
    if HasPrefix bpath "/" then (path, bpath) else ("/" ++ path, "/" ++ bpath).

(** What the reverse proxy sends for a request's path. *)
Definition wire_path (req : Request) (rawPath : string) : string :=
  let '(path, raw) := joinURLPath (URLPath req) rawPath in EscapedPath path raw.

(** ** Lemmas *)

Lemma escape_byte c :
  unhex (upperhex (N_of_ascii c / 16)) = Some (N_of_ascii c / 16)%N ∧
  unhex (upperhex (N_of_ascii c mod 16)) = Some (N_of_ascii c mod 16)%N ∧
  ascii_of_N (16 * (N_of_ascii c / 16) + N_of_ascii c mod 16) = c ∧
  shouldEscape (upperhex (N_of_ascii c / 16)) = false ∧
  shouldEscape (upperhex (N_of_ascii c mod 16)) = false.
Proof. destruct c as [[] [] [] [] [] [] [] []]; vm_compute; repeat split. Qed.

Lemma unescape_plain c s :
  shouldEscape c = false →
  unescape (String c s) = match unescape s with Some r => Some (String c r) | None => None end.
Proof. destruct c as [[] [] [] [] [] [] [] []]; vm_compute (shouldEscape _); intros [=]; reflexivity. Qed.

(** Escaping is undone by unescaping, and is a valid encoding. *)
Lemma unescape_escape s : unescape (escape s) = Some s.
Proof.
  induction s as [|c s IH]; [done|]. cbn [escape]. destruct (shouldEscape c) eqn:E.
  - destruct (escape_byte c) as (H1 & H2 & H3 & _). cbn [unescape]. by rewrite H1, H2, IH, H3.
  - by rewrite unescape_plain, IH.
Qed.

Lemma validEncoded_escape s : validEncoded (escape s) = true.
Proof.
  unfold validEncoded. induction s as [|c s IH]; [done|]. cbn [escape]. destruct (shouldEscape c) eqn:E.
  - destruct (escape_byte c) as (_ & _ & _ & H1 & H2). cbn [all_bytes].
    by rewrite H1, H2, IH, !orb_true_r.
  - cbn [all_bytes]. by rewrite E, IH, orb_true_r.
Qed.

Lemma escape_length s : (String.length s <= String.length (escape s))%nat.
Proof. induction s as [|c s IH]; cbn; [lia|]. destruct (shouldEscape c); cbn; lia. Qed.

Lemma escape_id_iff s : escape s = s ↔ all_bytes (λ c, negb (shouldEscape c)) s = true.
Proof.
  induction s as [|c s IH]; [done|]. cbn [escape all_bytes]. destruct (shouldEscape c) eqn:E; cbn [negb andb].
  - split; [|done]. intros H. apply (f_equal String.length) in H. cbn in H.
    pose proof (escape_length s). lia.
  - rewrite <- IH. split; [by intros [=]|by intros ->].
Qed.

(** A path whose raw form belongs to something else is escaped anew. *)
Lemma wire_path_escaped req rawPath :
  (rawPath ≠ "" → unescape rawPath ≠ Some (URLPath req)) → URLPath req ≠ "*" →
  wire_path req rawPath = escape (singleJoiningSlash "" (URLPath req)).
Proof.
  intros Hraw Hstar. unfold wire_path, joinURLPath.
  assert (∀ p, p ≠ "*" → EscapedPath p "" = escape p) as Hempty.
  { intros p Hp. unfold EscapedPath. cbn. by rewrite (proj2 (String.eqb_neq p "*") Hp). }
  assert (HasPrefix (escape (URLPath req)) "/" = HasPrefix (URLPath req) "/") as Hpre.
  { destruct (URLPath req) as [|c s]; [done|]. cbn [escape].
    destruct (shouldEscape c) eqn:E; cbn [HasPrefix]; [|done].
    destruct (Ascii.eqb "/" c) eqn:Ec; [|done]. apply Ascii.eqb_eq in Ec. by subst c. }
  destruct (String.eqb rawPath "") eqn:Er.
  - apply Hempty. unfold singleJoiningSlash. change (HasSuffix "" "/") with false. cbn [andb negb].
    destruct (HasPrefix (URLPath req) "/"); [exact Hstar|done].
  - apply String.eqb_neq in Er.
    assert (EscapedPath (URLPath req) rawPath = escape (URLPath req)) as ->.
    { unfold EscapedPath. rewrite (bool_decide_false _ (Hraw Er)), andb_false_r.
      by rewrite (proj2 (String.eqb_neq _ "*") Hstar). }
    rewrite Hpre.
    unfold singleJoiningSlash. change (HasSuffix "" "/") with false. cbn [andb negb].
    assert (∀ p, p ≠ "" → EscapedPath p (escape p) = escape p) as Hesc.
    { intros p Hp. unfold EscapedPath. rewrite validEncoded_escape, unescape_escape, bool_decide_true by done.
      rewrite (proj2 (String.eqb_neq (escape p) "")); [done|]. intros H.
      apply (f_equal String.length) in H. pose proof (escape_length p). destruct p; [done|]. cbn in *. lia. }
    destruct (HasPrefix (URLPath req) "/") eqn:Ep; cbn [negb].
    + apply (Hesc (URLPath req)). by intros E; rewrite E in Ep.
    + change ("/" ++ escape ?p) with (escape ("/" ++ p)). by apply (Hesc ("/" ++ URLPath req)).
Qed.
