(* ===== verification/GoFlag.v ===== *)
(** * Command-line flags (Go's [flag] package)

    The commands register their flags on the default flag set and parse the
    arguments once.  A flag set is what is registered: a name and a value
    that knows how to be set; parsing is the loop of [FlagSet.Parse].  The
    value of "--feature-gates" is a [MapStringBool] of
    k8s.io/component-base. *)

From S2P Require Import Prelude GoStrings.

Local Open Scope string_scope.

(** A flag's value.  [VarFlag] stands for the values of other libraries
    (klog's levels, say): [accepts] is whether their [Set] succeeds. *)
Inductive flag_value :=
| StringFlag (s : string)
| BoolFlag (b : bool)
| MapFlag (m : gmap string bool)
| VarFlag (accepts : string → bool) (text : string).

Abbreviation flag_set := (gmap string flag_value).

(** [strconv.ParseBool]. *)
Definition ParseBool (s : string) : option bool :=
  if existsb (String.eqb s) ["1"; "t"; "T"; "TRUE"; "true"; "True"] then Some true
  else if existsb (String.eqb s) ["0"; "f"; "F"; "FALSE"; "false"; "False"] then Some false
  else None.

(** [strings.TrimSpace]: the encodings of the runes that unicode.IsSpace
    accepts, taken off both ends as long as there is one. *)
Definition bytes (l : list nat) : string := String.string_of_list_ascii (map ascii_of_nat l).

Definition space_runes : list string :=
  (map bytes
    [[9]; [10]; [11]; [12]; [13]; [32]; [194; 133]; [194; 160]; [225; 154; 128];
     [226; 128; 168]; [226; 128; 169]; [226; 128; 175]; [226; 129; 159]; [227; 128; 128]] ++
  map (λ n, bytes [226; 128; 128 + n]%nat) (seq 0 11))%list.

Fixpoint trim_left_space (fuel : nat) (s : string) : string :=
  match fuel, find (HasPrefix s) space_runes with
  | S fuel, Some r => trim_left_space fuel (str_drop (String.length r) s)
  | _, _ => s
  end.

Fixpoint trim_right_space (fuel : nat) (s : string) : string :=
  match fuel, find (HasSuffix s) space_runes with
  | S fuel, Some r => trim_right_space fuel (str_take (String.length s - String.length r) s)
  | _, _ => s
  end.

Definition TrimSpace (s : string) : string :=
  trim_right_space (String.length s) (trim_left_space (String.length s) s).

(** [MapStringBool.Set] (component-base): comma-separated pairs, added to
    what earlier occurrences of the flag set; a nil map is an empty one. *)
Fixpoint set_pairs (m : gmap string bool) (pairs : list string) : result (gmap string bool) :=
  match pairs with
  | [] => Ok m
  | "" :: rest => set_pairs m rest
  | s :: rest =>
      let '(key, value, found) := Cut "=" s in
      if negb found then Err (ENew "malformed pair, expect string=bool")
      else
        let k := TrimSpace key in
        let v := TrimSpace value in
        match ParseBool v with
        | None => Err (ENew ("invalid value of " ++ k ++ ": " ++ v))
        | Some b => set_pairs (<[k := b]> m) rest
        end
  end.

Definition MapStringBool_Set (m : gmap string bool) (value : string) : result (gmap string bool) :=
  set_pairs m (Split "," value).

(** The first "=" after the first byte of a name ends it: the value is what
    follows. *)
Definition split_flag (name : string) : string * option string :=
  match name with
  | "" => ("", None)
  | String c rest =>
      let '(n, v, found) := Cut "=" rest in
      (String c n, if (found : bool) then Some v else None)
  end.

(** [Value.Set]. *)
Definition set_value (old : flag_value) (value : string) : result flag_value :=
  match old with
  | StringFlag _ => Ok (StringFlag value)
  | BoolFlag _ =>
      match ParseBool value with
      | Some b => Ok (BoolFlag b)
      | None => Err (ENew "parse error")
      end
  | MapFlag m => m ← MapStringBool_Set m value; Ok (MapFlag m)
  | VarFlag accepts _ =>
      if accepts value then Ok (VarFlag accepts value) else Err (ENew "invalid value")
  end.

(** The error of [Set] is reported with the flag's name. *)
Definition set_flag (fs : flag_set) (name : string) (old : flag_value) (value : string)
  : result flag_set :=
  match set_value old value with
  | Ok v => Ok (<[name := v]> fs)
  | Err e =>
      Err (ENew ((match old with
                  | BoolFlag _ => "invalid boolean value " ++ Quote value ++ " for -"
                  | _ => "invalid value " ++ Quote value ++ " for flag -"
                  end) ++ name ++ ": " ++ error_string e))
  end.

(** One argument that starts with a dash; [rest] are the arguments after it.
    The result is the flags and the arguments left. *)
Definition parse_flag (fs : flag_set) (s name : string) (rest : list string)
  : result (flag_set * list string) :=
  match name with
  | "" => Err (ENew ("bad flag syntax: " ++ s))
  | String c _ =>
      if Ascii.eqb c "-" || Ascii.eqb c "=" then Err (ENew ("bad flag syntax: " ++ s))
      else
        let '(name, value) := split_flag name in
        match fs !! name with
        | None => Err (ENew ("flag provided but not defined: -" ++ name))
        | Some (BoolFlag b) =>
            fs ← set_flag fs name (BoolFlag b) (default "true" value); Ok (fs, rest)
        | Some old =>
            match value, rest with
            | Some v, _ => fs ← set_flag fs name old v; Ok (fs, rest)
            | None, v :: rest => fs ← set_flag fs name old v; Ok (fs, rest)
            | None, [] => Err (ENew ("flag needs an argument: -" ++ name))
            end
        end
  end.

(** [FlagSet.Parse]: stop at the first argument that is not a flag, or
    after "--".  Every round uses up an argument. *)
Fixpoint parse_args (fuel : nat) (fs : flag_set) (args : list string) : result flag_set :=
  match fuel, args with
  | O, _ | _, [] => Ok fs
  | S fuel, s :: rest =>
      match s with
      | String "-" (String "-" "") => Ok fs
      | String "-" (String "-" name) =>
          r ← parse_flag fs s name rest; parse_args fuel r.1 r.2
      | String "-" (String c name) =>
          r ← parse_flag fs s (String c name) rest; parse_args fuel r.1 r.2
      | _ => Ok fs
      end
  end.

Definition Parse (fs : flag_set) (args : list string) : result flag_set :=
  parse_args (length args) fs args.

(** The value of a string flag, of a Boolean one and of a map. *)
Definition string_value (fs : flag_set) (name : string) : string :=
  match fs !! name with Some (StringFlag v) => v | _ => "" end.
Definition bool_value (fs : flag_set) (name : string) : bool :=
  match fs !! name with Some (BoolFlag b) => b | _ => false end.
Definition map_value (fs : flag_set) (name : string) : gmap string bool :=
  match fs !! name with Some (MapFlag m) => m | _ => ∅ end.

(** ** Lemmas *)

(** The form in which programs are started by other programs: two dashes,
    the name, an equals sign and the value. *)
Definition assignment (name value : string) : string := "--" ++ name ++ "=" ++ value.

(** A name that needs no quoting: it is not empty, and neither starts with a
    dash nor holds an equals sign. *)
Definition plain_name (name : string) : bool :=
  match name with
  | "" => false
  | String c rest => negb (Ascii.eqb c "-") && negb (Ascii.eqb c "=") && negb (has_byte "=" rest)
  end.

Lemma split_flag_assignment name value :
  plain_name name = true → split_flag (name ++ "=" ++ value) = (name, Some value).
Proof.
  destruct name as [|c rest]; [done|]. cbn [plain_name]. intros H. bool_to_prop.
  change ("=" ++ value) with (String "=" value).
  change (String c rest ++ String "=" value) with (String c (rest ++ String "=" value)).
  cbn [split_flag]. by rewrite Cut_app.
Qed.

(** Parsing one assignment of a registered flag. *)
Lemma parse_args_assignment fuel fs name old value new rest :
  plain_name name = true → fs !! name = Some old → set_value old value = Ok new →
  parse_args (S fuel) fs (assignment name value :: rest) =
  parse_args fuel (<[name := new]> fs) rest.
Proof.
  intros Hn Hf Hb. pose proof (split_flag_assignment name value Hn) as Hs.
  destruct name as [|c nm]; [done|]. cbn [plain_name] in Hn. bool_to_prop.
  unfold assignment. change ("--" ++ String c nm ++ "=" ++ value)
    with (String "-" (String "-" (String c (nm ++ "=" ++ value)))).
  change (String c nm ++ "=" ++ value) with (String c (nm ++ "=" ++ value)) in Hs.
  cbn [parse_args]. unfold parse_flag.
  destruct (Ascii.eqb c "-") eqn:E1; [congruence|]. destruct (Ascii.eqb c "=") eqn:E2; [congruence|].
  cbn [orb]. rewrite Hs, Hf. unfold set_flag.
  destruct old; unfold default; cbn [from_option id]; by rewrite Hb.
Qed.
