(* ===== verification/Routing.v ===== *)
(** * Request routing (pkg/utils/utils.go)

    How a request to the hub names a service of a managed cluster, and how
    that name travels to the managed cluster: the user-server parses the
    request target into a [TargetServiceConfig] and writes it into four
    headers; the service-proxy reads the headers back and builds the URL it
    forwards to. *)

From S2P Require Import Prelude GoStrings Http GoUrl GoPath.

Local Open Scope string_scope.

(** ** Constants *)

Definition KubeAPIServerHost : string := "kubernetes.default.svc".
Definition kubeAPIServerService : string := "kubernetes".
Definition kubeAPIServerNamespace : string := "default".

Definition HeaderClusterProxyProto : string := "Cluster-Proxy-Proto".
Definition HeaderClusterProxyNamespace : string := "Cluster-Proxy-Namespace".
Definition HeaderClusterProxyService : string := "Cluster-Proxy-Service".
Definition HeaderClusterProxyPort : string := "Cluster-Proxy-Port".

(** ** Data *)

Record TargetServiceConfig := MkTSC {
  Cluster : string;
  Proto : string;
  Service : string;
  Namespace : string;
  Port : string;
  TPath : string
}.

#[export] Instance TargetServiceConfig_eq_dec : EqDecision TargetServiceConfig.
Proof. solve_decision. Defined.

Inductive ProxyType := ProxyTypeService | ProxyTypeKubeAPIServer.

#[export] Instance ProxyType_eq_dec : EqDecision ProxyType.
Proof. solve_decision. Defined.

(** ** k8s.io/apimachinery/pkg/util/net *)

Definition validSchemes : list string := ["http"; "https"; ""].

(** [SplitSchemeNamePort]: [None] is the result with [valid = false]. *)
Definition SplitSchemeNamePort (id : string) : option (string * string * string) :=
  let check (scheme name port : string) :=
    if negb (String.eqb name "") && existsb (String.eqb scheme) validSchemes
    then Some (scheme, name, port) else None in
  match Split ":" id with
  | [name] => check "" name ""
  | [name; port] => check "" name port
  | [scheme; name; port] => check scheme name port
  | _ => None
  end.

(** [JoinSchemeNamePort]. *)
Definition JoinSchemeNamePort (scheme name port : string) : string :=
  if negb (String.eqb scheme "") then scheme ++ ":" ++ name ++ ":" ++ port
  else if negb (String.eqb port "") then name ++ ":" ++ port
  else name.

(** ** Operations *)

(** [strings.Split(p, "?")[0]]. *)
Definition before_query (p : string) : string := nth 0 (Split "?" p) "".

(** [GetTargetServiceConfig]. The length guard keeps every index in range,
    and [urlparams[9:]] is the empty slice when there are nine parts. *)
Definition GetTargetServiceConfig (requestURL : string) : result TargetServiceConfig :=
  let urlparams := Split "/" requestURL in
  if (length urlparams <? 9)%nat
  then Err (ENew ("requestURL format not correct, path less than 9: " ++ requestURL))
  else
    let namespace := nth 5 urlparams "" in
    match SplitSchemeNamePort (nth 7 urlparams "") with
    | None => Err (ENew ("invalid service name " ++ Quote (nth 7 urlparams "")))
    | Some (proto, service, port) =>
        let proto := if String.eqb proto "" then "https" else proto in
        let servicePath := Join (skipn 9 urlparams) "/" in
        let servicePath := before_query servicePath in
        Ok (MkTSC (nth 1 urlparams "") proto service namespace port servicePath)
    end.

(** [GetTargetServiceConfigForKubeAPIServer]. *)
Definition GetTargetServiceConfigForKubeAPIServer (requestURL : string)
  : result TargetServiceConfig :=
  let paths := Split "/" requestURL in
  if (length paths <=? 2)%nat
  then Err (ENew ("requestURL format not correct, path more than 2: " ++ requestURL))
  else
    let kubeAPIPath := before_query (Join (skipn 2 paths) "/") in
    Ok (MkTSC (nth 1 paths "") "https" "kubernetes" "default" "443" kubeAPIPath).

(** [GetProxyType]. *)
Definition GetProxyType (reqURI : string) : ProxyType :=
  let urlparams := Split "/" reqURI in
  if (9 <? length urlparams)%nat && String.eqb (nth 8 urlparams "") "proxy-service"
  then ProxyTypeService else ProxyTypeKubeAPIServer.

(** [UpdateRequest]. *)
Definition UpdateRequest (t : TargetServiceConfig) (req : Request) : Request :=
  let req := set_path req (TPath t) in
  let h := hset (Header req) HeaderClusterProxyProto (Proto t) in
  let h := hset h HeaderClusterProxyNamespace (Namespace t) in
  let h := hset h HeaderClusterProxyService (Service t) in
  let h := hset h HeaderClusterProxyPort (Port t) in
  set_header req h.

(** The string that [GetTargetServiceURLFromRequest] hands to [url.Parse]. *)
Definition target_string (proto namespace service port : string) : string :=
  if EqualFold service kubeAPIServerService && EqualFold namespace kubeAPIServerNamespace
  then "https://" ++ KubeAPIServerHost
  else proto ++ "://" ++ service ++ "." ++ namespace ++ ".svc:" ++ port.

Section target.
Context `{UrlParse}.

(** [GetTargetServiceURLFromRequest]. *)
Definition GetTargetServiceURLFromRequest (req : Request) : result URL :=
  let proto := hget (Header req) HeaderClusterProxyProto in
  let namespace := hget (Header req) HeaderClusterProxyNamespace in
  let service := hget (Header req) HeaderClusterProxyService in
  let port := hget (Header req) HeaderClusterProxyPort in
  if String.eqb proto "" || String.eqb namespace "" || String.eqb service "" ||
     String.eqb port ""
  then Err (ENew "invalid request headers")
  else url_parse (target_string proto namespace service port).

(** The URL the service-proxy must reach for a target the hub approved. *)
Definition approved_url (t : TargetServiceConfig) : result URL :=
  url_parse (target_string (Proto t) (Namespace t) (Service t) (Port t)).
End target.

(** ** Lemmas on splitting *)

Lemma Split_slash_app a b :
  has_byte "/" a = false → Split "/" (a ++ "/" ++ b) = a :: Split "/" b.
Proof.
  intros Ha. change ("/" ++ b) with (String "/" b).
  by rewrite Split_app, Split_no_sep.
Qed.

Lemma before_query_no_query p : has_byte "?" p = false → before_query p = p.
Proof. intros H. unfold before_query. by rewrite Split_no_sep. Qed.

Lemma before_query_app p q : has_byte "?" p = false → before_query (p ++ "?" ++ q) = p.
Proof.
  intros H. unfold before_query. change ("?" ++ q) with (String "?" q).
  by rewrite Split_app, Split_no_sep.
Qed.

Lemma split_join_scheme scheme name port :
  name ≠ "" → existsb (String.eqb scheme) validSchemes = true →
  has_byte ":" name = false → has_byte ":" port = false →
  SplitSchemeNamePort (JoinSchemeNamePort scheme name port) = Some (scheme, name, port).
Proof.
  intros Hn Hs Hcn Hcp. apply String.eqb_neq in Hn.
  assert (has_byte ":" scheme = false) as Hcs.
  { apply existsb_exists in Hs as (x & Hx & E). bool_to_prop. subst x.
    by repeat destruct Hx as [<- | Hx]. }
  unfold JoinSchemeNamePort, SplitSchemeNamePort.
  destruct (String.eqb scheme "") eqn:Es; cbn [negb].
  - apply String.eqb_eq in Es as ->. destruct (String.eqb port "") eqn:Ep; cbn [negb].
    + apply String.eqb_eq in Ep as ->. rewrite Split_no_sep by done. by rewrite Hn.
    + change (":" ++ port) with (String ":" port).
      rewrite Split_app, !Split_no_sep by done. cbn. by rewrite Hn.
  - change (":" ++ name ++ ":" ++ port) with (String ":" (name ++ String ":" port)).
    rewrite !Split_app, !Split_no_sep by done. cbn -[existsb]. by rewrite Hn, Hs.
Qed.

(** The pieces of a service request target. *)
Definition service_request_uri (cluster namespace id path : string) : string :=
  "/" ++ cluster ++ "/api/v1/namespaces/" ++ namespace ++ "/services/" ++ id
  ++ "/proxy-service/" ++ path.

Lemma service_request_split cluster namespace id path :
  has_byte "/" cluster = false → has_byte "/" namespace = false → has_byte "/" id = false →
  Split "/" (service_request_uri cluster namespace id path) =
  (["" ; cluster; "api"; "v1"; "namespaces"; namespace; "services"; id; "proxy-service"]
   ++ Split "/" path)%list.
Proof.
  intros Hc Hn Hi. unfold service_request_uri.
  change ("/" ++ cluster ++ "/api/v1/namespaces/" ++ namespace ++ "/services/" ++ id
          ++ "/proxy-service/" ++ path)
    with ("" ++ "/" ++ cluster ++ "/" ++ "api" ++ "/" ++ "v1" ++ "/" ++ "namespaces" ++ "/"
          ++ namespace ++ "/" ++ "services" ++ "/" ++ id ++ "/" ++ "proxy-service" ++ "/" ++ path).
  rewrite !Split_slash_app by done. done.
Qed.

Lemma skipn_tail {A} (l : list A) (m : list A) : skipn (length l) (l ++ m)%list = m.
Proof. by rewrite skipn_app, skipn_all, Nat.sub_diag. Qed.

(** Splitting a path and joining the pieces gives the path back, so the
    part of the request target after the service is kept as it is. *)
Lemma Join_Split_slash p : Join (Split "/" p) "/" = p.
Proof. apply (Join_Split "/"). Qed.

Lemma Split_length_pos sep p : (1 <= length (Split sep p))%nat.
Proof. pose proof (Split_nonempty sep p). destruct (Split sep p); cbn; [done|lia]. Qed.

(** ** Lemmas on the headers *)

(** The four routing headers are distinct, canonical, and none of them is
    one the reverse proxy manages or drops on its own. *)
Definition routing_headers : list string :=
  [HeaderClusterProxyProto; HeaderClusterProxyNamespace;
   HeaderClusterProxyService; HeaderClusterProxyPort].

Lemma routing_headers_unmanaged k :
  k ∈ routing_headers →
  CanonicalHeaderKey k = k ∧ proxy_managed k = false ∧
  k ∉ map CanonicalHeaderKey hopHeaders.
Proof.
  intros Hk. repeat (apply elem_of_cons in Hk as [-> | Hk]);
    [..|by apply not_elem_of_nil in Hk];
    (split; [reflexivity|split; [reflexivity|]]);
    apply (bool_decide_unpack _); vm_compute; exact I.
Qed.

(** The value that [UpdateRequest] gives to a routing header. *)
Definition routing_value (t : TargetServiceConfig) (k : string) : string :=
  if String.eqb k HeaderClusterProxyProto then Proto t
  else if String.eqb k HeaderClusterProxyNamespace then Namespace t
  else if String.eqb k HeaderClusterProxyService then Service t
  else Port t.

Lemma UpdateRequest_lookup t req k :
  k ∈ routing_headers → Header (UpdateRequest t req) !! k = Some [routing_value t k].
Proof.
  intros Hk. repeat (apply elem_of_cons in Hk as [-> | Hk]);
    [..|by apply not_elem_of_nil in Hk]; unfold UpdateRequest; cbn [Header set_header];
    repeat first [ by apply lookup_hset_eq | rewrite lookup_hset_ne by done ].
Qed.

(** Headers other than the four routing ones are left alone. *)
Lemma UpdateRequest_other t req k :
  k ∉ routing_headers → Header (UpdateRequest t req) !! k = Header req !! k.
Proof.
  intros Hk. unfold UpdateRequest. cbn [Header set_header set_path].
  rewrite !lookup_hset_ne; [done|..]; intros <-; apply Hk;
    apply (bool_decide_unpack _); vm_compute; exact I.
Qed.

(** After the reverse proxy, a routing header is either what the hub wrote
    or absent: a client can drop it by naming it in [Connection], never
    change it. *)
Lemma routing_header_forwarded t req h k :
  reverse_proxy_headers (UpdateRequest t req) = Ok h → k ∈ routing_headers →
  hget h k = routing_value t k ∨ hget h k = "".
Proof.
  intros Hh Hk. destruct (routing_headers_unmanaged k Hk) as (Hc & Hm & _).
  unfold hget. rewrite Hc, (reverse_proxy_headers_lookup _ _ _ Hh Hm).
  rewrite lookup_removeHopByHopHeaders. case_decide; [by right|].
  rewrite UpdateRequest_lookup by done. by left.
Qed.

Lemma JoinSchemeNamePort_no_slash scheme name port :
  existsb (String.eqb scheme) validSchemes = true →
  has_byte "/" name = false → has_byte "/" port = false →
  has_byte "/" (JoinSchemeNamePort scheme name port) = false.
Proof.
  intros Hs Hn Hp. apply existsb_exists in Hs as (x & Hx & E). bool_to_prop. subst x.
  unfold JoinSchemeNamePort.
  repeat destruct Hx as [<- | Hx]; cbn [String.eqb Ascii.eqb Bool.eqb negb];
    repeat case_match; rewrite ?has_byte_app, ?Hn, ?Hp; try done; by destruct Hx.
Qed.

Lemma skipn_9_split cluster namespace id path :
  skipn 9 (["" ; cluster; "api"; "v1"; "namespaces"; namespace; "services"; id;
            "proxy-service"] ++ Split "/" path)%list = Split "/" path.
Proof. done. Qed.

(** A query string: nothing, or a question mark and anything after it. *)
Definition is_query (q : string) : bool :=
  match q with EmptyString => true | String c _ => Ascii.eqb c "?" end.

Lemma before_query_query p q :
  has_byte "?" p = false → is_query q = true → before_query (p ++ q) = p.
Proof.
  intros Hp Hq. destruct q as [|c q].
  - rewrite str_app_nil_r. by apply before_query_no_query.
  - apply Ascii.eqb_eq in Hq as ->. by apply (before_query_app p q).
Qed.

(** A service request target, parsed. *)
Lemma service_request_parse cluster namespace id path query :
  has_byte "/" cluster = false → has_byte "/" namespace = false → has_byte "/" id = false →
  has_byte "?" path = false → is_query query = true →
  let uri := service_request_uri cluster namespace id (path ++ query) in
  GetProxyType uri = ProxyTypeService ∧
  GetTargetServiceConfig uri =
    match SplitSchemeNamePort id with
    | None => Err (ENew ("invalid service name " ++ Quote id))
    | Some (proto, name, port) =>
        Ok (MkTSC cluster (if String.eqb proto "" then "https" else proto) name namespace port path)
    end.
Proof.
  intros Hc Hn Hi Hp Hq uri. unfold GetProxyType, GetTargetServiceConfig, uri.
  rewrite service_request_split by done. split.
  - pose proof (Split_length_pos "/" (path ++ query)). rewrite length_app.
    cbn [length]. rewrite (proj2 (Nat.ltb_lt _ _)) by lia. done.
  - rewrite skipn_9_split, Join_Split_slash, before_query_query by done.
    rewrite length_app. cbn [length nth app].
    rewrite (proj2 (Nat.ltb_ge _ _)) by lia. done.
Qed.

(** Reading the routing headers of a request whose headers are [h]. *)
Lemma target_from_headers `{UrlParse} t req h r u :
  reverse_proxy_headers (UpdateRequest t req) = Ok h → Header r = h →
  GetTargetServiceURLFromRequest r = Ok u →
  Proto t ≠ "" ∧ Namespace t ≠ "" ∧ Service t ≠ "" ∧ Port t ≠ "" ∧ approved_url t = Ok u.
Proof.
  intros Hh Hr Hu. unfold GetTargetServiceURLFromRequest, approved_url in *.
  pose proof (λ k, routing_header_forwarded t req h k Hh) as Hv. rewrite Hr in Hu.
  destruct (Hv HeaderClusterProxyProto) as [E1|E1]; [set_solver| |by rewrite E1 in Hu].
  destruct (Hv HeaderClusterProxyNamespace) as [E2|E2]; [set_solver| |
    by rewrite E2, orb_true_r in Hu].
  destruct (Hv HeaderClusterProxyService) as [E3|E3]; [set_solver| |
    by rewrite E3, !orb_true_r in Hu].
  destruct (Hv HeaderClusterProxyPort) as [E4|E4]; [set_solver| |
    by rewrite E4, !orb_true_r in Hu].
  change (routing_value t HeaderClusterProxyProto) with (Proto t) in E1.
  change (routing_value t HeaderClusterProxyNamespace) with (Namespace t) in E2.
  change (routing_value t HeaderClusterProxyService) with (Service t) in E3.
  change (routing_value t HeaderClusterProxyPort) with (Port t) in E4.
  rewrite E1, E2, E3, E4 in Hu. case_match eqn:Heq; inv_ok. by bool_to_prop.
Qed.

(** ** Properties *)

(** A service as the documentation writes it, [[https:]service_name[:port_name]]. *)
Definition documented_id (scheme name port : string) : string :=
  (if String.eqb scheme "" then "" else scheme ++ ":") ++ name ++
  (if String.eqb port "" then "" else ":" ++ port).

Lemma documented_id_canonical scheme name port :
  scheme = "" ∨ port ≠ "" → documented_id scheme name port = JoinSchemeNamePort scheme name port.
Proof.
  unfold documented_id, JoinSchemeNamePort.
  destruct (String.eqb_spec scheme "") as [->|], (String.eqb_spec port "") as [->|]; cbn [negb];
    intros [?|?]; rewrite <- ?str_app_assoc, ?str_app_nil_r; done.
Qed.

(** C13: a service request is parsed into exactly its parts: built from a
    cluster, a namespace, a service with or without a scheme and a port, a
    path and a query string, it is recognised as a service request, and
    parsing gives the parts back; the scheme defaults to https, and the path,
    without the slash before it, keeps its slashes and loses its query.  The
    documented notation of a service is the one that is parsed this way,
    except for a scheme without a port: "https:name" is taken for the port
    "name" of a service "https". *)
Theorem service_request_roundtrip cluster namespace scheme name port path query :
  has_byte "/" cluster = false → has_byte "/" namespace = false →
  has_byte "/" name = false → has_byte "/" port = false →
  has_byte ":" name = false → has_byte ":" port = false → name ≠ "" →
  existsb (String.eqb scheme) validSchemes = true →
  has_byte "?" path = false → is_query query = true →
  let uri id := service_request_uri cluster namespace id (path ++ query) in
  GetProxyType (uri (JoinSchemeNamePort scheme name port)) = ProxyTypeService ∧
  GetTargetServiceConfig (uri (JoinSchemeNamePort scheme name port)) =
    Ok (MkTSC cluster (if String.eqb scheme "" then "https" else scheme)
          name namespace port path) ∧
  (scheme = "" ∨ port ≠ "" → documented_id scheme name port = JoinSchemeNamePort scheme name port) ∧
  (scheme ≠ "" →
     GetTargetServiceConfig (uri (documented_id scheme name "")) =
     Ok (MkTSC cluster "https" scheme namespace name path)).
Proof.
  intros Hc Hn Hna Hpo Hcn Hcp Hne Hs Hp Hq uri. unfold uri.
  destruct (service_request_parse cluster namespace (JoinSchemeNamePort scheme name port)
              path query) as [-> ->]; try done; [by apply JoinSchemeNamePort_no_slash|].
  rewrite split_join_scheme by done. split; [done|]. split; [done|].
  split; [apply documented_id_canonical|]. intros Hsc.
  assert (documented_id scheme name "" = JoinSchemeNamePort "" scheme name) as ->.
  { unfold documented_id, JoinSchemeNamePort. rewrite (proj2 (String.eqb_neq _ _) Hsc).
    rewrite (proj2 (String.eqb_neq _ _) Hne). cbn [negb String.eqb]. by rewrite str_app_nil_r, <- str_app_assoc. }
  assert (has_byte "/" scheme = false ∧ has_byte ":" scheme = false) as [Hs1 Hs2].
  { apply existsb_exists_elem in Hs as (x & Hx & E). bool_to_prop. subst x.
    unfold validSchemes in Hx. set_unfold in Hx. by destruct Hx as [->|[->|[->|[]]]]. }
  destruct (service_request_parse cluster namespace (JoinSchemeNamePort "" scheme name)
              path query) as [_ ->]; try done; [by apply JoinSchemeNamePort_no_slash|].
  by rewrite split_join_scheme.
Qed.

(** Witness: the URL of the code's own comment. *)
Lemma service_request_roundtrip_witness :
  GetProxyType "/cluster1/api/v1/namespaces/default/services/https:helloworld:8080/proxy-service/ping?time-out=32s"
    = ProxyTypeService ∧
  GetTargetServiceConfig "/cluster1/api/v1/namespaces/default/services/https:helloworld:8080/proxy-service/ping?time-out=32s"
    = Ok (MkTSC "cluster1" "https" "helloworld" "default" "8080" "ping") ∧
  GetTargetServiceConfig "/cluster1/api/v1/namespaces/default/services/https:helloworld/proxy-service/ping?time-out=32s"
    = Ok (MkTSC "cluster1" "https" "https" "default" "helloworld" "ping").
Proof.
  destruct (service_request_roundtrip "cluster1" "default" "https" "helloworld" "8080" "ping"
           "?time-out=32s") as (H1 & H2 & _ & H3); try (vm_compute; congruence).
  split; [exact H1|]. split; [exact H2|]. apply H3. discriminate.
Defined.

(** Every request target with a path that is not a service request is
    routed to the kube-apiserver of the cluster its first segment names,
    with the rest of the path and without the query; nothing but a missing
    path is refused. *)
Theorem kube_request_parse cluster path query :
  has_byte "/" cluster = false → has_byte "?" path = false → is_query query = true →
  GetTargetServiceConfigForKubeAPIServer ("/" ++ cluster ++ "/" ++ path ++ query)
  = Ok (MkTSC cluster "https" kubeAPIServerService kubeAPIServerNamespace "443" path).
Proof.
  intros Hc Hp Hq. unfold GetTargetServiceConfigForKubeAPIServer.
  change ("/" ++ cluster ++ "/" ++ path ++ query)
    with ("" ++ "/" ++ cluster ++ "/" ++ path ++ query).
  rewrite !Split_slash_app by done. cbn [skipn nth length]. rewrite drop_0.
  rewrite Join_Split_slash, before_query_query by done.
  pose proof (Split_length_pos "/" (path ++ query)).
  rewrite (proj2 (Nat.leb_gt _ _)) by lia. done.
Qed.

Lemma kube_request_parse_witness :
  GetTargetServiceConfigForKubeAPIServer "/cluster1/api/v1/pods?timeout=32s"
  = Ok (MkTSC "cluster1" "https" "kubernetes" "default" "443" "api/v1/pods").
Proof. apply (kube_request_parse "cluster1" "api/v1/pods" "?timeout=32s"); reflexivity. Defined.

(** Whatever headers the client sent (its own routing headers, or a
    Connection header that strips some of them on the way), a request the
    hub forwards for target [t] makes the managed cluster's side resolve
    exactly the URL of [t], or reject the request; it never resolves to
    another service. *)
Theorem routing_not_spoofable `{UrlParse} t req h r u :
  reverse_proxy_headers (UpdateRequest t req) = Ok h → Header r = h →
  GetTargetServiceURLFromRequest r = Ok u → approved_url t = Ok u.
Proof. intros Hh Hr Hu. by eapply target_from_headers. Qed.

(** A client that sends its own namespace header and asks the proxy to
    treat its cookie as hop-by-hop. *)
Definition spoofing_request : Request :=
  MkRequest "/cluster1/api/v1/namespaces/web/services/http:nginx:80/proxy-service/x" "GET"
    "/cluster1/api/v1/namespaces/web/services/http:nginx:80/proxy-service/x" "" (Some "10.0.0.1")
    (<["Connection" := ["close, Cookie"]]> (<["Cluster-Proxy-Namespace" := ["kube-system"]]> ∅)).

Definition spoofed_headers (t : TargetServiceConfig) : header :=
  match reverse_proxy_headers (UpdateRequest t spoofing_request) with
  | Ok h => h
  | Err _ => ∅
  end.

Lemma spoofed_headers_ok t :
  reverse_proxy_headers (UpdateRequest t spoofing_request) = Ok (spoofed_headers t).
Proof. reflexivity. Qed.

Lemma routing_not_spoofable_witness :
  approved_url (MkTSC "cluster1" "http" "nginx" "web" "80" "x")
  = Ok (MkURL "http" "nginx.web.svc:80" "" "").
Proof.
  set (t := MkTSC "cluster1" "http" "nginx" "web" "80" "x").
  apply (routing_not_spoofable t spoofing_request (spoofed_headers t)
           (set_header spoofing_request (spoofed_headers t)));
    [apply spoofed_headers_ok|reflexivity|vm_compute; reflexivity].
Defined.

(** For a plain service that is not the kube-apiserver, the URL that the
    managed cluster's side resolves is scheme, service, namespace and port
    as approved; its host is never the kube-apiserver's, so such a request
    never enters the identity-rewriting path. *)
Theorem approved_url_plain `{UrlParse} t :
  plain_scheme (Proto t) = true → plain_host (Service t) = true →
  plain_host (Namespace t) = true → plain_port (Port t) = true →
  EqualFold (Service t) kubeAPIServerService && EqualFold (Namespace t) kubeAPIServerNamespace
    = false →
  approved_url t =
    Ok (MkURL (Proto t) (Service t ++ "." ++ Namespace t ++ ".svc:" ++ Port t) "" "") ∧
  Service t ++ "." ++ Namespace t ++ ".svc:" ++ Port t ≠ KubeAPIServerHost.
Proof.
  intros Hs Hsv Hn Hp Hk. split.
  - unfold approved_url, target_string. rewrite Hk.
    replace (Service t ++ "." ++ Namespace t ++ ".svc:" ++ Port t)
      with ((Service t ++ "." ++ Namespace t ++ ".svc") ++ ":" ++ Port t)
      by (rewrite <- !str_app_assoc; done).
    apply url_parse_host_port; [done| |done].
    unfold plain_host in *. by rewrite !all_bytes_app, Hsv, Hn.
  - intros E. apply (f_equal (has_byte ":")) in E.
    rewrite !has_byte_app in E. cbn in E. by rewrite !orb_true_r in E.
Qed.

Lemma approved_url_plain_witness :
  approved_url (MkTSC "c" "http" "nginx" "web" "80" "") = Ok (MkURL "http" "nginx.web.svc:80" "" "").
Proof. apply (approved_url_plain (MkTSC "c" "http" "nginx" "web" "80" "")); reflexivity. Defined.

(** The form of a service request that the documentation allows without
    a port parses on the hub, but no request forwarded for it is ever
    accepted on the managed cluster: the port header is empty and the
    service-proxy answers with an error. *)
Theorem portless_service_rejected `{UrlParse} cluster namespace name path t req h r :
  has_byte "/" cluster = false → has_byte "/" namespace = false →
  has_byte "/" name = false → has_byte ":" name = false → has_byte "?" path = false →
  GetTargetServiceConfig (service_request_uri cluster namespace name path) = Ok t →
  reverse_proxy_headers (UpdateRequest t req) = Ok h → Header r = h →
  Port t = "" ∧ GetTargetServiceURLFromRequest r = Err (ENew "invalid request headers").
Proof.
  intros Hc Hn Hna Hcn Hp Ht Hh Hr.
  destruct (service_request_parse cluster namespace name path "") as [_ E]; try done.
  rewrite str_app_nil_r in E. rewrite E in Ht.
  unfold SplitSchemeNamePort in Ht. rewrite Split_no_sep in Ht by done.
  assert (Port t = "") as Hport by (repeat case_match; by inv_ok).
  split; [done|].
  destruct (routing_header_forwarded t req h HeaderClusterProxyPort Hh) as [E4|E4];
    [set_solver| |]; unfold GetTargetServiceURLFromRequest; rewrite Hr, E4;
    change (routing_value t HeaderClusterProxyPort) with (Port t);
    rewrite ?Hport, !orb_true_r; done.
Qed.

Lemma portless_service_rejected_witness :
  ∃ r, GetTargetServiceURLFromRequest r = Err (ENew "invalid request headers").
Proof.
  set (t := MkTSC "cluster1" "https" "nginx" "web" "" "x").
  exists (set_header spoofing_request (spoofed_headers t)).
  apply (portless_service_rejected "cluster1" "web" "nginx" "x" t spoofing_request
           (spoofed_headers t)); first [apply spoofed_headers_ok | reflexivity].
Defined.

(** The path that the hub sends on is the path that the client asked for
    exactly when no byte of it needs escaping: the path is cut out of the
    request target as the client wrote it, stored as if it were decoded, and
    escaped anew on the way out, so that a client's "%20" arrives as
    "%2520". *)
Theorem escaped_paths_escaped_again cluster path query t req rawPath :
  has_byte "/" cluster = false → has_byte "?" path = false → is_query query = true →
  GetTargetServiceConfigForKubeAPIServer ("/" ++ cluster ++ "/" ++ path ++ query) = Ok t →
  (rawPath ≠ "" → unescape rawPath ≠ Some path) → path ≠ "*" → HasPrefix path "/" = false →
  wire_path (UpdateRequest t req) rawPath = "/" ++ escape path ∧
  (wire_path (UpdateRequest t req) rawPath = "/" ++ path ↔
   all_bytes (λ c, negb (shouldEscape c)) path = true).
Proof.
  intros Hc Hp Hq Ht Hraw Hstar Hslash. rewrite (kube_request_parse _ _ _ Hc Hp Hq) in Ht.
  injection Ht as <-.
  assert (wire_path (UpdateRequest (MkTSC cluster "https" kubeAPIServerService kubeAPIServerNamespace
            "443" path) req) rawPath = "/" ++ escape path) as E.
  { rewrite wire_path_escaped by done. cbn [UpdateRequest URLPath set_path set_header TPath].
    unfold singleJoiningSlash. rewrite Hslash. reflexivity. }
  split; [done|]. rewrite E, <- escape_id_iff. split; [by intros [=]|by intros ->].
Qed.

Lemma escaped_paths_escaped_again_witness :
  wire_path (UpdateRequest (MkTSC "cluster1" "https" "kubernetes" "default" "443" "api/v1/a%20b")
    spoofing_request) "" = "/api/v1/a%2520b".
Proof.
  exact (proj1 (escaped_paths_escaped_again "cluster1" "api/v1/a%20b" "" _ spoofing_request ""
    eq_refl eq_refl eq_refl eq_refl (λ H _, H eq_refl) ltac:(discriminate) eq_refl)).
Defined.
