(* ===== verification/Allowlist.v ===== *)
(** * The service allowlist (pkg/userserver/service_allowlist*.go)

    Which services of the managed clusters may be reached through the
    service proxy path: the data, the parser of the ConfigMap (with
    [yaml.UnmarshalStrict] as a parameter), the allowlist object, and the
    informer handlers that keep it up to date.  The properties: the verdict
    does not depend on the order in which Go visits the ConfigMap, it is
    exactly the verdict of the entries of the last valid ConfigMap, and
    entries without a namespace or a service never get in. *)

From S2P Require Import Prelude GoStrings Http GoUrl Routing.

Local Open Scope string_scope.

(** ** Data *)

Record ExposedService := MkExposed {
  ENamespace : string;
  EService : string;
  EPort : string;
  EProtocol : string
}.

#[export] Instance ExposedService_eq_dec : EqDecision ExposedService.
Proof. solve_decision. Defined.

(** [ServiceAllowlist]: the slice under the lock. *)
Record ServiceAllowlist := MkAllowlist { services : list ExposedService }.

(** What an informer hands to a handler: a ConfigMap, whose [Data] is given
    in the order in which [range] visits it, or some other object. *)
Inductive informer_object :=
| ObjConfigMap (data : list (string * string))
| ObjOther.

Inductive event :=
| AddFunc (obj : informer_object)
| UpdateFunc (oldObj newObj : informer_object)
| DeleteFunc (obj : informer_object).

(** ** Operations *)

(** [ExposedService.matches]. *)
Definition matches (e : ExposedService) (tsc : TargetServiceConfig) : bool :=
  if negb (String.eqb (ENamespace e) (Namespace tsc)) then false
  else if negb (String.eqb (EService e) (Service tsc)) then false
  else if negb (String.eqb (EPort e) "") && negb (String.eqb (EPort e) (Port tsc)) then false
  else if negb (String.eqb (EProtocol e) "") && negb (String.eqb (EProtocol e) (Proto tsc))
       then false
  else true.

(** [ServiceAllowlist.update], [IsAllowed] and [Len]. *)
Definition update (a : ServiceAllowlist) (s : list ExposedService) : ServiceAllowlist :=
  MkAllowlist s.

Definition IsAllowed (a : ServiceAllowlist) (tsc : TargetServiceConfig) : bool :=
  existsb (λ svc, matches svc tsc) (services a).

Definition Len (a : ServiceAllowlist) : nat := length (services a).

Section watcher.
(** [yaml.UnmarshalStrict] into a slice of entries. *)
Context (UnmarshalStrict : string → result (list ExposedService)).

(** The validation loop of [parseExposedServices]. *)
Fixpoint validate_entries (i : nat) (l : list ExposedService) : result unit :=
  match l with
  | [] => Ok tt
  | svc :: l' =>
      if String.eqb (ENamespace svc) ""
      then Err (ENew ("entry[" ++ Itoa (Z.of_nat i) ++ "]: namespace is required"))
      else if String.eqb (EService svc) ""
      then Err (ENew ("entry[" ++ Itoa (Z.of_nat i) ++ "]: service is required"))
      else validate_entries (S i) l'
  end.

(** [parseExposedServices]. *)
Definition parseExposedServices (data : string) : result (list ExposedService) :=
  if String.eqb data "" then Ok []
  else match UnmarshalStrict data with
       | Err e => Err (EWrap ("failed to unmarshal exposed services YAML: " ++ error_string e) e)
       | Ok l => _ ← validate_entries 0 l; Ok l
       end.

(** [parseAllExposedServices]: the loop over the ConfigMap's data. *)
Fixpoint parseAll_loop (all : list ExposedService) (data : list (string * string))
  : result (list ExposedService) :=
  match data with
  | [] => Ok all
  | (key, raw) :: data' =>
      match parseExposedServices raw with
      | Err e => Err (EWrap ("key " ++ Quote key ++ ": " ++ error_string e) e)
      | Ok l => parseAll_loop (all ++ l)%list data'
      end
  end.

Definition parseAllExposedServices (data : list (string * string))
  : result (list ExposedService) := parseAll_loop [] data.

(** [updateFromConfigMap]: on a parse error the list is kept. *)
Definition updateFromConfigMap (a : ServiceAllowlist) (data : list (string * string))
  : ServiceAllowlist :=
  match parseAllExposedServices data with
  | Err _ => a
  | Ok l => update a l
  end.

Definition handle_object (a : ServiceAllowlist) (obj : informer_object) : ServiceAllowlist :=
  match obj with
  | ObjConfigMap data => updateFromConfigMap a data
  | ObjOther => a
  end.

(** The three handlers registered with the informer. *)
Definition handle_event (a : ServiceAllowlist) (ev : event) : ServiceAllowlist :=
  match ev with
  | AddFunc obj => handle_object a obj
  | UpdateFunc _ newObj => handle_object a newObj
  | DeleteFunc _ => update a []
  end.

Definition run_events (a : ServiceAllowlist) (evs : list event) : ServiceAllowlist :=
  fold_left handle_event evs a.

(** [startServiceAllowlistWatcher]: registering the handlers may fail, the
    events of the initial list are delivered, and the cache may fail to
    sync before the context ends (with [ctxErr]). *)
Definition startServiceAllowlistWatcher (registerErr : option goerror)
    (initial : list event) (synced : bool) (ctxErr : goerror) : result ServiceAllowlist :=
  match registerErr with
  | Some e => Err e
  | None =>
      let allowlist := run_events (MkAllowlist []) initial in
      if synced then Ok allowlist else Err ctxErr
  end.

(** ** Specification

    What an operator expects: the entries in force are those of the most
    recent ConfigMap that parsed, and none once the ConfigMap is deleted. *)
Definition event_verdict (ev : event) : option (list ExposedService) :=
  match ev with
  | AddFunc (ObjConfigMap d) | UpdateFunc _ (ObjConfigMap d) =>
      match parseAllExposedServices d with Ok l => Some l | Err _ => None end
  | AddFunc ObjOther | UpdateFunc _ ObjOther => None
  | DeleteFunc _ => Some []
  end.

(** The verdict of the most recent event that has one. *)
Fixpoint in_force (newest_first : list event) : list ExposedService :=
  match newest_first with
  | [] => []
  | ev :: older => match event_verdict ev with Some l => l | None => in_force older end
  end.

Definition well_formed (a : ServiceAllowlist) : Prop :=
  Forall (λ e, ENamespace e ≠ "" ∧ EService e ≠ "") (services a).

(** ** Lemmas *)

Lemma matches_spec e t :
  matches e t = true ↔
  ENamespace e = Namespace t ∧ EService e = Service t ∧
  (EPort e = "" ∨ EPort e = Port t) ∧ (EProtocol e = "" ∨ EProtocol e = Proto t).
Proof.
  unfold matches.
  destruct (String.eqb_spec (ENamespace e) (Namespace t)); cbn; [|naive_solver].
  destruct (String.eqb_spec (EService e) (Service t)); cbn; [|naive_solver].
  destruct (String.eqb_spec (EPort e) ""), (String.eqb_spec (EPort e) (Port t)),
    (String.eqb_spec (EProtocol e) ""), (String.eqb_spec (EProtocol e) (Proto t));
    cbn; naive_solver.
Qed.

Lemma validate_entries_ok i l :
  validate_entries i l = Ok tt ↔ Forall (λ e, ENamespace e ≠ "" ∧ EService e ≠ "") l.
Proof.
  revert i. induction l as [|e l IH]; intros i; cbn; [by split; [constructor|]|].
  destruct (String.eqb_spec (ENamespace e) "") as [?|?];
    [by split; [|intros H; inversion H; naive_solver]|].
  destruct (String.eqb_spec (EService e) "") as [?|?];
    [by split; [|intros H; inversion H; naive_solver]|].
  rewrite IH. split; [intros ?; by constructor|by inversion 1].
Qed.

Lemma parseExposedServices_well_formed raw l :
  parseExposedServices raw = Ok l → well_formed (MkAllowlist l).
Proof.
  unfold parseExposedServices, well_formed. intros H. case_match; [inv_ok; constructor|].
  case_match; [|done]. apply bind_ok in H as ([] & Hv & H). inv_ok.
  by eapply validate_entries_ok.
Qed.

(** The loop succeeds exactly when every value parses, and then appends the
    parsed lists. *)
Lemma parseAll_loop_ok all data l :
  parseAll_loop all data = Ok l ↔
  ∃ ls, Forall2 (λ kv s, parseExposedServices kv.2 = Ok s) data ls ∧ l = (all ++ concat ls)%list.
Proof.
  revert all. induction data as [|[k raw] data IH]; intros all; cbn.
  - split; [intros; inv_ok; exists []; by rewrite app_nil_r|].
    intros (ls & Hf & ->). inversion Hf. cbn. by rewrite app_nil_r.
  - destruct (parseExposedServices raw) as [s|e] eqn:E.
    + rewrite IH. split.
      * intros (ls & Hf & ->). exists (s :: ls). split; [by constructor|].
        cbn. by rewrite app_assoc.
      * intros (ls & Hf & ->). inversion Hf as [|? s' ? ls' Hs Hf']; subst. cbn in *.
        exists ls'. split; [done|]. assert (s' = s) as -> by congruence.
        by rewrite app_assoc.
    + split; [done|]. intros (ls & Hf & _). inversion Hf; subst. cbn in *. congruence.
Qed.

Lemma parseAll_ok data l :
  parseAllExposedServices data = Ok l ↔
  ∃ ls, Forall2 (λ kv s, parseExposedServices kv.2 = Ok s) data ls ∧ l = concat ls.
Proof. apply parseAll_loop_ok. Qed.

Lemma parseAll_well_formed data l :
  parseAllExposedServices data = Ok l → well_formed (MkAllowlist l).
Proof.
  rewrite parseAll_ok. intros (ls & Hf & ->). unfold well_formed. cbn.
  induction Hf as [|kv s data ls Hs Hf IH]; cbn; [constructor|].
  apply Forall_app_2; [by apply parseExposedServices_well_formed in Hs|done].
Qed.

Lemma handle_event_well_formed a ev :
  well_formed a → well_formed (handle_event a ev).
Proof.
  intros Ha. destruct ev as [[d|]|? [d|]|]; cbn; try done; [| |by constructor];
    unfold updateFromConfigMap; case_match; try done; by eapply parseAll_well_formed.
Qed.

Lemma run_events_well_formed a evs : well_formed a → well_formed (run_events a evs).
Proof.
  revert a. induction evs as [|ev evs IH]; intros a Ha; cbn; [done|].
  by apply IH, handle_event_well_formed.
Qed.

Lemma handle_event_verdict a ev :
  services (handle_event a ev) = default (services a) (event_verdict ev).
Proof.
  destruct ev as [[d|]|? [d|]|]; cbn; try done;
    unfold updateFromConfigMap; by destruct (parseAllExposedServices d).
Qed.

Lemma run_events_in_force evs :
  services (run_events (MkAllowlist []) evs) = in_force (reverse evs).
Proof.
  induction evs as [|ev evs IH] using rev_ind; [done|].
  unfold run_events in *. rewrite fold_left_app, reverse_snoc. cbn.
  rewrite handle_event_verdict, IH. by destruct (event_verdict ev).
Qed.

(** ** Properties *)

(** The order in which Go's [range] visits the ConfigMap does not
    matter: for two orders of the same data, parsing succeeds or fails
    together, and the resulting allowlists give the same verdict on every
    target. *)
Theorem allowlist_order_irrelevant data1 data2 :
  data1 ≡ₚ data2 →
  is_ok (parseAllExposedServices data1) = is_ok (parseAllExposedServices data2) ∧
  (∀ a tsc, is_ok (parseAllExposedServices data1) = true →
    IsAllowed (updateFromConfigMap a data1) tsc = IsAllowed (updateFromConfigMap a data2) tsc).
Proof.
  intros Hp.
  assert (Hhalf : ∀ d1 d2 l1, d1 ≡ₚ d2 → parseAllExposedServices d1 = Ok l1 →
            ∃ l2, parseAllExposedServices d2 = Ok l2 ∧ l1 ≡ₚ l2).
  { intros d1 d2 l1 Hd (ls & Hf & ->)%parseAll_ok.
    destruct (Permutation_Forall2 Hd Hf) as (ls' & Hls & Hf').
    exists (concat ls'). split; [apply parseAll_ok; eauto|]. by rewrite Hls. }
  unfold updateFromConfigMap.
  destruct (parseAllExposedServices data1) as [l1|e1] eqn:E1.
  - destruct (Hhalf _ _ _ Hp E1) as (l2 & E2 & Hl). rewrite E2.
    split; [done|]. intros a tsc _. by apply existsb_perm.
  - destruct (parseAllExposedServices data2) as [l2|e2] eqn:E2; [|done].
    symmetry in Hp. destruct (Hhalf _ _ _ Hp E2) as (l1 & E1' & _). congruence.
Qed.

(** C17: a target is allowed after an informer event sequence exactly when
    some entry of the ConfigMap in force matches it in namespace, service,
    and (where the entry gives them) port and protocol; in force is the
    most recent ConfigMap that parsed, an invalid one is skipped, and a
    deletion denies everything. *)
Theorem allowlist_in_force evs tsc :
  IsAllowed (run_events (MkAllowlist []) evs) tsc = true ↔
  ∃ e, e ∈ in_force (reverse evs) ∧
    ENamespace e = Namespace tsc ∧ EService e = Service tsc ∧
    (EPort e = "" ∨ EPort e = Port tsc) ∧ (EProtocol e = "" ∨ EProtocol e = Proto tsc).
Proof.
  unfold IsAllowed. rewrite run_events_in_force, existsb_exists_elem.
  by setoid_rewrite matches_spec.
Qed.

(** Whatever the informer delivers, valid or not, the allowlist never
    holds an entry without a namespace or a service; so a target with an
    empty namespace or service name is always denied. *)
Theorem allowlist_never_matches_blank evs tsc :
  well_formed (run_events (MkAllowlist []) evs) ∧
  (Namespace tsc = "" ∨ Service tsc = "" →
   IsAllowed (run_events (MkAllowlist []) evs) tsc = false).
Proof.
  assert (Hw : well_formed (run_events (MkAllowlist []) evs))
    by (apply run_events_well_formed; constructor).
  split; [done|]. intros Hblank. apply not_true_is_false. intros Ha.
  unfold IsAllowed in Ha. apply existsb_exists_elem in Ha as (e & He & Hm).
  apply matches_spec in Hm as (Hn & Hs & _).
  unfold well_formed in Hw. rewrite Forall_forall in Hw. destruct (Hw e He).
  destruct Hblank; congruence.
Qed.
End watcher.

(** ** Witnesses *)

(** A strict parser of one toy document, for the witnesses. *)
Definition toy_unmarshal (s : string) : result (list ExposedService) :=
  if String.eqb s "web" then Ok [MkExposed "web" "nginx" "" ""]
  else if String.eqb s "db" then Ok [MkExposed "db" "pg" "5432" ""]
  else Err (ENew "yaml: unmarshal errors").

Lemma allowlist_order_irrelevant_witness :
  is_ok (parseAllExposedServices toy_unmarshal [("a", "web"); ("b", "db")])
  = is_ok (parseAllExposedServices toy_unmarshal [("b", "db"); ("a", "web")]).
Proof.
  apply (allowlist_order_irrelevant toy_unmarshal [("a", "web"); ("b", "db")]
           [("b", "db"); ("a", "web")]).
  apply Permutation_swap.
Defined.

Lemma allowlist_never_matches_blank_witness :
  IsAllowed (run_events toy_unmarshal (MkAllowlist [])
               [AddFunc (ObjConfigMap [("a", "web")])])
    (MkTSC "c" "http" "nginx" "" "80" "") = false.
Proof.
  apply (proj2 (allowlist_never_matches_blank toy_unmarshal
           [AddFunc (ObjConfigMap [("a", "web")])] (MkTSC "c" "http" "nginx" "" "80" ""))).
  left. reflexivity.
Defined.

(** The last-known-good list survives an invalid update, and a deletion
    denies everything. *)
Example allowlist_run :
  let good := AddFunc (ObjConfigMap [("a", "web"); ("b", "db")]) in
  let bad := UpdateFunc ObjOther (ObjConfigMap [("a", "not yaml")]) in
  let t := MkTSC "c" "http" "nginx" "web" "80" "" in
  IsAllowed (run_events toy_unmarshal (MkAllowlist []) [good; bad]) t = true ∧
  IsAllowed (run_events toy_unmarshal (MkAllowlist []) [good; bad; DeleteFunc ObjOther]) t = false.
Proof. split; reflexivity. Qed.
