(* ===== verification/TransportPool.v ===== *)
(** * The transport pool (pkg/userserver/transport_pool.go)

    The pool is shared by the HTTP handlers and the informer, and every
    method holds the lock only for part of its body: [getOrCreate] looks
    the cluster up under the read lock, releases it, and may come back
    under the write lock; [remove] and [closeAll] close transports after
    releasing it.  The model follows that: each critical section is one
    atomic operation on the pool, what a method does between two sections
    is recorded in [pending], and a run is an arbitrary interleaving
    (a list of [op]s chosen by the scheduler).  The invariants are proved
    for every interleaving. *)

From S2P Require Import Prelude GoStrings Naming.

Local Open Scope string_scope.

(** ** Data *)

(** A pointer to an [http.Transport]: its address, and the cluster that
    [newTransport] was called with. *)
Record transport := MkTransport { addr : nat; for_cluster : string }.

#[export] Instance transport_eq_dec : EqDecision transport.
Proof. solve_decision. Defined.

Record clusterTransportPool := MkPool {
  allowed : gset string;
  transports : gmap string transport
}.

(** What a method still has to do after leaving a critical section: enter
    the write section of [getOrCreate], or close a transport. *)
Inductive todo :=
| TGet (clusterName : string)
| TClose (t : transport).

(** The pool, the next address, the transports whose idle connections have
    been closed, the pending work, and what [getOrCreate] returned, newest
    first. *)
Record sys := MkSys {
  pool : clusterTransportPool;
  next_addr : nat;
  closed : list transport;
  pending : list todo;
  results : list (string * option transport)
}.

(** ** The critical sections *)

Definition newClusterTransportPool : clusterTransportPool := MkPool ∅ ∅.

Definition allow (p : clusterTransportPool) (clusterName : string) : clusterTransportPool :=
  MkPool ({[clusterName]} ∪ allowed p) (transports p).

(** The read section of [getOrCreate], and what it decides: denied, a
    cached transport, or go on to the write section. *)
Inductive read_outcome := Denied | Cached (t : transport) | Miss.

Definition getOrCreate_read (p : clusterTransportPool) (clusterName : string) : read_outcome :=
  if negb (bool_decide (clusterName ∈ allowed p)) then Denied
  else match transports p !! clusterName with
       | Some t => Cached t
       | None => Miss
       end.

(** The write section: membership and cache are checked again. *)
Definition getOrCreate_write (p : clusterTransportPool) (next : nat) (clusterName : string)
  : clusterTransportPool * nat * option transport :=
  if negb (bool_decide (clusterName ∈ allowed p)) then (p, next, None)
  else match transports p !! clusterName with
       | Some t => (p, next, Some t)
       | None =>
           let t := MkTransport next clusterName in
           (MkPool (allowed p) (<[clusterName := t]> (transports p)), S next, Some t)
       end.

Definition isAllowed (p : clusterTransportPool) (clusterName : string) : bool :=
  bool_decide (clusterName ∈ allowed p).

(** The locked part of [remove]: the transport to close afterwards. *)
Definition remove_locked (p : clusterTransportPool) (clusterName : string)
  : clusterTransportPool * option transport :=
  (MkPool (allowed p ∖ {[clusterName]}) (delete clusterName (transports p)),
   transports p !! clusterName).

(** The locked part of [closeAll]. *)
Definition closeAll_locked (p : clusterTransportPool) : clusterTransportPool * list transport :=
  (MkPool ∅ ∅, map snd (map_to_list (transports p))).

(** [getOrCreate] when nobody interferes between its two sections. *)
Definition getOrCreate (p : clusterTransportPool) (next : nat) (clusterName : string)
  : clusterTransportPool * nat * option transport :=
  match getOrCreate_read p clusterName with
  | Denied => (p, next, None)
  | Cached t => (p, next, Some t)
  | Miss => getOrCreate_write p next clusterName
  end.

(** ** Interleavings *)

Inductive op :=
| OAllow (clusterName : string)
| OGetRead (clusterName : string)
| ORemove (clusterName : string)
| OCloseAll
| OPending (i : nat).     (* the scheduler resumes the i-th pending task *)

Definition remove_nth {A} (i : nat) (l : list A) : list A := (take i l ++ drop (S i) l)%list.

Definition exec (s : sys) (o : op) : sys :=
  match o with
  | OAllow c => MkSys (allow (pool s) c) (next_addr s) (closed s) (pending s) (results s)
  | OGetRead c =>
      match getOrCreate_read (pool s) c with
      | Denied => MkSys (pool s) (next_addr s) (closed s) (pending s) ((c, None) :: results s)
      | Cached t =>
          MkSys (pool s) (next_addr s) (closed s) (pending s) ((c, Some t) :: results s)
      | Miss => MkSys (pool s) (next_addr s) (closed s) (TGet c :: pending s) (results s)
      end
  | ORemove c =>
      let '(p, t) := remove_locked (pool s) c in
      MkSys p (next_addr s) (closed s)
        ((match t with Some t => [TClose t] | None => [] end) ++ pending s)%list (results s)
  | OCloseAll =>
      let '(p, ts) := closeAll_locked (pool s) in
      MkSys p (next_addr s) (closed s) (map TClose ts ++ pending s)%list (results s)
  | OPending i =>
      match pending s !! i with
      | None => s
      | Some (TClose t) =>
          MkSys (pool s) (next_addr s) (t :: closed s) (remove_nth i (pending s)) (results s)
      | Some (TGet c) =>
          let '(p, n, r) := getOrCreate_write (pool s) (next_addr s) c in
          MkSys p n (closed s) (remove_nth i (pending s)) ((c, r) :: results s)
      end
  end.

Definition init_sys : sys := MkSys newClusterTransportPool 0 [] [] [].

Definition run (s : sys) (ops : list op) : sys := fold_left exec ops s.

(** ** The informer (startManagedClusterAddonWatcher) *)

(** What the informer hands over: an add-on, a tombstone around another
    object, or something else. *)
Inductive informer_obj :=
| ManagedClusterAddOn (name namespace : string)
| DeletedFinalStateUnknown (obj : informer_obj)
| UnknownObj.

(** [clusterProxyAddon]: the namespace, when the object is the add-on. *)
Definition clusterProxyAddon (obj : informer_obj) : option string :=
  match obj with
  | ManagedClusterAddOn name namespace =>
      if String.eqb name AddonName && negb (String.eqb namespace "")
      then Some namespace else None
  | _ => None
  end.

(** [deletedClusterProxyAddon]. *)
Definition deletedClusterProxyAddon (obj : informer_obj) : option string :=
  match clusterProxyAddon obj with
  | Some ns => Some ns
  | None =>
      match obj with
      | DeletedFinalStateUnknown inner => clusterProxyAddon inner
      | _ => None
      end
  end.

Inductive addon_event :=
| AddonAdd (obj : informer_obj)
| AddonUpdate (oldObj newObj : informer_obj)
| AddonDelete (obj : informer_obj).

(** The operation a handler performs on the pool. *)
Definition addon_handler (ev : addon_event) : option op :=
  match ev with
  | AddonAdd obj => OAllow <$> clusterProxyAddon obj
  | AddonUpdate _ newObj => OAllow <$> clusterProxyAddon newObj
  | AddonDelete obj => ORemove <$> deletedClusterProxyAddon obj
  end.

(** [startManagedClusterAddonWatcher]: register the handlers, deliver the
    initial events, wait for the cache. *)
Definition startManagedClusterAddonWatcher (s : sys) (registerErr : option goerror)
    (initial : list addon_event) (synced : bool) (ctxErr : option goerror) : sys * option goerror :=
  match registerErr with
  | Some e =>
      (s, Some (EWrap ("register managed cluster add-on event handler: " ++ error_string e) e))
  | None =>
      let s' := run s (omap addon_handler initial) in
      if synced then (s', None)
      else match ctxErr with
           | Some e => (s', Some e)
           | None => (s', Some (ENew "managed cluster add-on informer cache did not sync"))
           end
  end.

(** ** Invariants *)

Definition to_close (l : list todo) : list transport :=
  omap (λ x, match x with TClose t => Some t | TGet _ => None end) l.

Definition cached (p : clusterTransportPool) : list transport := (map_to_list (transports p)).*2.

(** Every transport ever created is exactly one of: cached, waiting to be
    closed, or closed. *)
Definition accounted (s : sys) : Prop :=
  map addr (cached (pool s) ++ to_close (pending s) ++ closed s)%list ≡ₚ seq 0 (next_addr s).

(** Only allowed clusters have a cached transport, and it is their own. *)
Definition cache_ok (p : clusterTransportPool) : Prop :=
  ∀ c t, transports p !! c = Some t → c ∈ allowed p ∧ for_cluster t = c.

Definition sys_ok (s : sys) : Prop := cache_ok (pool s) ∧ accounted s.

(** ** Lemmas *)

Lemma cached_insert p c t a :
  transports p !! c = None →
  cached (MkPool a (<[c := t]> (transports p))) ≡ₚ t :: cached p.
Proof. intros H. unfold cached. cbn. by rewrite map_to_list_insert. Qed.

Lemma cached_delete p c t a :
  transports p !! c = Some t →
  cached p ≡ₚ t :: cached (MkPool a (delete c (transports p))).
Proof.
  intros H. unfold cached. cbn. rewrite <- (insert_id _ _ _ H) at 1.
  rewrite <- insert_delete_eq, map_to_list_insert by apply lookup_delete_eq. done.
Qed.

Lemma remove_nth_perm {A} (l : list A) i x : l !! i = Some x → l ≡ₚ x :: remove_nth i l.
Proof.
  intros H. unfold remove_nth. rewrite <- (take_drop_middle _ _ _ H) at 1.
  by rewrite Permutation_middle.
Qed.

Lemma to_close_perm l i x : l !! i = Some x →
  to_close l ≡ₚ to_close [x] ++ to_close (remove_nth i l).
Proof.
  intros H. unfold to_close. rewrite <- omap_app.
  by rewrite (remove_nth_perm _ _ _ H) at 1.
Qed.

Lemma to_close_map ts l : to_close (map TClose ts ++ l)%list = (ts ++ to_close l)%list.
Proof.
  unfold to_close. rewrite omap_app. f_equal. by induction ts as [|t ts IH]; cbn; rewrite ?IH.
Qed.

Lemma write_cache_ok p n c :
  cache_ok p → cache_ok (getOrCreate_write p n c).1.1.
Proof.
  intros Hc. unfold getOrCreate_write.
  destruct (bool_decide _) eqn:Ha; cbn; [|done]. bool_to_prop.
  destruct (transports p !! c) eqn:E; cbn; [done|].
  intros c' t'. cbn. rewrite lookup_insert. case_decide; [|apply Hc].
  intros. inv_ok. by subst.
Qed.

(** The conservation law at the write section. *)
Lemma write_accounted p n c rest :
  map addr (cached p ++ rest)%list ≡ₚ seq 0 n →
  let r := getOrCreate_write p n c in
  map addr (cached r.1.1 ++ rest)%list ≡ₚ seq 0 r.1.2.
Proof.
  intros H. unfold getOrCreate_write.
  destruct (bool_decide _); cbn [negb fst snd]; [|done].
  destruct (transports p !! c) eqn:E; cbn [fst snd]; [done|].
  rewrite cached_insert by done. cbn [map app addr].
  rewrite seq_S, H. cbn. by rewrite Permutation_app_comm.
Qed.

Lemma exec_ok s o : sys_ok s → sys_ok (exec s o).
Proof.
  intros [Hc Ha]. unfold sys_ok, accounted in *. destruct o as [c|c|c| |i]; cbn.
  - split; [|done]. intros c' t' H. destruct (Hc c' t' H). set_solver.
  - destruct (getOrCreate_read (pool s) c); done.
  - split.
    + intros c' t'. cbn. rewrite lookup_delete_Some. intros [Hne H].
      destruct (Hc c' t' H). set_solver.
    + destruct (transports (pool s) !! c) as [t|] eqn:E; cbn.
      * rewrite (cached_delete _ _ _ (allowed (pool s) ∖ {[c]}) E) in Ha. cbn in Ha.
        rewrite <- Ha. rewrite !map_app. cbn. by rewrite <- Permutation_middle, !map_app.
      * unfold cached in *. cbn. by rewrite delete_id.
  - split; [intros c t; cbn; by rewrite lookup_empty|].
    rewrite to_close_map, <- Ha. unfold cached. cbn. rewrite map_to_list_empty. cbn.
    by rewrite <- !app_assoc.
  - destruct (pending s !! i) as [[c|t]|] eqn:Ep; [| |done].
    + destruct (getOrCreate_write (pool s) (next_addr s) c) as [[p n] r] eqn:Ew. cbn.
      pose proof (write_cache_ok _ (next_addr s) c Hc) as Hc'. rewrite Ew in Hc'.
      split; [done|]. rewrite (to_close_perm _ _ _ Ep) in Ha. cbn in Ha.
      pose proof (write_accounted _ _ c _ Ha) as Ha'. by rewrite Ew in Ha'.
    + split; [done|]. rewrite <- Ha, (to_close_perm _ _ _ Ep). cbn.
      f_equiv. f_equiv. by rewrite <- Permutation_middle.
Qed.

Lemma init_ok : sys_ok init_sys.
Proof.
  split; [intros c t; cbn; by rewrite lookup_empty|].
  unfold accounted, cached. cbn. by rewrite map_to_list_empty.
Qed.

Lemma run_ok s ops : sys_ok s → sys_ok (run s ops).
Proof.
  revert s. induction ops as [|o ops IH]; intros s Hs; cbn; [done|]. by apply IH, exec_ok.
Qed.
#[export] Hint Resolve init_ok run_ok exec_ok : proxy.

(** ** Membership is decided by the last operation on the cluster *)

(** Specification: what the operations say about [c], newest wins. *)
Definition membership (c : string) (ops : list op) (initially : bool) : bool :=
  fold_left (λ b o, match o with
                    | OAllow c' => if String.eqb c' c then true else b
                    | ORemove c' => if String.eqb c' c then false else b
                    | OCloseAll => false
                    | OGetRead _ | OPending _ => b
                    end) ops initially.

Lemma write_allowed p n c : allowed (getOrCreate_write p n c).1.1 = allowed p.
Proof.
  unfold getOrCreate_write. destruct (bool_decide _); cbn; [|done].
  by destruct (transports p !! c).
Qed.

Lemma exec_allowed s o c :
  isAllowed (pool (exec s o)) c = membership c [o] (isAllowed (pool s) c).
Proof.
  unfold isAllowed. destruct o as [c'|c'|c'| |i]; cbn.
  - destruct (String.eqb_spec c' c); subst.
    + rewrite bool_decide_true; set_solver.
    + apply bool_decide_ext. set_solver.
  - by destruct (getOrCreate_read _ _).
  - destruct (String.eqb_spec c' c); subst.
    + rewrite bool_decide_false; set_solver.
    + apply bool_decide_ext. set_solver.
  - apply bool_decide_false. set_solver.
  - destruct (pending s !! i) as [[c'|t]|]; [|done|done].
    pose proof (write_allowed (pool s) (next_addr s) c') as H.
    destruct (getOrCreate_write _ _ _) as [[p n] r]. cbn in *. by rewrite H.
Qed.

Lemma run_allowed s ops c :
  isAllowed (pool (run s ops)) c = membership c ops (isAllowed (pool s) c).
Proof.
  revert s. induction ops as [|o ops IH]; intros s; [done|].
  change (run s (o :: ops)) with (run (exec s o) ops).
  rewrite IH, exec_allowed. done.
Qed.

(** A result recorded by a step is the denial or an allowed cluster's own
    transport. *)
Lemma exec_results s o :
  cache_ok (pool s) →
  results (exec s o) = results s ∨
  ∃ c r, results (exec s o) = (c, r) :: results s ∧
         match r with
         | None => c ∉ allowed (pool s)
         | Some t => c ∈ allowed (pool s) ∧ for_cluster t = c
                     ∧ transports (pool (exec s o)) !! c = Some t
         end.
Proof.
  intros Hc. destruct o as [c|c|c| |i]; cbn; auto.
  - unfold getOrCreate_read. destruct (bool_decide _) eqn:Ha; bool_to_prop; cbn.
    + destruct (transports (pool s) !! c) as [t|] eqn:E; cbn; [|auto].
      right. exists c, (Some t). destruct (Hc c t E); auto.
    + right. by exists c, None.
  - destruct (pending s !! i) as [[c|t]|]; cbn; auto. right.
    unfold getOrCreate_write. destruct (bool_decide _) eqn:Ha; bool_to_prop; cbn.
    + destruct (transports (pool s) !! c) as [t|] eqn:E; cbn; eexists _, _; split; try done.
      * cbn. destruct (Hc c t E). auto.
      * cbn. by rewrite lookup_insert_eq.
    + by exists c, None.
Qed.

(** C4: Whatever the interleaving of handlers and informer callbacks, a
    transport is cached only for an allowed cluster and was created for that
    very cluster, and every transport ever created is in exactly one place:
    cached, about to be closed, or closed once (none leaks, none is closed
    twice, none is closed while still cached). *)
Theorem pool_invariant_every_interleaving (ops : list op) :
  let s := run init_sys ops in
  cache_ok (pool s) ∧ accounted s ∧
  NoDup (map addr (cached (pool s) ++ to_close (pending s) ++ closed s)).
Proof.
  cbn. destruct (run_ok init_sys ops init_ok) as [Hc Ha]. split_and!; [done|done|].
  unfold accounted in Ha. rewrite Ha. apply NoDup_ListNoDup, seq_NoDup.
Qed.

(** A cluster is allowed exactly when the last allow/remove/closeAll on
    it was an allow; lookups, transport creation and closing in between never
    change membership. *)
Theorem pool_membership_last_event (ops : list op) (c : string) :
  isAllowed (pool (run init_sys ops)) c = membership c ops false.
Proof. rewrite run_allowed. f_equal. Qed.

Lemma no_result_while_denied s ops c :
  sys_ok s → isAllowed (pool s) c = false → ¬ In (OAllow c) ops →
  ∀ t, In (c, Some t) (results (run s ops)) → In (c, Some t) (results s).
Proof.
  revert s. induction ops as [|o ops IH]; intros s Hs Hd Hno t; [done|]. cbn. intros Hin.
  assert (Hd' : isAllowed (pool (exec s o)) c = false).
  { rewrite exec_allowed, Hd. destruct o; cbn; try done.
    - destruct (String.eqb_spec clusterName c); [|done]. subst. exfalso. apply Hno. by left.
    - by destruct (String.eqb clusterName c). }
  apply IH in Hin; [|auto with proxy|done|intros ?; apply Hno; by right].
  destruct (exec_results s o (proj1 Hs)) as [Hr|(c' & r & Hr & Hc)]; rewrite Hr in Hin; [done|].
  destruct Hin as [Heq|]; [|done]. simplify_eq. unfold isAllowed in Hd. bool_to_prop.
  by destruct Hc.
Qed.

(** C5: Once a cluster's add-on is removed, no request obtains a transport
    for it until it is allowed again, even a [getOrCreate] that had passed
    the read section before the removal, and no transport for it is cached. *)
Theorem removed_cluster_unreachable (before after : list op) (c : string)
  (Hno : ¬ In (OAllow c) after) :
  let s := run init_sys (before ++ [ORemove c]) in
  let s' := run s after in
  transports (pool s') !! c = None ∧
  ∀ t, In (c, Some t) (results s') → In (c, Some t) (results s).
Proof.
  cbn. set (s := run init_sys (before ++ [ORemove c])).
  assert (Hs : sys_ok s) by (apply run_ok, init_ok).
  assert (Hd : isAllowed (pool s) c = false).
  { unfold s. rewrite run_allowed. unfold membership. rewrite fold_left_app. cbn.
    by rewrite String.eqb_refl. }
  split; [|by apply no_result_while_denied].
  destruct (transports (pool (run s after)) !! c) as [t|] eqn:E; [|done]. exfalso.
  destruct (run_ok s after Hs) as [Hc _]. destruct (Hc c t E) as [Hin _].
  assert (H : isAllowed (pool (run s after)) c = false); [|unfold isAllowed in H; by bool_to_prop].
  rewrite run_allowed, Hd. clear -Hno. induction after as [|o after IH] using rev_ind; [done|].
  unfold membership in *. rewrite fold_left_app. cbn. rewrite IH.
  - destruct o; try done.
    + destruct (String.eqb_spec clusterName c); [|done]. subst.
      exfalso. apply Hno, in_or_app. right. by left.
    + by destruct (String.eqb clusterName c).
  - intros H. apply Hno, in_or_app. by left.
Qed.

(** The interleaving in which the removal falls between the two sections of
    a [getOrCreate]. *)
Lemma removed_cluster_unreachable_witness :
  let s := run init_sys ([OAllow "cluster1"; OGetRead "cluster1"] ++ [ORemove "cluster1"]) in
  let s' := run s [OPending 0] in
  transports (pool s') !! "cluster1" = None ∧
  ∀ t, In ("cluster1", Some t) (results s') → In ("cluster1", Some t) (results s).
Proof.
  apply (removed_cluster_unreachable [OAllow "cluster1"; OGetRead "cluster1"] [OPending 0] "cluster1").
  intros [H|[]]. discriminate H.
Defined.

Example removed_in_between :
  results (run init_sys [OAllow "cluster1"; OGetRead "cluster1"; ORemove "cluster1"; OPending 0])
  = [("cluster1", None)].
Proof. reflexivity. Qed.

(** ** [getOrCreate] as one call *)

(** [getOrCreate] on a pool nobody else is touching: a cluster that is
    not allowed gets nothing and the pool is unchanged; an allowed one gets
    its cached transport, or a fresh one that is cached from then on, and
    calling again returns the same transport without creating another. *)
Theorem getOrCreate_correct (p : clusterTransportPool) (next : nat) (c : string) :
  let '(p', next', r) := getOrCreate p next c in
  (r = None ↔ isAllowed p c = false) ∧
  allowed p' = allowed p ∧
  (∀ c', c' ≠ c → transports p' !! c' = transports p !! c') ∧
  match r with
  | None => p' = p ∧ next' = next
  | Some t =>
      transports p' !! c = Some t ∧
      (transports p !! c = Some t ∧ p' = p ∧ next' = next
       ∨ transports p !! c = None ∧ t = MkTransport next c ∧ next' = S next) ∧
      getOrCreate p' next' c = (p', next', Some t)
  end.
Proof.
  unfold getOrCreate at 1, getOrCreate_read, getOrCreate_write, isAllowed.
  destruct (bool_decide _) eqn:Ha; cbn; [|by split_and!].
  destruct (transports p !! c) as [t|] eqn:E; cbn.
  - split_and!; try done; [by left|].
    unfold getOrCreate, getOrCreate_read. by rewrite Ha, E.
  - split_and!; try done.
    + intros c' Hne. by rewrite lookup_insert_ne.
    + by rewrite lookup_insert_eq.
    + by right.
    + unfold getOrCreate, getOrCreate_read. cbn. by rewrite Ha, lookup_insert_eq.
Qed.

(** ** The watcher *)

Definition adds (c : string) (ev : addon_event) : Prop :=
  match ev with
  | AddonAdd obj | AddonUpdate _ obj => clusterProxyAddon obj = Some c
  | AddonDelete _ => False
  end.

Definition deletes (c : string) (ev : addon_event) : Prop :=
  match ev with
  | AddonDelete obj => deletedClusterProxyAddon obj = Some c
  | _ => False
  end.

Lemma clusterProxyAddon_nonempty obj c : clusterProxyAddon obj = Some c → c ≠ "".
Proof.
  destruct obj as [name ns| |]; cbn; try discriminate.
  destruct (String.eqb_spec ns ""), (String.eqb name AddonName); cbn; congruence.
Qed.

Lemma handler_membership c ev b :
  (adds c ev ∧ membership c (omap addon_handler [ev]) b = true) ∨
  (deletes c ev ∧ membership c (omap addon_handler [ev]) b = false) ∨
  (¬ adds c ev ∧ ¬ deletes c ev ∧ membership c (omap addon_handler [ev]) b = b).
Proof.
  destruct ev as [obj|old obj|obj]; cbn;
    [destruct (clusterProxyAddon obj) as [c'|]|destruct (clusterProxyAddon obj) as [c'|]
    |destruct (deletedClusterProxyAddon obj) as [c'|]]; cbn;
    try (destruct (String.eqb_spec c' c)); subst; naive_solver congruence.
Qed.

Lemma membership_snoc c l o b :
  membership c (l ++ o)%list b = membership c o (membership c l b).
Proof. unfold membership. by rewrite fold_left_app. Qed.

Lemma handlers_membership c evs :
  membership c (omap addon_handler evs) false = true ↔
  ∃ pre ev post, evs = (pre ++ ev :: post)%list ∧ adds c ev ∧ Forall (λ e, ¬ deletes c e) post.
Proof.
  induction evs as [|ev evs IH] using rev_ind.
  - split; [done|]. intros (pre & ev & post & H & _). by destruct pre.
  - rewrite omap_app, membership_snoc.
    destruct (handler_membership c ev (membership c (omap addon_handler evs) false))
      as [[Ha ->]|[[Hd ->]|(Hna & Hnd & ->)]].
    + split; [|done]. intros _. exists evs, ev, []. auto.
    + split; [done|]. intros (pre & ev' & post & H & Ha & Hp).
      destruct post as [|e post _] using rev_ind.
      * apply app_inj_2 in H as [_ H]; [|done]. simplify_eq. destruct ev'; by destruct Ha, Hd.
      * rewrite app_comm_cons, app_assoc in H. apply app_inj_2 in H as [_ H]; [|done].
        simplify_eq. apply Forall_app in Hp as [_ Hp]. by inversion Hp.
    + rewrite IH. split.
      * intros (pre & ev' & post & -> & Ha & Hp). exists pre, ev', (post ++ [ev])%list.
        rewrite <- app_assoc. split_and!; [done|done|]. apply Forall_app. split; [done|]. by apply Forall_singleton.
      * intros (pre & ev' & post & H & Ha & Hp).
        destruct post as [|e post _] using rev_ind.
        -- apply app_inj_2 in H as [_ H]; [|done]. by simplify_eq.
        -- rewrite app_comm_cons, app_assoc in H. apply app_inj_2 in H as [H ?]; [|done].
           apply Forall_app in Hp as [Hp _].
           by exists pre, ev', post.
Qed.

(** After a successful start the pool's members are exactly the
    namespaces of the cluster-proxy add-ons in the initial list that were not
    deleted afterwards; start succeeds exactly when the handler registered
    and the cache synced; the empty cluster name is never a member. *)
Theorem watcher_membership (registerErr ctxErr : option goerror) (initial : list addon_event)
    (synced : bool) (c : string) :
  let '(s, err) := startManagedClusterAddonWatcher init_sys registerErr initial synced ctxErr in
  (err = None ↔ registerErr = None ∧ synced = true) ∧
  (err = None →
     (isAllowed (pool s) c = true ↔
        ∃ pre ev post, initial = (pre ++ ev :: post)%list ∧ adds c ev ∧
                       Forall (λ e, ¬ deletes c e) post)) ∧
  (isAllowed (pool s) c = true → c ≠ "").
Proof.
  assert (Hm : isAllowed (pool (run init_sys (omap addon_handler initial))) c = true ↔
        ∃ pre ev post, initial = (pre ++ ev :: post)%list ∧ adds c ev ∧
                       Forall (λ e, ¬ deletes c e) post).
  { rewrite run_allowed. apply handlers_membership. }
  assert (Hne : isAllowed (pool (run init_sys (omap addon_handler initial))) c = true → c ≠ "").
  { rewrite Hm. intros (? & ev & ? & _ & Ha & _).
    destruct ev; cbn in Ha; try done; by eapply clusterProxyAddon_nonempty. }
  unfold startManagedClusterAddonWatcher. destruct registerErr as [e|].
  { split_and!; [split; [done|by intros [? _]]|done|done]. }
  destruct synced, ctxErr as [e|]; (split_and!; [naive_solver | done | done]).
Qed.
