(* ===== verification/HttpServer.v ===== *)
(** * Serving and draining (pkg/utils/http_server.go)

    Both proxies run a public HTTPS server beside a health server, and
    leave in a fixed order when the context is cancelled: readiness off,
    wait [MinDuration], shut the public server down, give up after
    [Timeout].  [runHTTPServers] is a state machine whose moves are its
    [select]s and the return of [Shutdown]; the environment cancels the
    context, advances the clock, stops a server, opens and finishes
    requests.  A move is a label, [exec_srv] is executable, and the step
    relation is "some label is enabled", so that a [select] with two ready
    branches may take either. *)

From S2P Require Import Prelude GoStrings.

Local Open Scope string_scope.
Local Open Scope Z_scope.

(** ** Data *)

(** [time.Duration], in nanoseconds. *)
Definition second : Z := 1000000000.
Definition DefaultDrainTimeout : Z := 30 * second.
Definition DefaultMinDrainDuration : Z := 10 * second.

Record DrainConfig := MkDrain { Timeout : Z; MinDuration : Z }.

Record httpServerResult := MkServerResult { health : bool; err : option goerror }.

(** ** Operations *)

Definition DrainConfig_Validate (c : DrainConfig) : result unit :=
  if Timeout c <? 0 then Err (ENew "drain-timeout must not be negative")
  else if MinDuration c <? 0 then Err (ENew "min-drain-duration must not be negative")
  else if MinDuration c >? Timeout c
  then Err (ENew "min-drain-duration must not exceed drain-timeout")
  else Ok ().

(** The values of the flags that [AddFlags] registers, unless given. *)
Definition DrainConfig_defaults : DrainConfig :=
  MkDrain DefaultDrainTimeout DefaultMinDrainDuration.

(** The checks that [NewHealthProbeServer] registers on /healthz: the ping
    and the custom ones, named by position. *)
Definition check_name (i : nat) : string := "custom-healthz-checker-" ++ Itoa (Z.of_nat i).

Definition add_check (mi : gmap string (result unit) * nat) (check : result unit)
  : gmap string (result unit) * nat :=
  (<[check_name mi.2 := check]> mi.1, S mi.2).

Definition health_checks (customChecks : list (result unit)) : gmap string (result unit) :=
  (fold_left add_check customChecks ({["healthz-ping" := Ok ()]}, 0%nat)).1.

(** The handler of /readyz. *)
Definition readyz (ready : bool) : Z * string :=
  if negb ready then (503, "draining") else (200, "").

Definition unexpectedServerError (r : httpServerResult) : goerror :=
  match err r with
  | None => ENew "HTTP server stopped unexpectedly"
  | Some e =>
      if health r
      then EWrap ("health probe HTTP server failed: " ++ error_string e) e
      else EWrap ("public proxy HTTP server failed: " ++ error_string e) e
  end.

(** How the error of [public.Shutdown] becomes the result. *)
Definition drain_result (e : option goerror) : option goerror :=
  match e with
  | None => None
  | Some e =>
      if errors_is e EDeadlineExceeded then None
      else Some (EWrap ("drain public proxy HTTP requests: " ++ error_string e) e)
  end.

(** ** The state machine of [runHTTPServers] *)

Inductive phase :=
| Serving                          (* the first select *)
| MinDrain (start : Z)             (* the second select *)
| ShuttingDown (start : Z)         (* inside public.Shutdown *)
| Returned (e : option goerror).

Record srv := MkSrv {
  ctxDone : bool;
  ready : bool;
  now : Z;
  active : nat;                    (* requests in flight on the public server *)
  publicUp : bool;                 (* servePublic has not returned *)
  healthUp : bool;                 (* health.ListenAndServe has not returned *)
  serverResults : list httpServerResult;   (* the buffered channel *)
  at_ : phase
}.

Definition goto (s : srv) (p : phase) : srv :=
  MkSrv (ctxDone s) (ready s) (now s) (active s) (publicUp s) (healthUp s) (serverResults s) p.

Inductive label :=
(* the environment *)
| LCancel
| LTick (d : Z)
| LServerStop (health : bool) (err : option goerror)
| LRequest
| LRequestDone
(* the code *)
| LCtxDone
| LResult
| LTimer
| LShutdownIdle (lnerr : option goerror)
| LShutdownDeadline.

(** The public server accepts requests until [Shutdown] closes its
    listeners, or it stops on its own. *)
Definition accepting (s : srv) : bool :=
  publicUp s && match at_ s with Serving | MinDrain _ => true | _ => false end.

(** Receiving from [serverResults] ends the run. *)
Definition receive (s : srv) : option srv :=
  match serverResults s with
  | [] => None
  | r :: rest =>
      Some (MkSrv (ctxDone s) (ready s) (now s) (active s) (publicUp s) (healthUp s) rest
              (Returned (Some (unexpectedServerError r))))
  end.

Definition exec_srv (cfg : DrainConfig) (s : srv) (l : label) : option srv :=
  match l with
  | LCancel =>
      Some (MkSrv true (ready s) (now s) (active s) (publicUp s) (healthUp s)
              (serverResults s) (at_ s))
  | LTick d =>
      if d <? 0 then None
      else Some (MkSrv (ctxDone s) (ready s) (now s + d) (active s) (publicUp s) (healthUp s)
                   (serverResults s) (at_ s))
  | LServerStop h e =>
      if h then
        if healthUp s then
          Some (MkSrv (ctxDone s) (ready s) (now s) (active s) (publicUp s) false
                  (serverResults s ++ [MkServerResult true e])%list (at_ s))
        else None
      else
        if publicUp s then
          Some (MkSrv (ctxDone s) (ready s) (now s) (active s) false (healthUp s)
                  (serverResults s ++ [MkServerResult false e])%list (at_ s))
        else None
  | LRequest =>
      if accepting s then
        Some (MkSrv (ctxDone s) (ready s) (now s) (S (active s)) (publicUp s) (healthUp s)
                (serverResults s) (at_ s))
      else None
  | LRequestDone =>
      match active s with
      | O => None
      | S n => Some (MkSrv (ctxDone s) (ready s) (now s) n (publicUp s) (healthUp s)
                       (serverResults s) (at_ s))
      end
  | LCtxDone =>
      match at_ s with
      | Serving =>
          if ctxDone s then
            let s' := MkSrv (ctxDone s) false (now s) (active s) (publicUp s) (healthUp s)
                        (serverResults s)
                        (if MinDuration cfg >? 0 then MinDrain (now s) else ShuttingDown (now s)) in
            Some s'
          else None
      | _ => None
      end
  | LResult =>
      match at_ s with
      | Serving | MinDrain _ => receive s
      | _ => None
      end
  | LTimer =>
      match at_ s with
      | MinDrain start =>
          if start + MinDuration cfg <=? now s then Some (goto s (ShuttingDown start)) else None
      | _ => None
      end
  | LShutdownIdle lnerr =>
      match at_ s with
      | ShuttingDown _ =>
          match active s with
          | O => Some (goto s (Returned (drain_result lnerr)))
          | S _ => None
          end
      | _ => None
      end
  | LShutdownDeadline =>
      match at_ s with
      | ShuttingDown start =>
          if start + Timeout cfg <=? now s
          then Some (goto s (Returned (drain_result (Some EDeadlineExceeded)))) else None
      | _ => None
      end
  end.

Definition srv_step (cfg : DrainConfig) (s s' : srv) : Prop := ∃ l, exec_srv cfg s l = Some s'.

Fixpoint exec_trace (cfg : DrainConfig) (s : srv) (ls : list label) : option srv :=
  match ls with
  | [] => Some s
  | l :: ls => s' ← exec_srv cfg s l; exec_trace cfg s' ls
  end.

(** [RunHTTPServers]: nothing is started when the context is already done. *)
Definition RunHTTPServers (ctxDone0 : bool) (now0 : Z) : srv :=
  if ctxDone0 then MkSrv true false now0 0 false false [] (Returned None)
  else MkSrv false true now0 0 true true [] Serving.

(** ** Invariant *)

(** Draining started at [start], and the context was done by then. *)
Definition drained_since (s : srv) (start : Z) : Prop :=
  ctxDone s = true ∧ ready s = false ∧ start <= now s.

Definition srv_inv (cfg : DrainConfig) (s : srv) : Prop :=
  match at_ s with
  | Serving => ready s = true
  | MinDrain start => drained_since s start ∧ 0 < MinDuration cfg
  | ShuttingDown start =>
      drained_since s start ∧ start + MinDuration cfg <= now s
  | Returned None => ctxDone s = true ∧ ready s = false
  | Returned (Some _) => True
  end.

Lemma srv_inv_step cfg s s' : srv_inv cfg s → srv_step cfg s s' → srv_inv cfg s'.
Proof.
  unfold srv_inv, drained_since. intros Hi [l Hl].
  destruct l; cbn in Hl; unfold receive, goto in Hl;
    repeat (break_in Hl; cbn in *; try done); inv_ok; cbn;
    repeat match goal with
    | H : (_ <? _) = false |- _ => apply Z.ltb_ge in H
    | H : (_ <=? _) = true |- _ => apply Z.leb_le in H
    | H : (_ >? _) = true |- _ => apply Z.gtb_lt in H
    | H : (_ >? _) = false |- _ => rewrite Z.gtb_ltb, Z.ltb_ge in H
    | H : at_ _ = _ |- _ => rewrite H in *
    end; try done; try (repeat case_match; naive_solver lia).
Qed.

Lemma srv_inv_init cfg c n : srv_inv cfg (RunHTTPServers c n).
Proof. by destruct c. Qed.

Lemma srv_reachable_inv cfg c n s :
  steps (srv_step cfg) (RunHTTPServers c n) s → srv_inv cfg s.
Proof. apply steps_invariant; eauto using srv_inv_init, srv_inv_step. Qed.

(** ** Correctness *)

Lemma DrainConfig_Validate_ok c :
  DrainConfig_Validate c = Ok () ↔ 0 <= MinDuration c <= Timeout c.
Proof.
  unfold DrainConfig_Validate. rewrite Z.gtb_ltb.
  destruct (Z.ltb_spec (Timeout c) 0), (Z.ltb_spec (MinDuration c) 0),
    (Z.ltb_spec (Timeout c) (MinDuration c)); split; intros; try done; lia.
Qed.

(** How a run may end. *)
Inductive ends_with (cfg : DrainConfig) (s : srv) : option goerror → Prop :=
| ends_idle : active s = 0%nat → ends_with cfg s None
| ends_deadline start :
    at_ s = ShuttingDown start → start + Timeout cfg <= now s → ends_with cfg s None
| ends_server r :
    r ∈ serverResults s → ends_with cfg s (Some (unexpectedServerError r))
| ends_listener e :
    errors_is e EDeadlineExceeded = false →
    ends_with cfg s
      (Some (EWrap ("drain public proxy HTTP requests: " ++ error_string e) e)).

Lemma step_to_returned cfg s s' e :
  srv_step cfg s s' → at_ s' = Returned e → at_ s = Returned e ∨ ends_with cfg s e.
Proof.
  intros [l Hl] He.
  destruct l; cbn in Hl; unfold receive, goto in Hl;
    repeat (break_in Hl; cbn in *; try done); inv_ok; cbn in *; simplify_eq;
    try (by left); right.
  all: match goal with
    | |- ends_with _ _ (Some (unexpectedServerError _)) =>
        apply ends_server;
        match goal with H : serverResults _ = _ |- _ => rewrite H; apply list_elem_of_here end
    | H : active _ = _ |- _ =>
        match goal with o : option goerror |- _ => destruct o as [e|]; cbn end;
        [destruct (errors_is e _) eqn:E; [by apply ends_idle | by apply ends_listener]
        |by apply ends_idle]
    | H : (_ <=? _) = true |- _ =>
        apply Z.leb_le in H; by eapply ends_deadline
    | _ => idtac
    end.
Qed.

(** C18: The order of a shutdown, in every reachable state: readiness is off
    before the public server stops listening, at least [MinDuration] has
    passed since then, and the run returns without an error only after the
    context was cancelled, with readiness off, and with no request in flight
    or [Timeout] elapsed.  A run that ends on anything else reports it. *)
Theorem shutdown_order (cfg : DrainConfig) (c : bool) (n : Z) (s : srv)
  (Hreach : steps (srv_step cfg) (RunHTTPServers c n) s) :
  (∀ start, at_ s = ShuttingDown start →
     ctxDone s = true ∧ ready s = false ∧ start + MinDuration cfg <= now s) ∧
  (ready s = false → accepting s = true → ctxDone s = true) ∧
  (∀ s' e, srv_step cfg s s' → at_ s' = Returned e → at_ s ≠ Returned e →
     ends_with cfg s e ∧ (e = None → ctxDone s' = true ∧ ready s' = false)).
Proof.
  pose proof (srv_reachable_inv _ _ _ _ Hreach) as Hi. split_and!.
  - intros start Hs. unfold srv_inv, drained_since in Hi. rewrite Hs in Hi. naive_solver.
  - unfold accepting, srv_inv, drained_since in *. intros Hr Ha.
    destruct (at_ s) as [| | |[?|]]; bool_to_prop; naive_solver congruence.
  - intros s' e Hst He Hne. split.
    + by destruct (step_to_returned _ _ _ _ Hst He).
    + intros ->. pose proof (srv_inv_step _ _ _ Hi Hst) as Hi'.
      unfold srv_inv in Hi'. by rewrite He in Hi'.
Qed.

Definition code_label (l : label) : bool :=
  match l with
  | LCtxDone | LResult | LTimer | LShutdownIdle _ | LShutdownDeadline => true
  | _ => false
  end.

Definition rank (s : srv) : nat :=
  match at_ s with Serving => 3 | MinDrain _ => 2 | ShuttingDown _ => 1 | Returned _ => 0 end.

(** The drain deadline, once there is one, has passed. *)
Definition past_deadline (cfg : DrainConfig) (s : srv) : Prop :=
  match at_ s with
  | MinDrain start | ShuttingDown start => start + Timeout cfg <= now s
  | _ => True
  end.

(** C19: A cancelled run returns: with valid durations, every move of the code
    brings it closer to its return, the environment cannot push it back, and
    once the drain deadline has passed the code always has a move, so requests
    that never finish cannot keep the process alive. *)
Theorem drain_terminates (cfg : DrainConfig) (c : bool) (n : Z) (s : srv)
  (Hcfg : DrainConfig_Validate cfg = Ok ())
  (Hreach : steps (srv_step cfg) (RunHTTPServers c n) s) :
  (∀ l s', exec_srv cfg s l = Some s' →
     if code_label l then (rank s' < rank s)%nat else rank s' = rank s) ∧
  (ctxDone s = true → past_deadline cfg s → rank s ≠ 0%nat →
     ∃ l s', code_label l = true ∧ exec_srv cfg s l = Some s').
Proof.
  apply DrainConfig_Validate_ok in Hcfg. split.
  - intros l s' Hl. unfold rank.
    destruct l; cbn in Hl; unfold receive, goto in Hl;
      repeat (break_in Hl; cbn in *; try done); inv_ok; cbn; simplify_eq;
      try case_match; try done; cbn; lia.
  - intros Hc Hp Hr. unfold past_deadline, rank in *.
    destruct (at_ s) as [|start|start|e] eqn:E; [| | |done].
    + exists LCtxDone. cbn. rewrite E, Hc. eauto.
    + exists LTimer. cbn. rewrite E, (proj2 (Z.leb_le _ _)) by lia. eauto.
    + exists LShutdownDeadline. cbn. rewrite E, (proj2 (Z.leb_le _ _)) by lia. eauto.
Qed.

(** ** A run: a request outlives the drain timeout *)

Definition drain_trace : list label :=
  [LRequest; LCancel; LCtxDone; LRequest; LTick DefaultMinDrainDuration; LTimer;
   LTick DefaultDrainTimeout].

Definition after_drain_trace : srv :=
  MkSrv true false (DefaultMinDrainDuration + DefaultDrainTimeout) 2 true true []
    (ShuttingDown 0).

Lemma exec_trace_steps cfg s ls s' : exec_trace cfg s ls = Some s' → steps (srv_step cfg) s s'.
Proof.
  revert s. induction ls as [|l ls IH]; intros s H; cbn in H.
  - inv_ok. constructor.
  - apply bind_Some in H as (s1 & H1 & H2). eapply steps_trans; [|by apply IH].
    apply steps_one. by exists l.
Qed.

Lemma shutdown_order_witness :
  steps (srv_step DrainConfig_defaults) (RunHTTPServers false 0) after_drain_trace ∧
  (ctxDone after_drain_trace = true ∧ ready after_drain_trace = false ∧
   0 + MinDuration DrainConfig_defaults <= now after_drain_trace).
Proof.
  assert (H : steps (srv_step DrainConfig_defaults) (RunHTTPServers false 0) after_drain_trace).
  { apply (exec_trace_steps _ _ drain_trace). reflexivity. }
  split; [exact H|].
  exact (proj1 (shutdown_order DrainConfig_defaults false 0 after_drain_trace H) 0 eq_refl).
Defined.

Lemma drain_terminates_witness :
  ∃ l s', code_label l = true ∧ exec_srv DrainConfig_defaults after_drain_trace l = Some s'.
Proof.
  assert (H : steps (srv_step DrainConfig_defaults) (RunHTTPServers false 0) after_drain_trace).
  { apply (exec_trace_steps _ _ drain_trace). reflexivity. }
  apply (drain_terminates DrainConfig_defaults false 0 after_drain_trace eq_refl H);
    [reflexivity | vm_compute; discriminate | discriminate].
Defined.

(** ** The health endpoint *)

Lemma check_name_inj i j : check_name i = check_name j → i = j.
Proof. unfold check_name. intros H. simplify_eq. apply Itoa_inj in H. lia. Qed.

Lemma health_checks_fold cs m i k :
  (∀ j, (i <= j)%nat → k ≠ check_name j) → (fold_left add_check cs (m, i)).1 !! k = m !! k.
Proof.
  revert m i. induction cs as [|c cs IH]; intros m i Hk; [done|].
  cbn [fold_left]. unfold add_check at 2. cbn [fst snd]. rewrite IH by (intros; apply Hk; lia). rewrite lookup_insert_ne; [done|].
  intros H. symmetry in H. revert H. apply Hk. lia.
Qed.

Lemma health_checks_lookup cs m i j c :
  cs !! j = Some c → (fold_left add_check cs (m, i)).1 !! check_name (i + j) = Some c.
Proof.
  revert m i j. induction cs as [|c0 cs IH]; intros m i [|j] H; cbn in *; inv_ok; try done.
  - unfold add_check at 2. cbn [fst snd]. rewrite Nat.add_0_r, health_checks_fold.
    + by rewrite lookup_insert_eq.
    + intros j Hj E. apply check_name_inj in E. lia.
  - replace (i + S j)%nat with (S i + j)%nat by lia. by apply IH.
Qed.

(** The liveness endpoint runs the ping and every custom check: the names
    the checks are registered under are distinct, so none replaces another. *)
Theorem health_checks_complete (customChecks : list (result unit)) :
  health_checks customChecks !! "healthz-ping" = Some (Ok ()) ∧
  ∀ i check, customChecks !! i = Some check →
    health_checks customChecks !! check_name i = Some check.
Proof.
  unfold health_checks. split.
  - rewrite health_checks_fold; [by rewrite lookup_singleton_eq|].
    intros j _ E. discriminate E.
  - intros i check H. by apply (health_checks_lookup _ _ 0).
Qed.
