(* ===== verification/UserServer.v ===== *)
(** * The user-server (pkg/userserver/user_server.go)

    The hub side of the proxy: configuration and its validation, start-up,
    and the handler of a user's request.  The handler takes two steps on the
    transport pool (the membership check, then [getOrCreate]) and other
    handlers and the informer run in between, so it is given the operations
    that interfere after its first step ([between]) and between the two
    sections of [getOrCreate] ([mid]); the theorems hold for all of them. *)

From S2P Require Import Prelude GoStrings Sha256 Naming Http GoUrl Routing Allowlist.
From S2P Require Import TransportPool HttpServer.

Local Open Scope string_scope.

(** ** Data *)

Definition ExposedServicesConfigMapName : string := "cluster-proxy-exposed-services".

Record userServer := MkUserServer {
  proxyServerHost : string;
  proxyServerPort : Z;
  proxyCACertPath : string;
  proxyCertPath : string;
  proxyKeyPath : string;
  serverCert : string;
  serverKey : string;
  serverPort : Z;
  serviceProxyCACertPath : string;
  agentInstallNamespace : string;
  drain : DrainConfig;
  exposedServicesConfigMap : string;
  serviceAllowlist : option ServiceAllowlist;   (* nil until [init] *)
  maxConnsPerHost : Z;
  maxIdleConnsPerHost : Z;
  idleConnTimeout : Z;
  enableHTTP2 : bool;
  serviceProxyRootCA : option string;           (* the certificate pool *)
  transportPool : sys
}.

(** The settings of an [http.Transport] that the code chooses. *)
Record transport_config := MkTransportConfig {
  MaxConnsPerHost : Z;
  MaxIdleConns : Z;
  MaxIdleConnsPerHost : Z;
  IdleConnTimeout : Z;
  TLSHandshakeTimeout : Z;
  RootCAs : option string;
  MinVersion : Z;
  ForceAttemptHTTP2 : bool;
  ExpectContinueTimeout : Z
}.

Definition VersionTLS12 : Z := 771.

(** Which transport carries a request: one of the pool, or one of its own
    over a dedicated tunnel. *)
Inductive via := Pooled (t : transport) | Dedicated (tunnel : nat).

Record outgoing := MkOutgoing {
  out_scheme : string;
  out_host : string;
  out_path : string;
  out_query : string;
  out_header : header;
  out_via : via
}.

Inductive response :=
| HttpError (code : Z) (message : string)
| Forwarded (o : outgoing)
| Panics.

(** ** Configuration *)

Definition newUserServer : userServer :=
  MkUserServer "" 0 "" "" "" "" "" 0 "" "" (MkDrain 0 0) "" None 10 10 (90 * second) true None
    init_sys.

(** The defaults that [AddFlags] installs. *)
Definition AddFlags (k : userServer) : userServer :=
  MkUserServer (proxyServerHost k) (proxyServerPort k) (proxyCACertPath k) (proxyCertPath k)
    (proxyKeyPath k) (serverCert k) (serverKey k) (serverPort k) (serviceProxyCACertPath k)
    (agentInstallNamespace k) DrainConfig_defaults ExposedServicesConfigMapName
    (serviceAllowlist k) (maxConnsPerHost k) (maxIdleConnsPerHost k) (idleConnTimeout k) true
    (serviceProxyRootCA k) (transportPool k).

Definition Validate (k : userServer) : result unit :=
  _ ← DrainConfig_Validate (drain k);
  if String.eqb (serverCert k) "" then Err (ENew "the server-cert is required")
  else if String.eqb (serverKey k) "" then Err (ENew "the server-key is required")
  else if (serverPort k =? 0)%Z then Err (ENew "the server-port is required")
  else if String.eqb (serviceProxyCACertPath k) ""
  then Err (ENew "the serviceproxy-ca-cert is required")
  else Ok ().

Definition newCachedTransport (k : userServer) : transport_config :=
  MkTransportConfig (maxConnsPerHost k) (maxIdleConnsPerHost k) (maxIdleConnsPerHost k)
    (idleConnTimeout k) (10 * second) (serviceProxyRootCA k) VersionTLS12 (enableHTTP2 k)
    (1 * second).

Definition newUpgradeTransport (k : userServer) : transport_config :=
  MkTransportConfig 0 0 0 (idleConnTimeout k) (10 * second) (serviceProxyRootCA k) VersionTLS12
    false (1 * second).

Definition config_of (k : userServer) (v : via) : transport_config :=
  match v with
  | Pooled _ => newCachedTransport k
  | Dedicated _ => newUpgradeTransport k
  end.

(** ** The handler *)

Definition writeClusterNotFound (clusterName : string) : response :=
  HttpError 404 ("cluster " ++ Quote clusterName ++ " does not have the " ++ AddonName ++
                 " add-on installed").

Definition proxy_ErrorHandler (e : goerror) : response :=
  HttpError 502 ("proxy to anp-proxy-server failed because " ++ error_string e).

(** [getOrCreate] with the operations [mid] of others between its two
    critical sections. *)
Definition getOrCreate_during (s : sys) (c : string) (mid : list op) : sys * option transport :=
  match getOrCreate_read (pool s) c with
  | Denied => (s, None)
  | Cached t => (s, Some t)
  | Miss =>
      let s := run s mid in
      let '(p, n, r) := getOrCreate_write (pool s) (next_addr s) c in
      (MkSys p n (closed s) (pending s) (results s), r)
  end.

(** The target the request names. *)
Definition request_target (req : Request) : result TargetServiceConfig :=
  match GetProxyType (RequestURI req) with
  | ProxyTypeService => GetTargetServiceConfig (RequestURI req)
  | ProxyTypeKubeAPIServer => GetTargetServiceConfigForKubeAPIServer (RequestURI req)
  end.

(** The single-host reverse proxy on the rewritten request. *)
Definition forward (u : URL) (v : via) (req : Request) : response :=
  match reverse_proxy_headers req with
  | Err e => proxy_ErrorHandler e
  | Ok h =>
      Forwarded (MkOutgoing (Scheme u) (Host u) (singleJoiningSlash (Path u) (URLPath req))
                   (if String.eqb (Query u) "" || String.eqb (RawQuery req) ""
                    then Query u ++ RawQuery req else Query u ++ "&" ++ RawQuery req) h v)
  end.

(** Is the service on the allowlist?  [None]: the allowlist pointer is nil. *)
Definition service_permitted (k : userServer) (tsc : TargetServiceConfig) : option bool :=
  a ← serviceAllowlist k; Some (IsAllowed a tsc).

Section server.
Context `{UrlParse}.

(** [ServeHTTP].  [dump] is the result of [httputil.DumpRequest] when the
    log level asks for it, [getTunnel] what opening a tunnel gives. *)
Definition ServeHTTP (k : userServer) (dump : option (result unit)) (getTunnel : result nat)
    (between mid : list op) (req : Request) : sys * response :=
  let s := transportPool k in
  match dump with
  | Some (Err e) => (s, HttpError 400 (error_string e))
  | _ =>
  let proxyType := GetProxyType (RequestURI req) in
  match request_target req with
  | Err e => (s, HttpError 400 (error_string e))
  | Ok tsc =>
  if negb (isAllowed (pool s) (Cluster tsc)) then (s, writeClusterNotFound (Cluster tsc)) else
  match (if bool_decide (proxyType = ProxyTypeService) then service_permitted k tsc
         else Some true) with
  | None => (s, Panics)
  | Some false =>
      (s, HttpError 403 ("service " ++ Namespace tsc ++ "/" ++ Service tsc ++
                         " is not in the exposed services allowlist"))
  | Some true =>
  match url_parse (serviceProxyURL (Cluster tsc)) with
  | Err e => (s, HttpError 400 (error_string e))
  | Ok targetURL =>
  let s := run s between in
  if IsUpgradeRequest req then
    match getTunnel with
    | Err e => (s, HttpError 400 (error_string e))
    | Ok tunnel => (s, forward targetURL (Dedicated tunnel) (UpdateRequest tsc req))
    end
  else
    match getOrCreate_during s (Cluster tsc) mid with
    | (s, None) => (s, writeClusterNotFound (Cluster tsc))
    | (s, Some t) => (s, forward targetURL (Pooled t) (UpdateRequest tsc req))
    end
  end end end end.
End server.

(** ** Start-up *)

(** The outcome of starting one informer: the error of registering its
    handlers, the events delivered before the caller goes on, whether the
    cache synced, and the error of the context if it did not. *)
Record informer_start (Ev : Type) := MkInformerStart {
  registerErr : option goerror;
  initial : list Ev;
  synced : bool;
  ctxErr : option goerror
}.
Arguments MkInformerStart {Ev}.
Arguments registerErr {Ev}.
Arguments initial {Ev}.
Arguments synced {Ev}.
Arguments ctxErr {Ev}.

(** What [init] and [Run] get from outside: the libraries' results. *)
Record environment := MkEnvironment {
  podNamespace : string;
  getConfig : option goerror;
  kubeClient : option goerror;
  addonClient : option goerror;
  clientTLS : option goerror;             (* util.GetClientTLSConfig *)
  caPool : result string;                 (* certutil.NewPool *)
  addonInformer : informer_start addon_event;
  allowlistInformer : informer_start event;
  tlsWatcher : option goerror;
  configChecker : option goerror;
  serving : list op * option goerror      (* what happens while serving, and its end *)
}.

Definition set_rootCA (k : userServer) (ca : option string) : userServer :=
  MkUserServer (proxyServerHost k) (proxyServerPort k) (proxyCACertPath k) (proxyCertPath k)
    (proxyKeyPath k) (serverCert k) (serverKey k) (serverPort k) (serviceProxyCACertPath k)
    (agentInstallNamespace k) (drain k) (exposedServicesConfigMap k) (serviceAllowlist k)
    (maxConnsPerHost k) (maxIdleConnsPerHost k) (idleConnTimeout k) (enableHTTP2 k) ca
    (transportPool k).

Definition set_allowlist (k : userServer) (a : option ServiceAllowlist) : userServer :=
  MkUserServer (proxyServerHost k) (proxyServerPort k) (proxyCACertPath k) (proxyCertPath k)
    (proxyKeyPath k) (serverCert k) (serverKey k) (serverPort k) (serviceProxyCACertPath k)
    (agentInstallNamespace k) (drain k) (exposedServicesConfigMap k) a
    (maxConnsPerHost k) (maxIdleConnsPerHost k) (idleConnTimeout k) (enableHTTP2 k)
    (serviceProxyRootCA k) (transportPool k).

Definition set_pool (k : userServer) (s : sys) : userServer :=
  MkUserServer (proxyServerHost k) (proxyServerPort k) (proxyCACertPath k) (proxyCertPath k)
    (proxyKeyPath k) (serverCert k) (serverKey k) (serverPort k) (serviceProxyCACertPath k)
    (agentInstallNamespace k) (drain k) (exposedServicesConfigMap k) (serviceAllowlist k)
    (maxConnsPerHost k) (maxIdleConnsPerHost k) (idleConnTimeout k) (enableHTTP2 k)
    (serviceProxyRootCA k) s.

Section startup.
Context (UnmarshalStrict : string → result (list ExposedService)).

(** [init]: the server as it leaves it, and its error. *)
Definition init (k : userServer) (env : environment) : userServer * option goerror :=
  match clientTLS env with
  | Some e => (k, Some e)
  | None =>
  match caPool env with
  | Err e =>
      (set_rootCA k None,
       Some (EWrap ("failed to load service proxy ca cert: " ++ error_string e) e))
  | Ok ca =>
  let k := set_rootCA k (Some ca) in
  let i := addonInformer env in
  let '(s, err) := startManagedClusterAddonWatcher (transportPool k) (registerErr i) (initial i)
                     (synced i) (ctxErr i) in
  let k := set_pool k s in
  match err with
  | Some e => (k, Some (EWrap ("failed to start managed cluster add-on watcher: " ++
                               error_string e) e))
  | None =>
  let i := allowlistInformer env in
  match startServiceAllowlistWatcher UnmarshalStrict (registerErr i) (initial i) (synced i)
          (default ECanceled (ctxErr i)) with
  | Err e => (set_allowlist k None,
              Some (EWrap ("failed to start service allowlist watcher: " ++ error_string e) e))
  | Ok a => (set_allowlist k (Some a), None)
  end end end end.

(** The end of [Run]: the server, whether it ever accepted requests, and
    what [Run] returned. *)
Record run_outcome := MkRunOutcome {
  final : userServer;
  served : bool;
  returned : option goerror
}.

(** [defer k.transportPool.closeAll()], which closes every transport it
    took out of the pool before it returns. *)
Definition closing (k : userServer) : userServer :=
  let s := transportPool k in
  set_pool k (run s (OCloseAll :: repeat (OPending 0) (length (cached (pool s))))).

Definition wrap (prefix : string) (e : goerror) : option goerror :=
  Some (EWrap (prefix ++ error_string e) e).

Definition Run (k : userServer) (env : environment) : run_outcome :=
  match Validate k with
  | Err e => MkRunOutcome k false (Some e)
  | Ok _ =>
  if String.eqb (podNamespace env) "" then
    MkRunOutcome k false
      (Some (ENew "pod namespace is empty, please set the POD_NAMESPACE environment variable"))
  else
  match getConfig env with
  | Some e => MkRunOutcome k false (wrap "failed to get Kubernetes config: " e)
  | None =>
  match kubeClient env with
  | Some e => MkRunOutcome k false (wrap "failed to create kube client: " e)
  | None =>
  match addonClient env with
  | Some e => MkRunOutcome k false (wrap "failed to create add-on client: " e)
  | None =>
  match init k env with
  | (k, Some e) => MkRunOutcome k false (Some e)
  | (k, None) =>
  match tlsWatcher env with
  | Some e => MkRunOutcome (closing k) false (wrap "failed to start TLS ConfigMap watcher: " e)
  | None =>
  match configChecker env with
  | Some e => MkRunOutcome (closing k) false (wrap "failed to create config checker: " e)
  | None =>
      let k := set_pool k (run (transportPool k) (serving env).1) in
      MkRunOutcome (closing k) true (serving env).2
  end end end end end end end.
End startup.

(** ** Lemmas *)

Lemma service_proxy_host_plain c : plain_host (GenerateServiceProxyHost c) = true.
Proof.
  rewrite service_proxy_host_shape. unfold plain_host.
  pose proof (service_proxy_host_label c) as Hl. unfold is_dns1035_label in Hl. bool_to_prop.
  rewrite all_bytes_app. apply andb_true_iff. split; [|reflexivity].
  eapply all_bytes_mono; [|eassumption].
  intros x. unfold is_dns_byte, is_host_byte, is_letter.
  rewrite !orb_true_iff. tauto.
Qed.

(** The URL of a cluster's service-proxy always parses. *)
Lemma service_proxy_url_parses `{UrlParse} c :
  url_parse (serviceProxyURL c)
  = Ok (MkURL "https" (GenerateServiceProxyHost c ++ ":7443") "" "").
Proof.
  unfold serviceProxyURL. apply (url_parse_host_port "https"); [done| |done].
  apply service_proxy_host_plain.
Qed.

Lemma getOrCreate_during_some s c mid s' t :
  sys_ok s → getOrCreate_during s c mid = (s', Some t) →
  cache_ok (pool s') ∧ isAllowed (pool s') c = true ∧ transports (pool s') !! c = Some t ∧
  for_cluster t = c.
Proof.
  intros Hs. unfold getOrCreate_during, getOrCreate_read, isAllowed.
  assert (Hf : ∀ p, cache_ok p → transports p !! c = Some t →
     cache_ok p ∧ bool_decide (c ∈ allowed p) = true ∧ transports p !! c = Some t ∧ for_cluster t = c).
  { intros p Hp Ht. destruct (Hp c t Ht). by rewrite bool_decide_true. }
  destruct (bool_decide (c ∈ allowed (pool s))) eqn:Ha; cbn; [|done].
  destruct (transports (pool s) !! c) as [t0|] eqn:E.
  - intros. simplify_eq. by apply Hf; [apply Hs|].
  - pose proof (proj1 (run_ok s mid Hs)) as Hc.
    pose proof (write_cache_ok _ (next_addr (run s mid)) c Hc) as Hw.
    unfold getOrCreate_write in *.
    destruct (bool_decide (c ∈ allowed (pool (run s mid)))) eqn:Ha'; cbn in *; [|done].
    destruct (transports (pool (run s mid)) !! c) as [t1|] eqn:E'; cbn in *;
      intros; simplify_eq; apply Hf; try done. cbn. by rewrite lookup_insert_eq.
Qed.

(** [closeAll] empties the pool and closes what was cached. *)
Lemma run_close_pending s ts rest :
  pending s = (map TClose ts ++ rest)%list →
  run s (repeat (OPending 0) (length ts)) =
  MkSys (pool s) (next_addr s) (rev ts ++ closed s)%list rest (results s).
Proof.
  revert s. induction ts as [|t ts IH]; intros s Hp.
  - destruct s. cbn in *. by subst.
  - change (run s (repeat (OPending 0) (length (t :: ts))))
      with (run (exec s (OPending 0)) (repeat (OPending 0) (length ts))).
    cbn [exec]. rewrite Hp. cbn [map app lookup list_lookup remove_nth take drop].
    rewrite IH by done. cbn. by rewrite <- app_assoc.
Qed.

Lemma closing_pool k :
  let s' := transportPool (closing k) in
  pool s' = MkPool ∅ ∅ ∧
  closed s' = (rev (cached (pool (transportPool k))) ++ closed (transportPool k))%list.
Proof.
  unfold closing. cbn -[run exec]. set (s := transportPool k).
  change (run s (OCloseAll :: ?l)) with (run (exec s OCloseAll) l).
  pose proof (run_close_pending (exec s OCloseAll) (cached (pool s)) (pending s) eq_refl) as E.
  by rewrite E.
Qed.

(** What is true of a request that leaves the hub. *)
Definition permitted_as (k : userServer) (getTunnel : result nat) (s' : sys) (req : Request)
    (o : outgoing) (tsc : TargetServiceConfig) : Prop :=
  request_target req = Ok tsc ∧
  isAllowed (pool (transportPool k)) (Cluster tsc) = true ∧
  (GetProxyType (RequestURI req) = ProxyTypeService → service_permitted k tsc = Some true) ∧
  out_scheme o = "https" ∧
  out_host o = GenerateServiceProxyHost (Cluster tsc) ++ ":7443" ∧
  out_path o = singleJoiningSlash "" (TPath tsc) ∧
  out_query o = RawQuery req ∧
  reverse_proxy_headers (UpdateRequest tsc req) = Ok (out_header o) ∧
  RootCAs (config_of k (out_via o)) = serviceProxyRootCA k ∧
  MinVersion (config_of k (out_via o)) = VersionTLS12 ∧
  match out_via o with
  | Pooled t =>
      IsUpgradeRequest req = false ∧ for_cluster t = Cluster tsc ∧
      isAllowed (pool s') (Cluster tsc) = true ∧
      transports (pool s') !! Cluster tsc = Some t
  | Dedicated tunnel =>
      IsUpgradeRequest req = true ∧ getTunnel = Ok tunnel ∧
      ForceAttemptHTTP2 (config_of k (out_via o)) = false
  end.

Lemma forwarded_inv `{UrlParse} (k : userServer) dump getTunnel between mid req s' o :
  sys_ok (transportPool k) →
  ServeHTTP k dump getTunnel between mid req = (s', Forwarded o) →
  ∃ tsc, permitted_as k getTunnel s' req o tsc.
Proof.
  intros Hk Hf. unfold ServeHTTP in Hf.
  destruct dump as [[?|?]|]; try done;
  (destruct (request_target req) as [tsc|] eqn:Ht; [|done];
   destruct (isAllowed _ _) eqn:Ha; [|done]; cbn [negb] in Hf;
   rewrite service_proxy_url_parses in Hf;
   destruct (if bool_decide _ then _ else _) as [[]|] eqn:Hp; try done;
   exists tsc; unfold permitted_as; split; [done|]; split; [done|]; split;
   [intros Hty; rewrite Hty in Hp; by rewrite bool_decide_true in Hp|];
   unfold forward in Hf;
   destruct (IsUpgradeRequest req) eqn:Hu;
   [destruct getTunnel as [tn|]; [|done]
   |destruct (getOrCreate_during _ _ _) as [s1 [t|]] eqn:Hg; [|done];
    apply getOrCreate_during_some in Hg as (? & ? & ? & ?); [|by apply run_ok]];
   (destruct (reverse_proxy_headers _) as [h|]; [|done]);
   simplify_eq; cbn; by split_and!).
Qed.

(** ** Correctness *)

(** C2: A request leaves the hub only when it names an allowed cluster and,
    for a service, an entry of the allowlist; it then goes to that cluster's
    own service-proxy over TLS 1.2 or later verified against the service-proxy
    CA, on a pooled transport created for that cluster that is still a member
    when the transport is taken, or, for a protocol upgrade, on a dedicated
    HTTP/1.1 transport.  This holds whatever the other handlers and the
    informer do in the meantime. *)
Theorem forwarded_only_if_permitted `{UrlParse} (k : userServer) dump getTunnel between mid req s' o
  (Hk : sys_ok (transportPool k))
  (Hf : ServeHTTP k dump getTunnel between mid req = (s', Forwarded o)) :
  ∃ tsc, permitted_as k getTunnel s' req o tsc.
Proof. by eapply forwarded_inv. Qed.

(** C3: From hub to managed cluster: if a request the hub forwarded for a
    service is resolved to a URL by the receiving service-proxy, then that URL
    is the one of a target on the allowlist, whatever headers the client
    added; a service that is not exposed cannot be reached by tampering with
    the routing headers. *)
Theorem resolved_target_was_allowed `{UrlParse} (k : userServer) dump getTunnel between mid
    req s' o (r : Request) u
  (Hk : sys_ok (transportPool k))
  (Hservice : GetProxyType (RequestURI req) = ProxyTypeService)
  (Hf : ServeHTTP k dump getTunnel between mid req = (s', Forwarded o))
  (Hr : Header r = out_header o)
  (Hu : GetTargetServiceURLFromRequest r = Ok u) :
  ∃ a tsc, serviceAllowlist k = Some a ∧ request_target req = Ok tsc ∧
    IsAllowed a tsc = true ∧ approved_url tsc = Ok u.
Proof.
  apply forwarded_inv in Hf as (tsc & Ht & _ & Hp & _ & _ & _ & _ & Hh & _); [|done].
  specialize (Hp Hservice). unfold service_permitted in Hp.
  apply bind_Some in Hp as (a & Ha & Hi). exists a, tsc. split_and!; try done.
  - by inv_ok.
  - by eapply target_from_headers.
Qed.

Definition spares (c : string) (o : op) : Prop := o ≠ ORemove c ∧ o ≠ OCloseAll.

Lemma membership_stays c ops : Forall (spares c) ops → membership c ops true = true.
Proof.
  induction 1 as [|o ops [H1 H2] _ IH]; [done|].
  unfold membership. cbn. destruct o; try done; cbn.
  - by destruct (String.eqb clusterName c).
  - destruct (String.eqb_spec clusterName c); [by subst|done].
Qed.

Lemma run_spares s c ops :
  isAllowed (pool s) c = true → Forall (spares c) ops → isAllowed (pool (run s ops)) c = true.
Proof. intros Ha Hs. rewrite run_allowed, Ha. by apply membership_stays. Qed.

Lemma getOrCreate_during_spared s c mid :
  isAllowed (pool s) c = true → Forall (spares c) mid →
  ∃ s' t, getOrCreate_during s c mid = (s', Some t).
Proof.
  intros Ha Hm. pose proof (run_spares _ _ _ Ha Hm) as Ha'.
  unfold getOrCreate_during, getOrCreate_read, getOrCreate_write, isAllowed in *.
  rewrite Ha, Ha'. cbn. repeat case_match; simplify_eq; eauto.
Qed.

(** C12: No false denials: a well-formed request to an allowed cluster (and,
    for a service, to an entry of the allowlist) is forwarded as long as the
    cluster is not removed while it is being handled, whatever else happens
    concurrently; an upgrade request needs a tunnel besides. *)
Theorem permitted_is_forwarded `{UrlParse} (k : userServer) getTunnel between mid req tsc
  (Ht : request_target req = Ok tsc)
  (Ha : isAllowed (pool (transportPool k)) (Cluster tsc) = true)
  (Hp : GetProxyType (RequestURI req) = ProxyTypeService → service_permitted k tsc = Some true)
  (Hb : Forall (spares (Cluster tsc)) between)
  (Hm : Forall (spares (Cluster tsc)) mid)
  (Hh : is_ok (reverse_proxy_headers (UpdateRequest tsc req)) = true)
  (Htun : IsUpgradeRequest req = true → is_ok getTunnel = true) :
  ∃ s' o, ServeHTTP k None getTunnel between mid req = (s', Forwarded o).
Proof.
  unfold ServeHTTP. rewrite Ht, Ha, service_proxy_url_parses. cbn [negb].
  replace (if bool_decide _ then _ else _) with (Some true)
    by (case_bool_decide; [symmetry; auto|done]).
  unfold forward. destruct (reverse_proxy_headers _) as [h|]; [|done].
  destruct (IsUpgradeRequest req).
  - destruct getTunnel; [eauto|]. by specialize (Htun eq_refl).
  - destruct (getOrCreate_during_spared (run (transportPool k) between) (Cluster tsc) mid)
      as (s' & t & ->); eauto using run_spares.
Qed.

(** The pool at the moment [Run] leaves, when [init] had left [k]. *)
Definition pool_at_exit (k : userServer) (env : environment) (o : run_outcome) : sys :=
  if served o then run (transportPool k) (serving env).1 else transportPool k.

Lemma init_ok_inv unmarshal k env k' :
  init unmarshal k env = (k', None) →
  synced (addonInformer env) = true ∧ synced (allowlistInformer env) = true ∧
  serviceAllowlist k'
    = Some (run_events unmarshal (MkAllowlist []) (initial (allowlistInformer env))) ∧
  is_Some (serviceProxyRootCA k').
Proof.
  unfold init. destruct (clientTLS env); [done|]. destruct (caPool env) as [ca|]; [|done].
  unfold startManagedClusterAddonWatcher, startServiceAllowlistWatcher.
  destruct (registerErr (addonInformer env)); [done|].
  destruct (synced (addonInformer env)); [|by destruct (ctxErr (addonInformer env))].
  destruct (registerErr (allowlistInformer env)); [done|].
  destruct (synced (allowlistInformer env)); [|done].
  intros. simplify_eq. cbn. eauto.
Qed.

(** [Run] accepts requests only after a successful [init]: the options
    are valid, the namespace is known, both caches have synced, the allowlist
    is in place and the service-proxy CA is loaded; and however it ends after
    [init], the pool is empty and every transport left in it is closed. *)
Theorem Run_serves_ready_and_cleans_up (unmarshal : string → result (list ExposedService))
    (k : userServer) (env : environment) :
  let o := Run unmarshal k env in
  (served o = true →
     Validate k = Ok () ∧ podNamespace env ≠ "" ∧
     synced (addonInformer env) = true ∧ synced (allowlistInformer env) = true ∧
     serviceAllowlist (final o)
       = Some (run_events unmarshal (MkAllowlist []) (initial (allowlistInformer env))) ∧
     is_Some (serviceProxyRootCA (final o)) ∧ returned o = (serving env).2) ∧
  (∀ k', Validate k = Ok () → podNamespace env ≠ "" → getConfig env = None →
     kubeClient env = None → addonClient env = None → init unmarshal k env = (k', None) →
     pool (transportPool (final o)) = MkPool ∅ ∅ ∧
     ∀ t, t ∈ cached (pool (pool_at_exit k' env o)) → t ∈ closed (transportPool (final o))).
Proof.
  cbn. unfold Run. split.
  - destruct (Validate k) as [[]|]; [|done].
    destruct (String.eqb_spec (podNamespace env) ""); [done|].
    destruct (getConfig env), (kubeClient env), (addonClient env); try done.
    destruct (init unmarshal k env) as [k' [e|]] eqn:Hi; [done|].
    destruct (tlsWatcher env), (configChecker env); try done. intros _.
    apply init_ok_inv in Hi as (? & ? & ? & ?). by split_and!.
  - intros k' -> Hns -> -> -> ->. apply String.eqb_neq in Hns. rewrite Hns.
    destruct (tlsWatcher env) as [e|]; [|destruct (configChecker env) as [e|]];
      cbn [final served pool_at_exit].
    all: match goal with |- context [closing ?k0] => destruct (closing_pool k0) as [Hp Hc] end.
    all: split; [done|]; intros t Ht; rewrite Hc; apply elem_of_app; left.
    all: apply list_elem_of_In; rewrite <- in_rev; by apply list_elem_of_In.
Qed.

(** ** A hub with one cluster and one exposed service *)

Definition hub : userServer :=
  set_allowlist
    (set_rootCA
       (set_pool (AddFlags newUserServer) (run init_sys [OAllow "cluster1"])) (Some "service-proxy-ca"))
    (Some (MkAllowlist [MkExposed "web" "nginx" "80" ""])).

Lemma hub_ok : sys_ok (transportPool hub).
Proof. apply run_ok, init_ok. Qed.

Definition nginx_target : TargetServiceConfig := MkTSC "cluster1" "http" "nginx" "web" "80" "x".

(** The informer removes another cluster while the request is handled. *)
Definition hub_reply : sys * response :=
  ServeHTTP hub None (Err (ENew "no tunnel")) [ORemove "cluster2"] [OAllow "cluster3"]
    spoofing_request.

Definition hub_sent : outgoing :=
  match hub_reply.2 with
  | Forwarded o => o
  | _ => MkOutgoing "" "" "" "" ∅ (Dedicated 0)
  end.

Lemma hub_reply_forwarded : hub_reply = (hub_reply.1, Forwarded hub_sent).
Proof. vm_compute. reflexivity. Qed.

Lemma forwarded_only_if_permitted_witness :
  ∃ tsc, permitted_as hub (Err (ENew "no tunnel")) hub_reply.1 spoofing_request hub_sent tsc.
Proof.
  exact (forwarded_only_if_permitted hub None (Err (ENew "no tunnel")) [ORemove "cluster2"]
           [OAllow "cluster3"] spoofing_request hub_reply.1 hub_sent hub_ok hub_reply_forwarded).
Defined.

Lemma resolved_target_was_allowed_witness :
  ∃ a tsc, serviceAllowlist hub = Some a ∧ request_target spoofing_request = Ok tsc ∧
    IsAllowed a tsc = true ∧ approved_url tsc = Ok (MkURL "http" "nginx.web.svc:80" "" "").
Proof.
  apply (resolved_target_was_allowed hub None (Err (ENew "no tunnel")) [ORemove "cluster2"]
           [OAllow "cluster3"] spoofing_request hub_reply.1 hub_sent
           (set_header spoofing_request (out_header hub_sent)) (MkURL "http" "nginx.web.svc:80" "" "")
           hub_ok eq_refl hub_reply_forwarded eq_refl).
  vm_compute. reflexivity.
Defined.

Lemma permitted_is_forwarded_witness :
  ∃ s' o, ServeHTTP hub None (Err (ENew "no tunnel")) [ORemove "cluster2"] [OAllow "cluster3"]
            spoofing_request = (s', Forwarded o).
Proof.
  apply (permitted_is_forwarded hub (Err (ENew "no tunnel")) [ORemove "cluster2"]
           [OAllow "cluster3"] spoofing_request nginx_target).
  - reflexivity.
  - reflexivity.
  - reflexivity.
  - repeat constructor; discriminate.
  - repeat constructor; discriminate.
  - vm_compute. reflexivity.
  - vm_compute. discriminate.
Defined.

(** Denials of the same hub: an unknown cluster, a service that is not
    exposed, a malformed target. *)
Example hub_denials :
  let get uri := (ServeHTTP hub None (Err (ENew "no tunnel")) [] []
                    (MkRequest uri "GET" uri "" None ∅)).2 in
  get "/cluster2/api/v1/pods" = writeClusterNotFound "cluster2" ∧
  get "/cluster1/api/v1/namespaces/web/services/http:redis:80/proxy-service/x"
    = HttpError 403 "service web/redis is not in the exposed services allowlist" ∧
  get "/cluster1" = HttpError 400 "requestURL format not correct, path more than 2: /cluster1".
Proof. vm_compute. auto. Qed.
