(* ===== verification/Impersonation.v ===== *)
(** * Impersonation headers (pkg/serviceproxy/authentication.go)

    How the service-proxy carries an authenticated identity into a request:
    it removes every impersonation header of the client, writes its own, and
    replaces the bearer token by its service account's.  The specification
    of the result is [impersonates]; it is what the providers promise. *)

From S2P Require Import Prelude GoStrings Http.

Local Open Scope string_scope.

(** ** Constants *)

Definition impersonateHeaderPrefix : string := "Impersonate-".
Definition ImpersonateUserHeader : string := "Impersonate-User".
Definition ImpersonateGroupHeader : string := "Impersonate-Group".
Definition AllAuthenticated : string := "system:authenticated".

(** ** Data: [user.Info] *)

Record userInfo := MkUser {
  Name : string;
  UID : string;
  Groups : list string;
  Extra : gmap string (list string)
}.

(** ** Operations *)

Definition isImpersonationHeader (key : string) : bool :=
  (String.length impersonateHeaderPrefix <=? String.length key)%nat &&
  EqualFold (str_take (String.length impersonateHeaderPrefix) key) impersonateHeaderPrefix.

Definition hasClientImpersonationHeaders (headers : header) : bool :=
  existsb isImpersonationHeader (map fst (map_to_list headers)).

Definition deleteImpersonationHeaders (headers : header) : header :=
  filter (λ kv, isImpersonationHeader kv.1 = false) headers.

(** [serviceProxy.impersonateUser]: the headers as it leaves them, and its
    error.  [getToken] is what reading the service account token gives. *)
Definition impersonateUser (getToken : result string) (h : header) (username : string)
    (groups : list string) : header * option goerror :=
  let h := deleteImpersonationHeaders h in
  let h := fold_left (λ h group, hadd h ImpersonateGroupHeader group) groups h in
  let h := hset h ImpersonateUserHeader username in
  match getToken with
  | Err e => (h, Some (ENew ("failed to get impersonate token: " ++ error_string e)))
  | Ok token => (hset h "Authorization" ("Bearer " ++ token), None)
  end.

(** [applyExternalIdentity]. *)
Definition applyExternalIdentity (getToken : result string) (h : header) (externalUser : userInfo)
  : header * option goerror :=
  let groups := Groups externalUser in
  let groups := if negb (existsb (String.eqb AllAuthenticated) groups)
                then (groups ++ [AllAuthenticated])%list else groups in
  impersonateUser getToken h (Name externalUser) groups.

(** ** Specification *)

(** [h'] carries exactly the identity [username]/[groups] and the service
    account's token, and is otherwise [h]. *)
Record impersonates (token : string) (h h' : header) (username : string) (groups : list string)
  : Prop := {
  imp_user : h' !! ImpersonateUserHeader = Some [username];
  imp_groups : hvalues h' ImpersonateGroupHeader = groups;
  imp_nothing_else : ∀ k, isImpersonationHeader k = true → k ≠ ImpersonateUserHeader →
    k ≠ ImpersonateGroupHeader → h' !! k = None;
  imp_token : h' !! "Authorization" = Some ["Bearer " ++ token];
  imp_rest : ∀ k, isImpersonationHeader k = false → k ≠ "Authorization" → h' !! k = h !! k
}.

(** ** Lemmas *)

Lemma hasClientImpersonationHeaders_spec h :
  hasClientImpersonationHeaders h = true ↔
  ∃ k vs, h !! k = Some vs ∧ isImpersonationHeader k = true.
Proof.
  unfold hasClientImpersonationHeaders. rewrite existsb_exists. split.
  - intros (k & Hin & Hk). apply in_map_iff in Hin as ([k' vs] & <- & Hin).
    apply list_elem_of_In, elem_of_map_to_list in Hin. eauto.
  - intros (k & vs & Hl & Hk). exists k. split; [|done].
    apply in_map_iff. exists (k, vs). split; [done|].
    by apply list_elem_of_In, elem_of_map_to_list.
Qed.

Lemma lookup_deleteImpersonationHeaders h k :
  deleteImpersonationHeaders h !! k = if isImpersonationHeader k then None else h !! k.
Proof.
  unfold deleteImpersonationHeaders. destruct (isImpersonationHeader k) eqn:E.
  - apply map_lookup_filter_None. right. intros v _. cbn. congruence.
  - destruct (h !! k) as [v|] eqn:Hv.
    + apply map_lookup_filter_Some. by split.
    + apply map_lookup_filter_None. by left.
Qed.

Lemma deleteImpersonationHeaders_clean h :
  hasClientImpersonationHeaders (deleteImpersonationHeaders h) = false.
Proof.
  apply not_true_is_false. rewrite hasClientImpersonationHeaders_spec.
  intros (k & vs & Hl & Hk). rewrite lookup_deleteImpersonationHeaders, Hk in Hl. done.
Qed.

Lemma lookup_hadd_ne h k v k' : CanonicalHeaderKey k ≠ k' → hadd h k v !! k' = h !! k'.
Proof. intros Hk. unfold hadd. by rewrite lookup_insert_ne. Qed.

Lemma hvalues_hadd h k v :
  CanonicalHeaderKey k = k → hvalues (hadd h k v) k = (hvalues h k ++ [v])%list.
Proof. intros Hk. unfold hvalues, hadd. by rewrite Hk, lookup_insert_eq. Qed.

Lemma lookup_add_groups groups h k :
  k ≠ ImpersonateGroupHeader →
  fold_left (λ h group, hadd h ImpersonateGroupHeader group) groups h !! k = h !! k.
Proof.
  intros Hk. revert h. induction groups as [|g gs IH]; intros h; cbn [fold_left]; [done|].
  rewrite IH. apply lookup_hadd_ne. change (ImpersonateGroupHeader ≠ k). congruence.
Qed.

Lemma hvalues_add_groups groups h :
  hvalues (fold_left (λ h group, hadd h ImpersonateGroupHeader group) groups h)
    ImpersonateGroupHeader = (hvalues h ImpersonateGroupHeader ++ groups)%list.
Proof.
  revert h. induction groups as [|g gs IH]; intros h; cbn [fold_left]; [by rewrite app_nil_r|].
  rewrite IH, hvalues_hadd by done. by rewrite <- app_assoc.
Qed.

Lemma impersonateUser_spec getToken h username groups h' :
  impersonateUser getToken h username groups = (h', None) →
  ∃ token, getToken = Ok token ∧ impersonates token h h' username groups.
Proof.
  unfold impersonateUser. destruct getToken as [token|]; [|done].
  intros E. simplify_eq. exists token. split; [done|].
  assert (HU : CanonicalHeaderKey ImpersonateUserHeader = ImpersonateUserHeader) by reflexivity.
  assert (HA : CanonicalHeaderKey "Authorization" = "Authorization") by reflexivity.
  split.
  - rewrite lookup_hset_ne by done. by apply lookup_hset_eq.
  - unfold hvalues. rewrite !lookup_hset_ne by done. fold (hvalues (fold_left
      (λ h group, hadd h ImpersonateGroupHeader group) groups (deleteImpersonationHeaders h))
      ImpersonateGroupHeader).
    rewrite hvalues_add_groups. unfold hvalues. by rewrite lookup_deleteImpersonationHeaders.
  - intros k Hk Hu Hg. rewrite lookup_hset_ne by (rewrite HA; intros <-; discriminate Hk).
    rewrite lookup_hset_ne by (rewrite HU; congruence). rewrite lookup_add_groups by done.
    by rewrite lookup_deleteImpersonationHeaders, Hk.
  - by apply lookup_hset_eq.
  - intros k Hk Ha. rewrite lookup_hset_ne by (rewrite HA; congruence).
    rewrite lookup_hset_ne by (rewrite HU; intros <-; discriminate Hk).
    rewrite lookup_add_groups by (intros ->; discriminate Hk).
    by rewrite lookup_deleteImpersonationHeaders, Hk.
Qed.

(** Failing to read the token is the only way to fail. *)
Lemma impersonateUser_error getToken h username groups h' e :
  impersonateUser getToken h username groups = (h', Some e) → is_ok getToken = false.
Proof. unfold impersonateUser. by destruct getToken. Qed.

(** ** Correctness *)

(** C6: When an identity is applied, the request carries exactly that user
    and exactly those groups in order, no other impersonation header in any
    spelling (in particular none the client sent, such as a UID or an extra),
    and the service account's bearer token in place of the client's; every
    other header is untouched. *)
Theorem impersonation_is_exact (getToken : result string) (h h' : header) (username : string)
    (groups : list string)
  (Hok : impersonateUser getToken h username groups = (h', None)) :
  ∃ token, getToken = Ok token ∧ impersonates token h h' username groups.
Proof. by apply impersonateUser_spec. Qed.

(** A client that tries to keep a group and a UID of its own. *)
Definition crafted_header : header :=
  <["Impersonate-Group" := ["system:masters"]]> (<["Impersonate-Uid" := ["0"]]>
    (<["Authorization" := ["Bearer client"]]> (<["Accept" := ["*/*"]]> ∅))).

Definition rewritten_header : header :=
  (impersonateUser (Ok "sa-token") crafted_header "alice" ["dev"; "system:authenticated"]).1.

Lemma impersonation_is_exact_witness :
  ∃ token, Ok "sa-token" = Ok token ∧
    impersonates token crafted_header rewritten_header "alice" ["dev"; "system:authenticated"].
Proof.
  apply (impersonation_is_exact (Ok "sa-token") crafted_header rewritten_header "alice"
           ["dev"; "system:authenticated"]).
  reflexivity.
Defined.
