(* ===== verification/AuthProviders.v ===== *)
(** * Authentication providers (pkg/serviceproxy/auth_provider.go,
      token_authenticator.go, hub_ and managed_cluster_auth_provider.go,
      authentication.go)

    A provider authenticates a token and applies an identity to a request.
    The three answers that the code tells apart are those of [answer]: an
    identity, a rejection, an infrastructure failure.  What a provider owes
    to the rest of the service-proxy is the class [IdentityProvider]: the
    request is either left alone or carries exactly one identity with the
    service account's token.  [processAuthentication] is proved against the
    class; the instances are at the end of each provider. *)

From S2P Require Import Prelude GoStrings Http Impersonation.

Local Open Scope string_scope.

(** ** Data *)

Record authProviderMetadata := MkMetadata {
  id : string;
  displayName : string;
  authenticationTarget : string;
  standaloneFailureTarget : string
}.

(** The triple of [AuthenticateToken]: [Ok (Some u)] is (resp, true, nil),
    [Ok None] is (nil, false, nil) and [Err e] is (nil, false, e). *)
Abbreviation answer := (result (option userInfo)).

(** The interface [authProvider]. *)
Record authProvider := MkProvider {
  Metadata : authProviderMetadata;
  AuthenticateToken : string → answer;
  ApplyIdentity : header → userInfo → header * option goerror
}.

(** The status of a TokenReview. *)
Record TokenReviewStatus := MkReview {
  Authenticated : bool;
  User : userInfo;
  Error : string
}.

(** ** TokenReview *)

Definition authRejectionPatterns : list string := ["invalid bearer token"].

Definition isAuthRejection (statusError : string) : bool :=
  let lower := ToLower statusError in
  existsb (λ pattern, Contains lower pattern) authRejectionPatterns.

(** [convertExtra]: a copy, key by key. *)
Definition convertExtra (extra : gmap string (list string)) : gmap string (list string) :=
  map_fold (λ k v result, <[k := v]> result) ∅ extra.

(** [tokenReviewAuthenticator.AuthenticateToken]; [create] is the call to
    the TokenReview API. *)
Definition tokenReview (name : string) (create : string → result TokenReviewStatus)
    (token : string) : answer :=
  match create token with
  | Err e => Err e
  | Ok st =>
      if negb (String.eqb (Error st) "") then
        if isAuthRejection (Error st)
        then Err (EWrap (name ++ " TokenReview: " ++ Error st ++ ": " ++
                         error_string ETokenNotAuthenticated) ETokenNotAuthenticated)
        else Err (ENew (name ++ " TokenReview: " ++ Error st))
      else if negb (Authenticated st) then Ok None
      else Ok (Some (MkUser (Name (User st)) (UID (User st)) (Groups (User st))
                       (convertExtra (Extra (User st)))))
  end.

(** [newTokenReviewAuthenticator]; [cached d cacheErrs successTTL failureTTL]
    is [cache.New] of k8s.io/apiserver, as it answers at the moment of the
    call. *)
Definition newTokenReviewAuthenticator
    (cached : (string → answer) → bool → Z → Z → string → answer)
    (create : string → result TokenReviewStatus) (providerName : string) (cacheTTL : Z)
  : string → answer :=
  let delegate := tokenReview providerName create in
  if (cacheTTL <=? 0)%Z then delegate else cached delegate false cacheTTL cacheTTL.

(** ** The managed cluster's provider *)

Definition managedClusterAuthProviderMetadata : authProviderMetadata :=
  MkMetadata "managed-cluster" "managed cluster" "managed cluster" "the managed cluster".

Definition managedClusterAuthProvider (authn : string → answer) : authProvider :=
  MkProvider managedClusterAuthProviderMetadata authn (λ h _, (h, None)).

(** ** The hub's provider *)

Definition hubAuthProviderMetadata : authProviderMetadata :=
  MkMetadata "hub" "hub" "hub cluster" "".

Definition hub_username (name : string) : string :=
  if HasPrefix name "system:serviceaccount:" then "cluster:hub:" ++ name else name.

Definition hub_ApplyIdentity (getToken : result string) (h : header) (hubUser : userInfo)
  : header * option goerror :=
  impersonateUser getToken h (hub_username (Name hubUser)) (Groups hubUser).

Definition hubAuthProvider (getToken : result string) (authn : string → answer) : authProvider :=
  MkProvider hubAuthProviderMetadata authn (hub_ApplyIdentity getToken).

(** ** The OIDC provider *)

Definition oidcAuthProviderMetadata : authProviderMetadata :=
  MkMetadata "oidc" "oidc" "the configured OIDC issuer" "".

Definition oidcAuthProvider (getToken : result string) (authn : string → answer) : authProvider :=
  MkProvider oidcAuthProviderMetadata authn (applyExternalIdentity getToken).

(** ** Trying the providers *)

Definition standaloneTarget (m : authProviderMetadata) : string :=
  if negb (String.eqb (standaloneFailureTarget m) "") then standaloneFailureTarget m
  else authenticationTarget m.

(** [authenticationFailureError]. *)
Definition authenticationFailureError (providers : list authProvider) : goerror :=
  match map Metadata providers with
  | [] => ENew "authentication failed: token is not valid for the managed cluster"
  | [m] => ENew ("authentication failed: token is not valid for " ++ standaloneTarget m)
  | [m1; m2] =>
      ENew ("authentication failed: token is neither valid for " ++ authenticationTarget m1 ++
            " nor " ++ authenticationTarget m2)
  | ms =>
      let targets := map authenticationTarget ms in
      ENew ("authentication failed: token is not valid for " ++
            Join (removelast targets) ", " ++ ", or " ++ List.last targets "")
  end.

(** The loop of [processAuthentication]; [None] when every provider
    rejected the token. *)
Fixpoint try_providers (providers : list authProvider) (token : string) (h : header)
  : option (header * option goerror) :=
  match providers with
  | [] => None
  | provider :: rest =>
      match AuthenticateToken provider token with
      | Err e =>
          if errors_is e ETokenNotAuthenticated then try_providers rest token h
          else Some (h, Some (ENew (displayName (Metadata provider) ++ " authentication failed: "
                                    ++ error_string e)))
      | Ok None => try_providers rest token h
      | Ok (Some u) =>
          match ApplyIdentity provider h u with
          | (h, Some e) =>
              Some (h, Some (ENew ("failed to apply " ++ displayName (Metadata provider) ++
                                   " identity: " ++ error_string e)))
          | (h, None) => Some (h, None)
          end
      end
  end.

Definition bearer_token (h : header) : string := TrimPrefix (hget h "Authorization") "Bearer ".

(** [processAuthentication]: the headers it leaves, and its error. *)
Definition processAuthentication (providers : list authProvider) (h : header)
  : header * option goerror :=
  match try_providers providers (bearer_token h) h with
  | Some r => r
  | None => (h, Some (authenticationFailureError providers))
  end.

(** ** Factories *)

(** The interface [authProviderFactory]. *)
Record authProviderFactory := MkFactory {
  validate : result unit;
  enabled : bool;
  configFiles : list string;
  build : result authProvider
}.

(** [hubAuthProviderFactory]; [client] is what building a client from the
    kubeconfig gives: its TokenReview call, or an error. *)
Definition hubAuthProviderFactory
    (cached : (string → answer) → bool → Z → Z → string → answer)
    (enableImpersonation : bool) (kubeConfig : string)
    (client : string → result (string → result TokenReviewStatus))
    (tokenReviewCacheTTL : Z) (getToken : result string) : authProviderFactory :=
  MkFactory (Ok ()) enableImpersonation
    (if negb enableImpersonation then [] else [kubeConfig])
    (create ← client kubeConfig;
     Ok (hubAuthProvider getToken
           (newTokenReviewAuthenticator cached create
              (displayName hubAuthProviderMetadata) tokenReviewCacheTTL))).

(** Building the enabled providers in order; the first error wins. *)
Fixpoint build_all (factories : list authProviderFactory) : result (list authProvider) :=
  match factories with
  | [] => Ok []
  | f :: fs => p ← build f; ps ← build_all fs; Ok (p :: ps)
  end.

(** [initializeAuthProviders]: the providers it installs. *)
Definition initializeAuthProviders (managed : authProvider) (factories : list authProviderFactory)
  : result (list authProvider) :=
  let enabledFactories := filter (λ f, enabled f = true) factories in
  match enabledFactories with
  | [] => Ok []
  | _ => ps ← build_all enabledFactories; Ok (managed :: ps)
  end.

Definition activeAuthProviderIDs (providers : list authProvider) : list string :=
  map (λ p, id (Metadata p)) providers.

Definition authProviderConfigFiles (factories : list authProviderFactory) : list string :=
  concat (map configFiles factories).

(** ** What a provider promises *)

Class IdentityProvider (getToken : result string) (p : authProvider) : Prop := {
  apply_identity_ok : ∀ h u h', ApplyIdentity p h u = (h', None) →
    h' = h ∨ ∃ token name groups, getToken = Ok token ∧ impersonates token h h' name groups
}.

#[export] Instance managedClusterAuthProvider_identity getToken authn :
  IdentityProvider getToken (managedClusterAuthProvider authn).
Proof. split. cbn. intros. simplify_eq. by left. Qed.

#[export] Instance hubAuthProvider_identity getToken authn :
  IdentityProvider getToken (hubAuthProvider getToken authn).
Proof.
  split. cbn. intros h u h' H. apply impersonateUser_spec in H as (token & ? & ?). eauto 6.
Qed.

#[export] Instance oidcAuthProvider_identity getToken authn :
  IdentityProvider getToken (oidcAuthProvider getToken authn).
Proof.
  split. cbn. intros h u h' H. apply impersonateUser_spec in H as (token & ? & ?). eauto 6.
Qed.

(** ** Lemmas *)

(** The provider says that the token is not one of its own. *)
Definition rejects (token : string) (p : authProvider) : Prop :=
  match AuthenticateToken p token with
  | Ok None => True
  | Ok (Some _) => False
  | Err e => errors_is e ETokenNotAuthenticated = true
  end.

Lemma try_providers_skip pre rest token h :
  Forall (rejects token) pre → try_providers (pre ++ rest) token h = try_providers rest token h.
Proof.
  induction 1 as [|p pre Hp _ IH]; cbn; [done|].
  unfold rejects in Hp. destruct (AuthenticateToken p token) as [[u|]|e]; [done|done|].
  by rewrite Hp.
Qed.

#[export] Instance rejects_dec token p : Decision (rejects token p).
Proof. unfold rejects. destruct (AuthenticateToken p token) as [[u|]|e]; apply _. Defined.

(** The first provider that does not reject the token decides. *)
Lemma try_providers_split ps token :
  Forall (rejects token) ps ∨
  ∃ pre p post, ps = (pre ++ p :: post)%list ∧ Forall (rejects token) pre ∧ ¬ rejects token p.
Proof.
  induction ps as [|p ps IH]; [by left|].
  destruct (decide (rejects token p)) as [Hp|Hp]; [|right; by exists [], p, ps].
  destruct IH as [IH|(pre & q & post & -> & Hpre & Hq)]; [left; by constructor|].
  right. exists (p :: pre), q, post. split_and!; [done|by constructor|done].
Qed.

Lemma try_providers_all_reject ps token h :
  Forall (rejects token) ps → try_providers ps token h = None.
Proof. intros H. rewrite <- (app_nil_r ps). by rewrite try_providers_skip. Qed.

(** What a successful [processAuthentication] went through. *)
Lemma processAuthentication_inv ps h h' :
  processAuthentication ps h = (h', None) →
  ∃ pre p post u, ps = (pre ++ p :: post)%list ∧ Forall (rejects (bearer_token h)) pre ∧
    AuthenticateToken p (bearer_token h) = Ok (Some u) ∧ ApplyIdentity p h u = (h', None).
Proof.
  unfold processAuthentication.
  destruct (try_providers_split ps (bearer_token h)) as [Hall|(pre & p & post & -> & Hpre & Hp)].
  - by rewrite try_providers_all_reject.
  - rewrite try_providers_skip by done. cbn. unfold rejects in Hp.
    destruct (AuthenticateToken p (bearer_token h)) as [[u|]|e] eqn:Ea; [|done|].
    + destruct (ApplyIdentity p h u) as [h2 [e|]] eqn:Ei; [done|].
      intros. simplify_eq. exists pre, p, post, u. auto.
    + by destruct (errors_is e ETokenNotAuthenticated).
Qed.

Lemma convertExtra_id extra : convertExtra extra = extra.
Proof.
  unfold convertExtra.
  apply (map_fold_weak_ind (λ r m, r = m)); [done|]. by intros k v m r _ ->.
Qed.

Lemma hub_username_cases n :
  hub_username n = n ∧ HasPrefix n "system:serviceaccount:" = false ∨
  hub_username n = "cluster:hub:" ++ n ∧ HasPrefix n "system:serviceaccount:" = true.
Proof. unfold hub_username. destruct (HasPrefix _ _); auto. Qed.

(** ** Correctness *)

(** A request passes authentication only when some provider vouched for
    its bearer token after every earlier provider had rejected it, and then it
    either goes out unchanged or carries exactly one identity together with
    the service account's token: no mixture, and nothing of the client's own
    impersonation headers.  Proved for any list of providers that keep the
    interface's promise. *)
Theorem authenticated_identity (getToken : result string) (ps : list authProvider) (h h' : header)
  (Hps : Forall (IdentityProvider getToken) ps)
  (Hok : processAuthentication ps h = (h', None)) :
  ∃ pre p post u, ps = (pre ++ p :: post)%list ∧
    Forall (rejects (bearer_token h)) pre ∧
    AuthenticateToken p (bearer_token h) = Ok (Some u) ∧
    (h' = h ∨ ∃ token name groups, getToken = Ok token ∧ impersonates token h h' name groups).
Proof.
  apply processAuthentication_inv in Hok as (pre & p & post & u & -> & Hpre & Ha & Hi).
  exists pre, p, post, u. split_and!; try done.
  apply Forall_app in Hps as [_ Hps]. inversion Hps as [|? ? Hp _]. subst.
  by eapply apply_identity_ok.
Qed.

(** An infrastructure failure is never taken for a rejection: if a
    provider that is reached cannot decide, authentication stops with its
    error and no later provider is consulted, whatever those would answer. *)
Theorem infrastructure_error_stops (pre post : list authProvider) (p : authProvider) (h : header)
    (e : goerror)
  (Hpre : Forall (rejects (bearer_token h)) pre)
  (Hp : AuthenticateToken p (bearer_token h) = Err e)
  (He : errors_is e ETokenNotAuthenticated = false) :
  processAuthentication (pre ++ p :: post) h =
  (h, Some (ENew (displayName (Metadata p) ++ " authentication failed: " ++ error_string e))).
Proof.
  unfold processAuthentication. rewrite try_providers_skip by done. cbn. by rewrite Hp, He.
Qed.

(** An answer that rejects the token: none was authenticated, or the error
    is [ErrTokenNotAuthenticated]. *)
Definition rejected (a : answer) : Prop :=
  match a with
  | Ok None => True
  | Ok (Some _) => False
  | Err e => errors_is e ETokenNotAuthenticated = true
  end.

Definition infrastructure_error (a : answer) (e : goerror) : Prop :=
  a = Err e ∧ errors_is e ETokenNotAuthenticated = false.

Lemma impersonated tok h n gs : impersonates tok h (impersonateUser (Ok tok) h n gs).1 n gs.
Proof.
  destruct (impersonateUser_spec (Ok tok) h n gs (impersonateUser (Ok tok) h n gs).1 eq_refl)
    as (tok' & ? & ?). by inv_ok.
Qed.

(** Falling through to the first provider that does not reject. *)
Lemma process_after_rejections pre p post h :
  Forall (rejects (bearer_token h)) pre →
  processAuthentication (pre ++ p :: post) h =
  match AuthenticateToken p (bearer_token h) with
  | Ok (Some u) => processAuthentication [p] h
  | Err e => if errors_is e ETokenNotAuthenticated
             then processAuthentication (pre ++ p :: post) h
             else (h, Some (ENew (displayName (Metadata p) ++ " authentication failed: " ++ error_string e)))
  | Ok None => processAuthentication (pre ++ p :: post) h
  end.
Proof.
  intros Hpre. destruct (AuthenticateToken p (bearer_token h)) as [[u|]|e] eqn:E; [|done|].
  - unfold processAuthentication. rewrite try_providers_skip by done. cbn. rewrite E.
    by destruct (ApplyIdentity p h u) as [h' [e|]].
  - destruct (errors_is e _) eqn:He; [done|]. unfold processAuthentication.
    rewrite try_providers_skip by done. cbn. by rewrite E, He.
Qed.

Lemma process_one p h u :
  AuthenticateToken p (bearer_token h) = Ok (Some u) → (ApplyIdentity p h u).2 = None →
  processAuthentication [p] h = ((ApplyIdentity p h u).1, None).
Proof.
  intros E Ha. unfold processAuthentication. cbn [try_providers]. rewrite E.
  destruct (ApplyIdentity p h u) as [h' [e|]]; done.
Qed.

(** An external user is a member of the authenticated group. *)
Lemma external_impersonated tok h u :
  ∃ h' gs, applyExternalIdentity (Ok tok) h u = (h', None) ∧ impersonates tok h h' (Name u) gs ∧
    AllAuthenticated ∈ gs ∧ ∀ g, g ∈ Groups u ∨ g = AllAuthenticated ↔ g ∈ gs.
Proof.
  unfold applyExternalIdentity. set (gs := if negb _ then _ else _).
  eexists _, gs. split; [reflexivity|]. split; [apply impersonated|].
  assert (Hg : ∀ g, g ∈ Groups u ∨ g = AllAuthenticated ↔ g ∈ gs).
  { intros g. unfold gs. destruct (existsb _ _) eqn:E; cbn [negb]; [|set_solver].
    apply existsb_exists_elem in E as (x & Hx & E). apply String.eqb_eq in E as <-. set_solver. }
  split; [|done]. apply Hg. by right.
Qed.

(** C11: the forwarding table of the service-proxy's documentation, for its
    three providers: a token the managed cluster knows goes out unchanged; one
    that it rejects, whether by not authenticating it or by the rejection
    error, and that the hub knows becomes the hub's user (service accounts
    prefixed) and groups; one that both reject and the OIDC issuer knows
    becomes its mapped user and groups, made a member of the authenticated
    group; one that all reject is refused; and any other error of a provider
    that is reached is the outcome, whatever the later ones would answer. *)
Theorem forwarding_table (tok : string) (managed hub oidc : string → answer) (h : header) :
  let ps := [managedClusterAuthProvider managed; hubAuthProvider (Ok tok) hub;
             oidcAuthProvider (Ok tok) oidc] in
  let t := bearer_token h in
  (∀ u, managed t = Ok (Some u) → processAuthentication ps h = (h, None)) ∧
  (∀ u, rejected (managed t) → hub t = Ok (Some u) →
     ∃ h', processAuthentication ps h = (h', None) ∧
           impersonates tok h h' (hub_username (Name u)) (Groups u)) ∧
  (∀ u, rejected (managed t) → rejected (hub t) → oidc t = Ok (Some u) →
     ∃ h' gs, processAuthentication ps h = (h', None) ∧ impersonates tok h h' (Name u) gs ∧
           AllAuthenticated ∈ gs ∧ ∀ g, g ∈ Groups u ∨ g = AllAuthenticated ↔ g ∈ gs) ∧
  (rejected (managed t) → rejected (hub t) → rejected (oidc t) →
     processAuthentication ps h =
     (h, Some (ENew ("authentication failed: token is not valid for managed cluster, " ++
                     "hub cluster, or the configured OIDC issuer")))) ∧
  (∀ e, infrastructure_error (managed t) e →
     processAuthentication ps h =
       (h, Some (ENew ("managed cluster authentication failed: " ++ error_string e)))) ∧
  (∀ e, rejected (managed t) → infrastructure_error (hub t) e →
     processAuthentication ps h = (h, Some (ENew ("hub authentication failed: " ++ error_string e)))) ∧
  (∀ e, rejected (managed t) → rejected (hub t) → infrastructure_error (oidc t) e →
     processAuthentication ps h = (h, Some (ENew ("oidc authentication failed: " ++ error_string e)))).
Proof.
  cbn zeta. set (t := bearer_token h). set (m := managedClusterAuthProvider managed).
  set (b := hubAuthProvider (Ok tok) hub). set (o := oidcAuthProvider (Ok tok) oidc).
  assert (Forall (rejects t) []) as F0 by constructor.
  assert (rejected (managed t) → Forall (rejects t) [m]) as F1 by (intros; by constructor).
  assert (rejected (managed t) → rejected (hub t) → Forall (rejects t) [m; b]) as F2
    by (intros; by repeat constructor).
  pose proof (process_after_rejections [] m [b; o] h F0) as P0. cbn [app] in P0.
  pose proof (λ H1, process_after_rejections [m] b [o] h (F1 H1)) as P1. cbn [app] in P1.
  pose proof (λ H1 H2, process_after_rejections [m; b] o [] h (F2 H1 H2)) as P2. cbn [app] in P2.
  cbn [AuthenticateToken m b o managedClusterAuthProvider hubAuthProvider oidcAuthProvider] in P0, P1, P2.
  fold t in P0, P1, P2. split_and!.
  - intros u E. rewrite P0, E. by apply (process_one m h u E).
  - intros u Hm E. rewrite (P1 Hm), E. eexists. split; [by apply (process_one b h u E)|].
    apply impersonated.
  - intros u Hm Hb E. rewrite (P2 Hm Hb), E.
    destruct (external_impersonated tok h u) as (h' & gs & Ea & Himp). exists h', gs. split; [|done].
    rewrite (process_one o h u E); change (ApplyIdentity o h u) with (applyExternalIdentity (Ok tok) h u);
      by rewrite Ea.
  - intros Hm Hb Ho. unfold processAuthentication. by rewrite try_providers_all_reject by (by repeat constructor).
  - intros e [E He]. by rewrite P0, E, He.
  - intros e Hm [E He]. by rewrite (P1 Hm), E, He.
  - intros e Hm Hb [E He]. by rewrite (P2 Hm Hb), E, He.
Qed.

(** A hub service account never acts as a service account of the managed
    cluster: whatever the hub calls a user, the name that is impersonated does
    not start with the service-account prefix, and the mapping is undone by
    the prefix, so two hub users collide only if one of them already bears the
    hub prefix. *)
Theorem hub_accounts_confined (name name' : string) :
  HasPrefix (hub_username name) "system:serviceaccount:" = false ∧
  (hub_username name = hub_username name' →
   name = name' ∨ HasPrefix name "cluster:hub:" = true ∨ HasPrefix name' "cluster:hub:" = true).
Proof.
  split.
  - destruct (hub_username_cases name) as [[-> H]|[-> H]]; done.
  - destruct (hub_username_cases name) as [[-> _]|[-> _]],
      (hub_username_cases name') as [[-> _]|[-> _]]; intros E.
    + by left.
    + right. left. rewrite E. apply HasPrefix_app.
    + right. right. rewrite <- E. apply HasPrefix_app.
    + left. by simplify_eq.
Qed.

(** What a TokenReview amounts to, completely: an identity exactly when
    the review succeeded, reported no error and is authenticated (and then it
    is the reviewed identity, extra included); a definite rejection exactly
    when it reported no error and is not authenticated, or its error says that
    the bearer token is invalid; anything else is an infrastructure error. *)
Theorem tokenReview_classification (name token : string)
    (create : string → result TokenReviewStatus)
    (Hclean : ∀ e, create token = Err e → errors_is e ETokenNotAuthenticated = false) :
  let r := tokenReview name create token in
  let rejected := match r with
                  | Ok None => True
                  | Err e => errors_is e ETokenNotAuthenticated = true
                  | Ok (Some _) => False
                  end in
  (∀ u, r = Ok (Some u) ↔
     ∃ st, create token = Ok st ∧ Error st = "" ∧ Authenticated st = true ∧ User st = u) ∧
  (rejected ↔
     ∃ st, create token = Ok st ∧
       (Error st = "" ∧ Authenticated st = false ∨
        Error st ≠ "" ∧ isAuthRejection (Error st) = true)).
Proof.
  cbn zeta. unfold tokenReview. destruct (create token) as [st|e] eqn:Ec.
  - destruct (String.eqb_spec (Error st) "") as [Ee|Ee]; cbn [negb].
    + rewrite convertExtra_id. destruct (Authenticated st) eqn:Ea; cbn [negb].
      * replace (MkUser _ _ _ _) with (User st) by (by destruct (User st)). split.
        -- intros u. split; [intros [= <-]; by exists st|].
           intros (st' & ? & _ & _ & <-). by inv_ok.
        -- split; [done|]. intros (st' & ? & [[? ?]|[? ?]]); simplify_eq; congruence.
      * split; [|split; [intros _; exists st; auto|done]]. intros u. split; [done|].
        intros (st' & ? & _ & ? & _). simplify_eq. congruence.
    + split.
      * intros u. split; [by destruct (isAuthRejection (Error st))|].
        intros (st' & ? & ? & _). by simplify_eq.
      * destruct (isAuthRejection (Error st)) eqn:Er.
        -- split; [|by rewrite errors_is_wrap]. intros _. exists st. auto.
        -- split; [done|]. intros (st' & ? & [[? ?]|[? ?]]); simplify_eq; congruence.
  - specialize (Hclean e eq_refl). rewrite Hclean.
    split; [intros u|]; (split; [done|]); by intros (st & ? & _).
Qed.

(** The providers in force: none at all when no optional provider is
    enabled, otherwise the managed cluster's first and then every enabled one
    in the order of its factory; a provider that cannot be built stops the
    start-up instead of being left out. *)
Theorem initializeAuthProviders_order (managed : authProvider)
    (factories : list authProviderFactory) :
  match initializeAuthProviders managed factories with
  | Ok [] => ∀ f, f ∈ factories → enabled f = false
  | Ok (p :: ps) =>
      p = managed ∧ ps ≠ [] ∧
      map build (filter (λ f, enabled f = true) factories) = map Ok ps
  | Err e => ∃ f, f ∈ factories ∧ enabled f = true ∧ build f = Err e
  end.
Proof.
  unfold initializeAuthProviders.
  assert (Hf : ∀ f, f ∈ filter (λ f, enabled f = true) factories ↔ enabled f = true ∧ f ∈ factories)
    by (intros f; by rewrite list_elem_of_filter).
  assert (Hb : ∀ fs, match build_all fs with
                     | Ok ps => map build fs = map Ok ps
                     | Err e => ∃ f, f ∈ fs ∧ build f = Err e
                     end).
  { clear. induction fs as [|f fs IH]; cbn; [done|].
    destruct (build f) as [p|e] eqn:Ep; cbn; [|exists f; set_solver].
    destruct (build_all fs) as [ps|e]; cbn; [by rewrite IH|set_solver]. }
  destruct (filter _ factories) as [|f fs] eqn:E.
  - intros f Hin. destruct (enabled f) eqn:Ee; [|done].
    assert (f ∈ []) as H%not_elem_of_nil by (by apply Hf). done.
  - specialize (Hb (f :: fs)). destruct (build_all (f :: fs)) as [ps|e]; cbn [mbind result_bind].
    + split_and!; try done. by intros ->.
    + destruct Hb as (g & Hg & Hbe). exists g. apply Hf in Hg as [? ?]. auto.
Qed.

(** ** Witnesses *)

(** A managed cluster that knows nobody, and a hub that knows one user. *)
Definition unknown_here : string → answer := λ _, Ok None.
Definition alice : userInfo := MkUser "alice" "1" ["dev"; "system:authenticated"] ∅.
Definition knows_alice : string → answer :=
  λ t, if String.eqb t "client" then Ok (Some alice) else Ok None.

Definition two_providers : list authProvider :=
  [managedClusterAuthProvider unknown_here; hubAuthProvider (Ok "sa-token") knows_alice].

Lemma authenticated_identity_witness :
  ∃ pre p post u, two_providers = (pre ++ p :: post)%list ∧
    Forall (rejects (bearer_token crafted_header)) pre ∧
    AuthenticateToken p (bearer_token crafted_header) = Ok (Some u) ∧
    (rewritten_header = crafted_header ∨
     ∃ token name groups, Ok "sa-token" = Ok token ∧
       impersonates token crafted_header rewritten_header name groups).
Proof.
  apply (authenticated_identity (Ok "sa-token") two_providers crafted_header rewritten_header).
  - apply Forall_cons; split; [apply _|]. apply Forall_cons; split; [apply _|]. by apply Forall_nil.
  - reflexivity.
Defined.

(** The managed cluster rejects by an error, the hub does not know the
    token, the issuer does. *)
Lemma forwarding_table_witness :
  let managed := tokenReview "managed cluster"
    (λ _, Ok (MkReview false alice "[invalid bearer token, token lookup failed]")) in
  rejected (managed "client") ∧ managed "client" ≠ Ok None ∧
  ∃ h' gs, processAuthentication
      [managedClusterAuthProvider managed; hubAuthProvider (Ok "sa-token") unknown_here;
       oidcAuthProvider (Ok "sa-token") knows_alice] crafted_header = (h', None) ∧
    impersonates "sa-token" crafted_header h' "alice" gs.
Proof.
  intros managed. split; [vm_compute; reflexivity|]. split; [discriminate|].
  destruct (forwarding_table "sa-token" managed unknown_here knows_alice crafted_header)
    as (_ & _ & H & _).
  destruct (H alice) as (h' & gs & E & Himp & _); [vm_compute; reflexivity | exact I | reflexivity |].
  exists h', gs. split; [exact E|exact Himp].
Defined.

Lemma infrastructure_error_stops_witness :
  processAuthentication
    ([] ++ managedClusterAuthProvider (λ _, Err EDeadlineExceeded) ::
     [hubAuthProvider (Ok "sa-token") knows_alice]) crafted_header
  = (crafted_header,
     Some (ENew "managed cluster authentication failed: context deadline exceeded")).
Proof.
  apply (infrastructure_error_stops [] [hubAuthProvider (Ok "sa-token") knows_alice]
           (managedClusterAuthProvider (λ _, Err EDeadlineExceeded)) crafted_header
           EDeadlineExceeded); [constructor|reflexivity|reflexivity].
Defined.

Lemma tokenReview_classification_witness :
  match tokenReview "hub" (λ _, Ok (MkReview false alice "Invalid Bearer Token, lookup failed"))
          "client" with
  | Ok None => True
  | Err e => errors_is e ETokenNotAuthenticated = true
  | Ok (Some _) => False
  end.
Proof.
  apply (tokenReview_classification "hub" "client"
           (λ _, Ok (MkReview false alice "Invalid Bearer Token, lookup failed"))).
  - discriminate.
  - eexists. split; [reflexivity|]. right. split; [discriminate|reflexivity].
Defined.
