(* ===== verification/ExpiringCache.v ===== *)
(** * The cache of verdicts

    What the service-proxy's TokenReview cache is made of, from the vendored
    sources: the expiring map of k8s.io/apimachinery/pkg/util/cache/expiring.go
    and, of k8s.io/apiserver/pkg/authentication/token/cache, the interface
    [cache] with its implementations cache_simple.go and cache_striped.go.
    The clock is an argument, in nanoseconds. *)

From S2P Require Import Prelude GoStrings Sha256.

Local Open Scope Z_scope.

(** ** The interface [cache] and what its users rely on *)

Class cache (C V : Type) := {
  cache_new : C;
  cache_get : Z → string → C → option V;
  cache_set : Z → string → V → Z → C → C;
  cache_remove : string → C → C
}.

(** Entries are returned until they expire and are changed by a set of their
    own key only, as long as the clock does not run backwards and fewer than
    2^64 entries were set ([cache_ok n c]: at most [n] so far). *)
Class CacheLaws (C V : Type) `{cache C V} := {
  cache_ok : Z → C → Prop;
  cache_new_ok : cache_ok 0 cache_new;
  cache_set_ok n now k (v : V) ttl (c : C) :
    0 <= n → n + 1 < 2 ^ 64 → cache_ok n c → cache_ok (n + 1) (cache_set now k v ttl c);
  cache_remove_ok n k c : cache_ok n c → cache_ok n (cache_remove k c);
  cache_get_new t k : cache_get t k cache_new = None;
  cache_get_set n now t k (v : V) ttl (c : C) :
    0 <= n → n + 1 < 2 ^ 64 → cache_ok n c → now <= t →
    cache_get t k (cache_set now k v ttl c) = if t <? now + ttl then Some v else None;
  cache_get_set_ne n now t k k' (v : V) ttl (c : C) :
    0 <= n → n + 1 < 2 ^ 64 → cache_ok n c → now <= t → k' ≠ k →
    cache_get t k' (cache_set now k v ttl c) = cache_get t k' c;
  cache_get_remove t k c : cache_get t k (cache_remove k c) = None;
  cache_get_remove_ne t k k' c : k' ≠ k → cache_get t k' (cache_remove k c) = cache_get t k' c
}.

(** ** expiring.go *)

Section expiring.
Context {V : Type}.

Record entry := MkEntry { e_val : V; e_expiry : Z; e_generation : Z }.

Record expiringHeapEntry := MkItem { h_key : string; h_expiry : Z; h_generation : Z }.

Record Expiring := MkExpiring {
  x_cache : gmap string entry;
  x_generation : Z;                    (* a uint64 *)
  x_heap : list expiringHeapEntry
}.

Definition NewExpiring : Expiring := MkExpiring ∅ 0 [].

Definition Expiring_Get (now : Z) (key : string) (c : Expiring) : option V :=
  match x_cache c !! key with
  | None => None
  | Some e => if now <? e_expiry e then Some (e_val e) else None
  end.

(** [del]: generation 0 deletes whatever is there. *)
Definition del (key : string) (generation : Z) (m : gmap string entry) : gmap string entry :=
  match m !! key with
  | None => m
  | Some e => if negb (generation =? 0) && negb (generation =? e_generation e) then m
              else delete key m
  end.

(** [heap.Pop] of container/heap: an entry that expires first, and the rest. *)
Fixpoint heap_Pop (l : list expiringHeapEntry) : option (expiringHeapEntry * list expiringHeapEntry) :=
  match l with
  | [] => None
  | x :: l =>
      match heap_Pop l with
      | None => Some (x, [])
      | Some (y, rest) => if h_expiry y <? h_expiry x then Some (y, x :: rest) else Some (x, l)
      end
  end.

(** [gc], for at most [fuel] rounds. *)
Fixpoint gc (fuel : nat) (now : Z) (c : Expiring) : Expiring :=
  match fuel, heap_Pop (x_heap c) with
  | S fuel, Some (cleanup, rest) =>
      if now <? h_expiry cleanup then c
      else gc fuel now (MkExpiring (del (h_key cleanup) (h_generation cleanup) (x_cache c))
                          (x_generation c) rest)
  | _, _ => c
  end.

Definition Expiring_Set (now : Z) (key : string) (val : V) (ttl : Z) (c : Expiring) : Expiring :=
  let expiry := now + ttl in
  let generation := (x_generation c + 1) mod 2 ^ 64 in
  let c := MkExpiring (<[key := MkEntry val expiry generation]> (x_cache c)) generation (x_heap c) in
  let c := gc (length (x_heap c)) now c in
  MkExpiring (x_cache c) (x_generation c) (MkItem key expiry generation :: x_heap c).

Definition Expiring_Delete (key : string) (c : Expiring) : Expiring :=
  MkExpiring (del key 0 (x_cache c)) (x_generation c) (x_heap c).

(** *** What garbage collection does *)

Lemma heap_Pop_perm l :
  match heap_Pop l with
  | None => l = []
  | Some (x, rest) => l ≡ₚ x :: rest ∧ Forall (λ y, h_expiry x <= h_expiry y) rest
  end.
Proof.
  induction l as [|x l IH]; cbn; [done|]. destruct (heap_Pop l) as [[y rest]|].
  - destruct IH as [Hp Hm]. destruct (Z.ltb_spec (h_expiry y) (h_expiry x)).
    + split; [rewrite Hp; apply Permutation_swap|]. constructor; [lia|done].
    + split; [done|]. rewrite Hp. constructor; [lia|]. eapply Forall_impl; [exact Hm|]. cbn. lia.
  - subst l. by split.
Qed.

(** What is left of the heap has not expired: [gc] runs to its end. *)
Lemma gc_heap fuel now c :
  (length (x_heap c) <= fuel)%nat →
  ∃ expired, x_heap c ≡ₚ expired ++ x_heap (gc fuel now c) ∧
    Forall (λ x, h_expiry x <= now) expired ∧ Forall (λ x, now < h_expiry x) (x_heap (gc fuel now c)) ∧
    x_generation (gc fuel now c) = x_generation c ∧
    x_cache (gc fuel now c) =
      foldl (λ m x, del (h_key x) (h_generation x) m) (x_cache c) expired.
Proof.
  revert c. induction fuel as [|fuel IH]; intros c Hlen.
  { exists []. cbn. destruct (x_heap c); [by repeat constructor | cbn in Hlen; lia]. }
  cbn [gc]. pose proof (heap_Pop_perm (x_heap c)) as Hp.
  destruct (heap_Pop (x_heap c)) as [[x rest]|]; [|exists []; rewrite Hp; by repeat constructor].
  destruct Hp as [Hp Hm]. destruct (Z.ltb_spec now (h_expiry x)).
  - exists []. repeat split; try done. rewrite Hp. constructor; [done|].
    eapply Forall_impl; [exact Hm|]. cbn. lia.
  - destruct (IH (MkExpiring (del (h_key x) (h_generation x) (x_cache c)) (x_generation c) rest))
      as (expired & Hperm & He & Hl & Hg & Hc).
    { cbn. rewrite Hp in Hlen. cbn in Hlen. lia. }
    exists (x :: expired). repeat split; try done.
    + rewrite Hp. by apply perm_skip.
    + by constructor.
Qed.

Lemma del_lookup key generation m k :
  del key generation m !! k =
  match m !! k with
  | Some e => if bool_decide (k = key) && ((generation =? 0) || (generation =? e_generation e))
              then None else Some e
  | None => None
  end.
Proof.
  unfold del. destruct (decide (k = key)) as [->|Hne].
  - destruct (m !! key) as [e|] eqn:E; [|by rewrite E].
    rewrite bool_decide_eq_true_2 by done. cbn [andb].
    destruct (generation =? 0); cbn [negb andb orb]; [by rewrite lookup_delete_eq|].
    destruct (generation =? e_generation e); cbn [negb]; [by rewrite lookup_delete_eq | done].
  - rewrite bool_decide_eq_false_2 by done. cbn [andb].
    destruct (m !! key) as [e|]; [|by destruct (m !! k)].
    destruct (negb _ && negb _); [by destruct (m !! k)|].
    rewrite lookup_delete_ne by done. by destruct (m !! k).
Qed.

(** An entry survives unless an expired heap entry has its key and its
    generation. *)
Lemma foldl_del_lookup expired m k :
  foldl (λ m x, del (h_key x) (h_generation x) m) m expired !! k =
  match m !! k with
  | Some e => if existsb (λ x, bool_decide (k = h_key x) &&
                               ((h_generation x =? 0) || (h_generation x =? e_generation e))) expired
              then None else Some e
  | None => None
  end.
Proof.
  revert m. induction expired as [|x l IH]; intros m; cbn; [by destruct (m !! k)|].
  rewrite IH, del_lookup. destruct (m !! k) as [e|]; [|done].
  by destruct (bool_decide _ && _).
Qed.
End expiring.

Arguments entry : clear implicits.
Arguments Expiring : clear implicits.

(** *** The map is a cache *)

#[export] Instance Expiring_cache V : cache (Expiring V) V := {|
  cache_new := NewExpiring;
  cache_get := Expiring_Get;
  cache_set := Expiring_Set;
  cache_remove := Expiring_Delete
|}.

(** Generations count the sets; an entry and a heap entry of the same
    generation expire together. *)
Record expiring_ok {V} (n : Z) (c : Expiring V) : Prop := {
  ok_generation : x_generation c <= n;
  ok_entries : ∀ k e, x_cache c !! k = Some e → 1 <= e_generation e <= x_generation c;
  ok_heap : ∀ x, x ∈ x_heap c → 1 <= h_generation x <= x_generation c;
  ok_expiry : ∀ x k e, x ∈ x_heap c → x_cache c !! k = Some e → e_generation e = h_generation x →
              e_expiry e = h_expiry x
}.

Section expiring_laws.
Context {V : Type}.
Implicit Types (c : Expiring V) (v : V).

(** The state that [gc] starts from in a set, and what it leaves of it. *)
Lemma Expiring_Set_facts n now key v ttl c :
  0 <= x_generation c → n + 1 < 2 ^ 64 → expiring_ok n c →
  let c' := Expiring_Set now key v ttl c in
  x_generation c' = x_generation c + 1 ∧
  x_cache c' !! key = Some (MkEntry v (now + ttl) (x_generation c + 1)) ∧
  (∀ k e, k ≠ key → x_cache c' !! k = Some e → x_cache c !! k = Some e) ∧
  (∀ k e, k ≠ key → x_cache c !! k = Some e → x_cache c' !! k = None → e_expiry e <= now) ∧
  (∀ x, x ∈ x_heap c' → x = MkItem key (now + ttl) (x_generation c + 1) ∨ x ∈ x_heap c).
Proof.
  intros H0 Hn [Hg He Hh Hx]. cbv zeta. unfold Expiring_Set. rewrite Z.mod_small by lia.
  set (g := x_generation c + 1). set (c1 := MkExpiring (<[key := _]> _) g (x_heap c)).
  destruct (gc_heap (length (x_heap c1)) now c1 (le_n _)) as (expired & Hp & Hexp & _ & Hgen & Hc).
  change (x_heap c) with (x_heap c1). cbn [x_cache x_generation x_heap].
  assert (∀ x, x ∈ expired → x ∈ x_heap c) as Hin.
  { intros x Hx1. change (x_heap c) with (x_heap c1). rewrite Hp. apply elem_of_app. by left. }
  split_and!.
  - done.
  - rewrite Hc, foldl_del_lookup. unfold c1 at 1. cbn [x_cache]. rewrite lookup_insert_eq.
    destruct (existsb _ expired) eqn:E; [|done]. apply existsb_exists in E as (x & Hx1 & Hb).
    apply list_elem_of_In, Hin, Hh in Hx1. cbn [e_generation] in Hb. unfold g in Hb.
    rewrite andb_true_iff, orb_true_iff, !Z.eqb_eq in Hb. lia.
  - intros k e Hne. rewrite Hc, foldl_del_lookup. unfold c1. cbn [x_cache].
    rewrite lookup_insert_ne by done. destruct (x_cache c !! k); [|done]. by destruct (existsb _ _).
  - intros k e Hne Hk. rewrite Hc, foldl_del_lookup. unfold c1. cbn [x_cache].
    rewrite lookup_insert_ne, Hk by done. destruct (existsb _ expired) eqn:E; [|done]. intros _.
    apply existsb_exists in E as (x & Hx1 & Hb). apply list_elem_of_In in Hx1.
    rewrite andb_true_iff, orb_true_iff, !Z.eqb_eq in Hb. pose proof (Hin x Hx1) as Hx2.
    rewrite (Hx x k e Hx2 Hk); [|pose proof (Hh x Hx2); lia].
    by apply (proj1 (Forall_forall _ _) Hexp).
  - intros x [->|Hx1]%elem_of_cons; [by left|right].
    change (x_heap c) with (x_heap c1). rewrite Hp. apply elem_of_app. by right.
Qed.

Lemma expiring_ok_set n now key v ttl c :
  0 <= x_generation c → n + 1 < 2 ^ 64 → expiring_ok n c →
  expiring_ok (n + 1) (Expiring_Set now key v ttl c).
Proof.
  intros H0 Hn Hok. destruct (Expiring_Set_facts n now key v ttl c H0 Hn Hok) as (Hg & Hk & Hold & _ & Hheap).
  destruct Hok as [Hgen He Hh Hx]. split; rewrite ?Hg.
  - lia.
  - intros k e Hl. destruct (decide (k = key)) as [->|Hne].
    + rewrite Hk in Hl. injection Hl as <-. cbn [e_generation]. lia.
    + apply Hold in Hl; [|done]. apply He in Hl. lia.
  - intros x [->|Hin]%Hheap; [cbn [h_generation]; lia | apply Hh in Hin; lia].
  - intros x k e Hin Hl Eg. destruct (decide (k = key)) as [->|Hne].
    + rewrite Hk in Hl. injection Hl as <-. apply Hheap in Hin as [->|Hin]; [done|].
      apply Hh in Hin. cbn in Eg. lia.
    + apply Hold in Hl; [|done]. apply Hheap in Hin as [->|Hin]; [|by apply (Hx x k)].
      apply He in Hl. cbn in Eg. lia.
Qed.

Definition Expiring_ok (n : Z) (c : Expiring V) : Prop := 0 <= x_generation c ∧ expiring_ok n c.

#[export] Instance Expiring_laws : CacheLaws (Expiring V) V.
Proof.
  refine {| cache_ok := Expiring_ok |}.
  - split; [done|]. split; cbn; try done; intros *; rewrite ?lookup_empty; try done;
      by intros ?%not_elem_of_nil.
  - intros n now k v ttl c _ Hn [H0 Hok]. split; [|by apply expiring_ok_set].
    destruct (Expiring_Set_facts n now k v ttl c H0 Hn Hok) as (Hg & _). cbn [cache_set Expiring_cache].
    lia.
  - intros n k c [H0 [Hg He Hh Hx]]. split; [done|]. split; try done; cbn.
    + intros k' e. rewrite del_lookup. destruct (x_cache c !! k') eqn:E; [|done].
      destruct (bool_decide _ && _); [done|]. intros [= <-]. eauto.
    + intros x k' e Hin. rewrite del_lookup. destruct (x_cache c !! k') eqn:E; [|done].
      destruct (bool_decide _ && _); [done|]. intros [= <-]. eauto.
  - done.
  - intros n now t k v ttl c _ Hn [H0 Hok] _.
    destruct (Expiring_Set_facts n now k v ttl c H0 Hn Hok) as (_ & Hk & _).
    cbn [cache_get cache_set Expiring_cache]. unfold Expiring_Get. by rewrite Hk.
  - intros n now t k k' v ttl c _ Hn [H0 Hok] Ht Hne.
    destruct (Expiring_Set_facts n now k v ttl c H0 Hn Hok) as (_ & _ & Hold & Hgone & _).
    cbn [cache_get cache_set Expiring_cache]. unfold Expiring_Get.
    destruct (x_cache (Expiring_Set now k v ttl c) !! k') as [e|] eqn:E; [by rewrite (Hold k' e)|].
    destruct (x_cache c !! k') as [e|] eqn:E'; [|done].
    pose proof (Hgone k' e Hne E' E). destruct (Z.ltb_spec t (e_expiry e)); [lia|done].
  - intros t k c. cbn. unfold Expiring_Get. cbn. rewrite del_lookup.
    destruct (x_cache c !! k); [|done]. by rewrite bool_decide_eq_true_2.
  - intros t k k' c Hne. cbn. unfold Expiring_Get. cbn. rewrite del_lookup.
    destruct (x_cache c !! k'); [|done]. by rewrite bool_decide_eq_false_2.
Qed.
End expiring_laws.

(** ** cache_striped.go *)

(** [hash/fnv]: the 32-bit FNV-1 hash. *)
Definition fnvHashFunc (key : string) : Z :=
  foldl (λ h b, Z.lxor (h * 16777619 mod 2 ^ 32) b) 2166136261 (bytes_of_string key).

Section striped.
Context {C V : Type} `{L : CacheLaws C V}.

(** The stripes of a cache; the source makes 32. *)
Record stripedCache := MkStriped { caches : list C }.

Definition newStripedCache (stripeCount : nat) : stripedCache := MkStriped (replicate stripeCount cache_new).

Definition stripe (key : string) (s : stripedCache) : nat :=
  Z.to_nat (fnvHashFunc key mod Z.of_nat (length (caches s))).

Definition striped_get (now : Z) (key : string) (s : stripedCache) : option V :=
  caches s !! stripe key s ≫= cache_get now key.

Definition striped_set (now : Z) (key : string) (v : V) (ttl : Z) (s : stripedCache) : stripedCache :=
  MkStriped (alter (cache_set now key v ttl) (stripe key s) (caches s)).

Definition striped_remove (key : string) (s : stripedCache) : stripedCache :=
  MkStriped (alter (cache_remove key) (stripe key s) (caches s)).

#[export] Instance striped_cache : cache stripedCache V := {|
  cache_new := newStripedCache 32;
  cache_get := striped_get;
  cache_set := striped_set;
  cache_remove := striped_remove
|}.

(** No stripe has seen more sets than the whole. *)
Definition striped_ok (n : Z) (s : stripedCache) : Prop :=
  length (caches s) = 32%nat ∧ ∀ i c, caches s !! i = Some c → ∃ m, 0 <= m <= n ∧ cache_ok m c.

(** Every key has its stripe. *)
Lemma stripe_there key s :
  (length (caches s) = 32)%nat → is_Some (caches s !! stripe key s).
Proof.
  intros Hl. apply lookup_lt_is_Some. unfold stripe. rewrite Hl. cbn [Z.of_nat].
  pose proof (Z.mod_pos_bound (fnvHashFunc key) 32). lia.
Qed.

Lemma stripe_alter key f s (i : nat) :
  stripe key (MkStriped (alter f i (caches s))) = stripe key s.
Proof. unfold stripe. cbn. by rewrite length_alter. Qed.

Lemma striped_ok_alter n n' f s i :
  n <= n' → (∀ m c, 0 <= m <= n → cache_ok m c → ∃ m', 0 <= m' <= n' ∧ cache_ok m' (f c)) →
  striped_ok n s → striped_ok n' (MkStriped (alter f i (caches s))).
Proof.
  intros Hn Hf [Hl Hs]. split; [by cbn; rewrite length_alter|]. intros j c. cbn.
  destruct (decide (j = i)) as [->|Hne].
  - rewrite list_lookup_alter_eq. destruct (caches s !! i) as [c0|] eqn:E; [|done]. intros [= <-].
    destruct (Hs i c0 E) as (m & Hm & Hok). by apply (Hf m).
  - rewrite list_lookup_alter_ne by done. intros (m & ? & ?)%Hs. exists m. split; [lia|done].
Qed.

Lemma striped_get_alter t key f s i :
  striped_get t key (MkStriped (alter f i (caches s))) =
  (if decide (stripe key s = i) then f <$> caches s !! i else caches s !! stripe key s) ≫= cache_get t key.
Proof.
  unfold striped_get. rewrite stripe_alter. cbn [caches]. case_decide as E.
  - by rewrite E, list_lookup_alter_eq.
  - by rewrite list_lookup_alter_ne.
Qed.

(** A stripe of a cache in order is in order. *)
Lemma striped_stripe n key s :
  striped_ok n s → ∃ c m, caches s !! stripe key s = Some c ∧ 0 <= m <= n ∧ cache_ok m c.
Proof.
  intros [Hl Hs]. destruct (stripe_there key s Hl) as [c Hc].
  destruct (Hs _ c Hc) as (m & ? & ?). eauto.
Qed.

#[export] Instance striped_laws : CacheLaws stripedCache V.
Proof.
  refine {| cache_ok := striped_ok |}; cbn [cache_new cache_get cache_set cache_remove striped_cache].
  - split; [done|]. intros i c Hc. exists 0. split; [lia|].
    apply lookup_replicate in Hc as [-> _]. apply cache_new_ok.
  - intros n now k v ttl s Hn Hb. apply striped_ok_alter; [lia|]. intros m c Hm Hok.
    exists (m + 1). split; [lia|]. apply cache_set_ok; [lia | lia | done].
  - intros n k s. apply striped_ok_alter; [lia|]. intros m c Hm Hok. exists m.
    split; [lia|]. by apply cache_remove_ok.
  - intros t k. unfold striped_get, newStripedCache. cbn [caches].
    destruct (_ !! _) as [c|] eqn:E; [|done]. apply lookup_replicate in E as [-> _]. apply cache_get_new.
  - intros n now t k v ttl s Hn Hb Hok Ht. unfold striped_set. rewrite striped_get_alter, decide_True by done.
    destruct (striped_stripe n k s Hok) as (c & m & -> & Hm & Hc). cbn.
    apply (cache_get_set m); [lia | lia | done | done].
  - intros n now t k k' v ttl s Hn Hb Hok Ht Hne. unfold striped_set. rewrite striped_get_alter.
    unfold striped_get. case_decide as E; [|done]. rewrite E.
    destruct (striped_stripe n k s Hok) as (c & m & -> & Hm & Hc). cbn.
    apply (cache_get_set_ne m); [lia | lia | done | done | done].
  - intros t k s. unfold striped_remove. rewrite striped_get_alter, decide_True by done.
    destruct (caches s !! stripe k s); [cbn; apply cache_get_remove | done].
  - intros t k k' s Hne. unfold striped_remove. rewrite striped_get_alter. unfold striped_get.
    case_decide as E; [|done]. rewrite E. destruct (caches s !! stripe k s); [|done].
    cbn. by apply cache_get_remove_ne.
Qed.
End striped.

Arguments stripedCache : clear implicits.

(** The published test vectors of FNV-1. *)
Example fnv_vectors :
  fnvHashFunc "" = 2166136261 ∧ fnvHashFunc "a" = 84696446 ∧ fnvHashFunc "foobar" = 837857890.
Proof. by vm_compute. Qed.
