(* ===== verification/TokenCache.v ===== *)
(** * The cached TokenReview authenticator

    [newTokenReviewAuthenticator] (pkg/serviceproxy/token_authenticator.go)
    wraps the reviews in [cache.New] of k8s.io/apiserver: verdicts are cached
    under a keyed hash of the token, and requests that miss share one review
    (golang.org/x/sync/singleflight).  Requests, the goroutine of a shared
    lookup and the clock interleave freely; each step below is one critical
    section of the source, and any time may pass between two steps. *)

From stdpp Require Import sorting.
From S2P Require Import Prelude GoStrings Sha256 Http Impersonation AuthProviders ExpiringCache.

Local Open Scope Z_scope.

(** ** The key of a token *)

Definition string_of_bytes (l : list Z) : string :=
  String.string_of_list_ascii (map (λ b, ascii_of_N (Z.to_N b)) l).

(** [writeLength]: a uint32, big-endian. *)
Definition writeLength (n : Z) : string := string_of_bytes (be_bytes 4 (n mod 2 ^ 32)).

Definition writeLengthPrefixedString (s : string) : string :=
  (writeLength (Z.of_nat (String.length s)) ++ s)%string.

(** What [keyFunc] writes to the hash. *)
Definition key_input (auds : list string) (token : string) : string :=
  (writeLengthPrefixedString token ++ writeLength (Z.of_nat (length auds)) ++
   String.concat "" (map writeLengthPrefixedString auds))%string.

(** [crypto/hmac] with SHA-256, for a key of at most a block. *)
Definition hmac_sha256 (key msg : string) : list Z :=
  let k := (bytes_of_string key ++ replicate (64 - String.length key) 0)%list in
  let masked x := string_of_bytes (map (Z.lxor x) k) in
  Sum256 (masked 92 ++ string_of_bytes (Sum256 (masked 54 ++ msg)))%string.

(** The hash of an authenticator's pool, under the random key drawn for it. *)
Definition pool_hash (randomCacheKey msg : string) : string :=
  string_of_bytes (hmac_sha256 randomCacheKey msg).

(** [keyFunc]; [mac] is the hash of the pool. *)
Definition keyFunc (mac : string → string) (auds : list string) (token : string) : string :=
  mac (key_input auds token).

(** RFC 4231, test case 2. *)
Example hmac_vector :
  hex (hmac_sha256 "Jefe" "what do ya want for nothing?") =
  "5bdcc146bf60754e6a042426089575c75a003f089d2739839dec58b964ec3843"%string.
Proof. by vm_compute. Qed.

(** The key determines the token, up to collisions of the hash. *)
Lemma str_app_inj (a b c d : string) :
  String.length a = String.length b → (a ++ c = b ++ d)%string → a = b ∧ c = d.
Proof.
  revert b. induction a as [|x a IH]; intros [|y b]; cbn; try done.
  intros [= Hl] [= -> H]. by destruct (IH b Hl H) as [-> ->].
Qed.

Lemma writeLength_length n : String.length (writeLength n) = 4%nat.
Proof. done. Qed.

Lemma key_input_inj t t' : key_input [] t = key_input [] t' → t = t'.
Proof.
  unfold key_input, writeLengthPrefixedString. intros H.
  assert (String.length t = String.length t') as Hl.
  { apply (f_equal String.length) in H. rewrite !str_length_app, !writeLength_length in H. lia. }
  rewrite <- !str_app_assoc in H. apply str_app_inj in H as [_ H]; [|by rewrite !writeLength_length].
  by apply str_app_inj in H as [H _].
Qed.

(** The key is only ever compared. *)
#[global] Opaque keyFunc.

(** ** The authenticator *)

Definition sharedLookupTimeout : Z := 30 * 1000000000.

(** The arguments of [cache.New], with the hash of the pool that it makes. *)
Record cache_config := MkCacheConfig {
  cf_mac : string → string;
  cacheErrs : bool;
  successTTL : Z;
  failureTTL : Z
}.

(** As [newTokenReviewAuthenticator] calls it. *)
Definition review_cache (mac : string → string) (cacheTTL : Z) : cache_config :=
  MkCacheConfig mac false cacheTTL cacheTTL.

(** A review that has ended: when it began, when its answer arrived. *)
Record review := MkReviewed { r_token : string; r_start : Z; r_end : Z; r_answer : answer }.

(** A shared lookup: about to look at the cache again, waiting for the review
    that it began at [start], with an answer that it has not cached yet, or
    with the record to hand over, which it has had since [held]. *)
Inductive phase := Checking | Reviewing (start : Z) | Answered (rv : review) | Done (held : Z) (r : answer).
Record flight := MkFlight { fl_token : string; fl_phase : phase }.

(** A request: it missed the cache, waits for a lookup, has a record in its
    channel, has returned it, or gave up because its context ended. *)
Inductive status := Missed | Waiting | Ready (r : answer) | Returned (r : answer) | GaveUp (e : goerror).
Record caller := MkCaller { c_token : string; c_arrived : Z; c_status : status }.

(** The reviews that were answered and, with the time, those whose lookup
    went on to the cache are logged, newest first. *)
Record state (C : Type) := MkState {
  now : Z;
  records : C;
  flights : gmap string flight;
  callers : gmap nat caller;
  reviews : list review;
  stores : list (review * Z)
}.
Arguments MkState {C}.
Arguments now {C}.
Arguments records {C}.
Arguments flights {C}.
Arguments callers {C}.
Arguments reviews {C}.
Arguments stores {C}.

Inductive label :=
| Tick (d : Z)
| Arrive (i : nat) (token : string)
| Join (i : nat)
| Check (key : string)
| Answer (key : string) (r : answer)
| Expire (key : string)
| Store (key : string)
| Deliver (key : string)
| Receive (i : nat)
| GiveUp (i : nat) (e : goerror).

Section exec.
Context {C : Type} `{cache C answer}.
Context (cfg : cache_config).

Abbreviation key_of := (keyFunc (cf_mac cfg) []).

(** The end of the shared function: whether and for how long the record is
    cached. *)
Definition store (now : Z) (key : string) (r : answer) (c : C) : C :=
  if negb (cacheErrs cfg) && match r with Err _ => true | _ => false end then c
  else match r with
       | Ok (Some _) => if successTTL cfg >? 0 then cache_set now key r (successTTL cfg) c else c
       | _ => if failureTTL cfg >? 0 then cache_set now key r (failureTTL cfg) c else c
       end.

(** The review is made under a context that ends after
    [sharedLookupTimeout]: a verdict arrives before, or not at all. *)
Definition in_time (start now : Z) (r : answer) : bool :=
  match r with Err _ => true | Ok _ => now <=? start + sharedLookupTimeout end.

Definition set_status (i : nat) (st : status) (m : gmap nat caller) : gmap nat caller :=
  alter (λ c, MkCaller (c_token c) (c_arrived c) st) i m.

(** [doCall] sends the record to every channel of the call. *)
Definition deliver (key : string) (r : answer) (m : gmap nat caller) : gmap nat caller :=
  (λ c, match c_status c with
        | Waiting => if String.eqb (key_of (c_token c)) key
                     then MkCaller (c_token c) (c_arrived c) (Ready r) else c
        | _ => c
        end) <$> m.

(** The answer of a review arrives: the record is there, but not cached. *)
Definition answered (s : state C) (key token : string) (start : Z) (r : answer) : state C :=
  let rv := MkReviewed token start (now s) r in
  MkState (now s) (records s) (<[key := MkFlight token (Answered rv)]> (flights s)) (callers s)
    (rv :: reviews s) (stores s).

Definition exec (s : state C) (l : label) : option (state C) :=
  let '(MkState t c fs cs rs ss) := s in
  match l with
  | Tick d => if 0 <=? d then Some (MkState (t + d) c fs cs rs ss) else None
  | Arrive i token =>                     (* [a.cache.get(key)] *)
      match cs !! i with
      | Some _ => None
      | None =>
          let st := match cache_get t (key_of token) c with
                    | Some r => Returned r
                    | None => Missed
                    end in
          Some (MkState t c fs (<[i := MkCaller token t st]> cs) rs ss)
      end
  | Join i =>                             (* [a.group.DoChan] *)
      match cs !! i with
      | Some (MkCaller token _ Missed) =>
          let fs := match fs !! key_of token with
                    | Some _ => fs
                    | None => <[key_of token := MkFlight token Checking]> fs
                    end in
          Some (MkState t c fs (set_status i Waiting cs) rs ss)
      | _ => None
      end
  | Check key =>                          (* the second [a.cache.get(key)] *)
      match fs !! key with
      | Some (MkFlight token Checking) =>
          let p := match cache_get t key c with Some r => Done t r | None => Reviewing t end in
          Some (MkState t c (<[key := MkFlight token p]> fs) cs rs ss)
      | _ => None
      end
  | Answer key r =>                       (* [a.authenticator.AuthenticateToken] is answered *)
      match fs !! key with
      | Some (MkFlight token (Reviewing start)) =>
          if in_time start t r then Some (answered s key token start r) else None
      | _ => None
      end
  | Expire key =>                         (* [context.WithTimeout] ends it *)
      match fs !! key with
      | Some (MkFlight token (Reviewing start)) =>
          if start + sharedLookupTimeout <=? t
          then Some (answered s key token start (Err EDeadlineExceeded)) else None
      | _ => None
      end
  | Store key =>                          (* [a.cache.set] *)
      match fs !! key with
      | Some (MkFlight token (Answered rv)) =>
          Some (MkState t (store t key (r_answer rv) c)
                  (<[key := MkFlight token (Done t (r_answer rv))]> fs) cs rs ((rv, t) :: ss))
      | _ => None
      end
  | Deliver key =>                        (* the end of [doCall] *)
      match fs !! key with
      | Some (MkFlight _ (Done _ r)) => Some (MkState t c (delete key fs) (deliver key r cs) rs ss)
      | _ => None
      end
  | Receive i =>                          (* [case result := <-c] *)
      match cs !! i with
      | Some (MkCaller _ _ (Ready r)) => Some (MkState t c fs (set_status i (Returned r) cs) rs ss)
      | _ => None
      end
  | GiveUp i e =>                         (* [case <-ctx.Done()] *)
      match cs !! i with
      | Some (MkCaller _ _ (Waiting | Ready _)) =>
          Some (MkState t c fs (set_status i (GaveUp e) cs) rs ss)
      | _ => None
      end
  end.

Definition initial_state (t : Z) : state C := MkState t cache_new ∅ ∅ [] [].

Fixpoint exec_all (s : state C) (ls : list label) : option (state C) :=
  match ls with
  | [] => Some s
  | l :: ls => s ← exec s l; exec_all s ls
  end.

(** Steps whose requests carry tokens of [presented]. *)
Definition presents (presented : string → Prop) (l : label) : Prop :=
  match l with Arrive _ token => presented token | _ => True end.

Inductive cache_step (presented : string → Prop) : state C → state C → Prop :=
| CacheStep s l s' : presents presented l → exec s l = Some s' → cache_step presented s s'.
End exec.

(** ** The invariant *)

(** The verdict on a token that was cached last, and when. *)
Fixpoint last_stored (token : string) (ss : list (review * Z)) : option (review * Z) :=
  match ss with
  | [] => None
  | x :: ss => if String.eqb (r_token x.1) token && is_ok (r_answer x.1) then Some x
               else last_stored token ss
  end.

Lemma last_stored_some token ss x :
  last_stored token ss = Some x → x ∈ ss ∧ r_token x.1 = token ∧ is_ok (r_answer x.1) = true.
Proof.
  induction ss as [|y ss IH]; cbn; [done|].
  destruct (String.eqb_spec (r_token y.1) token) as [E|]; cbn [andb];
    [destruct (is_ok (r_answer y.1)) eqn:Eo|];
    try (intros (? & ? & ?)%IH; split; [by right|done]).
  intros [= <-]. split; [by left|done].
Qed.

(** Newest first. *)
Definition stored_later (newer older : review * Z) : Prop := older.2 <= newer.2.

Lemma last_stored_newest token ss x :
  StronglySorted stored_later ss → x ∈ ss → r_token x.1 = token → is_ok (r_answer x.1) = true →
  ∃ y, last_stored token ss = Some y ∧ x.2 <= y.2.
Proof.
  induction 1 as [|y ss Hs IH Hy]; intros Hin Ht Ho; [by apply not_elem_of_nil in Hin|].
  cbn. destruct (String.eqb (r_token y.1) token && is_ok (r_answer y.1)) eqn:E.
  - exists y. split; [done|]. apply elem_of_cons in Hin as [->|Hin]; [lia|].
    exact (proj1 (Forall_forall _ _) Hy x Hin).
  - apply elem_of_cons in Hin as [->|Hin]; [|by apply IH].
    rewrite Ht, String.eqb_refl, Ho in E. done.
Qed.

Section invariant.
Context {C : Type} `{L : CacheLaws C answer}.
Context (mac : string → string) (ttl : Z) (Httl : 0 < ttl).
Context (presented : string → Prop).
Context (no_collision : ∀ t t', presented t → presented t' →
  keyFunc mac [] t = keyFunc mac [] t' → t = t').

Abbreviation cfg := (review_cache mac ttl).
Abbreviation key_of := (keyFunc mac []).

(** A review that may be followed by one that begins at [start]. *)
Definition precedes (r : review) (start : Z) : Prop :=
  r_end r <= start ∧ (is_ok (r_answer r) = true → r_end r + ttl <= start).

Definition spaced (newer older : review) : Prop :=
  r_token older = r_token newer → precedes older (r_start newer).

(** A record of the token that was not too old at time [t]. *)
Definition fresh_until (ss : list (review * Z)) (token : string) (t : Z) (r : answer) : Prop :=
  ∃ rv st, (rv, st) ∈ ss ∧ r_token rv = token ∧ r_answer rv = r ∧ t < st + ttl.

Definition flight_inv (s : state C) (f : flight) : Prop :=
  match fl_phase f with
  | Checking => True
  | Reviewing start =>
      start <= now s ∧ ∀ r, r ∈ reviews s → r_token r = fl_token f → precedes r start
  | Answered rv => rv ∈ reviews s ∧ r_token rv = fl_token f
  | Done held r => held <= now s ∧ fresh_until (stores s) (fl_token f) held r
  end.

Definition caller_inv (s : state C) (c : caller) : Prop :=
  match c_status c with
  | Missed | Waiting | GaveUp _ => True
  | Ready r | Returned r => ∃ t, fresh_until (stores s) (c_token c) t r
  end.

Record cache_inv (s : state C) : Prop := {
  inv_ok : ∃ n, 0 <= n <= Z.of_nat (length (stores s)) ∧ cache_ok n (records s);
  inv_view : ∀ token t, presented token → now s <= t →
    cache_get t (key_of token) (records s) =
    match last_stored token (stores s) with
    | Some (r, st) => if t <? st + ttl then Some (r_answer r) else None
    | None => None
    end;
  inv_flights : ∀ k f, flights s !! k = Some f →
    presented (fl_token f) ∧ k = key_of (fl_token f) ∧ flight_inv s f;
  inv_reviews : ∀ r, r ∈ reviews s → r_start r <= r_end r <= now s ∧
    in_time (r_start r) (r_end r) (r_answer r) = true;
  inv_stored : ∀ r st, (r, st) ∈ stores s → r ∈ reviews s ∧ r_end r <= st <= now s;
  inv_pending : ∀ r, r ∈ reviews s →
    (∃ st, (r, st) ∈ stores s) ∨ flights s !! key_of (r_token r) = Some (MkFlight (r_token r) (Answered r));
  inv_sorted : StronglySorted stored_later (stores s);
  inv_spaced : StronglySorted spaced (reviews s);
  inv_callers : ∀ i c, callers s !! i = Some c →
    presented (c_token c) ∧ c_arrived c <= now s ∧ caller_inv s c
}.

Lemma initial_cache_inv t : cache_inv (initial_state t).
Proof.
  split; cbn; try (intros *; rewrite ?lookup_empty, ?elem_of_nil; done); try apply SSorted_nil.
  - exists 0. split; [lia | apply cache_new_ok].
  - intros. apply cache_get_new.
Qed.

(** A hit is a record that has not expired. *)
Lemma cache_hit s token t r :
  cache_inv s → presented token → now s <= t → cache_get t (key_of token) (records s) = Some r →
  fresh_until (stores s) token t r.
Proof.
  intros Hinv Hp Ht. rewrite (inv_view s Hinv token t Hp Ht).
  destruct (last_stored token (stores s)) as [[rv st]|] eqn:E; [|done].
  destruct (Z.ltb_spec t (st + ttl)); [|done]. intros [= <-].
  apply last_stored_some in E as (? & ? & _). by exists rv, st.
Qed.

(** After a miss of a lookup, every earlier review of the token has run out. *)
Lemma cache_miss s token r :
  cache_inv s → presented token → flights s !! key_of token = Some (MkFlight token Checking) →
  cache_get (now s) (key_of token) (records s) = None →
  r ∈ reviews s → r_token r = token → precedes r (now s).
Proof.
  intros Hinv Hp Hf Hg Hin Ht. destruct (inv_reviews s Hinv r Hin) as [Hr _]. split; [lia|]. intros Ho.
  destruct (inv_pending s Hinv r Hin) as [[st Hst]|Hw]; [|congruence].
  destruct (inv_stored s Hinv r st Hst) as (_ & Hle).
  destruct (last_stored_newest token (stores s) (r, st) (inv_sorted s Hinv)) as ([y sy] & Hy & Hys); try done.
  rewrite (inv_view s Hinv token (now s) Hp), Hy in Hg by lia. cbn in Hys.
  destruct (Z.ltb_spec (now s) (sy + ttl)); [done|lia].
Qed.

(** *** The steps *)

(** Changing requests leaves the rest of the invariant alone. *)
Lemma inv_set_callers s cs :
  cache_inv s →
  (∀ i c, cs !! i = Some c → presented (c_token c) ∧ c_arrived c <= now s ∧ caller_inv s c) →
  cache_inv (MkState (now s) (records s) (flights s) cs (reviews s) (stores s)).
Proof. intros [H1 H2 H3 H4 H5 H6 H7 H8 H9] Hcs. by split. Qed.

Lemma set_status_inv s i st c0 :
  cache_inv s → callers s !! i = Some c0 →
  caller_inv s (MkCaller (c_token c0) (c_arrived c0) st) →
  cache_inv (MkState (now s) (records s) (flights s) (set_status i st (callers s)) (reviews s) (stores s)).
Proof.
  intros Hinv Hi Hst. apply inv_set_callers; [done|]. intros j c. unfold set_status.
  destruct (decide (j = i)) as [->|Hne].
  - rewrite lookup_alter_eq, Hi. intros [= <-]. destruct (inv_callers s Hinv i c0 Hi) as (? & ? & _). done.
  - rewrite lookup_alter_ne by done. apply (inv_callers s Hinv).
Qed.

Lemma tick_inv s d :
  cache_inv s → 0 <= d →
  cache_inv (MkState (now s + d) (records s) (flights s) (callers s) (reviews s) (stores s)).
Proof.
  intros [H1 H2 H3 H4 H5 H6 H7 H8 H9] Hd.
  split; cbn [now records flights callers reviews stores]; try done.
  - intros token t Hp Ht. apply H2; [done|lia].
  - intros k f Hf. destruct (H3 k f Hf) as (? & ? & Hi). split; [done|]. split; [done|].
    revert Hi. unfold flight_inv. cbn [now reviews stores].
    destruct (fl_phase f) as [|start|rv|held r]; try done; intros [? ?]; (split; [lia|done]).
  - intros r Hr. destruct (H4 r Hr). split; [lia|done].
  - intros r st Hr. destruct (H5 r st Hr). split; [done|lia].
  - intros i c Hc. destruct (H9 i c Hc) as (? & ? & ?). split; [done|]. split; [lia|done].
Qed.

Lemma arrive_inv s i token :
  cache_inv s → presented token → callers s !! i = None →
  let st := match cache_get (now s) (key_of token) (records s) with
            | Some r => Returned r | None => Missed end in
  cache_inv (MkState (now s) (records s) (flights s)
    (<[i := MkCaller token (now s) st]> (callers s)) (reviews s) (stores s)).
Proof.
  intros Hinv Hp Hi. cbv zeta. apply inv_set_callers; [done|]. intros j c.
  destruct (decide (j = i)) as [->|Hne].
  - rewrite lookup_insert_eq. intros [= <-]. split; [done|]. split; [cbn; lia|].
    unfold caller_inv. cbn [c_status c_token c_arrived].
    destruct (cache_get _ _ _) as [r|] eqn:E; [|done].
    exists (now s). by apply (cache_hit s token (now s) r Hinv Hp).
  - rewrite lookup_insert_ne by done. apply (inv_callers s Hinv).
Qed.

(** Starting a lookup or moving one on, unless its answer is pending. *)
Lemma set_flight_inv s token p :
  cache_inv s → presented token → flight_inv s (MkFlight token p) →
  (∀ rv, flights s !! key_of token ≠ Some (MkFlight token (Answered rv))) →
  cache_inv (MkState (now s) (records s) (<[key_of token := MkFlight token p]> (flights s))
    (callers s) (reviews s) (stores s)).
Proof.
  intros [H1 H2 H3 H4 H5 H6 H7 H8 H9] Hp Hf Hn.
  split; cbn [now records flights callers reviews stores]; try done.
  - intros k f. destruct (decide (k = key_of token)) as [->|Hne].
    + rewrite lookup_insert_eq. intros [= <-]. done.
    + rewrite lookup_insert_ne by done. apply H3.
  - intros r Hr. destruct (H6 r Hr) as [?|Hw]; [by left|]. right.
    destruct (H3 _ _ Hw) as (Hpr & _). cbn [fl_token] in Hpr.
    rewrite lookup_insert_ne; [done|]. intros E. pose proof (no_collision _ _ Hp Hpr E) as ->. by eapply Hn.
Qed.

Lemma join_inv s i token a :
  cache_inv s → callers s !! i = Some (MkCaller token a Missed) →
  let fs := match flights s !! key_of token with
            | Some _ => flights s
            | None => <[key_of token := MkFlight token Checking]> (flights s)
            end in
  cache_inv (MkState (now s) (records s) fs (set_status i Waiting (callers s)) (reviews s) (stores s)).
Proof.
  intros Hinv Hi. destruct (inv_callers s Hinv i _ Hi) as (Hp & _ & _). cbv zeta. cbn [c_token] in Hp.
  destruct (flights s !! key_of token) as [f|] eqn:E.
  - by apply (set_status_inv s i Waiting _ Hinv Hi).
  - assert (cache_inv (MkState (now s) (records s) (<[key_of token := MkFlight token Checking]> (flights s))
      (callers s) (reviews s) (stores s))) as Hinv' by (apply set_flight_inv; try done; congruence).
    by apply (set_status_inv _ i Waiting _ Hinv' Hi).
Qed.

Lemma check_inv s k token :
  cache_inv s → flights s !! k = Some (MkFlight token Checking) →
  let p := match cache_get (now s) k (records s) with
           | Some r => Done (now s) r | None => Reviewing (now s) end in
  cache_inv (MkState (now s) (records s) (<[k := MkFlight token p]> (flights s)) (callers s)
    (reviews s) (stores s)).
Proof.
  intros Hinv Hk. destruct (inv_flights s Hinv k _ Hk) as (Hp & -> & _). cbv zeta. cbn [fl_token] in *.
  apply set_flight_inv; [done | done | | congruence]. unfold flight_inv. cbn [fl_phase fl_token].
  destruct (cache_get _ _ _) as [r|] eqn:E; (split; [lia|]).
  - by apply (cache_hit s token (now s) r Hinv Hp).
  - intros r. by apply cache_miss.
Qed.

Lemma answered_inv s k token start r :
  cache_inv s → flights s !! k = Some (MkFlight token (Reviewing start)) → in_time start (now s) r = true →
  cache_inv (answered s k token start r).
Proof.
  intros Hinv Hk Hit. destruct (inv_flights s Hinv k _ Hk) as (Hp & -> & [Hst Hprec]).
  cbn [fl_token] in *. destruct Hinv as [H1 H2 H3 H4 H5 H6 H7 H8 H9]. unfold answered.
  split; cbn [now records flights callers reviews stores]; try done.
  - intros k f. destruct (decide (k = key_of token)) as [->|Hne].
    + rewrite lookup_insert_eq. intros [= <-]. do 2 (split; [done|]). split; [by left|done].
    + rewrite lookup_insert_ne by done. intros Hf. destruct (H3 k f Hf) as (Hpf & Hkf & Hi).
      split; [done|]. split; [done|]. revert Hi. unfold flight_inv. cbn [now reviews stores].
      destruct (fl_phase f) as [|st|rv|held x]; try done.
      * intros [? Hpr]. split; [done|]. intros rv [->|Hin]%elem_of_cons; [|by apply Hpr].
        cbn [r_token]. intros E. congruence.
      * intros [? ?]. split; [by right|done].
  - intros rv [->|Hin]%elem_of_cons; [cbn; split; [lia|done] | by apply H4].
  - intros rv st Hin. destruct (H5 rv st Hin). split; [by right|done].
  - intros rv [->|Hin]%elem_of_cons; [right; cbn [r_token]; by rewrite lookup_insert_eq|].
    destruct (H6 rv Hin) as [?|Hw]; [by left|]. right. destruct (H3 _ _ Hw) as (Hpr & _). cbn [fl_token] in Hpr.
    rewrite lookup_insert_ne; [done|]. intros E. pose proof (no_collision _ _ Hp Hpr E) as ->. congruence.
  - constructor; [done|]. apply Forall_forall. intros rv Hin. unfold spaced. cbn [r_token r_start].
    by apply Hprec.
Qed.

(** Storing a record: verdicts for the time to live, errors never. *)
Lemma store_facts n t token r c :
  0 <= n → n + 1 < 2 ^ 64 → cache_ok n c → presented token →
  (∃ n', 0 <= n' <= n + 1 ∧ cache_ok n' (store cfg t (key_of token) r c)) ∧
  ∀ token' t', presented token' → t <= t' →
    cache_get t' (key_of token') (store cfg t (key_of token) r c) =
    if String.eqb token token' && is_ok r then (if t' <? t + ttl then Some r else None)
    else cache_get t' (key_of token') c.
Proof.
  intros H0 Hn Hok Hp. unfold store. cbn [cacheErrs successTTL failureTTL review_cache negb].
  assert ((ttl >? 0) = true) as -> by (apply Z.gtb_lt; lia).
  destruct r as [o|e]; cbn [andb is_ok]; [|split; [exists n; split; [lia|done]|]].
  - replace (match o with Some _ => _ | None => _ end) with (cache_set t (key_of token) (Ok o) ttl c)
      by (by destruct o).
    split; [exists (n + 1); split; [lia | by apply cache_set_ok]|]. intros token' t' Hp' Ht. rewrite andb_true_r.
    destruct (String.eqb_spec token token') as [<-|Hne]; [by apply (cache_get_set n)|].
    apply (cache_get_set_ne n); try done. intros E. by apply no_collision in E.
  - intros token' t' _ _. by rewrite andb_false_r.
Qed.

Lemma fresh_until_more ss x token t r : fresh_until ss token t r → fresh_until (x :: ss) token t r.
Proof. intros (rv & st & Hin & H'). exists rv, st. split; [by right|done]. Qed.

Lemma store_inv s k token rv :
  cache_inv s → Z.of_nat (S (length (stores s))) < 2 ^ 64 →
  flights s !! k = Some (MkFlight token (Answered rv)) →
  cache_inv (MkState (now s) (store cfg (now s) k (r_answer rv) (records s))
    (<[k := MkFlight token (Done (now s) (r_answer rv))]> (flights s)) (callers s) (reviews s)
    ((rv, now s) :: stores s)).
Proof.
  intros Hinv Hn Hk. destruct (inv_flights s Hinv k _ Hk) as (Hp & -> & [Hin Htok]).
  cbn [fl_token] in *. destruct Hinv as [(n & Hb & Hok) H2 H3 H4 H5 H6 H7 H8 H9].
  destruct (store_facts n (now s) token (r_answer rv) (records s)) as [(n' & Hn' & Hok') Hget];
    [lia | lia | done | done |].
  split; cbn [now records flights callers reviews stores]; try done.
  - exists n'. split; [cbn [length]; lia | done].
  - intros token' t Hp' Ht. rewrite Hget by done. cbn [last_stored fst]. rewrite Htok.
    destruct (String.eqb token token' && _); [done | by apply H2].
  - intros k f. destruct (decide (k = key_of token)) as [->|Hne].
    + rewrite lookup_insert_eq. intros [= <-]. do 2 (split; [done|]). split; [cbn; lia|].
      exists rv, (now s). split; [by left|]. split; [done|]. split; [done|lia].
    + rewrite lookup_insert_ne by done. intros Hf. destruct (H3 k f Hf) as (Hpf & Hkf & Hi).
      split; [done|]. split; [done|]. revert Hi. unfold flight_inv. cbn [now reviews stores].
      destruct (fl_phase f) as [|st|x|held x]; try done.
      intros [? ?]. split; [done|by apply fresh_until_more].
  - intros r st [[= -> ->]|Hr]%elem_of_cons; [|by apply H5].
    split; [done|]. destruct (H4 rv Hin). lia.
  - intros r Hr. destruct (H6 r Hr) as [[st Hst]|Hw]; [left; exists st; by right|].
    destruct (H3 _ _ Hw) as (Hpr & _). cbn [fl_token] in Hpr.
    destruct (String.eqb_spec (r_token r) token) as [E|E].
    + left. exists (now s). rewrite E, Hk in Hw. injection Hw as ->. by left.
    + right. rewrite lookup_insert_ne; [done|]. intros E'. by pose proof (no_collision _ _ Hp Hpr E').
  - constructor; [done|]. apply Forall_forall. intros [r st] Hr. unfold stored_later. cbn.
    destruct (H5 r st Hr). lia.
  - intros i c Hc. destruct (H9 i c Hc) as (? & ? & Hi). split; [done|]. split; [done|].
    revert Hi. unfold caller_inv. cbn [stores].
    destruct (c_status c); try done; intros [t Ht]; exists t; by apply fresh_until_more.
Qed.

Lemma deliver_inv s k token held r :
  cache_inv s → flights s !! k = Some (MkFlight token (Done held r)) →
  cache_inv (MkState (now s) (records s) (delete k (flights s)) (deliver cfg k r (callers s))
    (reviews s) (stores s)).
Proof.
  intros Hinv Hk. destruct (inv_flights s Hinv k _ Hk) as (Hp & -> & [_ Hr]). cbn in Hp, Hr.
  destruct Hinv as [H1 H2 H3 H4 H5 H6 H7 H8 H9].
  split; cbn [now records flights callers reviews stores]; try done.
  - intros k f [Hne Hf]%lookup_delete_Some. by apply H3.
  - intros rv Hin. destruct (H6 rv Hin) as [?|Hw]; [by left|]. right.
    rewrite lookup_delete_ne; [done|]. intros E. rewrite <- E, Hk in Hw. done.
  - intros i c. unfold deliver. rewrite lookup_fmap. destruct (callers s !! i) as [c0|] eqn:E; [|done].
    cbn [fmap option_fmap option_map]. intros [= <-]. destruct (H9 i c0 E) as (Hpc & Ha & Hi).
    destruct c0 as [tok a st]. cbn [c_token c_arrived c_status cf_mac review_cache] in *.
    destruct st; cbn [c_token c_arrived]; (split; [|split]); try done;
      (destruct (String.eqb_spec (key_of tok) (key_of token)) as [Ek|Ek]; try done).
    apply no_collision in Ek; [|done|done]. subst tok. by exists held.
Qed.

Lemma exec_inv s l s' :
  cache_inv s → presents presented l → exec cfg s l = Some s' →
  Z.of_nat (length (stores s')) < 2 ^ 64 → cache_inv s'.
Proof.
  intros Hinv Hl Hx Hn. destruct s as [t c fs cs rs ss].
  destruct l as [d|i token|i|k|k r|k|k|k|i|i e]; cbn [exec] in Hx.
  - destruct (Z.leb_spec 0 d); [|done].
    injection Hx as <-. by apply (tick_inv (MkState t c fs cs rs ss)).
  - destruct (cs !! i) eqn:E; [done|]. injection Hx as <-.
    by apply (arrive_inv (MkState t c fs cs rs ss)).
  - destruct (cs !! i) as [[token a []]|] eqn:E; try done. injection Hx as <-.
    by apply (join_inv (MkState t c fs cs rs ss) i token a).
  - destruct (fs !! k) as [[token []]|] eqn:E; try done. injection Hx as <-.
    by apply (check_inv (MkState t c fs cs rs ss)).
  - destruct (fs !! k) as [[token []]|] eqn:E; try done. destruct (in_time _ _ _) eqn:Et; [|done].
    injection Hx as <-. by apply answered_inv.
  - destruct (fs !! k) as [[token []]|] eqn:E; try done. destruct (_ <=? t); [|done].
    injection Hx as <-. by apply answered_inv.
  - destruct (fs !! k) as [[token []]|] eqn:E; try done. injection Hx as <-.
    by apply (store_inv (MkState t c fs cs rs ss)).
  - destruct (fs !! k) as [[token []]|] eqn:E; try done. injection Hx as <-.
    by eapply (deliver_inv (MkState t c fs cs rs ss) k token).
  - destruct (cs !! i) as [[token a []]|] eqn:E; try done. injection Hx as <-.
    apply (set_status_inv (MkState t c fs cs rs ss) i _ _ Hinv E).
    by destruct (inv_callers _ Hinv i _ E) as (_ & _ & Hc).
  - destruct (cs !! i) as [[token a []]|] eqn:E; try done; injection Hx as <-;
      by apply (set_status_inv (MkState t c fs cs rs ss) i _ _ Hinv E).
Qed.

(** Records are only added. *)
Lemma exec_stores s l s' : exec cfg s l = Some s' → (length (stores s) <= length (stores s'))%nat.
Proof.
  intros Hx. destruct s as [t c fs cs rs ss]. destruct l; cbn [exec] in Hx; repeat case_match; try done;
    injection Hx as <-; cbn; lia.
Qed.

Lemma reachable_inv t s :
  steps (cache_step cfg presented) (initial_state t) s →
  Z.of_nat (length (stores s)) < 2 ^ 64 → cache_inv s.
Proof.
  intros Hs. remember (initial_state t) as s0 eqn:E0.
  induction Hs as [a|a b c Hs IH Hstep]; intros Hn; subst; [apply initial_cache_inv|].
  destruct Hstep as [b l c Hl Hx]. apply (exec_inv b l c); try done.
  apply IH; [done|]. pose proof (exec_stores b l c Hx). lia.
Qed.
End invariant.

(** ** What the cache promises *)

(** Lookups are prompt up to [slack]: none has had an answer or a record for
    longer than that without going on. *)
Definition prompt {C} (slack : Z) (s : state C) : Prop :=
  ∀ k f, flights s !! k = Some f →
    match fl_phase f with
    | Checking | Reviewing _ => True
    | Answered rv => now s <= r_end rv + slack
    | Done held _ => now s <= held + slack
    end.

Section promises.
Context {C : Type} `{L : CacheLaws C answer}.
Context (mac : string → string) (ttl : Z) (presented : string → Prop).

Abbreviation cfg := (review_cache mac ttl).
Abbreviation key_of := (keyFunc mac []).

(** The hash has no collision among what is written for the tokens
    presented. *)
Definition collision_free : Prop :=
  ∀ t t', presented t → presented t' → mac (key_input [] t) = mac (key_input [] t') →
  key_input [] t = key_input [] t'.

(** The reachable states, with fewer than 2^64 records stored. *)
Definition reachable (s : state C) : Prop :=
  ∃ t, steps (cache_step cfg presented) (initial_state t) s ∧ Z.of_nat (length (stores s)) < 2 ^ 64.

(** Those that are reached by steps from states where lookups are prompt. *)
Definition promptly_reachable (slack : Z) (s : state C) : Prop :=
  ∃ t, steps (λ a b, prompt slack a ∧ cache_step cfg presented a b) (initial_state t) s ∧
       Z.of_nat (length (stores s)) < 2 ^ 64.

Lemma keys_differ : collision_free →
  ∀ t t', presented t → presented t' → key_of t = key_of t' → t = t'.
Proof. intros Hc t1 t2 H1 H2 E. by apply key_input_inj, Hc. Qed.

Lemma reachable_cache_inv s :
  0 < ttl → collision_free → reachable s → cache_inv mac ttl presented s.
Proof. intros Ht Hc (t & Hs & Hn). by eapply reachable_inv; [|apply keys_differ| |]. Qed.

(** *** The age of an identity *)

(** What promptness adds: answers are cached, and records handed over, in
    time. *)
Definition timely (slack : Z) (s : state C) : Prop :=
  (∀ rv st, (rv, st) ∈ stores s → st <= r_end rv + slack) ∧
  ∀ i c r, callers s !! i = Some c → c_status c = Ready r ∨ c_status c = Returned r →
    ∃ t, c_arrived c <= t + slack ∧ fresh_until ttl (stores s) (c_token c) t r.

Lemma set_status_lookup i st (m : gmap nat caller) j c :
  set_status i st m !! j = Some c →
  (j ≠ i ∧ m !! j = Some c) ∨
  (j = i ∧ ∃ c0, m !! i = Some c0 ∧ c = MkCaller (c_token c0) (c_arrived c0) st).
Proof.
  unfold set_status. destruct (decide (j = i)) as [->|Hne].
  - rewrite lookup_alter_eq. destruct (m !! i) as [c0|]; [|done]. intros [= <-]. right. eauto.
  - rewrite lookup_alter_ne by done. by left.
Qed.

Lemma timely_step slack s l s' :
  0 <= slack → 0 < ttl → collision_free → cache_inv mac ttl presented s → presents presented l →
  prompt slack s → exec cfg s l = Some s' → timely slack s → timely slack s'.
Proof.
  intros Hs Ht Hc Hinv Hl Hpr Hx [T1 T2]. destruct s as [t c fs cs rs ss].
  destruct l as [d|i token|i|k|k r|k|k|k|i|i e]; cbn [exec] in Hx.
  - destruct (0 <=? d); [|done]. by injection Hx as <-.
  - destruct (cs !! i) eqn:E; [done|]. injection Hx as <-. split; [done|]. cbn [callers stores].
    intros j c0 r. destruct (decide (j = i)) as [->|Hne]; [|rewrite lookup_insert_ne by done; apply T2].
    rewrite lookup_insert_eq. intros [= <-]. cbn [c_status c_arrived c_token].
    destruct (cache_get _ _ _) as [r'|] eqn:Eg; intros [?|?]; simplify_eq. exists t. split; [lia|].
    by apply (cache_hit mac ttl presented _ token t r Hinv).
  - destruct (cs !! i) as [[token a []]|] eqn:E; try done. injection Hx as <-. split; [done|].
    intros j c0 r [[_ Hj]|(-> & c1 & _ & ->)]%set_status_lookup; [by apply (T2 j)|]. by intros [?|?].
  - destruct (fs !! k) as [[token []]|] eqn:E; try done. by injection Hx as <-.
  - destruct (fs !! k) as [[token []]|] eqn:E; try done. destruct (in_time _ _ _); [|done].
    by injection Hx as <-.
  - destruct (fs !! k) as [[token []]|] eqn:E; try done. destruct (_ <=? t); [|done].
    by injection Hx as <-.
  - destruct (fs !! k) as [[token []]|] eqn:E; try done. injection Hx as <-. specialize (Hpr k _ E).
    cbn in Hpr. split; cbn [stores callers].
    + intros rv' st [[= -> ->]|Hin]%elem_of_cons; [done|by apply T1].
    + intros j c0 r Hj Hst. destruct (T2 j c0 r Hj Hst) as (t' & ? & Hf). exists t'. split; [done|].
      by apply fresh_until_more.
  - destruct (fs !! k) as [[token []]|] eqn:E; try done. injection Hx as <-.
    pose proof (Hpr k _ E) as Hd. cbn in Hd. split; [done|]. cbn [stores callers].
    destruct (inv_flights _ _ _ _ Hinv k _ E) as (Hp & -> & [_ Hf]). cbn in Hp, Hf.
    intros j c0 r0. unfold deliver. rewrite lookup_fmap. destruct (cs !! j) as [c1|] eqn:Ej; [|done].
    cbn [fmap option_fmap option_map]. intros [= <-].
    destruct (inv_callers _ _ _ _ Hinv j c1 Ej) as (Hpc & Ha & _). cbn [now] in Ha.
    destruct (c_status c1) eqn:Est; cbn [cf_mac review_cache]; try (by apply (T2 j)).
    destruct (String.eqb_spec (key_of (c_token c1)) (key_of token)) as [Ek|]; [|by apply (T2 j)].
    cbn [c_status c_arrived c_token]. intros [?|?]; simplify_eq. exists held. split; [lia|].
    by rewrite (keys_differ Hc _ _ Hpc Hp Ek).
  - destruct (cs !! i) as [[token a []]|] eqn:E; try done. injection Hx as <-. split; [done|].
    intros j c0 r0 [[_ Hj]|(-> & c1 & E1 & ->)]%set_status_lookup; [by apply (T2 j)|].
    cbn [callers] in E1. rewrite E in E1. injection E1 as <-. cbn [c_status c_arrived c_token].
    intros [?|?]; simplify_eq. apply (T2 i _ r0 E). by left.
  - destruct (cs !! i) as [[token a []]|] eqn:E; try done; injection Hx as <-; (split; [done|]);
      (intros j c0 r0 [[_ Hj]|(-> & c1 & _ & ->)]%set_status_lookup; [by apply (T2 j)|]); by intros [?|?].
Qed.

Lemma promptly_reachable_timely slack s :
  0 <= slack → 0 < ttl → collision_free → promptly_reachable slack s →
  cache_inv mac ttl presented s ∧ timely slack s.
Proof.
  intros Hs Ht Hc (t & Hsteps & Hn). remember (initial_state t) as s0 eqn:E0.
  induction Hsteps as [a|a b c Hsteps IH [Hpr Hstep]]; subst.
  { split; [apply initial_cache_inv|]. split; cbn; [by intros ? ? ?%not_elem_of_nil | done]. }
  destruct Hstep as [b l c Hl Hx]. pose proof (exec_stores mac ttl b l c Hx).
  destruct IH as [Hinv Htim]; [done|lia|]. split.
  - by apply (exec_inv mac ttl Ht presented (keys_differ Hc) b l c).
  - by apply (timely_step slack b l c).
Qed.

(** C7: a request that is answered with an identity has it from a review of
    its own token that began less than the time to live and 30 seconds before
    the request arrived, plus what the lookup's goroutine was delayed by: up
    to [slack] before it cached the answer, and up to [slack] before it handed
    the record over.  So once a token is revoked, that is once no review that
    begins later finds it valid, it is refused to every request that arrives
    that much later, however requests, shared lookups and the clock
    interleave. *)
Theorem revoked_token_refused slack s i token arrived u :
  0 <= slack → 0 < ttl → collision_free → promptly_reachable slack s →
  callers s !! i = Some (MkCaller token arrived (Returned (Ok (Some u)))) →
  (∃ r, r ∈ reviews s ∧ r_token r = token ∧ r_answer r = Ok (Some u) ∧
        arrived - ttl - sharedLookupTimeout - 2 * slack < r_start r) ∧
  ∀ revoked, (∀ r, r ∈ reviews s → r_token r = token → revoked <= r_start r →
                is_ok (r_answer r) = true → r_answer r = Ok None) →
    arrived < revoked + ttl + sharedLookupTimeout + 2 * slack.
Proof.
  intros Hs Ht Hc Hr Hi. destruct (promptly_reachable_timely slack s Hs Ht Hc Hr) as [Hinv [T1 T2]].
  destruct (T2 i _ (Ok (Some u)) Hi) as (t & Ha & rv & st & Hst & Htok & Hans & Hlt); [by right|].
  cbn in Ha, Htok. specialize (T1 rv st Hst). destruct (inv_stored _ _ _ _ Hinv rv st Hst) as [Hin _].
  destruct (inv_reviews _ _ _ _ Hinv rv Hin) as [Hse Hit].
  rewrite Hans in Hit. cbn [in_time] in Hit. apply Z.leb_le in Hit.
  split; [exists rv; do 3 (split; [done|]); lia|].
  intros revoked Hrev. destruct (Z.lt_ge_cases (r_start rv) revoked); [lia|].
  rewrite (Hrev rv Hin Htok) in Hans; [done | lia | by rewrite Hans].
Qed.

(** C9: reviews of one token never overlap, and after a verdict, positive or
    negative, no further review of the token begins before the time to live
    has passed, however many requests carry it. *)
Theorem reviews_are_spaced s newer r between r' older :
  0 < ttl → collision_free → reachable s →
  reviews s = newer ++ r :: between ++ r' :: older → r_token r' = r_token r →
  r_start r' <= r_end r' <= r_start r ∧ (is_ok (r_answer r') = true → r_end r' + ttl <= r_start r).
Proof.
  intros Ht Hc Hr E Htok. pose proof (reachable_cache_inv s Ht Hc Hr) as Hinv.
  pose proof (inv_spaced _ _ _ _ Hinv) as Hs. rewrite E in Hs.
  apply StronglySorted_app_1_r in Hs. apply StronglySorted_inv in Hs as [_ Hs].
  apply (proj1 (Forall_forall _ _) Hs r') in Htok as [? ?]; [|set_solver].
  destruct (inv_reviews _ _ _ _ Hinv r') as [? _]; [rewrite E; set_solver|]. split; [lia|done].
Qed.

(** C8: as long as the cluster's verdicts do not change, the cache cannot be
    told from the authenticator it wraps: every request that does not give
    up is answered with what a review of its token answers. *)
Theorem cache_is_transparent s d i c r :
  0 < ttl → collision_free → reachable s →
  (∀ rv, rv ∈ reviews s → r_answer rv = d (r_token rv)) →
  callers s !! i = Some c → c_status c = Returned r → r = d (c_token c).
Proof.
  intros Ht Hc Hr Hd Hi Est. pose proof (reachable_cache_inv s Ht Hc Hr) as Hinv.
  destruct (inv_callers _ _ _ _ Hinv i c Hi) as (_ & _ & Hcal). unfold caller_inv in Hcal.
  rewrite Est in Hcal. destruct Hcal as (t & rv & st & Hst & Htok & <- & _).
  destruct (inv_stored _ _ _ _ Hinv rv st Hst) as [Hin _]. by rewrite (Hd rv Hin), Htok.
Qed.

(** A token that the cluster rejects, with the error that Kubernetes
    reports for an invalid bearer token, is an error for the cache and never
    cached: however often it was rejected just before, the next request with
    it misses and asks for another review. *)
Theorem rejections_not_cached s i token name create st s' :
  0 < ttl → collision_free → reachable s → presented token →
  create token = Ok st → Error st ≠ ""%string → isAuthRejection (Error st) = true →
  (∀ rv, rv ∈ reviews s → r_token rv = token → r_answer rv = tokenReview name create token) →
  exec cfg s (Arrive i token) = Some s' →
  callers s' !! i = Some (MkCaller token (now s) Missed).
Proof.
  intros Ht Hc Hr Hp Hst Hne Hrej Hall Hx. pose proof (reachable_cache_inv s Ht Hc Hr) as Hinv.
  assert (last_stored token (stores s) = None) as Hv.
  { destruct (last_stored token (stores s)) as [[rv t]|] eqn:E; [|done].
    apply last_stored_some in E as (Hin & Htok & Ho). cbn [fst] in *.
    destruct (inv_stored _ _ _ _ Hinv rv t Hin) as [Hrv _]. rewrite (Hall rv Hrv Htok) in Ho. revert Ho.
    unfold tokenReview. rewrite Hst, Hrej. by destruct (String.eqb_spec (Error st) ""). }
  pose proof (inv_view _ _ _ _ Hinv token (now s) Hp (Z.le_refl _)) as Hg. rewrite Hv in Hg.
  destruct s as [t c fs cs rs ss]. cbn [exec now records] in *. destruct (cs !! i); [done|].
  cbn [cf_mac review_cache] in Hx. rewrite Hg in Hx. injection Hx as <-. cbn. by rewrite lookup_insert_eq.
Qed.
End promises.

(** ** Requests return *)

(** The moves that the code makes by itself; the others are the clock's, the
    clients' and the cluster's. *)
Definition code_move (l : label) : bool :=
  match l with
  | Join _ | Check _ | Expire _ | Store _ | Deliver _ | Receive _ => true
  | Tick _ | Arrive _ _ | Answer _ _ | GiveUp _ _ => false
  end.

Section liveness.
Context {C : Type} `{cache C answer}.
Context (cfg : cache_config).
Abbreviation key_of := (keyFunc (cf_mac cfg) []).

(** An endless run. *)
Record is_run (σ : nat → state C) (ls : nat → label) : Prop := {
  run_starts : ∃ t, σ 0%nat = initial_state t;
  run_steps n : exec cfg (σ n) (ls n) = Some (σ (S n))
}.

(** No move of the code is put off for ever, and time goes on. *)
Definition fair (σ : nat → state C) (ls : nat → label) : Prop :=
  ∀ n l, code_move l = true → ∃ m, (n <= m)%nat ∧ (exec cfg (σ m) l = None ∨ ls m = l).
Definition time_diverges (σ : nat → state C) : Prop := ∀ n t, ∃ m, (n <= m)%nat ∧ t <= now (σ m).

(** A request that waits has a lookup to wait for. *)
Definition attended (s : state C) : Prop :=
  ∀ i c, callers s !! i = Some c → c_status c = Waiting → is_Some (flights s !! key_of (c_token c)).

(** How far a request is from returning. *)
Definition phase_rank (p : phase) : nat :=
  match p with Checking => 5 | Reviewing _ => 4 | Answered _ => 3 | Done _ _ => 2 end.
Definition rank (s : state C) (c : caller) : nat :=
  match c_status c with
  | Missed => 6
  | Waiting => match flights s !! key_of (c_token c) with Some f => phase_rank (fl_phase f) | None => 0 end
  | Ready _ => 1
  | Returned _ | GaveUp _ => 0
  end.

(** Request [i] in the same place, or closer to its return. *)
Definition same_place (s s' : state C) (i : nat) (c : caller) : Prop :=
  callers s' !! i = Some c ∧
  (c_status c = Waiting → flights s' !! key_of (c_token c) = flights s !! key_of (c_token c)).
Definition closer (s s' : state C) (i : nat) (c : caller) : Prop :=
  ∃ c', callers s' !! i = Some c' ∧ c_token c' = c_token c ∧ (rank s' c' < rank s c)%nat.

Lemma attended_step s l s' : attended s → exec cfg s l = Some s' → attended s'.
Proof.
  intros Ha Hx. destruct s as [t rec fs cs rs ss].
  assert (∀ k f i c, callers (MkState t rec fs cs rs ss) !! i = Some c → c_status c = Waiting →
    is_Some (<[k := f]> fs !! key_of (c_token c))) as Hins.
  { intros k f i c Hi Hw. rewrite lookup_insert. case_decide; [done|]. by apply (Ha i c). }
  destruct l as [d|i token|i|k|k r|k|k|k|i|i e]; cbn [exec] in Hx.
  - destruct (0 <=? d); [|done]. by injection Hx as <-.
  - destruct (cs !! i) eqn:E; [done|]. injection Hx as <-. intros j c. cbn [callers flights].
    destruct (decide (j = i)) as [->|Hne]; [|rewrite lookup_insert_ne by done; apply (Ha j)].
    rewrite lookup_insert_eq. intros [= <-]. by destruct (cache_get _ _ _).
  - destruct (cs !! i) as [[token a []]|] eqn:E; try done. injection Hx as <-.
    intros j c [[_ Hj]|(-> & c1 & E1 & ->)]%set_status_lookup Hw; cbn [callers flights] in *.
    + destruct (fs !! key_of token); [by apply (Ha j)|by apply (Hins _ _ j)].
    + rewrite E in E1. injection E1 as <-. cbn [c_token].
      destruct (fs !! key_of token) eqn:Ef; [by rewrite Ef|by rewrite lookup_insert_eq].
  - destruct (fs !! k) as [[token []]|] eqn:E; try done. injection Hx as <-. exact (Hins _ _).
  - destruct (fs !! k) as [[token []]|] eqn:E; try done. destruct (in_time _ _ _); [|done].
    injection Hx as <-. exact (Hins _ _).
  - destruct (fs !! k) as [[token []]|] eqn:E; try done. destruct (_ <=? t); [|done].
    injection Hx as <-. exact (Hins _ _).
  - destruct (fs !! k) as [[token []]|] eqn:E; try done. injection Hx as <-. exact (Hins _ _).
  - destruct (fs !! k) as [[token []]|] eqn:E; try done. injection Hx as <-. intros j c. unfold deliver.
    cbn [callers flights]. rewrite lookup_fmap. destruct (cs !! j) as [c1|] eqn:Ej; [|done].
    cbn [fmap option_fmap option_map]. intros [= <-]. destruct (c_status c1) eqn:Est; try congruence.
    destruct (String.eqb_spec (key_of (c_token c1)) k); [done|]. intros _.
    rewrite lookup_delete_ne by done. by apply (Ha j).
  - destruct (cs !! i) as [[token a []]|] eqn:E; try done. injection Hx as <-.
    intros j c [[_ Hj]|(-> & c1 & _ & ->)]%set_status_lookup; [by apply (Ha j)|done].
  - destruct (cs !! i) as [[token a []]|] eqn:E; try done; injection Hx as <-;
      (intros j c [[_ Hj]|(-> & c1 & _ & ->)]%set_status_lookup; [by apply (Ha j)|done]).
Qed.

(** Moving a lookup on brings its requests closer and leaves others. *)
Lemma flight_progress t rec rec' fs cs rs rs' ss ss' i c k f p :
  callers (MkState t rec fs cs rs ss) !! i = Some c → fs !! k = Some f →
  (phase_rank p < phase_rank (fl_phase f))%nat →
  let s := MkState t rec fs cs rs ss in
  let s' := MkState t rec' (<[k := MkFlight (fl_token f) p]> fs) cs rs' ss' in
  closer s s' i c ∨ same_place s s' i c.
Proof.
  intros Hi Hf Hp s s'. destruct (decide (key_of (c_token c) = k)) as [Hk|Hk].
  - destruct (c_status c) eqn:Hw; try (right; split; [done|congruence]).
    left. exists c. split; [done|]. split; [done|]. unfold rank, s, s'. rewrite Hw. cbn [flights].
    by rewrite Hk, lookup_insert_eq, Hf.
  - right. split; [done|]. intros _. unfold s, s'. cbn [flights]. by rewrite lookup_insert_ne.
Qed.

(** No step takes a request back. *)
Lemma step_progress s l s' i c :
  attended s → callers s !! i = Some c → exec cfg s l = Some s' →
  closer s s' i c ∨ same_place s s' i c.
Proof.
  intros Ha Hi Hx. destruct s as [t rec fs cs rs ss]. cbn [callers] in Hi.
  destruct l as [d|j token|j|k|k r|k|k|k|j|j e]; cbn [exec] in Hx.
  - destruct (0 <=? d); [|done]. injection Hx as <-. by right.
  - destruct (cs !! j) eqn:E; [done|]. injection Hx as <-. right. split; [|done]. cbn.
    rewrite lookup_insert_ne; [done|congruence].
  - destruct (cs !! j) as [[token a []]|] eqn:E; try done. injection Hx as <-.
    destruct (decide (i = j)) as [->|Hne].
    + left. rewrite E in Hi. injection Hi as <-. eexists. cbn [callers]. unfold set_status.
      rewrite lookup_alter_eq, E. split; [reflexivity|]. split; [done|].
      unfold rank. cbn [c_status c_token flights].
      destruct (fs !! key_of token) as [f|] eqn:Ef; [rewrite Ef; destruct (fl_phase f); cbn; lia|].
      rewrite lookup_insert_eq. cbn. lia.
    + right. split; [cbn; unfold set_status; by rewrite lookup_alter_ne|]. intros Hw. cbn [flights].
      destruct (fs !! key_of token) as [f|] eqn:Ef; [done|]. rewrite lookup_insert_ne; [done|].
      intros E'. destruct (Ha i c Hi Hw) as [f Hf]. cbn in Hf. congruence.
  - destruct (fs !! k) as [[token []]|] eqn:E; try done. injection Hx as <-.
    apply (flight_progress t rec rec fs cs rs rs ss ss i c k _ _ Hi E).
    by destruct (cache_get _ _ _); cbn; lia.
  - destruct (fs !! k) as [[token []]|] eqn:E; try done. destruct (in_time _ _ _); [|done].
    injection Hx as <-. apply (flight_progress t rec rec fs cs rs _ ss ss i c k _ _ Hi E). cbn. lia.
  - destruct (fs !! k) as [[token []]|] eqn:E; try done. destruct (_ <=? t); [|done].
    injection Hx as <-. apply (flight_progress t rec rec fs cs rs _ ss ss i c k _ _ Hi E). cbn. lia.
  - destruct (fs !! k) as [[token []]|] eqn:E; try done. injection Hx as <-.
    apply (flight_progress t rec _ fs cs rs rs ss _ i c k _ _ Hi E). cbn. lia.
  - destruct (fs !! k) as [[token []]|] eqn:E; try done. injection Hx as <-.
    destruct c as [tok a st]. unfold same_place, closer, deliver. cbn [callers flights].
    rewrite lookup_fmap, Hi. cbn [fmap option_fmap option_map c_status c_token].
    destruct st; try (right; by split).
    destruct (String.eqb_spec (key_of tok) k) as [Ek|Ek].
    + left. eexists. split; [reflexivity|]. split; [done|]. unfold rank. cbn [c_status c_token flights].
      rewrite Ek, E. cbn. lia.
    + right. split; [done|]. intros _. by rewrite lookup_delete_ne.
  - destruct (cs !! j) as [[token a []]|] eqn:E; try done. injection Hx as <-.
    destruct (decide (i = j)) as [->|Hne]; [left|right].
    + rewrite E in Hi. injection Hi as <-. eexists. cbn [callers]. unfold set_status.
      rewrite lookup_alter_eq, E. split; [reflexivity|]. split; [done|]. unfold rank. cbn. lia.
    + split; [cbn; unfold set_status; by rewrite lookup_alter_ne|done].
  - destruct (cs !! j) as [[token a st]|] eqn:E; [|done].
    assert (s' = MkState t rec fs (set_status j (GaveUp e) cs) rs ss ∧ (st = Waiting ∨ ∃ r, st = Ready r)) as [-> Hst].
    { destruct st; try done; injection Hx as <-; eauto. }
    destruct (decide (i = j)) as [->|Hne]; [left|right].
    + rewrite E in Hi. injection Hi as <-. eexists. cbn [callers]. unfold set_status.
      rewrite lookup_alter_eq, E. split; [reflexivity|]. split; [done|]. unfold rank. cbn [c_status c_token].
      destruct Hst as [->|[r ->]]; [|lia]. destruct (Ha j _ E eq_refl) as [f Hf].
      cbn [flights c_token] in *. rewrite Hf.
      destruct (fl_phase f); cbn; lia.
    + split; [cbn; unfold set_status; by rewrite lookup_alter_ne|done].
Qed.

(** The move that a pending request is waiting for. *)
Definition next_move (s : state C) (i : nat) (c : caller) : option label :=
  match c_status c with
  | Missed => Some (Join i)
  | Waiting =>
      match fl_phase <$> flights s !! key_of (c_token c) with
      | Some Checking => Some (Check (key_of (c_token c)))
      | Some (Reviewing _) => Some (Expire (key_of (c_token c)))
      | Some (Answered _) => Some (Store (key_of (c_token c)))
      | Some (Done _ _) => Some (Deliver (key_of (c_token c)))
      | None => None
      end
  | Ready _ => Some (Receive i)
  | Returned _ | GaveUp _ => None
  end.

(** The end of the review that a request waits for, if it does. *)
Definition review_deadline (s : state C) (c : caller) : Z :=
  match c_status c, fl_phase <$> flights s !! key_of (c_token c) with
  | Waiting, Some (Reviewing start) => start + sharedLookupTimeout
  | _, _ => now s
  end.

Lemma next_move_exists s i c :
  attended s → callers s !! i = Some c → rank s c ≠ 0%nat →
  ∃ l, next_move s i c = Some l ∧ code_move l = true.
Proof.
  intros Ha Hi. unfold rank, next_move. destruct (c_status c) eqn:Est; try done; eauto.
  destruct (Ha i c Hi Est) as [f ->]. cbn. destruct (fl_phase f); eauto.
Qed.

(** It is possible, at the latest when the review's time is up. *)
Lemma next_move_enabled s i c l :
  callers s !! i = Some c → next_move s i c = Some l → review_deadline s c <= now s →
  exec cfg s l ≠ None.
Proof.
  unfold next_move, review_deadline. destruct s as [t rec fs cs rs ss], c as [tok a st].
  cbn [callers flights now c_status c_token]. intros Hi Hm Hd. destruct st; try done.
  - injection Hm as <-. cbn. by rewrite Hi.
  - destruct (fs !! key_of tok) as [[tok' []]|] eqn:E; cbn in *; try done; injection Hm as <-; cbn;
      rewrite E; try done.
    apply Z.leb_le in Hd. by rewrite Hd.
  - injection Hm as <-. cbn. by rewrite Hi.
Qed.

(** Taking it brings the request closer. *)
Lemma next_move_closer s s' i c l :
  attended s → callers s !! i = Some c → next_move s i c = Some l → exec cfg s l = Some s' →
  closer s s' i c.
Proof.
  intros Ha Hi Hm Hx. destruct (step_progress s l s' i c Ha Hi Hx) as [|[Hc Hf]]; [done|]. exfalso.
  unfold next_move in Hm. destruct s as [t rec fs cs rs ss], c as [tok a st].
  cbn [callers flights c_status c_token] in *. destruct st; try done.
  - injection Hm as <-. cbn in Hx. rewrite Hi in Hx. injection Hx as <-. cbn in Hc.
    unfold set_status in Hc. by rewrite lookup_alter_eq, Hi in Hc.
  - specialize (Hf eq_refl).
    destruct (fs !! key_of tok) as [[tok' p]|] eqn:E; [|done]. cbn in Hm.
    destruct p; injection Hm as <-; cbn in Hx; rewrite E in Hx.
    + injection Hx as <-. cbn in Hf. rewrite lookup_insert_eq in Hf. by destruct (cache_get _ _ _).
    + destruct (_ <=? t); [|done]. injection Hx as <-. cbn in Hf. by rewrite lookup_insert_eq in Hf.
    + injection Hx as <-. cbn in Hf. by rewrite lookup_insert_eq in Hf.
    + injection Hx as <-. cbn in Hf. by rewrite lookup_delete_eq in Hf.
  - injection Hm as <-. cbn in Hx. rewrite Hi in Hx. injection Hx as <-. cbn in Hc.
    unfold set_status in Hc. by rewrite lookup_alter_eq, Hi in Hc.
Qed.

Lemma same_place_eqs s s' i c :
  same_place s s' i c →
  rank s' c = rank s c ∧ next_move s' i c = next_move s i c ∧
  review_deadline s' c <= Z.max (now s') (review_deadline s c).
Proof.
  intros [_ Hf]. unfold rank, next_move, review_deadline.
  destruct (c_status c); try (repeat split; lia). rewrite Hf by done.
  repeat split. destruct (fl_phase <$> _) as [[]|]; lia.
Qed.

Lemma exec_now s l s' : exec cfg s l = Some s' → now s <= now s'.
Proof.
  intros Hx. destruct s as [t rec fs cs rs ss]. destruct l as [d| | | | | | | | |]; cbn [exec] in Hx;
    [destruct (Z.leb_spec 0 d)|..]; repeat case_match; try done; injection Hx as <-; cbn; lia.
Qed.

(** *** Runs *)

Section run.
Context (σ : nat → state C) (ls : nat → label) (Hrun : is_run σ ls).

Lemma run_attended n : attended (σ n).
Proof.
  induction n as [|n IH]; [|exact (attended_step _ _ _ IH (run_steps _ _ Hrun n))].
  destruct (run_starts _ _ Hrun) as [t ->]. by intros i c.
Qed.

Lemma run_now n m : (n <= m)%nat → now (σ n) <= now (σ m).
Proof.
  induction 1 as [|m Hle IH]; [lia|]. pose proof (exec_now _ _ _ (run_steps _ _ Hrun m)). lia.
Qed.

Lemma closer_after n m i c :
  same_place (σ n) (σ m) i c → closer (σ m) (σ (S m)) i c → closer (σ n) (σ (S m)) i c.
Proof.
  intros [Hr _]%same_place_eqs (c' & ? & ? & ?). exists c'. rewrite <- Hr. by repeat split.
Qed.

Lemma run_progress n m i c :
  (n <= m)%nat → callers (σ n) !! i = Some c →
  (∃ m', (n <= m')%nat ∧ closer (σ n) (σ m') i c) ∨ same_place (σ n) (σ m) i c.
Proof.
  intros Hle Hi. induction Hle as [|m Hle [?|Hs]]; [by right|by left|].
  destruct (step_progress (σ m) (ls m) (σ (S m)) i c) as [Hc|Hs'];
    [apply run_attended|apply Hs|apply (run_steps _ _ Hrun)| |].
  - left. exists (S m). split; [lia|by apply closer_after].
  - right. destruct Hs as [_ Hf], Hs' as [Hc Hf']. split; [done|]. intros Hw. by rewrite Hf', Hf.
Qed.

Lemma request_advances n i c :
  fair σ ls → time_diverges σ → callers (σ n) !! i = Some c → rank (σ n) c ≠ 0%nat →
  ∃ m, (n <= m)%nat ∧ closer (σ n) (σ m) i c.
Proof.
  intros Hfair Htime Hi Hr.
  destruct (next_move_exists (σ n) i c (run_attended n) Hi Hr) as (l & Hl & Hcode).
  destruct (Htime n (review_deadline (σ n) c)) as (n1 & Hn1 & Hd).
  destruct (Hfair n1 l Hcode) as (m & Hm & Htaken).
  destruct (run_progress n m i c ltac:(lia) Hi) as [?|Hs]; [done|].
  destruct (same_place_eqs _ _ _ _ Hs) as (_ & Hnext & Hdl). rewrite Hl in Hnext.
  pose proof (run_now n1 m Hm). destruct Htaken as [Hno|<-].
  { exfalso. apply (next_move_enabled (σ m) i c l); [apply Hs|done|lia|done]. }
  exists (S m). split; [lia|]. apply closer_after; [done|].
  apply (next_move_closer _ _ i c (ls m)); [apply run_attended|apply Hs|done|apply (run_steps _ _ Hrun)].
Qed.

Lemma request_settles k : ∀ n i c, (rank (σ n) c <= k)%nat →
  fair σ ls → time_diverges σ → callers (σ n) !! i = Some c →
  ∃ m c', (n <= m)%nat ∧ callers (σ m) !! i = Some c' ∧ c_token c' = c_token c ∧ rank (σ m) c' = 0%nat.
Proof.
  induction k as [|k IH]; intros n i c Hk Hfair Htime Hi.
  { exists n, c. repeat split; [lia|done|lia]. }
  destruct (decide (rank (σ n) c = 0%nat)) as [E|E]; [by exists n, c|].
  destruct (request_advances n i c Hfair Htime Hi E) as (m & Hm & c1 & Hi1 & Ht1 & Hr1).
  destruct (IH m i c1) as (m2 & c2 & Hm2 & Hi2 & Ht2 & Hr2); [lia|done|done|done|].
  exists m2, c2. repeat split; [lia|done|congruence|done].
Qed.
End run.

(** C10: every request returns.  In every endless run in which no move of the
    code is put off for ever and time goes on, each request that arrives gets
    a record in the end, or gives up because its own context ended: also if
    the cluster never answers a review, because the shared lookup has a
    deadline. *)
Theorem requests_return σ ls n i c :
  is_run σ ls → fair σ ls → time_diverges σ → callers (σ n) !! i = Some c →
  ∃ m c', (n <= m)%nat ∧ callers (σ m) !! i = Some c' ∧ c_token c' = c_token c ∧
    ((∃ r, c_status c' = Returned r) ∨ ∃ e, c_status c' = GaveUp e).
Proof.
  intros Hrun Hfair Htime Hi.
  destruct (request_settles σ ls Hrun _ n i c (Nat.le_refl _) Hfair Htime Hi) as (m & c' & Hm & Hc & Ht & Hr).
  exists m, c'. split; [done|]. split; [done|]. split; [done|]. unfold rank in Hr.
  destruct (c_status c') eqn:Est; try done; [|by left; eexists|by right; eexists].
  destruct (run_attended σ ls Hrun m i c' Hc Est) as [f Hf]. rewrite Hf in Hr. by destruct (fl_phase f).
Qed.
End liveness.

(** ** Runs *)

Module CacheSample.
Definition alice : userInfo := MkUser "alice" "" ["dev"] ∅.
(** A hash without any collision. *)
Definition mac (msg : string) : string := msg.
Definition second : Z := 1000000000.
Definition ttl : Z := 10 * second.
Definition presented (t : string) : Prop := t = "alice"%string ∨ t = "mallory"%string.
Definition K (t : string) : string := keyFunc mac [] t.
Abbreviation the_cache := (review_cache mac ttl).

Lemma no_collision : collision_free mac presented.
Proof. by intros t t'. Qed.

Abbreviation concrete := (state (stripedCache (Expiring answer))).

(** Whether every lookup has gone on within [slack]. *)
Definition is_prompt (slack : Z) (s : concrete) : bool :=
  forallb (λ kf, match fl_phase kf.2 with
                 | Checking | Reviewing _ => true
                 | Answered rv => now s <=? r_end rv + slack
                 | Done held _ => now s <=? held + slack
                 end) (map_to_list (flights s)).

Lemma is_prompt_ok slack s : is_prompt slack s = true → prompt slack s.
Proof.
  unfold is_prompt. rewrite forallb_forall. intros Ha k f Hf.
  apply elem_of_map_to_list, list_elem_of_In, Ha in Hf. cbn in Hf.
  destruct (fl_phase f); try done; by apply Z.leb_le.
Qed.

(** The state after some steps, where lookups are prompt before each. *)
Fixpoint runs (slack : Z) (s : concrete) (ls : list label) : option concrete :=
  match ls with
  | [] => Some s
  | l :: ls => if is_prompt slack s then s ← exec the_cache s l; runs slack s ls else None
  end.

Lemma runs_steps slack s ls s' :
  Forall (presents presented) ls → runs slack s ls = Some s' →
  steps (λ a b, prompt slack a ∧ cache_step the_cache presented a b) s s'.
Proof.
  revert s. induction ls as [|l ls IH]; intros s Hp; cbn.
  { intros [= <-]. apply steps_refl. }
  apply Forall_cons in Hp as [Hl Hp]. destruct (is_prompt slack s) eqn:Epr; [|done].
  destruct (exec _ s l) as [s1|] eqn:E; [|done]. intros Hs.
  eapply steps_trans; [|by apply (IH s1)]. apply steps_one. split; [by apply is_prompt_ok|by econstructor].
Qed.

Definition after (ls : list label) : concrete :=
  default (initial_state 0) (runs (2 * second) (initial_state 0) ls).
Definition completes (ls : list label) : bool :=
  if runs (2 * second) (initial_state 0) ls is Some _ then true else false.

Lemma after_prompt ls :
  Forall (presents presented) ls → completes ls = true → (length (stores (after ls)) <=? 5)%nat = true →
  promptly_reachable mac ttl presented (2 * second) (after ls).
Proof.
  intros Hp Hr Hl%Nat.leb_le. exists 0. split; [|lia].
  unfold after, completes in *. destruct (runs _ _ ls) as [s|] eqn:E; [|done]. by eapply runs_steps.
Qed.

Lemma prompt_reachable slack (s : concrete) :
  promptly_reachable mac ttl presented slack s → reachable mac ttl presented s.
Proof.
  intros (t & Hs & Hn). exists t. split; [|done]. clear Hn.
  induction Hs as [|a b c _ IH [_ Hstep]]; [apply steps_refl|]. by eapply steps_snoc.
Qed.

(** Two requests share a review, which is cached a second and handed over
    two seconds late; a third request is answered from the cache. *)
Definition shared : list label :=
  [Arrive 0 "alice"; Arrive 1 "alice"; Join 0; Join 1; Check (K "alice"); Tick second;
   Answer (K "alice") (Ok (Some alice)); Tick second; Store (K "alice"); Tick (2 * second);
   Deliver (K "alice"); Receive 0; Tick (5 * second); Arrive 2 "alice"].

(** A token that is rejected twice, one request after the other. *)
Definition rejecting (t : string) : result TokenReviewStatus :=
  Ok (MkReview false alice "invalid bearer token").
Definition rejection : answer := tokenReview "managed cluster" rejecting "mallory".
Definition rejected (i : nat) : list label :=
  [Arrive i "mallory"; Join i; Check (K "mallory"); Answer (K "mallory") rejection;
   Store (K "mallory"); Deliver (K "mallory"); Receive i].
Definition twice : list label := rejected 0 ++ rejected 1.

Lemma shared_prompt : promptly_reachable mac ttl presented (2 * second) (after shared).
Proof. apply after_prompt; [|by vm_compute|by vm_compute]. repeat constructor. Qed.

Lemma twice_prompt : promptly_reachable mac ttl presented (2 * second) (after twice).
Proof. apply after_prompt; [|by vm_compute|by vm_compute]. repeat constructor; by right. Qed.

(** One review for three requests; two reviews for two rejected ones. *)
Lemma reviews_made : length (reviews (after shared)) = 1%nat ∧ length (reviews (after twice)) = 2%nat.
Proof. split; by vm_compute. Qed.

Lemma revoked_token_refused_witness :
  ∃ r, r ∈ reviews (after shared) ∧ r_token r = "alice"%string ∧ r_answer r = Ok (Some alice) ∧
    9 * second - ttl - sharedLookupTimeout - 2 * (2 * second) < r_start r.
Proof.
  apply (revoked_token_refused mac ttl presented (2 * second) (after shared) 2 "alice" (9 * second) alice);
    [done | done | exact no_collision | exact shared_prompt | by vm_compute].
Defined.

Definition verdict (t : string) : answer := if String.eqb t "alice" then Ok (Some alice) else Ok None.

Lemma cache_is_transparent_witness :
  ∃ c r, callers (after shared) !! 2%nat = Some c ∧ c_status c = Returned r ∧ r = verdict (c_token c).
Proof.
  exists (MkCaller "alice" (9 * second) (Returned (Ok (Some alice)))), (Ok (Some alice)).
  split; [vm_compute; reflexivity|]. split; [reflexivity|].
  apply (cache_is_transparent mac ttl presented (after shared) verdict 2
    (MkCaller "alice" (9 * second) (Returned (Ok (Some alice)))));
    [done | exact no_collision | exact (prompt_reachable _ _ shared_prompt) | | vm_compute; reflexivity | reflexivity].
  apply Forall_forall. vm_compute. repeat constructor.
Defined.

Lemma reviews_are_spaced_witness :
  ∃ r r', reviews (after twice) = [r; r'] ∧ r_end r' <= r_start r.
Proof.
  assert (∃ r r', reviews (after twice) = [] ++ r :: [] ++ r' :: [] ∧ r_token r' = r_token r)
    as (r & r' & E & Et) by (do 2 eexists; split; vm_compute; reflexivity).
  exists r, r'. split; [exact E|].
  apply (reviews_are_spaced mac ttl presented (after twice) [] r [] r' []);
    [done | exact no_collision | exact (prompt_reachable _ _ twice_prompt) | exact E | exact Et].
Defined.

Lemma rejections_not_cached_witness :
  ∃ s, exec the_cache (after twice) (Arrive 2 "mallory") = Some s ∧
    callers s !! 2%nat = Some (MkCaller "mallory" (now (after twice)) Missed).
Proof.
  destruct (exec the_cache (after twice) (Arrive 2 "mallory")) as [s|] eqn:E.
  - exists s. split; [done|].
    apply (rejections_not_cached mac ttl presented (after twice) 2 "mallory" "managed cluster"
      rejecting (MkReview false alice "invalid bearer token"));
      [done | exact no_collision | exact (prompt_reachable _ _ twice_prompt) | by right | done | done
      | by vm_compute | | exact E].
    intros rv Hin _. revert rv Hin. apply Forall_forall. vm_compute. repeat constructor.
  - exfalso. revert E. destruct (after twice) as [t c fs cs rs ss] eqn:Ea. cbn.
    assert (callers (after twice) !! 2%nat = None) as Hn by (vm_compute; reflexivity).
    rewrite Ea in Hn. cbn in Hn. by rewrite Hn.
Defined.

(** *** An endless run *)

(** The cluster does not answer; then nothing but time happens. *)
Definition unanswered : list label :=
  [Arrive 0 "alice"; Join 0; Check (K "alice"); Tick sharedLookupTimeout; Expire (K "alice");
   Store (K "alice"); Deliver (K "alice"); Receive 0].

Definition labels (n : nat) : label := nth n unanswered (Tick second).
Fixpoint trace (n : nat) : concrete :=
  match n with
  | O => initial_state 0
  | S n => default (initial_state 0) (exec the_cache (trace n) (labels n))
  end.

Definition end_callers : gmap nat caller :=
  {[0%nat := MkCaller "alice" 0 (Returned (Err EDeadlineExceeded))]}.

(** From the eighth step on: no lookup, no pending request. *)
Lemma trace_settled n :
  ∃ rs ss, trace (8 + n) =
    MkState (sharedLookupTimeout + Z.of_nat n * second) (newStripedCache 32) ∅ end_callers rs ss.
Proof.
  induction n as [|n (rs & ss & IH)].
  - do 2 eexists. vm_compute. reflexivity.
  - exists rs, ss. replace (8 + S n)%nat with (S (8 + n)) by lia. cbn [trace]. rewrite IH.
    replace (labels (8 + n)) with (Tick second) by (unfold labels; symmetry; apply nth_overflow; cbn; lia).
    cbn [exec]. change (0 <=? second) with true. cbn. f_equal. unfold second. lia.
Qed.

Lemma trace_runs : is_run the_cache trace labels.
Proof.
  split; [by exists 0|]. intros n. cbn [trace].
  assert (exec the_cache (trace n) (labels n) ≠ None) as Hn.
  { destruct (Nat.lt_ge_cases n 8) as [Hlt|Hge].
    - do 8 (destruct n as [|n]; [by vm_compute|]). lia.
    - destruct (trace_settled (n - 8)) as (rs & ss & E). replace (8 + (n - 8))%nat with n in E by lia.
      rewrite E. replace (labels n) with (Tick second)
        by (unfold labels; symmetry; apply nth_overflow; cbn; lia). done. }
  by destruct (exec the_cache (trace n) (labels n)).
Qed.

Lemma trace_fair : fair the_cache trace labels.
Proof.
  intros n l Hl. exists (8 + n)%nat. split; [lia|]. left.
  destruct (trace_settled n) as (rs & ss & ->).
  destruct l as [| |i|k| |k|k|k|i|]; try done; cbn [exec]; rewrite ?lookup_empty; try done;
    unfold end_callers; destruct (decide (i = 0%nat)) as [->|Hne];
    rewrite ?lookup_singleton_eq, ?lookup_singleton_ne; done.
Qed.

Lemma trace_time : time_diverges trace.
Proof.
  intros n t. exists (8 + (n + Z.to_nat t))%nat. split; [lia|].
  destruct (trace_settled (n + Z.to_nat t)) as (rs & ss & ->). cbn [now].
  unfold sharedLookupTimeout, second. lia.
Qed.

(** The request that waits in the third state returns. *)
Lemma requests_return_witness :
  callers (trace 3) !! 0%nat = Some (MkCaller "alice" 0 Waiting) ∧
  ∃ m c', (3 <= m)%nat ∧ callers (trace m) !! 0%nat = Some c' ∧ c_token c' = "alice"%string ∧
    ((∃ r, c_status c' = Returned r) ∨ ∃ e, c_status c' = GaveUp e).
Proof.
  assert (callers (trace 3) !! 0%nat = Some (MkCaller "alice" 0 Waiting)) as E by (vm_compute; reflexivity).
  split; [exact E|].
  exact (requests_return the_cache trace labels 3 0 (MkCaller "alice" 0 Waiting)
    trace_runs trace_fair trace_time E).
Defined.
End CacheSample.
