(* ===== verification/Oidc.v ===== *)
(** * OIDC authentication (pkg/serviceproxy/oidc_authenticator.go,
      oidc_auth_provider.go, oidc_configmap_controller.go)

    The options and the authenticator configuration built from them, and
    the authenticator whose delegate follows a CA bundle in a ConfigMap.
    Reconciliation swaps the delegate in two steps, and requests may be
    authenticated between them, so the authenticator is a state machine:
    [OBegin] disables the old delegate and starts building, [OEnd] installs
    what was built, [OUnavailable] records that there is nothing to build. *)

From stdpp Require Import sorting.
From S2P Require Import Prelude GoStrings Sha256 Http Impersonation AuthProviders.

Local Open Scope string_scope.

(** ** Options *)

Record oidcOptions := MkOidcOptions {
  issuerURL : string;
  clientID : string;
  usernameClaim : string;
  usernamePrefix : string;
  groupsClaim : string;
  groupsPrefix : string;
  caConfigMap : string;
  signingAlgs : list string;
  requiredClaims : gmap string string;
  reservedNamePrefixes : list string
}.

(** [newOIDCAuthProviderFactory]: the defaults. *)
Definition default_oidcOptions : oidcOptions :=
  MkOidcOptions "" "" "sub" "" "" "" "" ["RS256"] ∅ ["system:"].

(** The fields of [apiserver.JWTAuthenticator] that the code sets; a claim
    with a prefix pointer is a pair. *)
Record JWTAuthenticator := MkJWT {
  IssuerURL : string;
  Audiences : list string;
  UsernameMapping : string * string;
  GroupsMapping : option (string * string);
  ClaimValidationRules : list (string * string);
  UserValidationRules : list (string * string)
}.

Definition effectiveUsernamePrefix (opts : oidcOptions) : string :=
  let prefix := usernamePrefix opts in
  let prefix := if String.eqb prefix "" && negb (String.eqb (usernameClaim opts) "email")
                then issuerURL opts ++ "#" else prefix in
  if String.eqb prefix "-" then "" else prefix.

(** The two validation rules of a reserved prefix: expression, message. *)
Definition reserved_rules (prefix : string) : list (string * string) :=
  [("!user.username.startsWith(" ++ Quote prefix ++ ")",
    "username cannot use the reserved " ++ prefix ++ " prefix");
   ("user.groups.all(group, !group.startsWith(" ++ Quote prefix ++ "))",
    "groups cannot use the reserved " ++ prefix ++ " prefix")].

(** The order of Go strings: bytewise. *)
Definition str_le (a b : string) : Prop := String.leb a b = true.

#[export] Instance str_le_dec : RelDecision str_le.
Proof. intros a b. unfold str_le. apply _. Defined.

#[export] Instance str_le_total : Total str_le.
Proof. intros a b. apply String.leb_total. Qed.

(** [slices.Sorted(maps.Keys(m))]. *)
Definition sorted_keys (m : gmap string string) : list string :=
  merge_sort str_le (map fst (map_to_list m)).

Definition buildJWTAuthenticatorConfig (opts : oidcOptions) : JWTAuthenticator :=
  MkJWT (issuerURL opts) [clientID opts]
    (usernameClaim opts, effectiveUsernamePrefix opts)
    (if negb (String.eqb (groupsClaim opts) "")
     then Some (groupsClaim opts, groupsPrefix opts) else None)
    (map (λ claim, (claim, default "" (requiredClaims opts !! claim)))
         (sorted_keys (requiredClaims opts)))
    (concat (map reserved_rules (reservedNamePrefixes opts))).

Section options.
(** [CompileAndValidateJWTAuthenticator] and [AllValidSigningAlgorithms] of
    k8s.io/apiserver. *)
Context (CompileAndValidate : JWTAuthenticator → result unit) (validSigningAlgs : list string).

Fixpoint check_algs (algs : list string) : result unit :=
  match algs with
  | [] => Ok ()
  | alg :: rest =>
      if negb (existsb (String.eqb alg) validSigningAlgs)
      then Err (ENew ("unsupported OIDC signing algorithm " ++ Quote alg))
      else check_algs rest
  end.

Definition validateOIDCOptions (opts : oidcOptions) : result unit :=
  if negb (Bool.eqb (String.eqb (issuerURL opts) "") (String.eqb (clientID opts) ""))
  then Err (ENew "--oidc-issuer-url and --oidc-client-id must be specified together")
  else if String.eqb (issuerURL opts) "" then Ok ()
  else if existsb (String.eqb "") (reservedNamePrefixes opts)
  then Err (ENew "--oidc-reserved-name-prefixes must not contain an empty prefix")
  else match CompileAndValidate (buildJWTAuthenticatorConfig opts) with
       | Err e => Err (ENew ("invalid OIDC configuration: " ++ error_string e))
       | Ok _ => check_algs (signingAlgs opts)
       end.
End options.

(** ** The authenticator *)

(** A delegate: the context it was created with, and the CA bundle it
    verifies the issuer against ([None]: the system roots). *)
Record delegate_t := MkDelegate { d_ctx : nat; d_bundle : option string }.

Record oidcAuthenticator := MkOidc {
  observedConfiguration : string;
  delegate : option delegate_t;
  delegateCancel : option nat;           (* the context that the function cancels *)
  initializationError : option goerror;
  building : option (nat * option string);  (* inside reconcileCABundle *)
  next_ctx : nat;
  cancelled : list nat
}.

(** [replaceDelegate]: the old delegate's context is cancelled, in the code
    right after the lock was released; nothing reads a context in between. *)
Definition replaceDelegate (a : oidcAuthenticator) (d : option delegate_t) (cancel : option nat)
    (err : option goerror) : oidcAuthenticator :=
  MkOidc (observedConfiguration a) d cancel err (building a) (next_ctx a)
    (option_list (delegateCancel a) ++ cancelled a)%list.

(** [caConfigurationKey]. *)
Definition caConfigurationKey (source caBundle : string) : string :=
  source ++ ":" ++ sha256_hex caBundle.

(** The first part of [reconcileCABundle], up to the call of [newDelegate]:
    [None] when the configuration was observed before. *)
Definition reconcile_begin (a : oidcAuthenticator) (key : string) (caBundle : option string)
  : option oidcAuthenticator :=
  if String.eqb (observedConfiguration a) key then None
  else
    let a := MkOidc key (delegate a) (delegateCancel a) (initializationError a) (building a)
               (next_ctx a) (cancelled a) in
    let a := replaceDelegate a None None (Some (ENew "oidc authenticator is initializing")) in
    Some (MkOidc (observedConfiguration a) (delegate a) (delegateCancel a) (initializationError a)
            (Some (next_ctx a, caBundle)) (S (next_ctx a)) (cancelled a)).

(** The rest of it, with what [newDelegate] returned. *)
Definition reconcile_end (a : oidcAuthenticator) (ctx : nat) (caBundle : option string)
    (built : result unit) : oidcAuthenticator * option goerror :=
  let a := MkOidc (observedConfiguration a) (delegate a) (delegateCancel a) (initializationError a)
             None (next_ctx a) (cancelled a) in
  match built with
  | Err e =>
      let err := EWrap ("failed to initialize OIDC authenticator: " ++ error_string e) e in
      let a := MkOidc (observedConfiguration a) (delegate a) (delegateCancel a)
                 (initializationError a) None (next_ctx a) (ctx :: cancelled a) in
      (replaceDelegate a None None (Some err), Some err)
  | Ok _ => (replaceDelegate a (Some (MkDelegate ctx caBundle)) (Some ctx) None, None)
  end.

(** [reconcileCABundle] as one call; [build] is [newDelegate]. *)
Definition reconcileCABundle (build : option string → result unit) (a : oidcAuthenticator)
    (key : string) (caBundle : option string) : oidcAuthenticator * bool * option goerror :=
  match reconcile_begin a key caBundle with
  | None => (a, false, None)
  | Some a' =>
      let '(a', err) := reconcile_end a' (next_ctx a) caBundle (build caBundle) in
      (a', true, err)
  end.

Definition markUnavailable (a : oidcAuthenticator) (key : string) (err : goerror)
  : oidcAuthenticator * bool :=
  if String.eqb (observedConfiguration a) key then (a, false)
  else
    let a := MkOidc key (delegate a) (delegateCancel a) (initializationError a) (building a)
               (next_ctx a) (cancelled a) in
    (replaceDelegate a None None (Some err), true).

(** [AuthenticateToken], with the delegate's health and its own answer. *)
Definition oidc_AuthenticateToken (a : oidcAuthenticator)
    (HealthCheck : delegate_t → option goerror) (authenticate : delegate_t → string → answer)
    (token : string) : answer :=
  match delegate a with
  | None => match initializationError a with Some e => Err e | None => Ok None end
  | Some d =>
      let healthErr := HealthCheck d in
      match authenticate d token with
      | Ok r => Ok r
      | Err e =>
          match healthErr with
          | Some he => Err he
          | None => Err (EWrap (error_string e ++ ": " ++ error_string ETokenNotAuthenticated)
                           ETokenNotAuthenticated)
          end
      end
  end.

(** [newOIDCAuthenticator]. *)
Definition uninitialized : oidcAuthenticator :=
  MkOidc "" None None (Some (ENew "oidc authenticator is not initialized")) None 0 [].

Definition newOIDCAuthenticator (build : option string → result unit) (opts : oidcOptions)
  : result oidcAuthenticator :=
  if negb (String.eqb (caConfigMap opts) "") then Ok uninitialized
  else match reconcileCABundle build uninitialized "system-roots" None with
       | (_, _, Some e) => Err e
       | (a, _, None) => Ok a
       end.

(** ** The ConfigMap controller *)

Definition oidcCAConfigMapKey : string := "ca.crt".

Record ConfigMap := MkConfigMap {
  cm_namespace : string;
  cm_name : string;
  Data : gmap string string;
  BinaryData : gmap string string
}.

Definition oidcCABundle (configMap : ConfigMap) : result string :=
  let bundle := match Data configMap !! oidcCAConfigMapKey with
                | Some data => Some data
                | None => BinaryData configMap !! oidcCAConfigMapKey
                end in
  match bundle with
  | None => Err (ENew ("OIDC CA ConfigMap " ++ cm_namespace configMap ++ "/" ++ cm_name configMap ++
                       " does not contain " ++ oidcCAConfigMapKey))
  | Some b =>
      if String.eqb b "" then
        Err (ENew ("OIDC CA ConfigMap " ++ cm_namespace configMap ++ "/" ++ cm_name configMap ++
                   " has an empty " ++ oidcCAConfigMapKey ++ " entry"))
      else Ok b
  end.

(** [reconcile], with what the lister returns for the ConfigMap. *)
Definition reconcile (build : option string → result unit) (namespace name : string)
    (a : oidcAuthenticator) (lister : result ConfigMap) : oidcAuthenticator * option goerror :=
  match lister with
  | Err e =>
      if IsNotFound e then
        ((markUnavailable a "configmap-missing"
            (ENew ("OIDC CA ConfigMap " ++ namespace ++ "/" ++ name ++ " is not available"))).1, None)
      else
        (a, Some (EWrap ("failed to get OIDC CA ConfigMap " ++ namespace ++ "/" ++ name ++
                         " from informer cache: " ++ error_string e) e))
  | Ok cm =>
      match oidcCABundle cm with
      | Err e =>
          ((markUnavailable a (caConfigurationKey "configmap-invalid" (error_string e)) e).1, None)
      | Ok caBundle =>
          ((reconcileCABundle build a (caConfigurationKey "configmap" caBundle) (Some caBundle)).1.1,
           None)
      end
  end.

(** [startOIDCCAConfigMapController]: the initial reconciliation. *)
Definition startOIDCCAConfigMapController (build : option string → result unit)
    (namespace name : string) (a : oidcAuthenticator) (synced : bool) (ctxErr : goerror)
    (lister : result ConfigMap) : oidcAuthenticator * option goerror :=
  if negb synced then
    (a, Some (EWrap ("failed to sync OIDC CA ConfigMap informer: " ++ error_string ctxErr) ctxErr))
  else reconcile build namespace name a lister.

(** [oidcAuthProviderFactory.build]: the authenticator to put in the
    provider. *)
Definition build_oidc (build : option string → result unit) (opts : oidcOptions)
    (namespace : string) (synced : bool) (ctxErr : goerror) (lister : result ConfigMap)
  : result oidcAuthenticator :=
  match newOIDCAuthenticator build opts with
  | Err e => Err e
  | Ok a =>
      if negb (String.eqb (caConfigMap opts) "") then
        match startOIDCCAConfigMapController build namespace (caConfigMap opts) a synced ctxErr
                lister with
        | (_, Some e) =>
            Err (EWrap ("failed to start OIDC CA ConfigMap controller: " ++ error_string e) e)
        | (a, None) => Ok a
        end
      else Ok a
  end.

(** ** The authenticator as a state machine *)

(** The configuration key under which a bundle is observed. *)
Definition key_of (caBundle : option string) : string :=
  match caBundle with
  | None => "system-roots"
  | Some b => caConfigurationKey "configmap" b
  end.

(** A key that stands for "there is no usable CA". *)
Definition unavailable_key (key : string) : Prop :=
  key = "configmap-missing" ∨ ∃ e, key = caConfigurationKey "configmap-invalid" e.

(** Not a rejection of a token: what neither the libraries nor the
    controller ever report is [ErrTokenNotAuthenticated]. *)
Definition infrastructure (e : goerror) : Prop := errors_is e ETokenNotAuthenticated = false.

(** The moves, under the reconcile lock: while a delegate is being built no
    other reconciliation starts. *)
Inductive oidc_step : oidcAuthenticator → oidcAuthenticator → Prop :=
| OBegin a caBundle a' :
    building a = None → reconcile_begin a (key_of caBundle) caBundle = Some a' → oidc_step a a'
| OEnd a ctx caBundle built :
    building a = Some (ctx, caBundle) →
    (∀ e, built = Err e → infrastructure e) →
    oidc_step a (reconcile_end a ctx caBundle built).1
| OUnavailable a key err :
    building a = None → unavailable_key key → infrastructure err →
    oidc_step a (markUnavailable a key err).1.

(** Contexts that are neither cancelled nor anybody's: none. *)
Definition contexts (a : oidcAuthenticator) : list nat :=
  (option_list (delegateCancel a) ++ option_list (fst <$> building a) ++ cancelled a)%list.

Record oidc_inv (a : oidcAuthenticator) : Prop := {
  inv_delegate : match delegate a with
                 | Some d => initializationError a = None ∧ delegateCancel a = Some (d_ctx d) ∧
                             observedConfiguration a = key_of (d_bundle d) ∧ building a = None
                 | None => delegateCancel a = None ∧
                           ∃ e, initializationError a = Some e ∧ infrastructure e
                 end;
  inv_building : ∀ ctx b, building a = Some (ctx, b) → observedConfiguration a = key_of b;
  inv_contexts : contexts a ≡ₚ seq 0 (next_ctx a)
}.

(** ** Lemmas *)

Lemma keys_distinct b e :
  caConfigurationKey "configmap" b ≠ caConfigurationKey "configmap-invalid" e ∧
  caConfigurationKey "configmap" b ≠ "configmap-missing" ∧
  caConfigurationKey "configmap" b ≠ "system-roots" ∧
  caConfigurationKey "configmap-invalid" e ≠ "configmap-missing".
Proof. unfold caConfigurationKey. by repeat split. Qed.

Lemma unavailable_not_key_of key b : unavailable_key key → key ≠ key_of b.
Proof.
  intros [->|[e ->]] H; destruct b as [b|]; unfold caConfigurationKey, key_of in H; done.
Qed.

Lemma infrastructure_wrap m e : infrastructure e → infrastructure (EWrap m e).
Proof. unfold infrastructure. cbn. by intros ->. Qed.

Lemma uninitialized_inv : oidc_inv uninitialized.
Proof. split; cbn; [|done|done]. split; [done|]. eexists. by split. Qed.

Lemma delegate_key a d :
  oidc_inv a → delegate a = Some d → observedConfiguration a = key_of (d_bundle d).
Proof. intros [Hd _ _] E. rewrite E in Hd. naive_solver. Qed.

Lemma begin_inv a caBundle a' :
  oidc_inv a → building a = None → reconcile_begin a (key_of caBundle) caBundle = Some a' →
  oidc_inv a'.
Proof.
  intros [Hd _ Hc] Hb. unfold reconcile_begin. destruct (String.eqb _ _); [done|].
  intros. simplify_eq. split.
  - split; [done|]. eexists. split; [done|reflexivity].
  - intros. by simplify_eq/=.
  - unfold contexts in Hc. rewrite Hb in Hc. cbn in Hc.
    change (next_ctx a :: (option_list (delegateCancel a) ++ cancelled a)%list
            ≡ₚ seq 0 (S (next_ctx a))).
    rewrite Hc, seq_S. apply Permutation_cons_append.
Qed.

Lemma end_inv a ctx caBundle built :
  oidc_inv a → building a = Some (ctx, caBundle) → (∀ e, built = Err e → infrastructure e) →
  oidc_inv (reconcile_end a ctx caBundle built).1.
Proof.
  intros [Hd Hk Hc] Hb He. specialize (Hk _ _ Hb).
  assert (Hn : delegate a = None) by (destruct (delegate a); [naive_solver congruence|done]).
  rewrite Hn in Hd. destruct Hd as [Hcn _].
  unfold contexts in Hc. rewrite Hcn, Hb in Hc. cbn in Hc.
  destruct built as [[]|e]; (split; [|done|unfold contexts; cbn; rewrite Hcn; exact Hc]).
  - done.
  - split; [done|]. eexists. split; [reflexivity|]. by apply infrastructure_wrap, He.
Qed.

Lemma unavailable_inv a key err :
  oidc_inv a → building a = None → infrastructure err → oidc_inv (markUnavailable a key err).1.
Proof.
  intros [Hd Hk Hc] Hb He. unfold markUnavailable. destruct (String.eqb _ _); [done|].
  split; cbn; [by eauto|by rewrite Hb|].
  unfold contexts in *. cbn. rewrite Hb in *. by cbn in *.
Qed.

Lemma oidc_step_inv a a' : oidc_inv a → oidc_step a a' → oidc_inv a'.
Proof. intros Hi. destruct 1; eauto using begin_inv, end_inv, unavailable_inv. Qed.

(** [reconcileCABundle] as one call keeps the invariant. *)
Lemma reconcileCABundle_inv build a caBundle :
  oidc_inv a → building a = None → (∀ e, build caBundle = Err e → infrastructure e) →
  let a' := (reconcileCABundle build a (key_of caBundle) caBundle).1.1 in
  oidc_inv a' ∧ building a' = None ∧ observedConfiguration a' = key_of caBundle.
Proof.
  intros Hi Hb He. unfold reconcileCABundle.
  destruct (reconcile_begin _ _ _) as [a1|] eqn:E; cbn.
  - pose proof (begin_inv _ _ _ Hi Hb E) as Hi1.
    unfold reconcile_begin in E. destruct (String.eqb _ _); [done|]. simplify_eq.
    pose proof (end_inv _ _ _ (build caBundle) Hi1 eq_refl He) as Hi2.
    destruct (build caBundle) as [[]|e]; cbn in *; done.
  - split_and!; [done|done|]. unfold reconcile_begin in E.
    destruct (String.eqb_spec (observedConfiguration a) (key_of caBundle)); done.
Qed.

Lemma reconcile_inv build ns name a lister :
  oidc_inv a → building a = None → (∀ b e, build b = Err e → infrastructure e) →
  oidc_inv (reconcile build ns name a lister).1 ∧
  building (reconcile build ns name a lister).1 = None.
Proof.
  intros Hi Hb He.
  assert (Hm : ∀ key err, building (markUnavailable a key err).1 = None)
    by (intros; unfold markUnavailable; by destruct (String.eqb _ _)).
  unfold reconcile. destruct lister as [cm|e].
  - destruct (oidcCABundle cm) as [b|e] eqn:E; cbn [fst].
    + destruct (reconcileCABundle_inv build a (Some b) Hi Hb (He _)) as (? & ? & _). done.
    + split; [|apply Hm]. apply unavailable_inv; [done|done|].
      unfold oidcCABundle in E. repeat case_match; by inv_ok.
  - destruct (IsNotFound e); cbn [fst]; [|done].
    split; [by apply unavailable_inv|apply Hm].
Qed.

Lemma markUnavailable_spec a key err :
  oidc_inv a → unavailable_key key →
  let a' := (markUnavailable a key err).1 in
  delegate a' = None ∧ (markUnavailable a' key err).1 = a'.
Proof.
  intros Hi Hk. unfold markUnavailable.
  destruct (String.eqb_spec (observedConfiguration a) key) as [E|E]; cbn.
  - rewrite (proj2 (String.eqb_eq _ _) E). split; [|done].
    destruct (delegate a) as [d|] eqn:Hd; [|done]. exfalso.
    apply (unavailable_not_key_of key (d_bundle d) Hk). rewrite <- E. by apply delegate_key.
  - by rewrite String.eqb_refl.
Qed.

Lemma reconcileCABundle_same build a key caBundle :
  observedConfiguration a = key → reconcileCABundle build a key caBundle = (a, false, None).
Proof. intros E. unfold reconcileCABundle, reconcile_begin. by rewrite E, String.eqb_refl. Qed.

Lemma reconcileCABundle_new build a key caBundle :
  observedConfiguration a ≠ key → build caBundle = Ok () →
  d_bundle <$> delegate (reconcileCABundle build a key caBundle).1.1 = Some caBundle.
Proof.
  intros E Hb. apply String.eqb_neq in E. unfold reconcileCABundle, reconcile_begin.
  by rewrite E, Hb.
Qed.

(** ** Correctness *)

(** C14: The OIDC authenticator in every reachable state, including the
    middle of a reconciliation: there is a delegate exactly when there is no
    initialization error, it is the one built for the configuration observed
    last, its context is live, and every context ever created is live once or
    cancelled once, so a replaced delegate is always shut down and never
    twice. *)
Theorem oidc_lifecycle (a : oidcAuthenticator)
  (Hreach : steps oidc_step uninitialized a) :
  (delegate a = None ↔ is_Some (initializationError a)) ∧
  (∀ d, delegate a = Some d →
     observedConfiguration a = key_of (d_bundle d) ∧ d_ctx d ∉ cancelled a) ∧
  (building a ≠ None → delegate a = None) ∧
  contexts a ≡ₚ seq 0 (next_ctx a) ∧ NoDup (contexts a).
Proof.
  assert (Hi : oidc_inv a)
    by (revert Hreach; apply steps_invariant; eauto using uninitialized_inv, oidc_step_inv).
  destruct Hi as [Hd _ Hc].
  assert (Hnd : NoDup (contexts a)) by (rewrite Hc; apply NoDup_ListNoDup, seq_NoDup).
  destruct (delegate a) as [d|].
  - destruct Hd as (He & Hcan & Hk & Hb). split_and!; try done.
    + rewrite He. split; [done|]. by intros [? ?].
    + intros d' Hd'. simplify_eq. split; [done|]. unfold contexts in Hnd.
      rewrite Hcan in Hnd. cbn in Hnd. inversion Hnd. set_solver.
  - destruct Hd as (? & e & He & _). rewrite He. split_and!; done.
Qed.

(** Fail closed: in every reachable state without a usable CA (not yet
    initialized, being replaced, missing or invalid ConfigMap, failed build)
    authenticating a token gives an infrastructure error, which stops the
    request, and never an identity nor a plain rejection. *)
Theorem oidc_fails_closed (a : oidcAuthenticator) HealthCheck authenticate (token : string)
  (Hreach : steps oidc_step uninitialized a) (Hnone : delegate a = None) :
  ∃ e, oidc_AuthenticateToken a HealthCheck authenticate token = Err e ∧
       errors_is e ETokenNotAuthenticated = false.
Proof.
  assert (Hi : oidc_inv a)
    by (revert Hreach; apply steps_invariant; eauto using uninitialized_inv, oidc_step_inv).
  destruct Hi as [Hd _ _]. rewrite Hnone in Hd. destruct Hd as (_ & e & He & Hinf).
  exists e. unfold oidc_AuthenticateToken. by rewrite Hnone, He.
Qed.

(** With a delegate, a token is declared invalid exactly when the
    delegate refuses it while the issuer is healthy; when the delegate fails
    and the issuer is unhealthy the health error is reported instead. *)
Theorem oidc_rejection_needs_health (a : oidcAuthenticator) d HealthCheck
    (authenticate : delegate_t → string → answer) (token : string)
  (Hd : delegate a = Some d)
  (Hh : ∀ he, HealthCheck d = Some he → infrastructure he) :
  let r := oidc_AuthenticateToken a HealthCheck authenticate token in
  (∀ u, r = Ok u ↔ authenticate d token = Ok u) ∧
  ((∃ e, r = Err e ∧ errors_is e ETokenNotAuthenticated = true) ↔
   HealthCheck d = None ∧ is_ok (authenticate d token) = false).
Proof.
  unfold oidc_AuthenticateToken. rewrite Hd. cbn zeta.
  destruct (authenticate d token) as [u|e].
  - split; [done|]. split; [by intros (e & ? & _)|by intros [_ ?]].
  - destruct (HealthCheck d) as [he|].
    + split; [done|]. split; [|by intros [? _]]. intros (e' & E & Ht). inv_ok.
      specialize (Hh _ eq_refl). unfold infrastructure in Hh. congruence.
    + split; [done|]. split; [done|]. intros _. eexists. split; [done|].
      by apply errors_is_wrap.
Qed.

(** C15: The controller follows the ConfigMap: after a reconciliation the
    delegate, if any, verifies against the CA bundle that the ConfigMap holds
    now (the same digest), a missing or invalid ConfigMap leaves no delegate,
    a new valid bundle that builds is in force, and reconciling the same state
    again changes nothing. *)
Theorem reconcile_follows_configmap (build : option string → result unit) (ns name : string)
    (a : oidcAuthenticator) (lister : result ConfigMap)
  (Hi : oidc_inv a) (Hb : building a = None)
  (He : ∀ b e, build b = Err e → infrastructure e) :
  let a' := (reconcile build ns name a lister).1 in
  (∀ cm b, lister = Ok cm → oidcCABundle cm = Ok b →
     (∀ d, delegate a' = Some d → key_of (d_bundle d) = key_of (Some b)) ∧
     (observedConfiguration a ≠ key_of (Some b) → build (Some b) = Ok () →
        d_bundle <$> delegate a' = Some (Some b))) ∧
  ((∃ e, lister = Err e ∧ IsNotFound e = true) ∨
   (∃ cm, lister = Ok cm ∧ is_ok (oidcCABundle cm) = false) → delegate a' = None) ∧
  (reconcile build ns name a' lister).1 = a'.
Proof.
  cbn zeta. unfold reconcile. destruct lister as [cm|e].
  - destruct (oidcCABundle cm) as [b|e] eqn:Eb; cbn [fst].
    + destruct (reconcileCABundle_inv build a (Some b) Hi Hb (He _)) as (Hi' & Hb' & Ho).
      change (key_of (Some b)) with (caConfigurationKey "configmap" b) in *.
      rewrite (reconcileCABundle_same _ _ _ _ Ho). split_and!; [| |done].
      2: { intros [(e & ? & _)|(cm' & ? & Hk)]; [done|]. simplify_eq. by rewrite Eb in Hk. }
      intros cm' b' ? Eb'. simplify_eq. rewrite Eb in Eb'. inv_ok.
      split; [|apply reconcileCABundle_new].
      intros d Hd. rewrite <- (delegate_key _ _ Hi' Hd). exact Ho.
    + destruct (markUnavailable_spec a (caConfigurationKey "configmap-invalid" (error_string e)) e)
        as [Hn Hs]; [done|right; by eexists|].
      split_and!; [|done|done]. intros cm' b ? Eb'. simplify_eq. congruence.
  - destruct (IsNotFound e) eqn:En; cbn [fst].
    + destruct (markUnavailable_spec a "configmap-missing"
        (ENew ("OIDC CA ConfigMap " ++ ns ++ "/" ++ name ++ " is not available")))
        as [Hn Hs]; [done|by left|]. by split_and!.
    + split_and!; [done| |by rewrite ?En].
      intros [(e' & ? & ?)|(cm & ? & _)]; [|done]. simplify_eq. congruence.
Qed.

(** ** The options *)

Lemma check_algs_ok valid algs : check_algs valid algs = Ok () ↔ ∀ alg, alg ∈ algs → alg ∈ valid.
Proof.
  induction algs as [|alg algs IH]; cbn; [set_solver|].
  destruct (existsb (String.eqb alg) valid) eqn:E; cbn [negb].
  - apply existsb_exists_elem in E as (x & Hx & E). bool_to_prop. subst x.
    rewrite IH. set_solver.
  - split; [done|]. intros H. exfalso. apply not_true_iff_false in E. apply E.
    apply existsb_exists_elem. exists alg. split; [|apply String.eqb_refl]. apply H. set_solver.
Qed.

Lemma sorted_keys_spec m :
  Sorted str_le (sorted_keys m) ∧ NoDup (sorted_keys m) ∧ ∀ k, k ∈ sorted_keys m ↔ is_Some (m !! k).
Proof.
  unfold sorted_keys. split_and!.
  - apply Sorted_merge_sort, _.
  - rewrite merge_sort_Permutation. apply NoDup_fst_map_to_list.
  - intros k. rewrite merge_sort_Permutation. split.
    + intros H. apply list_elem_of_In, in_map_iff in H as ([k' v] & <- & H).
      apply list_elem_of_In, elem_of_map_to_list in H. eauto.
    + intros [v H]. apply list_elem_of_In, in_map_iff. exists (k, v). split; [done|].
      by apply list_elem_of_In, elem_of_map_to_list.
Qed.

(** The authenticator configuration demands what the operator asked for:
    exactly one rule per required claim, with its value, in sorted order (so
    that the configuration does not depend on map iteration), two rules per
    reserved prefix, one audience; and a username taken from a claim other than
    the e-mail is always kept apart by a prefix unless prefixing was turned
    off explicitly. *)
Theorem jwt_config_complete (opts : oidcOptions) :
  let c := buildJWTAuthenticatorConfig opts in
  Sorted str_le (map fst (ClaimValidationRules c)) ∧
  NoDup (map fst (ClaimValidationRules c)) ∧
  (∀ claim v, (claim, v) ∈ ClaimValidationRules c ↔ requiredClaims opts !! claim = Some v) ∧
  (∀ p r, p ∈ reservedNamePrefixes opts → r ∈ reserved_rules p → r ∈ UserValidationRules c) ∧
  Audiences c = [clientID opts] ∧
  (usernameClaim opts ≠ "email" → usernamePrefix opts ≠ "-" → (UsernameMapping c).2 ≠ "").
Proof.
  cbn zeta. destruct (sorted_keys_spec (requiredClaims opts)) as (Hs & Hn & Hk).
  assert (Hf : map fst (ClaimValidationRules (buildJWTAuthenticatorConfig opts))
               = sorted_keys (requiredClaims opts)).
  { cbn. rewrite map_map. cbn. apply map_id. }
  rewrite Hf. split_and!; try done.
  - intros claim v. cbn. rewrite list_elem_of_In, in_map_iff. split.
    + intros (k & [= <- <-] & Hin). apply list_elem_of_In, Hk in Hin as [v ->]. done.
    + intros E. exists claim. rewrite E. split; [done|]. apply list_elem_of_In, Hk. by eexists.
  - intros p r Hp Hr. cbn. apply list_elem_of_In, in_concat.
    exists (reserved_rules p). split; [apply in_map|]; by apply list_elem_of_In.
  - intros Hc Hp. cbn. unfold effectiveUsernamePrefix.
    apply String.eqb_neq in Hc, Hp. rewrite Hc.
    destruct (String.eqb_spec (usernamePrefix opts) "") as [E|E]; cbn [negb andb].
    + destruct (issuerURL opts) as [|c s]; cbn; [done|].
      destruct (Ascii.eqb c "-"); cbn; [|done]. by destruct (s ++ "#") eqn:Es; destruct s.
    + by rewrite Hp.
Qed.

(** Which OIDC options are accepted: none at all, or an issuer together
    with a client id, no empty reserved prefix, only supported signing
    algorithms and a configuration that the validator accepts. *)
Theorem validateOIDCOptions_accepts (CompileAndValidate : JWTAuthenticator → result unit)
    (validSigningAlgs : list string) (opts : oidcOptions) :
  validateOIDCOptions CompileAndValidate validSigningAlgs opts = Ok () ↔
  issuerURL opts = "" ∧ clientID opts = "" ∨
  issuerURL opts ≠ "" ∧ clientID opts ≠ "" ∧ ("" ∉ reservedNamePrefixes opts) ∧
  is_ok (CompileAndValidate (buildJWTAuthenticatorConfig opts)) = true ∧
  ∀ alg, alg ∈ signingAlgs opts → alg ∈ validSigningAlgs.
Proof.
  assert (Hr : existsb (String.eqb "") (reservedNamePrefixes opts) = false ↔
               "" ∉ reservedNamePrefixes opts).
  { rewrite <- not_true_iff_false, existsb_exists_elem. setoid_rewrite String.eqb_eq.
    naive_solver. }
  rewrite <- check_algs_ok, <- Hr. unfold validateOIDCOptions.
  destruct (String.eqb_spec (issuerURL opts) ""), (String.eqb_spec (clientID opts) ""); cbn [Bool.eqb negb].
  - split; [by left|done].
  - split; [done|]. by intros [[_ ?]|[? _]].
  - split; [done|]. by intros [[? _]|(_ & ? & _)].
  - destruct (existsb _ _).
    + split; [done|]. by intros [[? _]|(_ & _ & ? & _)].
    + destruct (CompileAndValidate _); cbn; [|split; [done|naive_solver]].
      split; [by right|]. by intros [[? _]|(_ & _ & _ & _ & ?)].
Qed.

(** ** Witnesses *)

(** A ConfigMap whose bundle appears, then is replaced by an empty one. *)
Definition good_cm : ConfigMap := MkConfigMap "ns" "oidc-ca" {["ca.crt" := "PEM"]} ∅.
Definition empty_cm : ConfigMap := MkConfigMap "ns" "oidc-ca" {["ca.crt" := ""]} ∅.
Definition builds : option string → result unit := λ _, Ok ().

Definition oidc_ready : oidcAuthenticator :=
  MkOidc (key_of (Some "PEM")) (Some (MkDelegate 0 (Some "PEM"))) (Some 0%nat) None None 1 [].

Definition oidc_building : oidcAuthenticator :=
  MkOidc (key_of (Some "PEM")) None None (Some (ENew "oidc authenticator is initializing"))
    (Some (0%nat, Some "PEM")) 1 [].

Lemma oidc_building_reachable : steps oidc_step uninitialized oidc_building.
Proof. apply steps_one. by apply (OBegin _ (Some "PEM")). Qed.

Lemma oidc_ready_reachable : steps oidc_step uninitialized oidc_ready.
Proof.
  eapply steps_snoc; [apply oidc_building_reachable|].
  by apply (OEnd oidc_building 0 (Some "PEM") (Ok ())).
Qed.

Lemma oidc_lifecycle_witness :
  observedConfiguration oidc_ready = key_of (Some "PEM") ∧ (0%nat ∉ cancelled oidc_ready).
Proof.
  exact (proj1 (proj2 (oidc_lifecycle oidc_ready oidc_ready_reachable))
           (MkDelegate 0 (Some "PEM")) eq_refl).
Defined.

Lemma oidc_fails_closed_witness :
  ∃ e, oidc_AuthenticateToken oidc_building (λ _, None) (λ _ _, Ok (Some alice)) "t" = Err e ∧
       errors_is e ETokenNotAuthenticated = false.
Proof.
  apply (oidc_fails_closed oidc_building (λ _, None) (λ _ _, Ok (Some alice)) "t"
           oidc_building_reachable eq_refl).
Defined.

Lemma oidc_rejection_needs_health_witness :
  ∃ e, oidc_AuthenticateToken oidc_ready (λ _, None) (λ _ _, Err (ENew "expired")) "t" = Err e ∧
       errors_is e ETokenNotAuthenticated = true.
Proof.
  apply (oidc_rejection_needs_health oidc_ready (MkDelegate 0 (Some "PEM")) (λ _, None)
           (λ _ _, Err (ENew "expired")) "t" eq_refl); [discriminate|]. split; reflexivity.
Defined.

Lemma oidc_ready_inv : oidc_inv oidc_ready.
Proof.
  pose proof oidc_ready_reachable as H. revert H.
  apply steps_invariant; eauto using uninitialized_inv, oidc_step_inv.
Qed.

Lemma reconcile_follows_configmap_witness :
  delegate (reconcile builds "ns" "oidc-ca" oidc_ready (Ok empty_cm)).1 = None.
Proof.
  apply (reconcile_follows_configmap builds "ns" "oidc-ca" oidc_ready (Ok empty_cm)
           oidc_ready_inv eq_refl).
  - discriminate.
  - right. exists empty_cm. split; reflexivity.
Defined.

Example reconcile_run :
  let a1 := (reconcile builds "ns" "oidc-ca" uninitialized (Err (EApi NotFound "none"))).1 in
  let a2 := (reconcile builds "ns" "oidc-ca" a1 (Ok good_cm)).1 in
  let a3 := (reconcile builds "ns" "oidc-ca" a2 (Ok empty_cm)).1 in
  delegate a1 = None ∧ d_bundle <$> delegate a2 = Some (Some "PEM") ∧
  delegate a3 = None ∧ cancelled a3 = [0%nat].
Proof. vm_compute. auto. Qed.
