(* ===== verification/ServiceProxy.v ===== *)
(** * The service-proxy (pkg/serviceproxy/service_proxy.go)

    The managed cluster's side: configuration, start-up, and the handler
    that resolves the target of a request, authenticates requests to the
    kube-apiserver and forwards.  The last section joins both sides: a
    request that came through the user-server's reverse proxy. *)

From S2P Require Import Prelude GoStrings Http GoUrl Routing HttpServer Impersonation AuthProviders.

Local Open Scope string_scope.

(** ** Data *)

Definition defaultTokenReviewCacheTTL : Z := 10 * second.
Definition defaultKubeClientQPS : Z := 50.
Definition defaultKubeClientBurst : Z := 100.

(** The settings of the outbound transport that the code chooses. *)
Record proxy_transport := MkProxyTransport {
  pt_DialTimeout : Z;
  pt_KeepAlive : Z;
  pt_MaxIdleConns : Z;
  pt_IdleConnTimeout : Z;
  pt_TLSHandshakeTimeout : Z;
  pt_ExpectContinueTimeout : Z;
  pt_RootCAs : list string;
  pt_MinVersion : Z;
  pt_ForceAttemptHTTP2 : bool;
  pt_idleClosed : bool               (* CloseIdleConnections was called *)
}.

Record serviceProxy := MkServiceProxy {
  cert : string;
  key : string;
  additionalServiceCA : string;
  rootCAs : list string;
  maxIdleConns : Z;
  sp_idleConnTimeout : Z;
  tLSHandshakeTimeout : Z;
  expectContinueTimeout : Z;
  sp_drain : DrainConfig;
  tokenReviewCacheTTL : Z;
  kubeClientQPS : Z;
  kubeClientBurst : Z;
  sp_podNamespace : string;
  authProviderFactories : list authProviderFactory;
  authProviders : list authProvider;
  proxyTransport : option proxy_transport
}.

Inductive sp_response :=
| SpError (code : Z) (message : string)
| SpForwarded (scheme host path query : string) (h : header).

(** ** Configuration *)

Definition newServiceProxy (factories : list authProviderFactory) : serviceProxy :=
  MkServiceProxy "" "" "" [] 0 0 0 0 (MkDrain 0 0) defaultTokenReviewCacheTTL
    defaultKubeClientQPS defaultKubeClientBurst "" factories [] None.

(** The defaults that [AddFlags] installs. *)
Definition sp_AddFlags (s : serviceProxy) : serviceProxy :=
  MkServiceProxy (cert s) (key s) (additionalServiceCA s) (rootCAs s) 100 (90 * second)
    (10 * second) (1 * second) DrainConfig_defaults defaultTokenReviewCacheTTL
    defaultKubeClientQPS defaultKubeClientBurst (sp_podNamespace s) (authProviderFactories s)
    (authProviders s) (proxyTransport s).

Fixpoint validate_factories (fs : list authProviderFactory) : result unit :=
  match fs with
  | [] => Ok ()
  | f :: rest => _ ← AuthProviders.validate f; validate_factories rest
  end.

Definition sp_validate (s : serviceProxy) : result unit :=
  _ ← DrainConfig_Validate (sp_drain s);
  if String.eqb (cert s) "" then Err (ENew "cert is required")
  else if String.eqb (key s) "" then Err (ENew "key is required")
  else validate_factories (authProviderFactories s).

(** [newProxyTransport]. *)
Definition newProxyTransport (s : serviceProxy) : proxy_transport :=
  MkProxyTransport (30 * second) (30 * second) (maxIdleConns s) (sp_idleConnTimeout s)
    (tLSHandshakeTimeout s) (expectContinueTimeout s) (rootCAs s) 771 false false.

Definition close_transport (t : proxy_transport) : proxy_transport :=
  MkProxyTransport (pt_DialTimeout t) (pt_KeepAlive t) (pt_MaxIdleConns t) (pt_IdleConnTimeout t)
    (pt_TLSHandshakeTimeout t) (pt_ExpectContinueTimeout t) (pt_RootCAs t) (pt_MinVersion t)
    (pt_ForceAttemptHTTP2 t) true.

(** Reading a file: absent, an error, or its contents. *)
Inductive read_file := FileAbsent | FileError (e : goerror) | FileData (data : string).

(** [loadRootCAs], with the certificate parser of client-go. *)
Definition loadRootCAs (NewPool : string → result (list string)) (ReadFile : string → read_file)
    (ParseCertsPEM : string → result (list string)) (rootCAFile additionalServiceCA : string)
  : result (list string * bool) :=
  match NewPool rootCAFile with
  | Err e => Err e
  | Ok roots =>
      if String.eqb additionalServiceCA "" then Ok (roots, false)
      else match ReadFile additionalServiceCA with
           | FileAbsent => Ok (roots, false)
           | FileError e => Err e
           | FileData pem =>
               match ParseCertsPEM pem with
               | Err e => Err (EWrap ("failed to parse additional service CA " ++
                                      additionalServiceCA ++ ": " ++ error_string e) e)
               | Ok certs => Ok (fold_left (λ pool c, (pool ++ [c])%list) certs roots, true)
               end
           end
  end.

(** ** The handler *)

Section handler.
Context `{UrlParse}.

(** The headers with which a request to [u] goes on to the reverse proxy, or
    the authentication error. *)
Definition authenticated_headers (s : serviceProxy) (u : URL) (h : header) : result header :=
  if String.eqb (Host u) KubeAPIServerHost then
    let clientImpersonationRequested := hasClientImpersonationHeaders h in
    if (0 <? length (authProviders s))%nat && negb clientImpersonationRequested then
      match processAuthentication (authProviders s) h with
      | (_, Some e) => Err e
      | (h, None) => Ok h
      end
    else Ok h
  else Ok h.

(** [ServeHTTP]; [dump] is the result of [httputil.DumpRequest] when the log
    level asks for it. *)
Definition sp_ServeHTTP (s : serviceProxy) (dump : option (result unit)) (req : Request)
  : sp_response :=
  match dump with
  | Some (Err e) => SpError 400 (error_string e)
  | _ =>
  match GetTargetServiceURLFromRequest req with
  | Err e => SpError 400 (error_string e)
  | Ok url =>
  match authenticated_headers s url (Header req) with
  | Err e => SpError 401 (error_string e)
  | Ok h =>
  match proxyTransport s with
  | None => SpError 500 "Internal Server Error"
  | Some _ =>
  let req := set_header req h in
  match reverse_proxy_headers req with
  | Err _ => SpError 502 ""
  | Ok out =>
      SpForwarded (Scheme url) (Host url) (singleJoiningSlash (Path url) (URLPath req))
        (if String.eqb (Query url) "" || String.eqb (RawQuery req) ""
         then Query url ++ RawQuery req else Query url ++ "&" ++ RawQuery req) out
  end end end end end.
End handler.

(** ** Start-up *)

Definition rootCAFile : string := "/var/run/secrets/kubernetes.io/serviceaccount/ca.crt".

(** What [Run] gets from outside. *)
Record sp_environment := MkSpEnvironment {
  env_configChecker : list string → option goerror;
  env_NewPool : string → result (list string);
  env_ReadFile : string → read_file;
  env_ParseCertsPEM : string → result (list string);
  env_inClusterConfig : option goerror;
  env_newClient : option goerror;
  env_podNamespace : string;
  env_managed : authProvider;           (* newManagedClusterAuthProvider *)
  env_tlsWatcher : option goerror;
  env_serving : option goerror          (* what RunHTTPServers returned *)
}.

Record sp_outcome := MkSpOutcome {
  sp_final : serviceProxy;
  sp_served : bool;
  sp_returned : option goerror
}.

Definition with_roots (s : serviceProxy) (roots : list string) : serviceProxy :=
  MkServiceProxy (cert s) (key s) (additionalServiceCA s) roots (maxIdleConns s)
    (sp_idleConnTimeout s) (tLSHandshakeTimeout s) (expectContinueTimeout s) (sp_drain s)
    (tokenReviewCacheTTL s) (kubeClientQPS s) (kubeClientBurst s) (sp_podNamespace s)
    (authProviderFactories s) (authProviders s) (proxyTransport s).

Definition with_transport (s : serviceProxy) (t : option proxy_transport) : serviceProxy :=
  MkServiceProxy (cert s) (key s) (additionalServiceCA s) (rootCAs s) (maxIdleConns s)
    (sp_idleConnTimeout s) (tLSHandshakeTimeout s) (expectContinueTimeout s) (sp_drain s)
    (tokenReviewCacheTTL s) (kubeClientQPS s) (kubeClientBurst s) (sp_podNamespace s)
    (authProviderFactories s) (authProviders s) t.

Definition with_namespace (s : serviceProxy) (ns : string) : serviceProxy :=
  MkServiceProxy (cert s) (key s) (additionalServiceCA s) (rootCAs s) (maxIdleConns s)
    (sp_idleConnTimeout s) (tLSHandshakeTimeout s) (expectContinueTimeout s) (sp_drain s)
    (tokenReviewCacheTTL s) (kubeClientQPS s) (kubeClientBurst s) ns
    (authProviderFactories s) (authProviders s) (proxyTransport s).

Definition with_providers (s : serviceProxy) (ps : list authProvider) : serviceProxy :=
  MkServiceProxy (cert s) (key s) (additionalServiceCA s) (rootCAs s) (maxIdleConns s)
    (sp_idleConnTimeout s) (tLSHandshakeTimeout s) (expectContinueTimeout s) (sp_drain s)
    (tokenReviewCacheTTL s) (kubeClientQPS s) (kubeClientBurst s) (sp_podNamespace s)
    (authProviderFactories s) ps (proxyTransport s).

(** [closeIdleConnections], deferred by [Run]. *)
Definition closeIdleConnections (s : serviceProxy) : serviceProxy :=
  with_transport s (close_transport <$> proxyTransport s).

(** The part of [Run] after the transport exists. *)
Definition run_with_transport (s : serviceProxy) (env : sp_environment) : sp_outcome :=
  let stop s served e := MkSpOutcome (closeIdleConnections s) served e in
  match env_inClusterConfig env with
  | Some e => stop s false (Some (ENew ("failed to get in-cluster config: " ++ error_string e)))
  | None =>
  match env_newClient env with
  | Some e => stop s false (Some e)
  | None =>
  let s := with_namespace s (env_podNamespace env) in
  if String.eqb (sp_podNamespace s) "" then
    stop s false
      (Some (ENew "pod namespace is empty, please set the POD_NAMESPACE environment variable"))
  else
  match initializeAuthProviders (env_managed env) (authProviderFactories s) with
  | Err e => stop s false (Some e)
  | Ok ps =>
  let s := with_providers s ps in
  match env_tlsWatcher env with
  | Some e => stop s false (Some (EWrap ("failed to start TLS ConfigMap watcher: " ++
                                         error_string e) e))
  | None => stop s true (env_serving env)
  end end end end.

Definition sp_Run (s : serviceProxy) (env : sp_environment) : sp_outcome :=
  match env_configChecker env ([cert s; key s; rootCAFile] ++
          authProviderConfigFiles (authProviderFactories s))%list with
  | Some e => MkSpOutcome s false (Some e)
  | None =>
  match sp_validate s with
  | Err e => MkSpOutcome s false (Some e)
  | Ok _ =>
  match loadRootCAs (env_NewPool env) (env_ReadFile env) (env_ParseCertsPEM env) rootCAFile
          (additionalServiceCA s) with
  | Err e => MkSpOutcome s false (Some e)
  | Ok (roots, additionalCALoaded) =>
  let s := with_roots s roots in
  match (if additionalCALoaded then env_configChecker env [additionalServiceCA s] else None) with
  | Some e => MkSpOutcome s false (Some e)
  | None => run_with_transport (with_transport s (Some (newProxyTransport s))) env
  end end end end.

(** ** Lemmas *)

(** The headers that say who a request acts for. *)
Definition identity_header (k : string) : bool :=
  isImpersonationHeader k || String.eqb k "Authorization".

(** No fixed hop-by-hop header and no header the reverse proxy manages is an
    identity header. *)
Lemma identity_header_kept k :
  identity_header k = true →
  proxy_managed k = false ∧ (k ∉ map CanonicalHeaderKey hopHeaders) ∧ k ≠ "Upgrade".
Proof.
  intros Hk.
  assert (Hd : ∀ l, forallb (λ x, negb (identity_header x)) l = true → k ∉ l).
  { intros l Hl Hin. rewrite forallb_forall in Hl.
    specialize (Hl k (proj1 (list_elem_of_In _ _) Hin)). by rewrite Hk in Hl. }
  split_and!.
  - unfold proxy_managed. apply bool_decide_eq_false, Hd. reflexivity.
  - apply Hd. reflexivity.
  - intros ->. discriminate Hk.
Qed.

(** When nothing but [Upgrade] is designated as hop-by-hop, the reverse proxy
    forwards the identity headers as they are. *)
Lemma identity_header_forwarded req out k :
  reverse_proxy_headers req = Ok out →
  connection_names (Header req) = [] ∨ connection_names (Header req) = ["Upgrade"] →
  identity_header k = true → out !! k = Header req !! k.
Proof.
  intros Hout Hc Hk. destruct (identity_header_kept k Hk) as (Hm & Hh & Hu).
  rewrite (reverse_proxy_headers_lookup _ _ _ Hout Hm), lookup_removeHopByHopHeaders.
  apply decide_False. rewrite map_app, not_elem_of_app. split; [|done].
  destruct Hc as [-> | ->]; cbn; [set_solver|].
  change (CanonicalHeaderKey "Upgrade") with "Upgrade". set_solver.
Qed.

Lemma impersonates_connection token h h' name groups :
  impersonates token h h' name groups → connection_names h' = connection_names h.
Proof.
  intros Hi. unfold connection_names, hvalues.
  by rewrite (imp_rest _ _ _ _ _ Hi "Connection").
Qed.

(** What a forwarded request went through. *)
Lemma sp_forwarded_inv `{UrlParse} s dump req scheme host path query out :
  sp_ServeHTTP s dump req = SpForwarded scheme host path query out →
  ∃ u h, GetTargetServiceURLFromRequest req = Ok u ∧ scheme = Scheme u ∧ host = Host u ∧
    path = singleJoiningSlash (Path u) (URLPath req) ∧
    authenticated_headers s u (Header req) = Ok h ∧ is_Some (proxyTransport s) ∧
    reverse_proxy_headers (set_header req h) = Ok out.
Proof.
  unfold sp_ServeHTTP. destruct dump as [[|]|]; try done;
    (destruct (GetTargetServiceURLFromRequest req) as [u|]; [|done];
     destruct (authenticated_headers s u (Header req)) as [h|] eqn:Eh; [|done];
     destruct (proxyTransport s); [|done];
     destruct (reverse_proxy_headers (set_header req h)) as [o|] eqn:Eo; [|done];
     intros; simplify_eq; exists u, h; by split_and!).
Qed.

(** How a request to the kube-apiserver may be authenticated. *)
Inductive admitted (s : serviceProxy) (getToken : result string) (h h' : header) : Prop :=
| admitted_no_provider : authProviders s = [] → h' = h → admitted s getToken h h'
| admitted_client_impersonation :
    hasClientImpersonationHeaders h = true → h' = h → admitted s getToken h h'
| admitted_by p u :
    p ∈ authProviders s → AuthenticateToken p (bearer_token h) = Ok (Some u) →
    ApplyIdentity p h u = (h', None) →
    (h' = h ∨ ∃ token name groups, getToken = Ok token ∧ impersonates token h h' name groups) →
    admitted s getToken h h'.

Lemma authenticated_headers_inv s getToken u h h' :
  Forall (IdentityProvider getToken) (authProviders s) → Host u = KubeAPIServerHost →
  authenticated_headers s u h = Ok h' → admitted s getToken h h'.
Proof.
  intros Hps Hu. unfold authenticated_headers. rewrite Hu, String.eqb_refl.
  destruct (authProviders s) as [|p0 ps0] eqn:Ep; cbn [length Nat.ltb Nat.leb andb].
  { intros. inv_ok. by apply admitted_no_provider. }
  destruct (hasClientImpersonationHeaders h) eqn:Ei; cbn [negb].
  { intros. inv_ok. by apply admitted_client_impersonation. }
  rewrite <- Ep in *.
  destruct (processAuthentication (authProviders s) h) as [h2 [e|]] eqn:Epa; [done|].
  intros. inv_ok.
  apply processAuthentication_inv in Epa as (pre & p & post & usr & Es & _ & Ha & Hi).
  assert (Hin : p ∈ authProviders s) by (rewrite Es; set_solver).
  rewrite Forall_forall in Hps. destruct (Hps p Hin) as [Hp].
  eapply admitted_by; eauto.
Qed.

(** ** Correctness *)

(** C1: Who a request acts for once it reaches the kube-apiserver, on the
    path users take, through the user-server: the identity headers that leave
    are exactly those of an admitted request, that is either the client's own
    (no provider configured, the client asked to impersonate, or the managed
    cluster knows the token) or one authenticated identity with the service
    account's token.  In particular the service account's token never leaves
    without the identity it stands for. *)
Theorem apiserver_identity_through_hub `{UrlParse} (s : serviceProxy) (getToken : result string)
    (hub_req req : Request) dump scheme host path query out
  (Hps : Forall (IdentityProvider getToken) (authProviders s))
  (Hhub : reverse_proxy_headers hub_req = Ok (Header req))
  (Hf : sp_ServeHTTP s dump req = SpForwarded scheme host path query out)
  (Hkube : host = KubeAPIServerHost) :
  ∃ h', admitted s getToken (Header req) h' ∧
    ∀ k, identity_header k = true → out !! k = h' !! k.
Proof.
  apply sp_forwarded_inv in Hf as (u & h' & _ & _ & Hh & _ & Ha & _ & Hout).
  rewrite Hkube in Hh. symmetry in Hh.
  pose proof (authenticated_headers_inv _ _ _ _ _ Hps Hh Ha) as Had.
  exists h'. split; [done|]. intros k Hk.
  rewrite (identity_header_forwarded _ _ k Hout); [done| |done]. cbn [set_header Header].
  assert (Hc : connection_names h' = connection_names (Header req)).
  { destruct Had as [| |p usr _ _ _ [->|(token & name & groups & _ & Hi)]]; subst; try done.
    by eapply impersonates_connection. }
  rewrite Hc. by eapply connection_names_upgrade, reverse_proxy_connection.
Qed.

(** A request to the kube-apiserver that no provider vouches for, from a
    client that does not impersonate, is answered 401 and never forwarded. *)
Theorem unauthenticated_not_forwarded `{UrlParse} (s : serviceProxy) (req : Request) u e h'
  (Hu : GetTargetServiceURLFromRequest req = Ok u)
  (Hk : Host u = KubeAPIServerHost)
  (Hp : authProviders s ≠ [])
  (Hi : hasClientImpersonationHeaders (Header req) = false)
  (He : processAuthentication (authProviders s) (Header req) = (h', Some e)) :
  sp_ServeHTTP s None req = SpError 401 (error_string e).
Proof.
  unfold sp_ServeHTTP, authenticated_headers. rewrite Hu, Hk, String.eqb_refl, Hi, He.
  by destruct (authProviders s).
Qed.

(** A request to anything but the kube-apiserver, or one by which the
    client itself impersonates, is not authenticated by the proxy and leaves
    with the client's own headers, hop-by-hop ones apart: the service
    account's token is never added to it. *)
Theorem passthrough_unchanged `{UrlParse} (s : serviceProxy) (req : Request) dump scheme host path
    query out
  (Hf : sp_ServeHTTP s dump req = SpForwarded scheme host path query out)
  (Hpass : host ≠ KubeAPIServerHost ∨ hasClientImpersonationHeaders (Header req) = true) :
  reverse_proxy_headers req = Ok out ∧
  ∀ k, proxy_managed k = false → out !! k = None ∨ out !! k = Header req !! k.
Proof.
  apply sp_forwarded_inv in Hf as (u & h & _ & _ & -> & _ & Ha & _ & Hout).
  assert (Hh : h = Header req).
  { unfold authenticated_headers in Ha. destruct (String.eqb_spec (Host u) KubeAPIServerHost).
    - destruct Hpass as [?|Hi]; [done|]. rewrite Hi, andb_false_r in Ha. by inv_ok.
    - by inv_ok. }
  subst h. replace (set_header req (Header req)) with req in Hout by (by destruct req).
  split; [done|]. intros k Hk.
  rewrite (reverse_proxy_headers_lookup _ _ _ Hout Hk), lookup_removeHopByHopHeaders.
  case_decide; auto.
Qed.

(** ** The Connection header of a direct request *)

(** A request sent to the service-proxy itself, not through the user-server,
    that designates the impersonation headers as hop-by-hop. *)
Definition direct_request (token : string) : Request :=
  MkRequest "/api/v1/secrets" "GET" "/api/v1/secrets" "" (Some "10.0.0.9")
    (<["Connection" := ["Impersonate-User, Impersonate-Group"]]>
     (<["Authorization" := ["Bearer " ++ token]]>
      (<["Cluster-Proxy-Proto" := ["https"]]> (<["Cluster-Proxy-Namespace" := ["default"]]>
       (<["Cluster-Proxy-Service" := ["kubernetes"]]> (<["Cluster-Proxy-Port" := ["443"]]> ∅)))))).

Definition agent : serviceProxy :=
  with_transport
    (with_providers (sp_AddFlags (newServiceProxy [])) two_providers)
    (Some (newProxyTransport (sp_AddFlags (newServiceProxy [])))).

Definition sent_headers (r : sp_response) : header :=
  match r with SpForwarded _ _ _ _ h => h | SpError _ _ => ∅ end.

(** The identity is lost when the request did not come through the
    user-server: the reverse proxy drops the headers that Connection designates
    after the impersonation headers were written, so an ordinary hub user's
    request reaches the kube-apiserver with the service account's token and no
    identity at all, that is with the rights of the service account. *)
Theorem direct_request_drops_identity :
  sp_ServeHTTP agent None (direct_request "client")
  = SpForwarded "https" KubeAPIServerHost "/api/v1/secrets" ""
      (sent_headers (sp_ServeHTTP agent None (direct_request "client"))) ∧
  sent_headers (sp_ServeHTTP agent None (direct_request "client")) !! "Authorization"
    = Some ["Bearer sa-token"] ∧
  hasClientImpersonationHeaders (sent_headers (sp_ServeHTTP agent None (direct_request "client")))
    = false.
Proof. split_and!; vm_compute; reflexivity. Qed.

(** ** Start-up *)

Lemma fold_snoc {A} (l acc : list A) :
  fold_left (λ pool c, (pool ++ [c])%list) l acc = (acc ++ l)%list.
Proof.
  revert acc. induction l as [|x l IH]; intros acc; cbn; [by rewrite app_nil_r|].
  by rewrite IH, <- app_assoc.
Qed.

(** The pool of trusted roots: the cluster's own CA is always in it, in
    first place; the additional CA's certificates are added exactly when a
    file is configured and present, an unreadable or unparsable file is an
    error and not silently ignored, and the flag tells whether it was loaded. *)
Theorem loadRootCAs_correct (NewPool : string → result (list string))
    (ReadFile : string → read_file) (ParseCertsPEM : string → result (list string))
    (rootFile extra : string) :
  match loadRootCAs NewPool ReadFile ParseCertsPEM rootFile extra with
  | Ok (pool, loaded) =>
      ∃ roots certs, NewPool rootFile = Ok roots ∧ pool = (roots ++ certs)%list ∧
        if loaded
        then extra ≠ "" ∧ ∃ pem, ReadFile extra = FileData pem ∧ ParseCertsPEM pem = Ok certs
        else certs = [] ∧ (extra = "" ∨ ReadFile extra = FileAbsent)
  | Err _ =>
      is_ok (NewPool rootFile) = false ∨
      extra ≠ "" ∧ ((∃ e, ReadFile extra = FileError e) ∨
                    ∃ pem, ReadFile extra = FileData pem ∧ is_ok (ParseCertsPEM pem) = false)
  end.
Proof.
  unfold loadRootCAs. destruct (NewPool rootFile) as [roots|e]; [|by left].
  destruct (String.eqb_spec extra "") as [->|Hne].
  { exists roots, []. rewrite app_nil_r. auto. }
  destruct (ReadFile extra) as [|e|pem] eqn:Er.
  - exists roots, []. rewrite app_nil_r. auto.
  - right. eauto.
  - destruct (ParseCertsPEM pem) as [certs|e] eqn:Ep.
    + exists roots, certs. rewrite fold_snoc. eauto 6.
    + right. split; [done|]. right. exists pem. by rewrite Ep.
Qed.

(** [Run] ended before there was a transport. *)
Ltac no_transport := split; [done|]; intros t Hn Hs; cbn in Hs; congruence.

(** The service-proxy accepts requests only with valid options, trusted
    roots and its providers in place (the managed cluster's first), over a
    transport that verifies against those roots with TLS 1.2 or later and
    without HTTP/2; and whenever it had a transport, the idle connections of
    that transport are closed when it ends. *)
Theorem sp_Run_serves_ready (s : serviceProxy) (env : sp_environment) :
  let o := sp_Run s env in
  (sp_served o = true →
     sp_validate s = Ok () ∧ sp_podNamespace (sp_final o) ≠ "" ∧
     initializeAuthProviders (env_managed env) (authProviderFactories s)
       = Ok (authProviders (sp_final o)) ∧
     (∃ loaded, loadRootCAs (env_NewPool env) (env_ReadFile env) (env_ParseCertsPEM env) rootCAFile
        (additionalServiceCA s) = Ok (rootCAs (sp_final o), loaded)) ∧
     ∃ t, proxyTransport (sp_final o) = Some t ∧ pt_RootCAs t = rootCAs (sp_final o) ∧
          pt_MinVersion t = 771%Z ∧ pt_ForceAttemptHTTP2 t = false) ∧
  (∀ t, proxyTransport s = None → proxyTransport (sp_final o) = Some t → pt_idleClosed t = true).
Proof.
  assert (Hrt : ∀ s1, let o := run_with_transport (with_transport s1 (Some (newProxyTransport s1))) env in
    rootCAs (sp_final o) = rootCAs s1 ∧
    proxyTransport (sp_final o) = Some (close_transport (newProxyTransport s1)) ∧
    (sp_served o = true → sp_podNamespace (sp_final o) ≠ "" ∧
      initializeAuthProviders (env_managed env) (authProviderFactories s1)
       = Ok (authProviders (sp_final o)))).
  { intros s1. unfold run_with_transport. cbn zeta.
    destruct (env_inClusterConfig env), (env_newClient env); try (by split_and!).
    cbn [sp_podNamespace with_namespace authProviderFactories with_transport].
    destruct (String.eqb_spec (env_podNamespace env) ""); [by split_and!|].
    destruct (initializeAuthProviders _ _) as [ps|]; [|by split_and!].
    destruct (env_tlsWatcher env); by split_and!. }
  cbn zeta. unfold sp_Run.
  destruct (env_configChecker env _); [no_transport|].
  destruct (sp_validate s) as [[]|]; [|no_transport].
  destruct (loadRootCAs _ _ _ _ _) as [[roots loaded]|]; [|no_transport].
  destruct (if loaded then _ else _); [no_transport|].
  destruct (Hrt (with_roots s roots)) as (Hr & Ht & Hsv). split.
  - intros Hs. destruct (Hsv Hs) as [? ?]. rewrite Hr, Ht. split_and!; eauto.
  - intros t _. rewrite Ht. intros. by inv_ok.
Qed.

(** ** Witnesses *)

(** The hub user's request as the user-server forwards it, with an attempt
    to make the impersonation headers hop-by-hop. *)
Definition hub_side_request : Request :=
  UpdateRequest (MkTSC "cluster1" "https" "kubernetes" "default" "443" "api/v1/secrets")
    (set_header (direct_request "client")
       (<["Connection" := ["Impersonate-User"]]>
        (<["Authorization" := ["Bearer client"]]> ∅))).

Definition arriving : Request :=
  set_header (direct_request "client")
    (match reverse_proxy_headers hub_side_request with Ok h => h | Err _ => ∅ end).

Lemma arriving_ok : reverse_proxy_headers hub_side_request = Ok (Header arriving).
Proof.
  assert (H : is_ok (reverse_proxy_headers hub_side_request) = true) by (vm_compute; reflexivity).
  unfold arriving. cbn [Header set_header]. by destruct (reverse_proxy_headers hub_side_request).
Qed.

Lemma agent_forwards r :
  r = arriving ∨ r = direct_request "client" →
  sp_ServeHTTP agent None r
  = SpForwarded "https" KubeAPIServerHost "/api/v1/secrets" "" (sent_headers (sp_ServeHTTP agent None r)).
Proof. intros [-> | ->]; vm_compute; reflexivity. Qed.

Lemma agent_providers : Forall (IdentityProvider (Ok "sa-token")) (authProviders agent).
Proof.
  apply Forall_cons; split; [apply _|]. apply Forall_cons; split; [apply _|]. by apply Forall_nil.
Qed.

Lemma apiserver_identity_through_hub_witness :
  ∃ h', admitted agent (Ok "sa-token") (Header arriving) h' ∧
    ∀ k, identity_header k = true →
      sent_headers (sp_ServeHTTP agent None arriving) !! k = h' !! k.
Proof.
  apply (apiserver_identity_through_hub agent (Ok "sa-token") hub_side_request arriving None "https"
           KubeAPIServerHost "/api/v1/secrets" "" _ agent_providers arriving_ok).
  - apply agent_forwards. left. reflexivity.
  - reflexivity.
Defined.

Lemma unauthenticated_not_forwarded_witness :
  sp_ServeHTTP agent None (direct_request "stolen")
  = SpError 401 "authentication failed: token is neither valid for managed cluster nor hub cluster".
Proof.
  apply (unauthenticated_not_forwarded agent (direct_request "stolen")
           (MkURL "https" KubeAPIServerHost "" "")
           (ENew "authentication failed: token is neither valid for managed cluster nor hub cluster")
           (Header (direct_request "stolen")));
    [vm_compute; reflexivity|reflexivity|discriminate|vm_compute; reflexivity|reflexivity].
Defined.

(** A client that impersonates on its own account. *)
Definition impersonating_request : Request :=
  set_header (direct_request "client")
    (<["Impersonate-User" := ["bob"]]> (Header (direct_request "client"))).

Lemma passthrough_unchanged_witness :
  reverse_proxy_headers impersonating_request
  = Ok (sent_headers (sp_ServeHTTP agent None impersonating_request)).
Proof.
  apply (passthrough_unchanged agent impersonating_request None "https" KubeAPIServerHost
           "/api/v1/secrets" "").
  - vm_compute. reflexivity.
  - right. reflexivity.
Defined.
