(* ===== verification/OidcSetup.v ===== *)
(** * Setting OIDC authentication up (pkg/serviceproxy/oidc_auth_provider.go,
      oidc_authenticator.go, auth_provider.go)

    How the service-proxy gets from its flags to its chain of
    authentication providers: the flags of the OIDC provider, the delegate
    that verifies tokens over a TLS connection to the issuer, the factory
    that ties both to the authenticator of [Oidc], and the default
    factories. *)

From S2P Require Import Prelude GoStrings GoFlag Http Impersonation AuthProviders Oidc HttpServer.
From S2P Require Import ServiceProxy.

Local Open Scope string_scope.

(** ** Flags *)

(** The values behind the flags: the options, and what pflag's slice values
    and the map value remember, whether they were set before. *)
Record oidc_flags := MkOidcFlags {
  fl_options : oidcOptions;
  fl_prefixes_changed : bool;
  fl_algs_changed : bool;
  fl_claims_initialized : bool
}.

(** [newOIDCAuthProviderFactory] and [addFlags]: the defaults. *)
Definition oidc_addFlags : oidc_flags := MkOidcFlags default_oidcOptions false false false.

Definition with_string (o : oidcOptions) (name v : string) : option oidcOptions :=
  let '(MkOidcOptions iss cid uc up gc gp ca algs claims res) := o in
  if String.eqb name "oidc-issuer-url" then Some (MkOidcOptions v cid uc up gc gp ca algs claims res)
  else if String.eqb name "oidc-client-id" then Some (MkOidcOptions iss v uc up gc gp ca algs claims res)
  else if String.eqb name "oidc-username-claim" then Some (MkOidcOptions iss cid v up gc gp ca algs claims res)
  else if String.eqb name "oidc-username-prefix" then Some (MkOidcOptions iss cid uc v gc gp ca algs claims res)
  else if String.eqb name "oidc-groups-claim" then Some (MkOidcOptions iss cid uc up v gp ca algs claims res)
  else if String.eqb name "oidc-groups-prefix" then Some (MkOidcOptions iss cid uc up gc v ca algs claims res)
  else if String.eqb name "oidc-ca-configmap" then Some (MkOidcOptions iss cid uc up gc gp v algs claims res)
  else None.

Definition with_prefixes (o : oidcOptions) (l : list string) : oidcOptions :=
  MkOidcOptions (issuerURL o) (clientID o) (usernameClaim o) (usernamePrefix o) (groupsClaim o)
    (groupsPrefix o) (caConfigMap o) (signingAlgs o) (requiredClaims o) l.

Definition with_algs (o : oidcOptions) (l : list string) : oidcOptions :=
  MkOidcOptions (issuerURL o) (clientID o) (usernameClaim o) (usernamePrefix o) (groupsClaim o)
    (groupsPrefix o) (caConfigMap o) l (requiredClaims o) (reservedNamePrefixes o).

Definition with_claims (o : oidcOptions) (m : gmap string string) : oidcOptions :=
  MkOidcOptions (issuerURL o) (clientID o) (usernameClaim o) (usernamePrefix o) (groupsClaim o)
    (groupsPrefix o) (caConfigMap o) (signingAlgs o) m (reservedNamePrefixes o).

Section flags.
(** [csv.Reader.Read] on the first line of a value that is not empty. *)
Variable csv_read : string → result (list string).

(** [readAsCSV] (pflag). *)
Definition readAsCSV (val : string) : result (list string) :=
  if String.eqb val "" then Ok [] else csv_read val.

(** [stringSliceValue.Set]: the first value replaces the default, the others
    are appended. *)
Definition slice_Set (changed : bool) (old : list string) (val : string) : result (list string) :=
  v ← readAsCSV val; Ok (if changed then old ++ v else v)%list.

(** [MapStringString.Set] without splitting. *)
Definition map_Set (initialized : bool) (m : gmap string string) (value : string)
    : result (gmap string string) :=
  let m := if initialized then m else ∅ in
  let '(k, v, found) := Cut "=" value in
  if found then Ok (<[TrimSpace k := TrimSpace v]> m)
  else Err (ENew "malformed pair, expect string=string").

(** One occurrence of a flag. *)
Definition set_flag (name value : string) (f : oidc_flags) : result oidc_flags :=
  let o := fl_options f in
  match with_string o name value with
  | Some o => Ok (MkOidcFlags o (fl_prefixes_changed f) (fl_algs_changed f) (fl_claims_initialized f))
  | None =>
      if String.eqb name "oidc-reserved-name-prefixes" then
        l ← slice_Set (fl_prefixes_changed f) (reservedNamePrefixes o) value;
        Ok (MkOidcFlags (with_prefixes o l) true (fl_algs_changed f) (fl_claims_initialized f))
      else if String.eqb name "oidc-signing-algs" then
        l ← slice_Set (fl_algs_changed f) (signingAlgs o) value;
        Ok (MkOidcFlags (with_algs o l) (fl_prefixes_changed f) true (fl_claims_initialized f))
      else if String.eqb name "oidc-required-claim" then
        m ← map_Set (fl_claims_initialized f) (requiredClaims o) value;
        Ok (MkOidcFlags (with_claims o m) (fl_prefixes_changed f) (fl_algs_changed f) true)
      else Err (ENew ("unknown flag: --" ++ name))
  end.

Fixpoint set_flags (args : list (string * string)) (f : oidc_flags) : result oidc_flags :=
  match args with
  | [] => Ok f
  | (name, value) :: args => f ← set_flag name value f; set_flags args f
  end.
End flags.

(** ** The delegate *)

Definition oidcHTTPTimeout : Z := 15 * second.

(** [tls.VersionTLS12]. *)
Definition VersionTLS12 : Z := 771.

Section delegate.
Variable Pool : Type.
Variable NewPoolFromBytes : string → result Pool.

(** The transport to the issuer: the oldest TLS version accepted and the
    roots ([None]: the host's). *)
Record issuer_transport := MkTransport { tr_MinVersion : Z; tr_RootCAs : option Pool }.

(** [oidcauthenticator.Options]. *)
Record oidc_library_options := MkLibOptions {
  lib_Timeout : Z;
  lib_Transport : issuer_transport;
  lib_SigningAlgs : list string;
  lib_JWT : JWTAuthenticator;
  lib_APIServerID : string
}.

(** [oidcauthenticator.New]: whether a delegate can be made. *)
Variable oidcauthenticator_New : oidc_library_options → result unit.

Definition issuer_options (opts : oidcOptions) (t : issuer_transport) : oidc_library_options :=
  MkLibOptions oidcHTTPTimeout t (signingAlgs opts) (buildJWTAuthenticatorConfig opts)
    "cluster-proxy-service-proxy".

(** The transport of [buildDelegate]. *)
Definition delegate_transport (caBundle : option string) : result issuer_transport :=
  match caBundle with
  | None => Ok (MkTransport VersionTLS12 None)
  | Some b =>
      match NewPoolFromBytes b with
      | Err e => Err (EWrap ("failed to load oidc CA bundle: " ++ error_string e) e)
      | Ok pool => Ok (MkTransport VersionTLS12 (Some pool))
      end
  end.

(** [buildDelegate]: the transport in use if it succeeds (its idle
    connections are closed by the function it returns), and the transports
    whose idle connections it closed itself. *)
Definition buildDelegate (opts : oidcOptions) (caBundle : option string)
    : result issuer_transport * list issuer_transport :=
  match delegate_transport caBundle with
  | Err e => (Err e, [])
  | Ok t =>
      match oidcauthenticator_New (issuer_options opts t) with
      | Err e => (Err e, [t])
      | Ok _ => (Ok t, [])
      end
  end.

(** As the authenticator's [newDelegate]. *)
Definition newDelegate (opts : oidcOptions) (caBundle : option string) : result unit :=
  _ ← (buildDelegate opts caBundle).1; Ok ().

(** ** The factory *)

(** [readImpersonateTokenFromFile]. *)
Definition readImpersonateTokenFromFile (ReadFile : string → result string) : result string :=
  ReadFile "/var/run/secrets/kubernetes.io/serviceaccount/token".

(** [authProviderDependencies]: what a factory may use of the service-proxy. *)
Record authProviderDependencies := MkDependencies {
  dep_managedClusterKubeClient : string → result TokenReviewStatus;
  dep_podNamespace : string;
  dep_kubeClientQPS : Z;
  dep_kubeClientBurst : Z;
  dep_tokenReviewCacheTTL : Z;
  dep_getToken : result string
}.

Definition dependencies_of (s : serviceProxy) (managed : string → result TokenReviewStatus)
    (getToken : result string) : authProviderDependencies :=
  MkDependencies managed (sp_podNamespace s) (kubeClientQPS s) (kubeClientBurst s)
    (tokenReviewCacheTTL s) getToken.

Section factories.
Variable CompileAndValidate : JWTAuthenticator → result unit.
Variable validSigningAlgs : list string.
(** The informer of the CA ConfigMap: whether it synced, the error of the
    context otherwise, and what its lister returns. *)
Variable synced : bool.
Variable ctxErr : goerror.
Variable lister : string → string → result ConfigMap.
(** The library's verdict on a token, with its health. *)
Variable HealthCheck : delegate_t → option goerror.
Variable authenticate : delegate_t → string → answer.

(** [oidcAuthProviderFactory]: [validate], [enabled], [configFiles] and
    [build]. *)
Definition oidcAuthProviderFactory (opts : oidcOptions) (deps : authProviderDependencies)
    : authProviderFactory :=
  MkFactory (validateOIDCOptions CompileAndValidate validSigningAlgs opts)
    (negb (String.eqb (issuerURL opts) "")) []
    (a ← build_oidc (newDelegate opts) opts (dep_podNamespace deps) synced ctxErr
           (lister (dep_podNamespace deps) (caConfigMap opts));
     Ok (oidcAuthProvider (dep_getToken deps) (oidc_AuthenticateToken a HealthCheck authenticate))).

(** [hubAuthProviderFactory] with its flags, from the same dependencies:
    [hub_client] builds a client from a kubeconfig, with rate and burst. *)
Variable cached : (string → answer) → bool → Z → Z → string → answer.
Variable hub_client : string → Z → Z → result (string → result TokenReviewStatus).

Record hub_flags := MkHubFlags { hub_kubeConfig : string; hub_enableImpersonation : bool }.

(** [newHubAuthProviderFactory]: enabled unless the flag says otherwise. *)
Definition hub_addFlags : hub_flags := MkHubFlags "" true.

Definition hub_factory (f : hub_flags) (deps : authProviderDependencies) : authProviderFactory :=
  hubAuthProviderFactory cached (hub_enableImpersonation f) (hub_kubeConfig f)
    (λ kubeConfig, hub_client kubeConfig (dep_kubeClientQPS deps) (dep_kubeClientBurst deps))
    (dep_tokenReviewCacheTTL deps) (dep_getToken deps).

(** [defaultAuthProviderFactories]: the hub first, then OIDC. *)
Definition defaultAuthProviderFactories (hub : hub_flags) (oidc : oidcOptions)
    (deps : authProviderDependencies) : list authProviderFactory :=
  [hub_factory hub deps; oidcAuthProviderFactory oidc deps].

(** [newManagedClusterAuthProvider]. *)
Definition newManagedClusterAuthProvider (deps : authProviderDependencies) : authProvider :=
  managedClusterAuthProvider
    (newTokenReviewAuthenticator cached (dep_managedClusterKubeClient deps)
       (displayName managedClusterAuthProviderMetadata) (dep_tokenReviewCacheTTL deps)).

(** The chain that [initializeAuthProviders] installs for given flags. *)
Definition configured_chain (hub : hub_flags) (oidc : oidcOptions) (deps : authProviderDependencies)
    : result (list authProvider) :=
  initializeAuthProviders (newManagedClusterAuthProvider deps)
    (defaultAuthProviderFactories hub oidc deps).
End factories.
End delegate.

Arguments MkTransport {Pool}.
Arguments tr_MinVersion {Pool}.
Arguments tr_RootCAs {Pool}.

(** ** What the flags mean *)

(** The values given to a flag, in order. *)
Definition values (name : string) (args : list (string * string)) : list string :=
  map snd (List.filter (λ a, String.eqb a.1 name) args).

(** The flags that hold one string, and where. *)
Definition string_flags : list (string * (oidcOptions → string)) :=
  [("oidc-issuer-url", issuerURL); ("oidc-client-id", clientID);
   ("oidc-username-claim", usernameClaim); ("oidc-username-prefix", usernamePrefix);
   ("oidc-groups-claim", groupsClaim); ("oidc-groups-prefix", groupsPrefix);
   ("oidc-ca-configmap", caConfigMap)].

Section flags_meaning.
Variable csv_read : string → result (list string).

(** What a flag's occurrences leave in a string, a slice and the map. *)
Definition string_meaning (old : string) (vs : list string) : string := default old (last vs).

Fixpoint csv_all (vs : list string) : result (list string) :=
  match vs with
  | [] => Ok []
  | v :: vs => a ← readAsCSV csv_read v; b ← csv_all vs; Ok (a ++ b)%list
  end.

Definition pair_insert (m : gmap string string) (v : string) : gmap string string :=
  let '(k, x, _) := Cut "=" v in <[TrimSpace k := TrimSpace x]> m.

(** The state after some arguments, from any state. *)
Record flags_after (f : oidc_flags) (args : list (string * string)) (f' : oidc_flags) : Prop := {
  after_strings : ∀ name get, (name, get) ∈ string_flags →
    get (fl_options f') = string_meaning (get (fl_options f)) (values name args);
  after_prefixes : ∃ l, csv_all (values "oidc-reserved-name-prefixes" args) = Ok l ∧
    reservedNamePrefixes (fl_options f') =
      match values "oidc-reserved-name-prefixes" args with
      | [] => reservedNamePrefixes (fl_options f)
      | _ => if fl_prefixes_changed f then reservedNamePrefixes (fl_options f) ++ l else l
      end%list;
  after_algs : ∃ l, csv_all (values "oidc-signing-algs" args) = Ok l ∧
    signingAlgs (fl_options f') =
      match values "oidc-signing-algs" args with
      | [] => signingAlgs (fl_options f)
      | _ => if fl_algs_changed f then signingAlgs (fl_options f) ++ l else l
      end%list;
  after_claims : requiredClaims (fl_options f') =
    match values "oidc-required-claim" args with
    | [] => requiredClaims (fl_options f)
    | vs => fold_left pair_insert vs
              (if fl_claims_initialized f then requiredClaims (fl_options f) else ∅)
    end
}.

Lemma string_meaning_cons old v vs : string_meaning old (v :: vs) = string_meaning v vs.
Proof. unfold string_meaning. rewrite last_cons. by destruct (last vs). Qed.

(** The flags by their kind. *)
Lemma set_flag_cases name value f f1 :
  set_flag csv_read name value f = Ok f1 →
  (∃ o, with_string (fl_options f) name value = Some o ∧
        f1 = MkOidcFlags o (fl_prefixes_changed f) (fl_algs_changed f) (fl_claims_initialized f)) ∨
  (name = "oidc-reserved-name-prefixes" ∧ ∃ l, readAsCSV csv_read value = Ok l ∧
     f1 = MkOidcFlags (with_prefixes (fl_options f)
            (if fl_prefixes_changed f then reservedNamePrefixes (fl_options f) ++ l else l)%list)
            true (fl_algs_changed f) (fl_claims_initialized f)) ∨
  (name = "oidc-signing-algs" ∧ ∃ l, readAsCSV csv_read value = Ok l ∧
     f1 = MkOidcFlags (with_algs (fl_options f)
            (if fl_algs_changed f then signingAlgs (fl_options f) ++ l else l)%list)
            (fl_prefixes_changed f) true (fl_claims_initialized f)) ∨
  (name = "oidc-required-claim" ∧
     f1 = MkOidcFlags (with_claims (fl_options f)
            (pair_insert (if fl_claims_initialized f then requiredClaims (fl_options f) else ∅) value))
            (fl_prefixes_changed f) (fl_algs_changed f) true).
Proof.
  unfold set_flag, slice_Set, map_Set, pair_insert. destruct (with_string _ _ _) as [o|].
  { intros [= <-]. left. by exists o. }
  destruct (String.eqb_spec name "oidc-reserved-name-prefixes") as [->|].
  { destruct (readAsCSV _ _) as [l|]; [|done]. intros [= <-]. right; left. eauto. }
  destruct (String.eqb_spec name "oidc-signing-algs") as [->|].
  { destruct (readAsCSV _ _) as [l|]; [|done]. intros [= <-]. right; right; left. eauto. }
  destruct (String.eqb_spec name "oidc-required-claim") as [->|]; [|done].
  destruct (Cut "=" value) as [[k v] []]; [|done]. intros [= <-]. by right; right; right.
Qed.

(** A string flag changes its own field. *)
Lemma with_string_cases o name v o' :
  with_string o name v = Some o' →
  (∃ get, (name, get) ∈ string_flags) ∧
  reservedNamePrefixes o' = reservedNamePrefixes o ∧ signingAlgs o' = signingAlgs o ∧
  requiredClaims o' = requiredClaims o ∧
  ∀ n get, (n, get) ∈ string_flags → get o' = if String.eqb name n then v else get o.
Proof.
  destruct o as [iss cid uc up gc gp ca algs claims res]. unfold with_string. intros H.
  repeat match type of H with
  | context [String.eqb name ?n] =>
      destruct (String.eqb_spec name n) as [->|];
        [injection H as <-; split;
         [unfold string_flags; eexists; repeat first [apply list_elem_of_here | apply list_elem_of_further]|];
         do 3 (split; [done|]);
         intros m get Hin; unfold string_flags in Hin;
         repeat (apply elem_of_cons in Hin as [[= -> ->]|Hin]; [reflexivity|]);
         by apply elem_of_nil in Hin|]
  end.
  done.
Qed.

Lemma values_cons name n v args :
  values name ((n, v) :: args) = if String.eqb n name then v :: values name args else values name args.
Proof. unfold values. cbn. by destruct (String.eqb n name). Qed.

(** Two flags are not confused. *)
Lemma string_flag_other name get :
  (name, get) ∈ string_flags →
  String.eqb name "oidc-reserved-name-prefixes" = false ∧
  String.eqb name "oidc-signing-algs" = false ∧ String.eqb name "oidc-required-claim" = false ∧
  String.eqb "oidc-reserved-name-prefixes" name = false ∧
  String.eqb "oidc-signing-algs" name = false ∧ String.eqb "oidc-required-claim" name = false.
Proof.
  unfold string_flags. intros Hin.
  repeat (apply elem_of_cons in Hin as [[= -> _]|Hin]; [done|]). by apply elem_of_nil in Hin.
Qed.

Lemma string_flag_get name get o :
  (name, get) ∈ string_flags →
  (∀ l, get (with_prefixes o l) = get o) ∧ (∀ l, get (with_algs o l) = get o) ∧
  (∀ m, get (with_claims o m) = get o).
Proof.
  unfold string_flags. intros Hin.
  repeat (apply elem_of_cons in Hin as [[= _ ->]|Hin]; [done|]). by apply elem_of_nil in Hin.
Qed.

Lemma set_flags_after args f f' :
  set_flags csv_read args f = Ok f' → flags_after f args f'.
Proof.
  revert f. induction args as [|[n v] args IH]; intros f; cbn [set_flags].
  { intros [= <-]. split; [done | exists []; by split | exists []; by split | done]. }
  rewrite bind_ok. intros (f1 & H1 & H2). destruct (IH f1 H2) as [IHs IHp IHa IHc].
  apply set_flag_cases in H1 as [(o & Ho & ->)|[(-> & l & Hl & ->)|[(-> & l & Hl & ->)|(-> & ->)]]];
    cbn [fl_options fl_prefixes_changed fl_algs_changed fl_claims_initialized] in *.
  - apply with_string_cases in Ho as ((g & Hg) & Er & Ea & Ec & Hget).
    destruct (string_flag_other n g Hg) as (N1 & N2 & N3 & _).
    rewrite Er, Ea, Ec in *. split; rewrite ?values_cons, ?N1, ?N2, ?N3; try done.
    intros name get Hin. rewrite values_cons, (IHs name get Hin), (Hget name get Hin).
    destruct (String.eqb n name); [by rewrite string_meaning_cons | done].
  - split; rewrite ?values_cons; try done.
    + intros name get Hin. destruct (string_flag_other name get Hin) as (_ & _ & _ & N1 & _).
      rewrite values_cons, N1, (IHs name get Hin).
      f_equal. by destruct (string_flag_get name get (fl_options f) Hin) as (Ep & Ea & Ec).
    + destruct IHp as (l' & Hl' & Hp). exists (l ++ l')%list.
      rewrite (String.eqb_refl "oidc-reserved-name-prefixes"). cbn [csv_all]. rewrite Hl. cbn. rewrite Hl'. split; [done|].
      rewrite Hp. cbn [reservedNamePrefixes with_prefixes].
      destruct (values "oidc-reserved-name-prefixes" args);
        [injection Hl' as <-; rewrite app_nil_r|];
        destruct (fl_prefixes_changed f); by rewrite ?app_assoc.
  - split; rewrite ?values_cons; try done.
    + intros name get Hin. destruct (string_flag_other name get Hin) as (_ & _ & _ & _ & N1 & _).
      rewrite values_cons, N1, (IHs name get Hin).
      f_equal. by destruct (string_flag_get name get (fl_options f) Hin) as (Ep & Ea & Ec).
    + destruct IHa as (l' & Hl' & Hp). exists (l ++ l')%list.
      rewrite (String.eqb_refl "oidc-signing-algs"). cbn [csv_all]. rewrite Hl. cbn. rewrite Hl'. split; [done|].
      rewrite Hp. cbn [signingAlgs with_algs].
      destruct (values "oidc-signing-algs" args);
        [injection Hl' as <-; rewrite app_nil_r|];
        destruct (fl_algs_changed f); by rewrite ?app_assoc.
  - split; rewrite ?values_cons; try done.
    + intros name get Hin. destruct (string_flag_other name get Hin) as (_ & _ & _ & _ & _ & N1).
      rewrite values_cons, N1, (IHs name get Hin).
      f_equal. by destruct (string_flag_get name get (fl_options f) Hin) as (Ep & Ea & Ec).
    + rewrite (String.eqb_refl "oidc-required-claim"). cbn [fold_left]. rewrite IHc.
      by destruct (values "oidc-required-claim" args).
Qed.
End flags_meaning.

(** ** The issuer *)

(** The authenticator after the controller has seen a sequence of ConfigMaps. *)
Definition follow (build : option string → result unit) (ns name : string)
    (listers : list (result ConfigMap)) (a : oidcAuthenticator) : oidcAuthenticator :=
  fold_left (λ a l, (reconcile build ns name a l).1) listers a.

Section pinned.
Context {Pool : Type} (NewPoolFromBytes : string → result Pool).
Variable oidcauthenticator_New : oidc_library_options Pool → result unit.
Variable opts : oidcOptions.

Abbreviation build := (newDelegate Pool NewPoolFromBytes oidcauthenticator_New opts).

Lemma newDelegate_ok caBundle :
  build caBundle = Ok () →
  ∃ t, delegate_transport Pool NewPoolFromBytes caBundle = Ok t ∧
       oidcauthenticator_New (issuer_options Pool opts t) = Ok () ∧
       buildDelegate Pool NewPoolFromBytes oidcauthenticator_New opts caBundle = (Ok t, []).
Proof.
  unfold newDelegate, buildDelegate. destruct (delegate_transport _ _ caBundle) as [t|]; [|done].
  destruct (oidcauthenticator_New _) as [[]|] eqn:E; [|done]. intros _. by exists t.
Qed.

(** A delegate, if there is one, was built for a bundle of a ConfigMap seen. *)
Definition pinned (seen : list (result ConfigMap)) (a : oidcAuthenticator) : Prop :=
  ∀ d, delegate a = Some d →
    ∃ cm b, Ok cm ∈ seen ∧ oidcCABundle cm = Ok b ∧ d_bundle d = Some b ∧ build (Some b) = Ok ().

Lemma pinned_more seen l a : pinned seen a → pinned (seen ++ [l]) a.
Proof. intros H d Hd. destruct (H d Hd) as (cm & b & ? & ?). exists cm, b. set_solver. Qed.

Lemma markUnavailable_pinned seen a key e : pinned seen a → pinned seen (markUnavailable a key e).1.
Proof. unfold markUnavailable. by destruct (String.eqb _ _). Qed.

Lemma reconcile_pinned seen ns name a l :
  pinned seen a → pinned (seen ++ [l]) (reconcile build ns name a l).1.
Proof.
  intros H%(pinned_more _ l). unfold reconcile. destruct l as [cm|e].
  - destruct (oidcCABundle cm) as [b|e] eqn:Eb; [|by apply markUnavailable_pinned].
    cbn [fst]. unfold reconcileCABundle, reconcile_begin. destruct (String.eqb _ _); [done|].
    unfold reconcile_end. destruct (build (Some b)) as [[]|e] eqn:Ebuild; [|done].
    intros d [= <-]. exists cm, b. cbn. repeat split; try done. set_solver.
  - destruct (IsNotFound e); [by apply markUnavailable_pinned | done].
Qed.

Lemma follow_pinned ns name listers seen a :
  pinned seen a → pinned (seen ++ listers) (follow build ns name listers a).
Proof.
  revert seen a. induction listers as [|l listers IH]; intros seen a H; cbn.
  { by rewrite app_nil_r. }
  change (l :: listers) with ([l] ++ listers)%list. rewrite app_assoc. by apply IH, reconcile_pinned.
Qed.
End pinned.

(** C16: with a CA ConfigMap configured, a token is accepted only by a delegate
    whose connection to the issuer requires TLS 1.2 and trusts exactly the
    certificates of the bundle of a ConfigMap that the controller has seen,
    never the host's roots, whatever sequence of ConfigMaps, deletions and
    failures it has seen. *)
Theorem issuer_trusts_configmap_only {Pool} (NewPoolFromBytes : string → result Pool)
    oidcauthenticator_New opts ns synced ctxErr l0 listers a0 HealthCheck authenticate token u :
  caConfigMap opts ≠ "" →
  build_oidc (newDelegate Pool NewPoolFromBytes oidcauthenticator_New opts) opts ns synced ctxErr l0
    = Ok a0 →
  let a := follow (newDelegate Pool NewPoolFromBytes oidcauthenticator_New opts) ns (caConfigMap opts)
             listers a0 in
  oidc_AuthenticateToken a HealthCheck authenticate token = Ok (Some u) →
  ∃ d cm b pool,
    delegate a = Some d ∧ authenticate d token = Ok (Some u) ∧
    Ok cm ∈ l0 :: listers ∧ oidcCABundle cm = Ok b ∧ d_bundle d = Some b ∧
    NewPoolFromBytes b = Ok pool ∧
    buildDelegate Pool NewPoolFromBytes oidcauthenticator_New opts (d_bundle d) =
      (Ok (MkTransport VersionTLS12 (Some pool)), []).
Proof.
  intros Hca Hb a Hauth. set (build := newDelegate Pool NewPoolFromBytes oidcauthenticator_New opts) in *.
  assert (pinned NewPoolFromBytes oidcauthenticator_New opts ([l0] ++ listers) a) as Hpin.
  { apply follow_pinned. revert Hb. unfold build_oidc, newOIDCAuthenticator.
    rewrite (proj2 (String.eqb_neq _ _) Hca). cbn [negb].
    unfold startOIDCCAConfigMapController. destruct synced; cbn [negb]; [|done].
    pose proof (reconcile_pinned NewPoolFromBytes oidcauthenticator_New opts [] ns (caConfigMap opts)
      uninitialized l0 ltac:(by intros d)) as H. fold build in H.
    destruct (reconcile build ns (caConfigMap opts) uninitialized l0) as [a1 [e|]]; [done|].
    by intros [= <-]. }
  unfold oidc_AuthenticateToken in Hauth. destruct (delegate a) as [d|] eqn:Hd.
  2:{ by destruct (initializationError a). }
  destruct (Hpin d Hd) as (cm & b & Hin & Hcm & Hdb & Hbuild).
  apply newDelegate_ok in Hbuild as (t & Ht & _ & Hbd). cbn [delegate_transport] in Ht.
  destruct (NewPoolFromBytes b) as [pool|] eqn:Hpool; [|done]. injection Ht as <-.
  exists d, cm, b, pool. rewrite Hdb. repeat split; try done.
  destruct (authenticate d token) as [r|e]; [|by destruct (HealthCheck d)].
  by injection Hauth as ->.
Qed.

(** Whatever the arguments, in whatever order: a flag that holds a string
    means its last value, or the default if it is not given; the reserved
    prefixes and the signing algorithms are the default ["system:"] and
    ["RS256"] only if their flag is absent, otherwise all the values given, in
    order, without the default, so that one empty value disables the check
    of reserved names; the required claims are the pairs given, the later of
    two pairs with the same key winning. *)
Theorem oidc_flags_meaning csv_read args f :
  set_flags csv_read args oidc_addFlags = Ok f →
  (∀ name get, (name, get) ∈ string_flags →
     get (fl_options f) = default (get default_oidcOptions) (last (values name args))) ∧
  (∃ l, csv_all csv_read (values "oidc-reserved-name-prefixes" args) = Ok l ∧
     reservedNamePrefixes (fl_options f) =
       match values "oidc-reserved-name-prefixes" args with [] => ["system:"] | _ => l end) ∧
  (∃ l, csv_all csv_read (values "oidc-signing-algs" args) = Ok l ∧
     signingAlgs (fl_options f) =
       match values "oidc-signing-algs" args with [] => ["RS256"] | _ => l end) ∧
  (values "oidc-reserved-name-prefixes" args = [""] → reservedNamePrefixes (fl_options f) = []) ∧
  requiredClaims (fl_options f) = fold_left pair_insert (values "oidc-required-claim" args) ∅.
Proof.
  intros H. apply set_flags_after in H as [Hs (l & Hl & Hp) Ha Hc]. cbn in Hp, Ha, Hc. split_and!.
  - exact Hs.
  - by exists l.
  - exact Ha.
  - intros E. rewrite E in Hl, Hp. injection Hl as <-. by rewrite Hp.
  - rewrite Hc. by destruct (values "oidc-required-claim" args).
Qed.

(** ** The chain of providers *)

Section chain.
Context {Pool : Type} (NewPoolFromBytes : string → result Pool).
Context (oidcauthenticator_New : oidc_library_options Pool → result unit).
Context (synced : bool) (ctxErr : goerror) (lister : string → string → result ConfigMap).
Context (HealthCheck : delegate_t → option goerror) (authenticate : delegate_t → string → answer).
Context (CompileAndValidate : JWTAuthenticator → result unit) (validSigningAlgs : list string).
Context (cached : (string → answer) → bool → Z → Z → string → answer).
Context (hub_client : string → Z → Z → result (string → result TokenReviewStatus)).

Abbreviation chain := (configured_chain Pool NewPoolFromBytes oidcauthenticator_New
  CompileAndValidate validSigningAlgs synced ctxErr lister HealthCheck authenticate cached hub_client).

(** The providers of a service-proxy: none if neither the hub nor an issuer
    is configured, otherwise the managed cluster's first, the hub's before
    the issuer's. *)
Theorem chain_order hub oidc deps ps :
  chain hub oidc deps = Ok ps →
  activeAuthProviderIDs ps =
    (if hub_enableImpersonation hub || negb (String.eqb (issuerURL oidc) "") then
       "managed-cluster" :: (if hub_enableImpersonation hub then ["hub"] else []) ++
       (if String.eqb (issuerURL oidc) "" then [] else ["oidc"])
     else [])%list.
Proof.
  unfold configured_chain, initializeAuthProviders, defaultAuthProviderFactories.
  rewrite !filter_cons. cbn [enabled hub_factory hubAuthProviderFactory oidcAuthProviderFactory].
  destruct (hub_enableImpersonation hub), (String.eqb (issuerURL oidc) "");
    repeat (case_decide; try done); cbn.
  all: repeat match goal with |- context [hub_client ?k ?q ?b] => destruct (hub_client k q b); cbn end.
  all: repeat match goal with |- context [build_oidc ?k ?o ?n ?y ?x ?l] =>
      destruct (build_oidc k o n y x l); cbn end.
  all: first [discriminate | by intros [= <-]].
Qed.

(** An issuer that cannot be set up is never silently left out. *)
Lemma chain_needs_issuer hub oidc deps e :
  issuerURL oidc ≠ "" →
  build_oidc (newDelegate Pool NewPoolFromBytes oidcauthenticator_New oidc) oidc
    (dep_podNamespace deps) synced ctxErr (lister (dep_podNamespace deps) (caConfigMap oidc)) = Err e →
  ∃ e', chain hub oidc deps = Err e'.
Proof.
  intros Hi Hb. unfold configured_chain, initializeAuthProviders, defaultAuthProviderFactories.
  rewrite !filter_cons. cbn [enabled hub_factory hubAuthProviderFactory oidcAuthProviderFactory].
  rewrite (proj2 (String.eqb_neq _ _) Hi).
  destruct (hub_enableImpersonation hub);
    repeat (case_decide; try done); cbn; rewrite Hb; cbn; [|by eexists].
  destruct (hub_client _ _ _); cbn; by eexists.
Qed.
End chain.

(** ** Witnesses *)

Module OidcSample.

Definition csv (v : string) : result (list string) := Ok (Split "," v).

Definition arguments : list (string * string) :=
  [("oidc-issuer-url", "https://old"); ("oidc-client-id", "cluster-proxy");
   ("oidc-issuer-url", "https://issuer"); ("oidc-reserved-name-prefixes", "");
   ("oidc-signing-algs", "ES256,ES384"); ("oidc-signing-algs", "RS256");
   ("oidc-ca-configmap", "oidc-ca"); ("oidc-required-claim", "tenant = a");
   ("oidc-required-claim", "tenant=b")].

Definition parsed : oidc_flags :=
  match set_flags csv arguments oidc_addFlags with Ok f => f | Err _ => oidc_addFlags end.

Lemma oidc_flags_meaning_witness :
  issuerURL (fl_options parsed) = "https://issuer" ∧
  reservedNamePrefixes (fl_options parsed) = [] ∧
  signingAlgs (fl_options parsed) = ["ES256"; "ES384"; "RS256"] ∧
  requiredClaims (fl_options parsed) = {["tenant" := "b"]}.
Proof.
  destruct (oidc_flags_meaning csv arguments parsed eq_refl) as (Hs & _ & (l & Hl & Ha) & Hp & Hc).
  split_and!.
  - exact (Hs _ _ (list_elem_of_here _ _)).
  - exact (Hp eq_refl).
  - vm_compute in Hl. injection Hl as <-. exact Ha.
  - rewrite Hc. vm_compute. reflexivity.
Defined.

(** The pool of a bundle is its text; the library accepts everything. *)
Definition pool_of (b : string) : result string := Ok b.
Definition library (o : oidc_library_options string) : result unit := Ok ().
Definition sample_build : option string → result unit :=
  newDelegate string pool_of library (fl_options parsed).

Definition started : oidcAuthenticator :=
  match build_oidc sample_build (fl_options parsed) "ns" true (ENew "") (Ok empty_cm) with
  | Ok a => a
  | Err _ => uninitialized
  end.

(** The first ConfigMap is unusable, the second one is not. *)
Lemma issuer_trusts_configmap_only_witness :
  ∃ d, delegate (follow sample_build "ns" "oidc-ca" [Ok good_cm] started) = Some d ∧
    ∃ pool, buildDelegate string pool_of library (fl_options parsed) (d_bundle d) =
      (Ok (MkTransport VersionTLS12 (Some pool)), []).
Proof.
  destruct (issuer_trusts_configmap_only pool_of library (fl_options parsed) "ns" true (ENew "")
    (Ok empty_cm) [Ok good_cm] started (λ _, None) (λ _ _, Ok (Some alice)) "t" alice)
    as (d & cm & b & pool & Hd & _ & _ & _ & _ & _ & Hb).
  - discriminate.
  - vm_compute. reflexivity.
  - vm_compute. reflexivity.
  - exists d. split; [exact Hd | by exists pool].
Defined.

End OidcSample.
