(* ===== verification/Manifests.v ===== *)
(** * The proxy-server's manifests (pkg/proxyserver/controllers/manifests.go,
      pkg/apis/proxy/v1alpha1, pkg/common/constants.go)

    The configuration object, the Kubernetes objects that the controller
    renders from it, and the consistency of what is rendered: the service
    selects the pods, every mount has its volume, the certificates the
    server is told to use are where they are mounted. *)

From S2P Require Import Prelude GoStrings Sha256 Naming.

Local Open Scope string_scope.

(** ** Constants *)

Definition ComponentNameProxyServer : string := "proxy-server".
Definition SubjectGroupClusterProxy : string := "open-cluster-management:cluster-proxy".
Definition LabelKeyComponentName : string := "proxy.open-cluster-management.io/component-name".
Definition AnnotationKeyConfigurationGeneration : string :=
  "proxy.open-cluster-management.io/configuration-generation".
Definition AnnotationKeyTLSConfigHash : string :=
  "proxy.open-cluster-management.io/tls-config-hash".
Definition AnnotationKeyRenderedHash : string :=
  "proxy.open-cluster-management.io/rendered-hash".
Definition signerSecretName : string := "proxy-server-ca".
Definition portforwardRoleName : string := "cluster-proxy-addon-agent:portforward".

(** ** The configuration (v1alpha1.ManagedProxyConfiguration) *)

Inductive EntryPointType :=
| EntryPointTypeLoadBalancerService
| EntryPointTypeHostname
| EntryPointTypePortForward.

#[export] Instance EntryPointType_eq_dec : EqDecision EntryPointType.
Proof. solve_decision. Defined.

(** Optional pointers are options. *)
Record Entrypoint := MkEntrypoint {
  ep_type : EntryPointType;
  LoadBalancerService : option (string * list (string * string));  (* name, annotations *)
  Hostname : option string;
  ep_port : Z
}.

Record ProxyServerSpec := MkProxyServerSpec {
  ps_image : string;
  ps_replicas : Z;
  InClusterServiceName : string;
  ps_namespace : string;
  ps_entrypoint : option Entrypoint;
  ps_additionalArgs : list string;
  ps_nodeSelector : gmap string string;
  ps_tolerations : list string
}.

Record Condition := MkCondition {
  c_type : string;
  c_status : bool;
  c_reason : string;
  c_message : string;
  c_lastTransition : option Z          (* [None] is the zero time *)
}.

#[export] Instance Condition_eq_dec : EqDecision Condition.
Proof. solve_decision. Defined.

Record Status := MkStatus {
  LastObservedGeneration : Z;
  Conditions : list Condition
}.

#[export] Instance Status_eq_dec : EqDecision Status.
Proof. solve_decision. Defined.

Record ManagedProxyConfiguration := MkMPC {
  mpc_name : string;
  mpc_uid : string;
  Generation : Z;
  SelfSignedSANs : option (list string);       (* Signer.SelfSigned.AdditionalSANs *)
  SigningProxyServerSecretName : string;
  SigningProxyClientSecretName : string;
  SigningAgentServerSecretName : string;
  ProxyServer : ProxyServerSpec;
  UserServer : option (list string);           (* UserServer.AdditionalSANs *)
  mpc_status : Status
}.

(** ** Kubernetes objects *)

Record OwnerReference := MkOwner {
  owner_apiVersion : string;
  owner_kind : string;
  owner_name : string;
  owner_uid : string;
  blockOwnerDeletion : bool
}.

Record ServiceSpec := MkServiceSpec {
  svc_selector : gmap string string;
  svc_type : string;
  svc_ports : list (string * Z);
  ClusterIP : string;
  ClusterIPs : list string;
  IPFamilies : list string;
  IPFamilyPolicy : option string
}.

Record VolumeMount := MkMount { vm_name : string; vm_readOnly : bool; vm_path : string }.

Record Container := MkContainer {
  ct_name : string;
  ct_image : string;
  ct_pullPolicy : string;
  ct_command : list string;
  ct_args : list string;
  ct_dropCapabilities : list string;
  ct_privileged : bool;
  ct_runAsNonRoot : bool;
  ct_readOnlyRootFilesystem : bool;
  ct_allowPrivilegeEscalation : bool;
  ct_mounts : list VolumeMount
}.

Record DeploymentSpec := MkDeploymentSpec {
  dp_replicas : Z;
  dp_matchLabels : gmap string string;
  dp_strategy : string;
  dp_podLabels : gmap string string;
  dp_serviceAccount : string;
  dp_runAsNonRoot : bool;
  dp_seccomp : string;
  dp_containers : list Container;
  dp_volumes : list (string * string);         (* volume, secret *)
  dp_nodeSelector : gmap string string;
  dp_tolerations : list string
}.

Record PolicyRule := MkRule {
  apiGroups : list string;
  verbs : list string;
  resources : list string
}.

Inductive content :=
| CNamespace
| CServiceAccount
| CService (s : ServiceSpec)
| CSecret (data : gmap string string)
| CDeployment (d : DeploymentSpec)
| CRole (rules : list PolicyRule)
| CRoleBinding (roleKind roleName : string) (subjects : list (string * string)).

Definition kind_of (c : content) : string :=
  match c with
  | CNamespace => "Namespace"
  | CServiceAccount => "ServiceAccount"
  | CService _ => "Service"
  | CSecret _ => "Secret"
  | CDeployment _ => "Deployment"
  | CRole _ => "Role"
  | CRoleBinding _ _ _ => "RoleBinding"
  end.

Record object := MkObject {
  o_namespace : string;
  o_name : string;
  o_owners : list OwnerReference;
  o_labels : gmap string string;
  o_annotations : gmap string string;
  o_resourceVersion : nat;                     (* 0 is unset *)
  o_content : content
}.

Definition o_key (o : object) : string * string * string :=
  (kind_of (o_content o), o_namespace o, o_name o).

(** ** Rendering *)

Definition newOwnerReference (config : ManagedProxyConfiguration) : OwnerReference :=
  MkOwner "proxy.open-cluster-management.io/v1alpha1" "ManagedProxyConfiguration"
    (mpc_name config) (mpc_uid config) true.

Definition component_label : gmap string string :=
  {[LabelKeyComponentName := ComponentNameProxyServer]}.

Definition owned (config : ManagedProxyConfiguration) (name : string)
    (labels annotations : gmap string string) (c : content) : object :=
  MkObject (ps_namespace (ProxyServer config)) name [newOwnerReference config] labels annotations 0 c.

Definition newServiceAccount (config : ManagedProxyConfiguration) : object :=
  owned config AddonName ∅ ∅ CServiceAccount.

Definition newProxySecret (config : ManagedProxyConfiguration) (caData : string) : object :=
  owned config signerSecretName ∅ ∅ (CSecret {["ca.crt" := caData]}).

Definition server_ports : list (string * Z) := [("proxy-server", 8090%Z); ("agent-server", 8091%Z)].

Definition newProxyService (config : ManagedProxyConfiguration) : object :=
  owned config (InClusterServiceName (ProxyServer config)) ∅ ∅
    (CService (MkServiceSpec component_label "ClusterIP" server_ports "" [] [] None)).

(** [sdktls.TLSConfig]: the cipher suites and the minimum version. *)
Record TLSConfig := MkTLSConfig { CipherSuites : list Z; TLSMinVersion : Z }.

Section tls.
(** [CipherSuitesToString] and [VersionToString] of the SDK. *)
Context (CipherSuitesToString : list Z → string) (VersionToString : Z → string).

Definition proxyServerArgs (config : ManagedProxyConfiguration) (tlsConfig : option TLSConfig)
  : list string :=
  let args :=
    ([("--server-count=" ++ Itoa (ps_replicas (ProxyServer config)))%string;
      "--proxy-strategies=destHost";
      "--server-ca-cert=/etc/server-ca-pki/ca.crt";
      "--server-cert=/etc/server-pki/tls.crt";
      "--server-key=/etc/server-pki/tls.key";
      "--cluster-ca-cert=/etc/server-ca-pki/ca.crt";
      "--cluster-cert=/etc/agent-pki/tls.crt";
      "--cluster-key=/etc/agent-pki/tls.key"] ++ ps_additionalArgs (ProxyServer config))%list in
  match tlsConfig with
  | None => args
  | Some t =>
      let args := match CipherSuites t with
                  | [] => args
                  | cs => (args ++ [("--cipher-suites=" ++ CipherSuitesToString cs)%string])%list
                  end in
      if negb (TLSMinVersion t =? 0)%Z
      then (args ++ [("--tls-min-version=" ++ VersionToString (TLSMinVersion t))%string])%list
      else args
  end.

(** [tlsConfigHash]: 16 hexadecimal digits of the digest of both fields,
    separated by a zero byte. *)
Definition tlsConfigHash (tlsConfig : option TLSConfig) : string :=
  match tlsConfig with
  | None => ""
  | Some t =>
      str_take 16 (sha256_hex (CipherSuitesToString (CipherSuites t) ++
                               String "000" (VersionToString (TLSMinVersion t))))
  end.

Definition proxy_server_container (config : ManagedProxyConfiguration) (imagePullPolicy : string)
    (tlsConfig : option TLSConfig) : Container :=
  MkContainer ComponentNameProxyServer (ps_image (ProxyServer config)) imagePullPolicy
    ["/proxy-server"] (proxyServerArgs config tlsConfig) ["ALL"] false true true false
    [MkMount "proxy-server-ca-certs" true "/etc/server-ca-pki/";
     MkMount "proxy-server-certs" true "/etc/server-pki/";
     MkMount "proxy-agent-certs" true "/etc/agent-pki/"].

Definition newProxyServerDeployment (config : ManagedProxyConfiguration) (imagePullPolicy : string)
    (tlsConfig : option TLSConfig) : object :=
  let deployAnnotations :=
    let hash := tlsConfigHash tlsConfig in
    if negb (String.eqb hash "") then {[AnnotationKeyTLSConfigHash := hash]} else ∅ in
  owned config (mpc_name config)
    {[AnnotationKeyConfigurationGeneration := Itoa (Generation config)]} deployAnnotations
    (CDeployment (MkDeploymentSpec (ps_replicas (ProxyServer config)) component_label "Recreate"
       component_label AddonName true "RuntimeDefault"
       [proxy_server_container config imagePullPolicy tlsConfig]
       [("proxy-server-ca-certs", signerSecretName);
        ("proxy-server-certs", SigningProxyServerSecretName config);
        ("proxy-agent-certs", SigningAgentServerSecretName config)]
       (ps_nodeSelector (ProxyServer config)) (ps_tolerations (ProxyServer config)))).

Definition newProxyServerRole (config : ManagedProxyConfiguration) : object :=
  owned config portforwardRoleName ∅ ∅
    (CRole [MkRule [""] ["*"] ["pods"; "pods/portforward"]]).

Definition newProxyServerRoleBinding (config : ManagedProxyConfiguration) : object :=
  owned config portforwardRoleName ∅ ∅
    (CRoleBinding "Role" portforwardRoleName [("Group", SubjectGroupClusterProxy)]).

(** The list that [deployProxyServer] applies. *)
Definition proxy_server_resources (config : ManagedProxyConfiguration) (caData : string)
    (imagePullPolicy : string) (tlsConfig : option TLSConfig) : list object :=
  [newServiceAccount config; newProxyService config; newProxySecret config caData;
   newProxyServerDeployment config imagePullPolicy tlsConfig; newProxyServerRole config;
   newProxyServerRoleBinding config].

(** ** Correctness *)

(** Is the file named by an argument below one of the mounts? *)
Definition under_mount (mounts : list VolumeMount) (path : string) : bool :=
  existsb (λ m, HasPrefix path (vm_path m)) mounts.

Definition cert_files : list string :=
  ["/etc/server-ca-pki/ca.crt"; "/etc/server-pki/tls.crt"; "/etc/server-pki/tls.key";
   "/etc/agent-pki/tls.crt"; "/etc/agent-pki/tls.key"].

Lemma tlsConfigHash_length t : String.length (tlsConfigHash (Some t)) = 16%nat.
Proof. unfold tlsConfigHash. by rewrite str_take_length, sha256_hex_length. Qed.

(** What is rendered for a configuration fits together, whatever the
    configuration: the six objects live in the configured namespace, are owned
    by the configuration and have distinct keys; the service and the
    deployment select the labels that the pods carry; every mount has a volume
    and every certificate argument a mount; the CA secret that is mounted is
    the one rendered; the container is unprivileged; the server is told the
    replica count of the deployment; and a TLS configuration is recorded by a
    16-digit annotation exactly when there is one. *)
Theorem rendered_manifests_consistent (config : ManagedProxyConfiguration) (caData pull : string)
    (tls : option TLSConfig) :
  let objs := proxy_server_resources config caData pull tls in
  Forall (λ o, o_namespace o = ps_namespace (ProxyServer config) ∧
               o_owners o = [newOwnerReference config]) objs ∧
  NoDup (map o_key objs) ∧
  ∃ d c, o_content (newProxyServerDeployment config pull tls) = CDeployment d ∧
    dp_containers d = [c] ∧
    (∃ s, o_content (newProxyService config) = CService s ∧ svc_selector s = dp_podLabels d) ∧
    dp_matchLabels d = dp_podLabels d ∧
    Forall (λ m, vm_readOnly m = true ∧ vm_name m ∈ map fst (dp_volumes d)) (ct_mounts c) ∧
    Forall (λ f, under_mount (ct_mounts c) f = true) cert_files ∧
    ("proxy-server-ca-certs", o_name (newProxySecret config caData)) ∈ dp_volumes d ∧
    dp_serviceAccount d = o_name (newServiceAccount config) ∧
    ct_privileged c = false ∧ ct_allowPrivilegeEscalation c = false ∧ ct_runAsNonRoot c = true ∧
    ("--server-count=" ++ Itoa (dp_replicas d)) ∈ ct_args c ∧
    (∀ a, a ∈ ps_additionalArgs (ProxyServer config) → a ∈ ct_args c) ∧
    (o_annotations (newProxyServerDeployment config pull tls) !! AnnotationKeyTLSConfigHash =
       tls ≫= λ t, Some (tlsConfigHash (Some t))).
Proof.
  cbn zeta. split_and!.
  - repeat (apply Forall_cons; split; [done|]). by apply Forall_nil.
  - apply (NoDup_fmap_1 (λ k, k.1.1)), (bool_decide_unpack _). vm_compute. exact I.
  - eexists _, _. split; [reflexivity|]. split; [reflexivity|].
    split; [by eexists|].
    assert (Hargs : ∀ a, a ∈ ("--server-count=" ++ Itoa (ps_replicas (ProxyServer config)))
                          :: ps_additionalArgs (ProxyServer config) →
                    a ∈ proxyServerArgs config tls).
    { intros a Ha. unfold proxyServerArgs. destruct tls as [[[|] v]|]; cbn [CipherSuites TLSMinVersion];
        repeat case_match; set_solver. }
    split_and!; try done.
    + repeat (apply Forall_cons; split; [split; [done|cbn; set_solver]|]). by apply Forall_nil.
    + repeat (apply Forall_cons; split; [done|]). by apply Forall_nil.
    + cbn. set_solver.
    + apply Hargs. set_solver.
    + intros a Ha. apply Hargs. set_solver.
    + destruct tls as [t|]; [|reflexivity].
      pose proof (tlsConfigHash_length t) as Hl.
      unfold newProxyServerDeployment, owned. cbn [o_annotations].
      destruct (String.eqb_spec (tlsConfigHash (Some t)) "") as [E|E]; [by rewrite E in Hl|].
      cbn [negb]. by rewrite lookup_singleton_eq.
Qed.
End tls.
