(* ===== verification/Api.v ===== *)
(** * The Kubernetes API as the controllers use it

    A controller shares the API server with other writers, and each of its
    calls may fail.  The world is a store of objects with resource versions
    and a schedule: for every call, what the other writers do before it is
    served and whether it fails.  Calls are made in a small state monad
    whose outcome is a value, an error, or a panic. *)

From S2P Require Import Prelude GoStrings Sha256 Naming Manifests.

Local Open Scope string_scope.

(** ** Outcomes and the monad *)

Inductive outcome (A : Type) :=
| Done (a : A)
| Fails (e : goerror)
| Panicked
| OutOfFuel.
Arguments Done {A} a.
Arguments Fails {A} e.
Arguments Panicked {A}.
Arguments OutOfFuel {A}.

Abbreviation key := (string * string * string)%type.

(** What another writer does: write an object, or delete one.  A call that
    takes effect although it fails, because its answer is lost, is a fault
    after a write of the same object; for a status, [Lost] says so. *)
Inductive write := Put (o : object) | Del (k : key) | Lost.

(** One turn: the others' writes before a call, and the call's failure. *)
Record turn := MkTurn { others : list write; fault : option goerror }.

(** A certificate that the controller asked a rotator for. *)
Record rotation := MkRotation {
  rot_namespace : string;
  rot_name : string;
  rot_sans : list string;
  rot_clientAuth : bool
}.

Record world := MkWorld {
  store : gmap key object;
  next_rv : nat;                       (* positive: 0 is "unset" *)
  schedule : list turn;
  rotations : list rotation;           (* newest first *)
  status_updates : list Status         (* newest first *)
}.

Definition M (A : Type) : Type := world → outcome A * world.

Definition ret {A} (a : A) : M A := λ w, (Done a, w).
Definition fail {A} (e : goerror) : M A := λ w, (Fails e, w).
Definition panic {A} : M A := λ w, (Panicked, w).

Definition bind {A B} (m : M A) (f : A → M B) : M B := λ w,
  match m w with
  | (Done a, w) => f a w
  | (Fails e, w) => (Fails e, w)
  | (Panicked, w) => (Panicked, w)
  | (OutOfFuel, w) => (OutOfFuel, w)
  end.

(** [if err != nil { ... }]: look at the result of a call. *)
Definition attempt {A} (m : M A) : M (result A) := λ w,
  match m w with
  | (Done a, w) => (Done (Ok a), w)
  | (Fails e, w) => (Done (Err e), w)
  | (Panicked, w) => (Panicked, w)
  | (OutOfFuel, w) => (OutOfFuel, w)
  end.

(** [errors.Wrapf(err, msg)]. *)
Definition wrapf {A} (msg : string) (m : M A) : M A :=
  bind (attempt m) (λ r, match r with
                         | Ok a => ret a
                         | Err e => fail (EWrap (msg ++ ": " ++ error_string e) e)
                         end).

Declare Scope api_scope.
Delimit Scope api_scope with api.
Notation "x <- m ;; f" := (bind m (λ x, f))
  (at level 100, m at next level, right associativity) : api_scope.
Notation "m ;;; f" := (bind m (λ _, f))
  (at level 100, right associativity) : api_scope.

(** ** The store *)

Definition set_rv (o : object) (rv : nat) : object :=
  MkObject (o_namespace o) (o_name o) (o_owners o) (o_labels o) (o_annotations o) rv (o_content o).

Definition set_annotations (o : object) (a : gmap string string) : object :=
  MkObject (o_namespace o) (o_name o) (o_owners o) (o_labels o) a (o_resourceVersion o)
    (o_content o).

Definition put (w : world) (o : object) : world :=
  MkWorld (<[o_key o := set_rv o (next_rv w)]> (store w)) (S (next_rv w)) (schedule w)
    (rotations w) (status_updates w).

Definition apply_write (w : world) (x : write) : world :=
  match x with
  | Put o => put w o
  | Del k => MkWorld (delete k (store w)) (next_rv w) (schedule w) (rotations w) (status_updates w)
  | Lost => w
  end.

(** The others take their turn; the call may then fail. *)
Definition take_turn : M unit := λ w,
  match schedule w with
  | [] => (Done (), w)
  | t :: rest =>
      let w := MkWorld (store w) (next_rv w) rest (rotations w) (status_updates w) in
      let w := fold_left apply_write (others t) w in
      match fault t with
      | Some e => (Fails e, w)
      | None => (Done (), w)
      end
  end.

(** ** Calls *)

Definition api_get (k : key) : M object :=
  bind take_turn (λ _ w,
    match store w !! k with
    | Some o => (Done o, w)
    | None => (Fails (EApi NotFound "not found"), w)
    end).

Definition api_create (o : object) : M unit :=
  bind take_turn (λ _ w,
    if negb (o_resourceVersion o =? 0)%nat
    then (Fails (EApi OtherReason "resourceVersion should not be set on objects to be created"), w)
    else match store w !! o_key o with
         | Some _ => (Fails (EApi AlreadyExists "already exists"), w)
         | None => (Done (), put w o)
         end).

(** An update with a resource version is conditional on it. *)
Definition api_update (o : object) : M unit :=
  bind take_turn (λ _ w,
    match store w !! o_key o with
    | None => (Fails (EApi NotFound "not found"), w)
    | Some cur =>
        if negb (o_resourceVersion o =? 0)%nat &&
           negb (o_resourceVersion o =? o_resourceVersion cur)%nat
        then (Fails (EApi Conflict "the object has been modified"), w)
        else (Done (), put w o)
    end).

(** ** Lemmas *)

(** Nobody interferes and nothing fails. *)
Definition quiet (w : world) : Prop := schedule w = [].

Lemma take_turn_quiet w : quiet w → take_turn w = (Done (), w).
Proof. unfold quiet, take_turn. by intros ->. Qed.

Lemma api_get_quiet k w :
  quiet w → api_get k w = (match store w !! k with
                           | Some o => Done o
                           | None => Fails (EApi NotFound "not found")
                           end, w).
Proof.
  intros H. unfold api_get, bind. rewrite take_turn_quiet by done. by destruct (store w !! k).
Qed.

Lemma apply_write_schedule w x : schedule (apply_write w x) = schedule w.
Proof. by destruct x. Qed.

Lemma apply_writes_schedule xs w : schedule (fold_left apply_write xs w) = schedule w.
Proof.
  revert w. induction xs as [|x xs IH]; intros w; cbn [fold_left]; [done|].
  by rewrite IH, apply_write_schedule.
Qed.

(** A call uses up one turn of the schedule. *)
Lemma take_turn_schedule w : schedule (take_turn w).2 = tail (schedule w).
Proof.
  unfold take_turn. destruct (schedule w) as [|t rest] eqn:E; cbn [snd tail]; [done|].
  destruct (fault t); cbn [snd]; by rewrite apply_writes_schedule.
Qed.

Lemma api_get_schedule k w : schedule (api_get k w).2 = tail (schedule w).
Proof.
  unfold api_get, bind. pose proof (take_turn_schedule w) as H.
  destruct (take_turn w) as [[a|e| |] w']; cbn in *; try done. by destruct (store w' !! k).
Qed.

Lemma api_create_schedule o w : schedule (api_create o w).2 = tail (schedule w).
Proof.
  unfold api_create, bind. pose proof (take_turn_schedule w) as H.
  destruct (take_turn w) as [[a|e| |] w']; cbn in *; try done. repeat case_match; done.
Qed.

Lemma api_update_schedule o w : schedule (api_update o w).2 = tail (schedule w).
Proof.
  unfold api_update, bind. pose proof (take_turn_schedule w) as H.
  destruct (take_turn w) as [[a|e| |] w']; cbn in *; try done. repeat case_match; done.
Qed.

(** A call returns or fails; it neither panics nor runs out of fuel. *)
Definition plain {A} (x : outcome A) : Prop :=
  match x with Done _ | Fails _ => True | Panicked | OutOfFuel => False end.

Lemma take_turn_plain w : plain (take_turn w).1.
Proof. unfold take_turn. destruct (schedule w) as [|t rest]; [done|]. by destruct (fault t). Qed.

Lemma api_get_plain k w : plain (api_get k w).1.
Proof.
  unfold api_get, bind. pose proof (take_turn_plain w).
  destruct (take_turn w) as [[a|e| |] w']; cbn in *; try done. by destruct (store w' !! k).
Qed.

Lemma api_create_plain o w : plain (api_create o w).1.
Proof.
  unfold api_create, bind. pose proof (take_turn_plain w).
  destruct (take_turn w) as [[a|e| |] w']; cbn in *; try done. repeat case_match; done.
Qed.

Lemma api_update_plain o w : plain (api_update o w).1.
Proof.
  unfold api_update, bind. pose proof (take_turn_plain w).
  destruct (take_turn w) as [[a|e| |] w']; cbn in *; try done. repeat case_match; done.
Qed.

(** A computation that returns went through each of its parts. *)
Lemma bind_done {A B} (m : M A) (f : A → M B) w b w' :
  bind m f w = (Done b, w') → ∃ a w1, m w = (Done a, w1) ∧ f a w1 = (Done b, w').
Proof. unfold bind. destruct (m w) as [[a|e| |] w1]; try done. eauto. Qed.

Lemma wrapf_done {A} msg (m : M A) w a w' : wrapf msg m w = (Done a, w') → m w = (Done a, w').
Proof.
  unfold wrapf, bind, attempt. destruct (m w) as [[x|e| |] w1]; cbn; intros H; simplify_eq; done.
Qed.

Lemma outcome_is {A} (x : outcome A * world) o : x.1 = o → x = (o, x.2).
Proof. destruct x. cbn. by intros ->. Qed.
