(* ===== verification/Controller.v ===== *)
(** * The proxy-server controller
      (pkg/proxyserver/controllers/managedproxyconfiguration_controller.go)

    [Reconcile] and everything it calls, over the API of [Api]: applying the
    rendered objects with a generation and a hash, retrying on conflicts,
    the entry point, the certificates, and the status.  [ensure] recurses
    on a conflict; every conflict uses up a turn of the schedule, so fuel
    above the length of the schedule is enough ([ensure_terminates]). *)

From S2P Require Import Prelude GoStrings Sha256 Naming Manifests Api.

Local Open Scope string_scope.
Local Open Scope api_scope.

(** ** Pure parts *)

Definition ConditionTypeProxyServerDeployed : string := "ProxyServerDeployed".
Definition ConditionTypeProxyServerSecretSigned : string := "ProxyServerSecretSigned".
Definition ConditionTypeAgentServerSecretSigned : string := "AgentServerSecretSigned".
Definition ConditionTypeUserServerSecretSigned : string := "UserServerSecretSigned".

Record state := MkState {
  isCurrentlyDeployed : bool;
  isRedeployed : bool;
  isSigned : bool;
  replicas : Z;
  proxyServerCertExpireTime : option Z;
  agentServerCertExpireTime : option Z;
  userServerCertExpireTime : option Z
}.

(** [serviceForUpdate]: the desired service with the network fields that the
    API server assigned to the current one. *)
Definition empty_service : ServiceSpec := MkServiceSpec ∅ "" [] "" [] [] None.

Definition with_content (o : object) (c : content) : object :=
  MkObject (o_namespace o) (o_name o) (o_owners o) (o_labels o) (o_annotations o)
    (o_resourceVersion o) c.

Definition preserve_network (desired current : ServiceSpec) : ServiceSpec :=
  MkServiceSpec (svc_selector desired) (svc_type desired) (svc_ports desired)
    (ClusterIP current) (ClusterIPs current)
    (match IPFamilies desired with [] => IPFamilies current | fs => fs end)
    (match IPFamilyPolicy desired with None => IPFamilyPolicy current | p => p end).

Definition serviceForUpdate (resource : object) (current : option object) : result object :=
  match o_content resource with
  | CService desired =>
      match o_content <$> current with
      | None => Ok (with_content resource (CService (preserve_network desired empty_service)))
      | Some (CService cur) => Ok (with_content resource (CService (preserve_network desired cur)))
      | Some _ => Err (ENew "cannot convert the current object to a Service")
      end
  | _ => Err (ENew "expected *corev1.Service")
  end.

Definition buildUserServerSANs (namespace : string) (additionalSANs : list string) : list string :=
  (["127.0.0.1"; "localhost"] ++
   [UserServerServiceName; (UserServerServiceName ++ "." ++ namespace)%string;
    (UserServerServiceName ++ "." ++ namespace ++ ".svc")%string;
    (UserServerServiceName ++ "." ++ namespace ++ ".svc.cluster.local")%string] ++
   additionalSANs)%list.

(** The names that the proxy-server's certificates are valid for. *)
Definition proxy_server_sans (config : ManagedProxyConfiguration) (entrypoint : string)
  : option (list string) :=
  let ps := ProxyServer config in
  let sans := (default [] (SelfSignedSANs config) ++
               ["127.0.0.1"; "localhost";
                (InClusterServiceName ps ++ "." ++ ps_namespace ps)%string;
                (InClusterServiceName ps ++ "." ++ ps_namespace ps ++ ".svc")%string])%list in
  let finish sans := if (0 <? String.length entrypoint)%nat
                     then (sans ++ [entrypoint])%list else sans in
  match ps_entrypoint ps with
  | Some ep =>
      if bool_decide (ep_type ep = EntryPointTypeHostname) then
        match Hostname ep with
        | Some h => Some (finish (sans ++ [h])%list)
        | None => None                        (* nil dereference *)
        end
      else Some (finish sans)
  | None => Some (finish sans)
  end.

Definition signed_condition (ty : string) (expiry : option Z) (time_string : Z → string)
  : Condition :=
  match expiry with
  | Some t => MkCondition ty true "SuccessfullySigned" ("Expiry:" ++ time_string t) None
  | None => MkCondition ty false "NotYetSigned" "" None
  end.

Definition getConditions (time_string : Z → string) (s : state) : list Condition :=
  ([MkCondition ConditionTypeProxyServerDeployed (isCurrentlyDeployed s)
      (if isCurrentlyDeployed s then "SuccessfullyDeployed" else "NotYetDeployed")
      ("Replicas: " ++ Itoa (replicas s)) None;
    signed_condition ConditionTypeProxyServerSecretSigned (proxyServerCertExpireTime s) time_string;
    signed_condition ConditionTypeAgentServerSecretSigned (agentServerCertExpireTime s) time_string] ++
   match userServerCertExpireTime s with
   | Some t => [signed_condition ConditionTypeUserServerSecretSigned (Some t) time_string]
   | None => []
   end)%list.

(** [meta.SetStatusCondition]. *)
Fixpoint SetStatusCondition (now : Z) (conds : list Condition) (new : Condition) : list Condition :=
  match conds with
  | [] => [MkCondition (c_type new) (c_status new) (c_reason new) (c_message new)
             (match c_lastTransition new with Some t => Some t | None => Some now end)]
  | c :: rest =>
      if String.eqb (c_type c) (c_type new) then
        MkCondition (c_type c) (c_status new) (c_reason new) (c_message new)
          (if Bool.eqb (c_status c) (c_status new) then c_lastTransition c
           else match c_lastTransition new with Some t => Some t | None => Some now end) :: rest
      else c :: SetStatusCondition now rest new
  end.

Definition clear_time (c : Condition) : Condition :=
  MkCondition (c_type c) (c_status c) (c_reason c) (c_message c) None.

Section annotations.
(** [validation.IsQualifiedName] and [IsValidLabelValue]: the complaints. *)
Context (IsQualifiedName IsValidLabelValue : string → list string).

Definition getAnnotation (l : list (string * string)) : gmap string string :=
  fold_left (λ annotation '(k, v),
    if (length (IsQualifiedName k) =? 0)%nat then annotation
    else if (0 <? length (IsValidLabelValue v))%nat then annotation
    else <[k := v]> annotation) l ∅.
End annotations.

(** ** What the controller is given *)

Record reconciler := MkReconciler {
  specHash : content → result string;              (* renderedResourceHash *)
  ObjectKinds : object → result (list (string * string));  (* group, kind *)
  CAData : string;
  imagePullPolicy : string;
  tlsConfig : option TLSConfig;
  cipherString : list Z → string;
  versionString : Z → string;
  rotate : rotation → result unit;                 (* EnsureTargetCertKeyPair *)
  ingress : object → list string;                  (* the load balancer's addresses *)
  status_replicas : object → Z;
  pem_decode : string → option string;
  parse_cert : string → result Z;
  time_string : Z → string;
  qualifiedName : string → list string;
  validLabelValue : string → list string;
  now : Z
}.

Section controller.
Context (c : reconciler).

(** ** Applying one object *)

(** What [ensure] found: a fresh object, or the current one if it could be
    read. *)
Definition find_or_create (kind : string) (resource : object) : M (bool * option object) :=
  r <- attempt (api_get (o_key resource)) ;;
  match r with
  | Ok current => ret (false, Some current)
  | Err e =>
      if negb (IsNotFound e) then
        fail (EWrap ("failed to get resource kind: " ++ kind ++ ", namespace: " ++
                     o_namespace resource ++ ", name " ++ o_name resource ++ ": " ++
                     error_string e) e)
      else
        r <- attempt (api_create resource) ;;
        match r with
        | Ok _ => ret (true, None)
        | Err e =>
            if negb (IsAlreadyExists e) then
              fail (EWrap ("failed to create resource kind: " ++ kind ++ ", namespace: " ++
                           o_namespace resource ++ ", name " ++ o_name resource ++ ": " ++
                           error_string e) e)
            else ret (false, None)
        end
  end.

(** The generation recorded on the current object, 0 if none. *)
Definition read_generation (kind : string) (annotations : gmap string string) : result Z :=
  match annotations !! AnnotationKeyConfigurationGeneration with
  | None => Ok 0%Z
  | Some s =>
      if (String.length s =? 0)%nat then Ok 0%Z
      else match Atoi s with
           | Ok z => Ok z
           | Err e => Err (EWrap ("failed reading current generation for " ++ kind ++ ": " ++
                                  error_string e) e)
           end
  end.

Definition annotation (a : gmap string string) (k : string) : string := default "" (a !! k).

Definition needs_update (generation currentGeneration : Z) (renderedHash : string)
    (annotations currentAnnotations : gmap string string) : bool :=
  (generation >? currentGeneration)%Z ||
  negb (String.eqb (annotation annotations AnnotationKeyTLSConfigHash)
                   (annotation currentAnnotations AnnotationKeyTLSConfigHash)) ||
  negb (String.eqb renderedHash (annotation currentAnnotations AnnotationKeyRenderedHash)).

(** The object with the annotations that [ensure] stamps on it. *)
Definition stamp (generation : Z) (renderedHash : string) (resource : object) : object :=
  set_annotations resource
    (<[AnnotationKeyRenderedHash := renderedHash]>
     (<[AnnotationKeyConfigurationGeneration := Itoa generation]> (o_annotations resource))).

Fixpoint ensure (fuel : nat) (generation : Z) (group : string) (resource : object)
  : M (bool * bool) :=
  match fuel with
  | O => λ w, (OutOfFuel, w)
  | S fuel =>
  let kind := kind_of (o_content resource) in
  match specHash c (o_content resource) with
  | Err e =>
      fail (EWrap ("failed hashing rendered resource kind: " ++ kind ++ ": " ++ error_string e) e)
  | Ok renderedHash =>
  let resource := stamp generation renderedHash resource in
  found <- find_or_create kind resource ;;
  let '(created, current) := found in
  let currentAnnotations := match current with Some o => o_annotations o | None => ∅ end in
  match read_generation kind currentAnnotations with
  | Err e => fail e
  | Ok currentGeneration =>
  if negb created && needs_update generation currentGeneration renderedHash
                       (o_annotations resource) currentAnnotations
  then
    let isService := String.eqb group "" && String.eqb kind "Service" in
    match (if isService then serviceForUpdate resource current else Ok resource) with
    | Err e => fail (EWrap ("failed preparing Service update: " ++ error_string e) e)
    | Ok toUpdate =>
        let toUpdate := set_rv toUpdate
                          (match current with Some o => o_resourceVersion o | None => 0%nat end) in
        r <- attempt (api_update toUpdate) ;;
        match r with
        | Ok _ => ret (created, true)
        | Err e =>
            if IsConflict e
            then ensure fuel generation group (if isService then resource else toUpdate)
            else fail (EWrap ("failed to update resource kind: " ++ kind ++ ", namespace: " ++
                              o_namespace resource ++ ", name " ++ o_name resource ++ ": " ++
                              error_string e) e)
        end
    end
  else ret (created, false)
  end end end.

(** The loop of [deployProxyServer]. *)
Fixpoint ensure_all (fuel : nat) (generation : Z) (objs : list object) : M bool :=
  match objs with
  | [] => ret false
  | o :: rest =>
      match ObjectKinds c o with
      | Err e => fail e
      | Ok [(group, _)] =>
          r <- ensure fuel generation group o ;;
          modified <- ensure_all fuel generation rest ;;
          ret (r.1 || r.2 || modified)
      | Ok _ => fail (ENew "invalid gvks received")
      end
  end.

Definition deployProxyServer (fuel : nat) (config : ManagedProxyConfiguration) : M bool :=
  ensure_all fuel (Generation config)
    (proxy_server_resources (cipherString c) (versionString c) config (CAData c)
       (imagePullPolicy c) (tlsConfig c)).

(** ** Namespace, entry point, certificates *)

Definition ensureNamespace (config : ManagedProxyConfiguration) : M unit :=
  let ns := ps_namespace (ProxyServer config) in
  r <- attempt (api_get ("Namespace", "", ns)) ;;
  match r with
  | Ok _ => ret ()
  | Err e =>
      if IsNotFound e then
        wrapf ("failed creating namespace " ++ Quote ns ++ " on absence")
          (api_create (MkObject "" ns [] ∅ ∅ 0 CNamespace))
      else fail (EWrap ("failed check namespace " ++ Quote ns ++ "'s presence: " ++ error_string e) e)
  end.

Definition ensureEntrypoint (config : ManagedProxyConfiguration) : M string :=
  let ns := ps_namespace (ProxyServer config) in
  match ps_entrypoint (ProxyServer config) with
  | None => panic                              (* nil dereference *)
  | Some ep =>
      if bool_decide (ep_type ep = EntryPointTypeLoadBalancerService) then
        match LoadBalancerService ep with
        | None => panic
        | Some (name, annotations) =>
            let proxyService :=
              MkObject ns name [] ∅ (getAnnotation (qualifiedName c) (validLabelValue c) annotations) 0
                (CService (MkServiceSpec component_label "LoadBalancer" server_ports "" [] [] None)) in
            r <- attempt (api_create proxyService) ;;
            match r with
            | Err e =>
                if negb (IsAlreadyExists e)
                then fail (EWrap ("failed to ensure entrypoint service for proxy-server: " ++
                                  error_string e) e)
                else ret ()
            | Ok _ => ret ()
            end ;;;
            lbSvc <- wrapf ("failed to get service " ++ Quote ns ++ "/" ++ Quote name)
                       (api_get ("Service", ns, name)) ;;
            match ingress c lbSvc with
            | [] => fail (ENew "external ip not yet provisioned")
            | ip :: _ => ret ip
            end
        end
      else ret ""
  end.

(** One rotator: the certificate is asked for, and the request recorded. *)
Definition ensure_cert (msg : string) (r : rotation) : M unit := λ w,
  match rotate c r with
  | Err e => (Fails (EWrap (msg ++ ": " ++ error_string e) e), w)
  | Ok _ => (Done (), MkWorld (store w) (next_rv w) (schedule w) (r :: rotations w)
                        (status_updates w))
  end.

Definition ensureRotation (config : ManagedProxyConfiguration) (entrypoint : string) : M unit :=
  let ns := ps_namespace (ProxyServer config) in
  match proxy_server_sans config entrypoint with
  | None => panic
  | Some sans =>
      ensure_cert "fails to rotate proxy server cert"
        (MkRotation ns (SigningProxyServerSecretName config) sans false) ;;;
      ensure_cert "fails to rotate proxy agent cert"
        (MkRotation ns (SigningAgentServerSecretName config) sans false) ;;;
      ensure_cert "fails to rotate proxy client cert"
        (MkRotation ns (SigningProxyClientSecretName config) sans true) ;;;
      match UserServer config with
      | Some additional =>
          ensure_cert "fails to rotate user server cert"
            (MkRotation ns UserServerSecretName (buildUserServerSANs ns additional) false)
      | None => ret ()
      end
  end.

(** ** Status *)

(** [getPEMCertExpireTime]: data that holds no PEM block is a nil
    dereference. *)
Definition getPEMCertExpireTime (pemBytes : string) : M (option Z) :=
  match pem_decode c pemBytes with
  | None => panic
  | Some b => match parse_cert c b with
              | Err _ => ret None
              | Ok t => ret (Some t)
              end
  end.

(** The certificate stored in a secret ([Data["tls.crt"]]). *)
Definition tls_crt (o : option object) : string :=
  match o_content <$> o with
  | Some (CSecret data) => default "" (data !! "tls.crt")
  | _ => ""
  end.

(** A typed client returns an empty object along with the error. *)
Definition get_or_absent (k : key) : M (option object) :=
  r <- attempt (api_get k) ;;
  match r with
  | Ok o => ret (Some o)
  | Err e => if IsNotFound e then ret None else fail e
  end.

Definition getCurrentState (redeployed : bool) (config : ManagedProxyConfiguration) : M state :=
  let ns := ps_namespace (ProxyServer config) in
  scale <- get_or_absent ("Deployment", ns, mpc_name config) ;;
  proxySecret <- get_or_absent ("Secret", ns, SigningProxyServerSecretName config) ;;
  agentSecret <- get_or_absent ("Secret", ns, SigningAgentServerSecretName config) ;;
  userExpiry <- match UserServer config with
                | None => ret None
                | Some _ =>
                    userSecret <- get_or_absent ("Secret", ns, UserServerSecretName) ;;
                    match userSecret with
                    | None => ret None
                    | Some s => getPEMCertExpireTime (tls_crt (Some s))
                    end
                end ;;
  proxyExpiry <- getPEMCertExpireTime (tls_crt proxySecret) ;;
  agentExpiry <- getPEMCertExpireTime (tls_crt agentSecret) ;;
  ret (MkState (bool_decide (is_Some scale)) redeployed
         (bool_decide (is_Some proxySecret) && bool_decide (is_Some agentSecret))
         (match scale with Some o => status_replicas c o | None => 0%Z end)
         proxyExpiry agentExpiry userExpiry).

(** Whether the next call takes effect even if it fails. *)
Definition answer_lost (w : world) : bool :=
  match schedule w with
  | t :: _ => existsb (λ x, match x with Lost => true | _ => false end) (others t)
  | [] => false
  end.

Definition log_status (s : Status) (w : world) : world :=
  MkWorld (store w) (next_rv w) (schedule w) (rotations w) (s :: status_updates w).

Definition update_status (s : Status) : M unit := λ w,
  match take_turn w with
  | (Done _, w1) => (Done (), log_status s w1)
  | (Fails e, w1) => (Fails e, if answer_lost w then log_status s w1 else w1)
  | (Panicked, w1) => (Panicked, w1)
  | (OutOfFuel, w1) => (OutOfFuel, w1)
  end.

(** The status that [refreshStatus] writes. *)
Definition edited_status (config : ManagedProxyConfiguration) (conds : list Condition) : Status :=
  MkStatus (LastObservedGeneration (mpc_status config))
    (fold_left (SetStatusCondition (now c)) conds (Conditions (mpc_status config))).

Definition refreshStatus (isModified : bool) (config : ManagedProxyConfiguration) : M unit :=
  currentState <- getCurrentState isModified config ;;
  let expectingStatus := MkStatus (Generation config) (getConditions (time_string c) currentState) in
  let currentStatus := MkStatus (LastObservedGeneration (mpc_status config))
                         (map clear_time (Conditions (mpc_status config))) in
  if negb isModified && bool_decide (expectingStatus = currentStatus) then ret ()
  else update_status (edited_status config (Conditions expectingStatus)).

(** ** Reconcile *)

Definition Reconcile (fuel : nat) (get : result ManagedProxyConfiguration) : M unit :=
  match get with
  | Err e => fail e
  | Ok config =>
      ensureNamespace config ;;;
      entrypoint <- ensureEntrypoint config ;;
      ensureRotation config entrypoint ;;;
      isModified <- wrapf "fails to deploy proxy server" (deployProxyServer fuel config) ;;
      refreshStatus isModified config
  end.
End controller.

(** ** Lemmas: applying one object *)

Section ensure_lemmas.
Context (c : reconciler).

Lemma stamp_key g h o : o_key (stamp g h o) = o_key o.
Proof. done. Qed.

Lemma set_rv_key o rv : o_key (set_rv o rv) = o_key o.
Proof. done. Qed.

Lemma serviceForUpdate_ok o cur u :
  serviceForUpdate o cur = Ok u → o_key u = o_key o ∧ o_annotations u = o_annotations o.
Proof.
  unfold serviceForUpdate, o_key. destruct (o_content o) eqn:E; try done.
  destruct (o_content <$> cur) as [[]|]; intros; inv_ok; cbn; by rewrite ?E.
Qed.

(** The object that [ensure] sends in an update. *)
Definition update_for (isService : bool) (resource : object) (current : option object)
  : result object :=
  if isService then serviceForUpdate resource current else Ok resource.

Lemma update_for_ok b o cur u :
  update_for b o cur = Ok u → o_key u = o_key o ∧ o_annotations u = o_annotations o.
Proof. destruct b; cbn; [apply serviceForUpdate_ok|]. intros. by inv_ok. Qed.

Lemma find_or_create_schedule kind o w :
  (length (schedule (find_or_create kind o w).2) <= length (tail (schedule w)))%nat.
Proof.
  unfold find_or_create, bind, attempt, ret, fail.
  pose proof (api_get_schedule (o_key o) w) as Hg.
  destruct (api_get (o_key o) w) as [[cur|e| |] w1]; cbn in *; rewrite <- ?Hg; try done.
  destruct (negb (IsNotFound e)); cbn; [done|].
  pose proof (api_create_schedule o w1) as Hc.
  destruct (api_create o w1) as [[u|e1| |] w2]; cbn in *; rewrite ?Hc; try (destruct (schedule w1); cbn; lia).
  destruct (negb (IsAlreadyExists e1)); cbn; rewrite Hc; destruct (schedule w1); cbn; lia.
Qed.

Lemma api_create_quiet o w :
  quiet w → o_resourceVersion o = 0%nat → store w !! o_key o = None →
  api_create o w = (Done (), put w o).
Proof.
  intros Hq Hrv E. unfold api_create, bind. rewrite take_turn_quiet by done. by rewrite Hrv, E.
Qed.

(** What [find_or_create] does when nobody interferes. *)
Lemma find_or_create_quiet kind o w :
  quiet w → o_resourceVersion o = 0%nat ∨ is_Some (store w !! o_key o) →
  find_or_create kind o w =
  match store w !! o_key o with
  | Some cur => (Done (false, Some cur), w)
  | None => (Done (true, None), put w o)
  end.
Proof.
  intros Hq Hrv. unfold find_or_create, bind, attempt. rewrite api_get_quiet by done.
  destruct (store w !! o_key o) as [cur|] eqn:E; [done|].
  destruct Hrv as [Hrv|[? ?]]; [|done].
  change (IsNotFound (EApi NotFound "not found")) with true. cbn [negb].
  unfold bind, attempt. by rewrite api_create_quiet.
Qed.

Lemma api_update_quiet o cur w :
  quiet w → store w !! o_key o = Some cur →
  api_update (set_rv o (o_resourceVersion cur)) w
  = (Done (), put w (set_rv o (o_resourceVersion cur))).
Proof.
  intros Hq E. unfold api_update, bind. rewrite take_turn_quiet by done.
  rewrite set_rv_key, E. cbn. rewrite Nat.eqb_refl. by rewrite andb_false_r.
Qed.

(** ** Termination *)

Lemma find_or_create_plain kind o w : plain (find_or_create kind o w).1.
Proof.
  unfold find_or_create, bind, attempt, ret, fail. pose proof (api_get_plain (o_key o) w) as Hg.
  destruct (api_get (o_key o) w) as [[cur|e| |] w1]; cbn in Hg |- *; try done.
  destruct (negb (IsNotFound e)); cbn; [done|]. pose proof (api_create_plain o w1) as Hc.
  destruct (api_create o w1) as [[u|e1| |] w2]; cbn in Hc |- *; try done.
  by destruct (negb (IsAlreadyExists e1)).
Qed.

(** Without a schedule an update of the object just read does not conflict,
    and an object that is absent was created. *)
Lemma quiet_no_conflict kind o w created current w1 u e :
  quiet w → find_or_create kind o w = (Done (created, current), w1) → created = false →
  o_key u = o_key o →
  (api_update (set_rv u (match current with Some x => o_resourceVersion x | None => 0%nat end)) w1).1
    = Fails e → IsConflict e = false.
Proof.
  intros Hq Hf Hc Hk. unfold find_or_create, bind, attempt in Hf.
  rewrite api_get_quiet in Hf by done.
  destruct (store w !! o_key o) as [cur|] eqn:E.
  - injection Hf as <- <- <-. rewrite <- Hk in E. by rewrite (api_update_quiet _ _ _ Hq E).
  - change (IsNotFound (EApi NotFound "not found")) with true in Hf. cbn [negb] in Hf.
    unfold bind, attempt, api_create, bind in Hf. rewrite take_turn_quiet in Hf by done.
    destruct (negb (o_resourceVersion o =? 0)%nat); cbn in Hf; [done|].
    rewrite E in Hf. cbn in Hf. by simplify_eq.
Qed.

Lemma ensure_fuel_enough fuel g group o w :
  (length (schedule w) < fuel)%nat → (ensure c fuel g group o w).1 ≠ OutOfFuel.
Proof.
  revert o w. induction fuel as [|fuel IH]; intros o w Hf; [lia|]. cbn [ensure].
  destruct (specHash c (o_content o)) as [h|e]; [|done].
  set (kind := kind_of (o_content o)). set (o' := stamp g h o).
  unfold bind at 1. pose proof (find_or_create_schedule kind o' w) as Hs.
  pose proof (find_or_create_plain kind o' w) as Hff.
  destruct (find_or_create kind o' w) as [[[created current]|e| |] w1] eqn:Efc; cbn in Hs, Hff; try done.
  destruct (read_generation _ _) as [cg|e]; [|done].
  destruct (negb created && _) eqn:En; [|done].
  apply andb_true_iff in En as [Ecr _]. apply negb_true_iff in Ecr.
  fold (update_for (String.eqb group "" && String.eqb kind "Service") o' current).
  destruct (update_for _ o' current) as [u|e] eqn:Eu; [|done].
  apply update_for_ok in Eu as [Hku _].
  unfold bind, attempt, ret, fail.
  set (u' := set_rv u _). pose proof (api_update_schedule u' w1) as Hus.
  pose proof (λ e, quiet_no_conflict kind o' w created current w1 u e) as Hnc.
  fold u' in Hnc. pose proof (api_update_plain u' w1) as Hup.
  destruct (api_update u' w1) as [[a|e| |] w2] eqn:Eup; cbn in Hus, Hnc, Hup |- *; try done.
  destruct (IsConflict e) eqn:Ec; [|done]. apply IH. rewrite Hus.
  destruct (schedule w) as [|t rest] eqn:Esw; cbn in Hs, Hf.
  - exfalso. assert (IsConflict e = false) by (by apply Hnc). congruence.
  - destruct (schedule w1); cbn in *; lia.
Qed.
End ensure_lemmas.

(** ** Lemmas: convergence when nobody interferes *)

Section converge.
Context (c : reconciler) (generation : Z).
Context (Hgen : (0 <= generation <= int_max)%Z).

(** Nothing is left to do for [o]. *)
Definition up_to_date (o : object) (h : string) (w : world) : Prop :=
  ∃ cur g, store w !! o_key o = Some cur ∧
    read_generation (kind_of (o_content o)) (o_annotations cur) = Ok g ∧
    needs_update generation g h (o_annotations (stamp generation h o)) (o_annotations cur) = false.

(** What an object that was applied carries: the hash of the rendered
    contents, the hash of the TLS settings, and a generation that is not
    older. *)
Definition carries (h : string) (o stored : object) : Prop :=
  annotation (o_annotations stored) AnnotationKeyRenderedHash = h ∧
  annotation (o_annotations stored) AnnotationKeyTLSConfigHash =
    annotation (o_annotations o) AnnotationKeyTLSConfigHash ∧
  ∃ g, read_generation (kind_of (o_content o)) (o_annotations stored) = Ok g ∧ (generation <= g)%Z.

Lemma annotation_stamp_tls h o :
  annotation (o_annotations (stamp generation h o)) AnnotationKeyTLSConfigHash
  = annotation (o_annotations o) AnnotationKeyTLSConfigHash.
Proof. unfold annotation. cbn. by rewrite !lookup_insert_ne. Qed.

(** When an object is rewritten. *)
Lemma needs_update_iff g h o cur :
  needs_update generation g h (o_annotations (stamp generation h o)) (o_annotations cur) = true ↔
  (g < generation)%Z ∨
  annotation (o_annotations o) AnnotationKeyTLSConfigHash ≠
    annotation (o_annotations cur) AnnotationKeyTLSConfigHash ∨
  h ≠ annotation (o_annotations cur) AnnotationKeyRenderedHash.
Proof.
  unfold needs_update. rewrite annotation_stamp_tls, !orb_true_iff, !negb_true_iff, !String.eqb_neq.
  rewrite Z.gtb_lt. tauto.
Qed.

Lemma up_to_date_carries o h w :
  up_to_date o h w → ∃ stored, store w !! o_key o = Some stored ∧ carries h o stored.
Proof.
  intros (cur & g & Hs & Hg & Hn). exists cur. split; [done|].
  destruct (decide (annotation (o_annotations cur) AnnotationKeyRenderedHash = h)) as [E1|E1];
    [|by rewrite (proj2 (needs_update_iff g h o cur)) in Hn by auto].
  destruct (decide (annotation (o_annotations cur) AnnotationKeyTLSConfigHash =
                    annotation (o_annotations o) AnnotationKeyTLSConfigHash)) as [E2|E2];
    [|by rewrite (proj2 (needs_update_iff g h o cur)) in Hn by auto].
  split; [done|]. split; [done|]. exists g. split; [done|].
  destruct (Z.lt_ge_cases g generation); [|done].
  by rewrite (proj2 (needs_update_iff g h o cur)) in Hn by auto.
Qed.

Lemma Itoa_nonempty z : (int_min <= z <= int_max)%Z → String.length (Itoa z) ≠ 0%nat.
Proof.
  intros Hz E. pose proof (Atoi_Itoa z Hz) as H. destruct (Itoa z); [|done].
  discriminate H.
Qed.

Lemma read_stamped kind h o :
  read_generation kind (o_annotations (stamp generation h o)) = Ok generation.
Proof.
  assert (Hz : (int_min <= generation <= int_max)%Z) by (unfold int_min in *; lia).
  unfold read_generation. cbn [o_annotations stamp set_annotations].
  rewrite lookup_insert_ne, lookup_insert_eq by done.
  pose proof (Itoa_nonempty _ Hz) as E. apply Nat.eqb_neq in E. by rewrite E, Atoi_Itoa.
Qed.

Lemma stamped_settled h o :
  needs_update generation generation h (o_annotations (stamp generation h o))
    (o_annotations (stamp generation h o)) = false.
Proof.
  unfold needs_update. rewrite String.eqb_refl. cbn [negb orb].
  assert (E : annotation (o_annotations (stamp generation h o)) AnnotationKeyRenderedHash = h).
  { unfold annotation. cbn. by rewrite lookup_insert_eq. }
  rewrite E, String.eqb_refl. cbn. by rewrite !orb_false_r, Z.gtb_ltb, Z.ltb_irrefl.
Qed.

(** Whatever carries the stamp of [o] is up to date. *)
Lemma stored_stamp_up_to_date o h u w :
  o_annotations u = o_annotations (stamp generation h o) → o_key u = o_key o →
  up_to_date o h (put w u).
Proof.
  intros Ha Hk. exists (set_rv u (next_rv w)), generation. cbn [put store]. rewrite Hk.
  rewrite lookup_insert_eq. cbn [o_annotations set_rv]. rewrite Ha.
  split_and!; [done|apply read_stamped|apply stamped_settled].
Qed.

Lemma ensure_up_to_date fuel group o h w :
  quiet w → specHash c (o_content o) = Ok h → up_to_date o h w →
  ensure c (S fuel) generation group o w = (Done (false, false), w).
Proof.
  intros Hq Hh (cur & g & Hs & Hg & Hn). cbn [ensure]. rewrite Hh. unfold bind at 1.
  rewrite find_or_create_quiet; [|done|right; rewrite stamp_key; by eexists].
  rewrite stamp_key, Hs. cbv beta iota. by rewrite Hg, Hn, andb_false_r.
Qed.

(** The effect of [ensure] on a quiet world. *)
Lemma ensure_quiet fuel group o w r w' :
  quiet w → o_resourceVersion o = 0%nat →
  ensure c (S fuel) generation group o w = (Done r, w') →
  ∃ h, specHash c (o_content o) = Ok h ∧ up_to_date o h w' ∧
    ((r = (false, false) ∧ w' = w) ∨
     (r = (true, false) ∧ store w !! o_key o = None ∧ w' = put w (stamp generation h o)) ∨
     (r = (false, true) ∧ ∃ cur u, store w !! o_key o = Some cur ∧
        (∃ g, read_generation (kind_of (o_content o)) (o_annotations cur) = Ok g ∧
          needs_update generation g h (o_annotations (stamp generation h o)) (o_annotations cur) = true) ∧
        update_for (String.eqb group "" && String.eqb (kind_of (o_content o)) "Service")
          (stamp generation h o) (Some cur) = Ok u ∧
        w' = put w (set_rv u (o_resourceVersion cur)))).
Proof.
  intros Hq Hrv. cbn [ensure].
  destruct (specHash c (o_content o)) as [h|e] eqn:Hh; [|done]. unfold bind at 1.
  rewrite find_or_create_quiet; [|done|by left]. rewrite stamp_key.
  destruct (store w !! o_key o) as [cur|] eqn:Es.
  - cbv beta iota.
    destruct (read_generation _ _) as [g|e] eqn:Eg; [|done].
    destruct (needs_update _ _ _ _ _) eqn:En; cbn [negb andb].
    + fold (update_for (String.eqb group "" && String.eqb (kind_of (o_content o)) "Service")
              (stamp generation h o) (Some cur)).
      destruct (update_for _ _ _) as [u|e] eqn:Eu; [|done].
      pose proof (update_for_ok _ _ _ _ Eu) as [Hk Ha].
      unfold bind, attempt. rewrite api_update_quiet; [|done|by rewrite Hk].
      unfold ret. intros H. injection H as <- <-.
      exists h. split; [done|]. split.
      * apply stored_stamp_up_to_date; [exact Ha|exact Hk].
      * right. right. split; [done|]. exists cur, u. split; [done|]. split; [by exists g|done].
    + unfold ret. intros H. injection H as <- <-.
      exists h. split; [done|]. split; [|by left]. by exists cur, g.
  - cbv beta iota. destruct (read_generation _ ∅) as [g|e] eqn:Eg; [|done].
    cbn [negb andb]. unfold ret. intros H. injection H as <- <-.
    exists h. split; [done|]. split; [by apply stored_stamp_up_to_date|]. right. by left.
Qed.

(** The contents of what was written: as rendered, except for the network
    fields of a service that was there. *)
Definition rendered_from (o : object) (before : option object) (stored : object) : Prop :=
  o_content stored = o_content o ∨
  ∃ want have cur, o_content o = CService want ∧ before = Some cur ∧ o_content cur = CService have ∧
    o_content stored = CService (preserve_network want have).

(** [o] was up to date and is untouched, or was written; either way it
    carries what was rendered. *)
Definition applied (w w' : world) (o : object) : Prop :=
  ∃ h stored, specHash c (o_content o) = Ok h ∧ store w' !! o_key o = Some stored ∧ carries h o stored ∧
    (store w !! o_key o = Some stored ∨ rendered_from o (store w !! o_key o) stored).

Lemma update_for_rendered b h o cur u :
  update_for b (stamp generation h o) (Some cur) = Ok u → rendered_from o (Some cur) u.
Proof.
  destruct b; cbn [update_for]; [|intros H; inv_ok; by left].
  unfold serviceForUpdate. cbn [o_content stamp set_annotations].
  destruct (o_content o) as [| |want| | | |] eqn:Eo; try done. cbn [fmap option_fmap option_map].
  destruct (o_content cur) as [| |have| | | |] eqn:Ec; try done.
  intros H. inv_ok. right. by exists want, have, cur.
Qed.

Lemma ensure_applied fuel group o w r w' :
  quiet w → o_resourceVersion o = 0%nat →
  ensure c (S fuel) generation group o w = (Done r, w') → applied w w' o.
Proof.
  intros Hq Hrv He. destruct (ensure_quiet _ _ _ _ _ _ Hq Hrv He) as (h & Hh & Hu & Hr).
  apply up_to_date_carries in Hu as (stored & Hs & Hc). exists h, stored. do 3 (split; [done|]).
  destruct Hr as [[_ ->]|[(_ & Hn & ->)|(_ & cur & u & Hcur & _ & Hup & ->)]]; [by left|right..].
  - left. cbn [put store] in Hs. rewrite stamp_key, lookup_insert_eq in Hs. by injection Hs as <-.
  - destruct (update_for_ok _ _ _ _ Hup) as [Hk _]. cbn [put store] in Hs.
    rewrite set_rv_key, Hk, stamp_key, lookup_insert_eq in Hs. injection Hs as <-.
    rewrite Hcur. exact (update_for_rendered _ _ _ _ _ Hup).
Qed.

Lemma put_quiet w o : quiet w → quiet (put w o).
Proof. done. Qed.

Lemma put_frame w u k : o_key u ≠ k → store (put w u) !! k = store w !! k.
Proof. intros H. cbn. by rewrite lookup_insert_ne. Qed.

Lemma ensure_frame fuel group o w r w' :
  quiet w → o_resourceVersion o = 0%nat →
  ensure c (S fuel) generation group o w = (Done r, w') →
  quiet w' ∧ ∀ k, k ≠ o_key o → store w' !! k = store w !! k.
Proof.
  intros Hq Hrv He. destruct (ensure_quiet _ _ _ _ _ _ Hq Hrv He)
    as (h & _ & _ & [[_ ->]|[(_ & _ & ->)|(_ & cur & u & _ & _ & Hu & ->)]]); [done| |].
  - split; [by apply put_quiet|]. intros k Hk. apply put_frame. by rewrite stamp_key.
  - split; [by apply put_quiet|]. intros k Hk. apply put_frame. rewrite set_rv_key.
    destruct (update_for_ok _ _ _ _ Hu) as [-> _]. by rewrite stamp_key.
Qed.

Lemma up_to_date_frame o h w w' :
  store w' !! o_key o = store w !! o_key o → up_to_date o h w → up_to_date o h w'.
Proof. intros E (cur & g & Hs & ?). exists cur, g. by rewrite E. Qed.

(** What makes [ensure_all] leave [o] alone. *)
Definition settled (w : world) (o : object) : Prop :=
  ∃ h group kind, ObjectKinds c o = Ok [(group, kind)] ∧ specHash c (o_content o) = Ok h ∧
    up_to_date o h w.

Lemma ensure_all_settled fuel objs w :
  quiet w → Forall (settled w) objs → ensure_all c (S fuel) generation objs w = (Done false, w).
Proof.
  intros Hq. induction 1 as [|o objs (h & group & kind & Hk & Hh & Hu) _ IH]; [done|].
  cbn [ensure_all]. rewrite Hk. unfold bind at 1. rewrite (ensure_up_to_date _ _ _ h) by done.
  unfold bind. by rewrite IH.
Qed.

Lemma ensure_all_quiet fuel objs w m w' :
  quiet w → NoDup (map o_key objs) → Forall (λ o, o_resourceVersion o = 0%nat) objs →
  ensure_all c (S fuel) generation objs w = (Done m, w') →
  quiet w' ∧ Forall (settled w') objs ∧ Forall (applied w w') objs ∧
  (∀ k, k ∉ map o_key objs → store w' !! k = store w !! k) ∧ (m = false → w' = w).
Proof.
  revert w m. induction objs as [|o objs IH]; intros w m Hq Hnd Hrv; cbn [ensure_all].
  { unfold ret. intros H. injection H as <- <-. auto. }
  cbn [map] in Hnd. apply NoDup_cons in Hnd as [Hin Hnd].
  apply Forall_cons in Hrv as [Hrv Hrvs].
  destruct (ObjectKinds c o) as [[|[group kind] [|]]|e] eqn:Hk; try done.
  unfold bind.
  destruct (ensure c (S fuel) generation group o w) as [[r|e| |] w1] eqn:He; try done.
  destruct (ensure_all c (S fuel) generation objs w1) as [[m1|e| |] w2] eqn:Ha; try done.
  unfold ret. intros H. injection H as <- <-.
  destruct (ensure_frame _ _ _ _ _ _ Hq Hrv He) as [Hq1 Hf1].
  destruct (IH w1 m1 Hq1 Hnd Hrvs Ha) as (Hq2 & Hs2 & Hap2 & Hf2 & Hm2).
  destruct (ensure_quiet _ _ _ _ _ _ Hq Hrv He) as (h & Hh & Hu & Hr).
  split_and!; [done| | | |].
  - apply Forall_cons. split; [|done]. exists h, group, kind. split_and!; try done.
    apply (up_to_date_frame _ _ w1); [by apply Hf2|done].
  - constructor.
    + destruct (ensure_applied _ _ _ _ _ _ Hq Hrv He) as (h' & stored & ? & Hst & ? & ?).
      exists h', stored. split; [done|]. split; [by rewrite Hf2|done].
    + apply Forall_forall. intros o' Hin'.
      destruct (proj1 (Forall_forall _ _) Hap2 o' Hin') as (h' & stored & ? & Hst & ? & Hor).
      exists h', stored. do 3 (split; [done|]). rewrite Hf1 in Hor; [done|].
      intros E. apply Hin. rewrite <- E. by apply list_elem_of_fmap_2.
  - intros k Hkn. cbn [map] in Hkn. apply not_elem_of_cons in Hkn as [Hne Hkn].
    rewrite Hf2 by done. by apply Hf1.
  - intros Hm. apply orb_false_iff in Hm as [Hrr Hm]. rewrite (Hm2 Hm).
    destruct Hr as [[_ ?]|[(-> & _)|(-> & _)]]; done.
Qed.
End converge.

(** ** Lemmas: conditions *)

Definition find_condition (ty : string) (l : list Condition) : option Condition :=
  find (λ c, String.eqb (c_type c) ty) l.

(** The merge of a reported condition into what was there. *)
Definition merged (now : Z) (old : option Condition) (new : Condition) : Condition :=
  MkCondition (c_type new) (c_status new) (c_reason new) (c_message new)
    (match old with
     | Some o => if Bool.eqb (c_status o) (c_status new) then c_lastTransition o
                 else match c_lastTransition new with Some t => Some t | None => Some now end
     | None => match c_lastTransition new with Some t => Some t | None => Some now end
     end).

Lemma find_SetStatusCondition now l new ty :
  find_condition ty (SetStatusCondition now l new) =
  if String.eqb (c_type new) ty then Some (merged now (find_condition (c_type new) l) new)
  else find_condition ty l.
Proof.
  unfold find_condition. induction l as [|x l IH]; cbn.
  - destruct (String.eqb_spec (c_type new) ty); [by subst|done].
  - destruct (String.eqb_spec (c_type x) (c_type new)) as [E|E]; cbn.
    + rewrite E. destruct (String.eqb_spec (c_type new) ty); [|done].
      unfold merged. by destruct new.
    + rewrite IH. destruct (String.eqb_spec (c_type x) ty) as [E'|].
      * destruct (String.eqb_spec (c_type new) ty); [congruence|done].
      * done.
Qed.

Lemma find_condition_cons ty x l :
  find_condition ty (x :: l) = if String.eqb (c_type x) ty then Some x else find_condition ty l.
Proof. done. Qed.

Lemma find_condition_none ty l : ty ∉ map c_type l → find_condition ty l = None.
Proof.
  unfold find_condition. induction l as [|x l IH]; [done|]. cbn [map find].
  intros [Hne Hin]%not_elem_of_cons.
  destruct (String.eqb_spec (c_type x) ty); [congruence|]. by apply IH.
Qed.

Lemma find_fold_conditions now news l ty :
  NoDup (map c_type news) →
  find_condition ty (fold_left (SetStatusCondition now) news l) =
  match find_condition ty news with
  | Some new => Some (merged now (find_condition ty l) new)
  | None => find_condition ty l
  end.
Proof.
  revert l. induction news as [|n news IH]; intros l Hnd; [done|].
  cbn [map] in Hnd. apply NoDup_cons in Hnd as [Hin Hnd]. cbn [fold_left].
  rewrite IH, find_SetStatusCondition, find_condition_cons by done.
  destruct (String.eqb_spec (c_type n) ty) as [<-|Hne]; [|done].
  by rewrite (find_condition_none (c_type n)).
Qed.

Lemma getConditions_types ts s : NoDup (map c_type (getConditions ts s)).
Proof.
  unfold getConditions, signed_condition.
  destruct (proxyServerCertExpireTime s), (agentServerCertExpireTime s), (userServerCertExpireTime s);
    apply (bool_decide_unpack _); vm_compute; exact I.
Qed.

(** The contents of an update: what was rendered, except for a service's
    network fields. *)
Lemma update_for_content group o cur h g u :
  update_for (String.eqb group "" && String.eqb (kind_of (o_content o)) "Service")
    (stamp g h o) (Some cur) = Ok u →
  match o_content o, o_content cur with
  | CService want, CService have =>
      group = "" → o_content u = CService (preserve_network want have)
  | _, _ => kind_of (o_content o) ≠ "Service" → o_content u = o_content o
  end.
Proof.
  destruct (o_content o) as [| |want| | | |] eqn:Eo; cbn [kind_of];
    try (intros Hu; rewrite andb_false_r in Hu; cbn [update_for] in Hu; inv_ok; cbn; intros _; exact Eo).
  destruct (o_content cur) as [| |have| | | |] eqn:Ec; try (by intros _ []).
  intros Hu ->. cbn [update_for String.eqb andb Ascii.eqb Bool.eqb] in Hu.
  unfold serviceForUpdate in Hu. cbn [o_content stamp set_annotations] in Hu.
  rewrite Eo in Hu. cbn [fmap option_fmap option_map] in Hu. rewrite Ec in Hu. by inv_ok.
Qed.

(** ** Lemmas: who writes the status *)

Definition keeps_status {A} (m : M A) : Prop :=
  ∀ w, status_updates (m w).2 = status_updates w.

Lemma keeps_ret {A} (a : A) : keeps_status (ret a).
Proof. done. Qed.

Lemma keeps_fail {A} e : keeps_status (@fail A e).
Proof. done. Qed.

Lemma keeps_panic {A} : keeps_status (@panic A).
Proof. done. Qed.

Lemma keeps_bind {A B} (m : M A) (f : A → M B) :
  keeps_status m → (∀ a, keeps_status (f a)) → keeps_status (bind m f).
Proof.
  intros Hm Hf w. unfold bind. specialize (Hm w).
  destruct (m w) as [[a|e| |] w1]; cbn in *; rewrite <- Hm; try done. apply Hf.
Qed.

Lemma keeps_attempt {A} (m : M A) : keeps_status m → keeps_status (attempt m).
Proof.
  intros Hm w. unfold attempt. specialize (Hm w). by destruct (m w) as [[a|e| |] w1].
Qed.

Lemma apply_writes_status xs w : status_updates (fold_left apply_write xs w) = status_updates w.
Proof.
  revert w. induction xs as [|x xs IH]; intros w; cbn [fold_left]; [done|]. rewrite IH. by destruct x.
Qed.

Lemma keeps_take_turn : keeps_status take_turn.
Proof.
  intros w. unfold take_turn. destruct (schedule w) as [|t rest]; [done|].
  destruct (fault t); cbn [snd]; by rewrite apply_writes_status.
Qed.

Lemma keeps_api_get k : keeps_status (api_get k).
Proof. apply keeps_bind; [apply keeps_take_turn|]. intros _ w. by destruct (store w !! k). Qed.

Lemma keeps_api_create o : keeps_status (api_create o).
Proof.
  apply keeps_bind; [apply keeps_take_turn|]. intros _ w.
  destruct (negb _); [done|]. by destruct (store w !! o_key o).
Qed.

Lemma keeps_api_update o : keeps_status (api_update o).
Proof.
  apply keeps_bind; [apply keeps_take_turn|]. intros _ w.
  destruct (store w !! o_key o); [|done]. by destruct (negb _ && _).
Qed.

#[export] Hint Resolve keeps_ret keeps_fail keeps_panic keeps_bind keeps_attempt keeps_take_turn
  keeps_api_get keeps_api_create keeps_api_update : proxy.

(** Splits a computation into its calls. *)
Ltac keeps_status :=
  repeat first
    [ progress intros
    | match goal with
      | |- keeps_status (bind _ _) => apply keeps_bind
      | |- keeps_status (attempt _) => apply keeps_attempt
      | |- keeps_status (match ?x with _ => _ end) => destruct x
      end
    | solve [auto with proxy nocore] ].

Lemma keeps_wrapf {A} msg (m : M A) : keeps_status m → keeps_status (wrapf msg m).
Proof. intros H. unfold wrapf. keeps_status. Qed.
#[export] Hint Resolve keeps_wrapf : proxy.

Lemma keeps_ensure c fuel g group o : keeps_status (ensure c fuel g group o).
Proof.
  revert o. induction fuel as [|fuel IH]; intros o; cbn [ensure]; [done|].
  unfold find_or_create. keeps_status.
Qed.
#[export] Hint Resolve keeps_ensure : proxy.

Lemma keeps_deploy c fuel config : keeps_status (deployProxyServer c fuel config).
Proof.
  unfold deployProxyServer. generalize (proxy_server_resources (cipherString c) (versionString c)
    config (CAData c) (imagePullPolicy c) (tlsConfig c)) as objs.
  induction objs as [|o objs IH]; cbn [ensure_all]; keeps_status.
Qed.

Lemma keeps_ensureNamespace config : keeps_status (ensureNamespace config).
Proof. unfold ensureNamespace. keeps_status. Qed.

Lemma keeps_ensureEntrypoint c config : keeps_status (ensureEntrypoint c config).
Proof. unfold ensureEntrypoint. keeps_status. Qed.

Lemma keeps_ensure_cert c msg r : keeps_status (ensure_cert c msg r).
Proof. intros w. unfold ensure_cert. by destruct (rotate c r). Qed.
#[export] Hint Resolve keeps_ensure_cert : proxy.

Lemma keeps_ensureRotation c config ep : keeps_status (ensureRotation c config ep).
Proof. unfold ensureRotation. keeps_status. Qed.

Lemma keeps_getCurrentState c m config : keeps_status (getCurrentState c m config).
Proof. unfold getCurrentState, get_or_absent, getPEMCertExpireTime. keeps_status. Qed.
#[export] Hint Resolve keeps_deploy keeps_ensureNamespace keeps_ensureEntrypoint
  keeps_ensureRotation keeps_getCurrentState : proxy.

(** A computation that keeps the status, and what follows it. *)
Lemma bind_keeps {A B} (m : M A) (f : A → M B) w r w' :
  keeps_status m → bind m f w = (r, w') →
  (∃ a w1, m w = (Done a, w1) ∧ status_updates w1 = status_updates w ∧ f a w1 = (r, w')) ∨
  (status_updates w' = status_updates w ∧ ∀ b, r ≠ Done b).
Proof.
  intros Hm. unfold bind. specialize (Hm w). destruct (m w) as [[a|e| |] w1]; cbn in Hm;
    [left; eauto|..]; intros H; injection H as <- <-; right; done.
Qed.

Lemma update_status_cases s w r w' :
  update_status s w = (r, w') →
  (status_updates w' = s :: status_updates w ∧ (r = Done () ∨ ∃ e, r = Fails e)) ∨
  (status_updates w' = status_updates w ∧ ∀ b, r ≠ Done b).
Proof.
  unfold update_status. pose proof (keeps_take_turn w) as Hk.
  destruct (take_turn w) as [[[]|e| |] w1]; cbn in Hk; intros H; injection H as <- <-; try (by right).
  - left. cbn. rewrite Hk. auto.
  - destruct (answer_lost w); [left; cbn; rewrite Hk; eauto|by right].
Qed.

(** Closes the case of a computation that stopped before the status. *)
Ltac no_status :=
  left; split; [congruence|];
  match goal with Hn : ∀ b, _ ≠ Done b |- _ => let Hr := fresh in intros Hr; by destruct (Hn _ Hr) end.

(** ** Lemmas: certificates *)

Lemma ensure_cert_done c msg r w u w' :
  ensure_cert c msg r w = (Done u, w') →
  w' = MkWorld (store w) (next_rv w) (schedule w) (r :: rotations w) (status_updates w).
Proof. unfold ensure_cert. destruct (rotate c r); [|done]. intros H. by injection H as _ <-. Qed.

Lemma proxy_server_sans_covers config entrypoint sans :
  proxy_server_sans config entrypoint = Some sans →
  let ps := ProxyServer config in let ns := ps_namespace ps in
  ∀ n, n ∈ ["127.0.0.1"; "localhost"; (InClusterServiceName ps ++ "." ++ ns)%string;
            (InClusterServiceName ps ++ "." ++ ns ++ ".svc")%string] ∨
       n ∈ default [] (SelfSignedSANs config) ∨
       (n = entrypoint ∧ entrypoint ≠ "") ∨
       (∃ ep, ps_entrypoint ps = Some ep ∧ ep_type ep = EntryPointTypeHostname ∧
              Hostname ep = Some n) → n ∈ sans.
Proof.
  cbn zeta. intros Es n Hn. unfold proxy_server_sans in Es.
  set (base := (default [] (SelfSignedSANs config) ++ _)%list) in Es.
  assert (Hb : n ∈ base ∨ (n = entrypoint ∧ entrypoint ≠ "") ∨
               (∃ ep, ps_entrypoint (ProxyServer config) = Some ep ∧
                      ep_type ep = EntryPointTypeHostname ∧ Hostname ep = Some n)).
  { destruct Hn as [Hn|[Hn|Hn]]; [left|left|by right]; unfold base; set_solver. }
  clearbody base. clear Hn.
  assert (Hne : entrypoint ≠ "" → (0 <? String.length entrypoint)%nat = true)
    by (destruct entrypoint; done).
  destruct (ps_entrypoint (ProxyServer config)) as [ep|];
    [case_bool_decide as Hh; [destruct (Hostname ep) as [h|] eqn:Eh; [|done]|]|];
    injection Es as <-;
    (destruct Hb as [Hb|[[-> Hb]|(ep' & E1 & E2 & E3)]];
     [case_match; set_solver | rewrite (Hne Hb); set_solver | ]); simplify_eq.
  case_match; set_solver.
Qed.

(** ** Correctness *)

Section theorems.
Context (c : reconciler).

(** Applying an object ends, whatever other writers do and whichever
    calls fail: it retries at most once per turn of the schedule, so fuel above
    the length of the schedule is always enough to get an answer. *)
Theorem ensure_terminates (fuel : nat) (generation : Z) (group : string) (o : object) (w : world)
  (Hfuel : (length (schedule w) < fuel)%nat) :
  (ensure c fuel generation group o w).1 ≠ OutOfFuel.
Proof. by apply ensure_fuel_enough. Qed.

(** C30: What applying an object achieves when nobody interferes: it is
    created exactly if it was absent, rewritten exactly if the generation
    recorded on it is older, its TLS hash differs or the hash of its rendered
    contents differs, and otherwise left alone; what is written carries the
    generation and both hashes and has the rendered contents, where a service
    keeps the addresses the cluster gave it; no other object is touched; and
    applying it again does nothing. *)
Theorem ensure_applies (fuel : nat) (generation : Z) (group : string) (o : object) (w w' : world)
    (created updated : bool)
  (Hgen : (0 <= generation <= int_max)%Z)
  (Hq : quiet w) (Hrv : o_resourceVersion o = 0%nat)
  (Hok : ensure c (S fuel) generation group o w = (Done (created, updated), w')) :
  ∃ h, specHash c (o_content o) = Ok h ∧
  (created = bool_decide (store w !! o_key o = None)) ∧
  (store w !! o_key o = None → updated = false) ∧
  (∀ cur, store w !! o_key o = Some cur →
     ∃ g, read_generation (kind_of (o_content o)) (o_annotations cur) = Ok g ∧
       (updated = true ↔
          (g < generation)%Z ∨
          annotation (o_annotations o) AnnotationKeyTLSConfigHash ≠
            annotation (o_annotations cur) AnnotationKeyTLSConfigHash ∨
          h ≠ annotation (o_annotations cur) AnnotationKeyRenderedHash)) ∧
  (created = false ∧ updated = false → w' = w) ∧
  (created = true ∨ updated = true →
     ∃ stored, store w' !! o_key o = Some stored ∧
       o_annotations stored = o_annotations (stamp generation h o) ∧
       (created = true → o_content stored = o_content o) ∧
       (updated = true → ∀ cur, store w !! o_key o = Some cur →
          match o_content o, o_content cur with
          | CService want, CService have =>
              group = "" → o_content stored = CService (preserve_network want have)
          | _, _ => kind_of (o_content o) ≠ "Service" → o_content stored = o_content o
          end)) ∧
  (∀ k, k ≠ o_key o → store w' !! k = store w !! k) ∧
  ensure c (S fuel) generation group o w' = (Done (false, false), w').
Proof.
  destruct (ensure_quiet c generation Hgen _ _ _ _ _ _ Hq Hrv Hok) as (h & Hh & Hu & Hr).
  destruct (ensure_frame c generation Hgen _ _ _ _ _ _ Hq Hrv Hok) as [Hq' Hf].
  pose proof (ensure_up_to_date c generation fuel group o h w' Hq' Hh Hu) as Hagain.
  exists h. destruct Hr as [[Er ->]|[(Er & Hn & ->)|(Er & cur & u & Hs & (g & Hg & Hnu) & Hup & ->)]];
    injection Er as -> ->; (split; [done|]).
  - destruct Hu as (cur & g & Hs & Hg & Hnu). rewrite Hs. split_and!; try done; [|by intros [?|?]].
    intros cur' Hc. injection Hc as <-. exists g. split; [done|].
    by rewrite <- needs_update_iff, Hnu.
  - rewrite Hn. split_and!; try done; [by intros [? _]|]. intros _.
    exists (set_rv (stamp generation h o) (next_rv w)). cbn [put store].
    rewrite stamp_key, lookup_insert_eq. by split_and!.
  - rewrite Hs. split_and!; try done.
    { intros cur' Hc. injection Hc as <-. exists g. split; [done|]. by rewrite <- needs_update_iff. }
    { by intros [_ ?]. }
    intros _. destruct (update_for_ok _ _ _ _ Hup) as [Hk Ha].
    exists (set_rv u (next_rv w)). split_and!; try done.
    + cbn [put store]. rewrite set_rv_key, Hk, stamp_key. by rewrite lookup_insert_eq.
    + intros _ cur' Hc. injection Hc as <-.
      exact (update_for_content group o cur h generation u Hup).
Qed.

(** C31: Deploying the proxy-server converges: when nobody interferes, one
    successful pass leaves each of the six objects stored with the hash of its
    rendered contents, its TLS hash and a generation that is not older than the
    configuration's; an object that did not carry these before has been
    written with the rendered contents (a service keeps its network fields),
    one that did is untouched; no other object changes; and a second pass
    reports no modification and writes nothing. *)
Theorem deploy_converges (fuel fuel' : nat) (config : ManagedProxyConfiguration) (w w' : world)
    (modified : bool)
  (Hgen : (0 <= Generation config <= int_max)%Z) (Hq : quiet w)
  (Hok : deployProxyServer c (S fuel) config w = (Done modified, w')) :
  let resources := proxy_server_resources (cipherString c) (versionString c) config (CAData c)
                     (imagePullPolicy c) (tlsConfig c) in
  Forall (λ o, ∃ h stored,
    specHash c (o_content o) = Ok h ∧ store w' !! o_key o = Some stored ∧
    carries (Generation config) h o stored ∧
    (store w !! o_key o = Some stored ∨ rendered_from o (store w !! o_key o) stored)) resources ∧
  deployProxyServer c (S fuel') config w' = (Done false, w') ∧
  (modified = false → w' = w) ∧
  (∀ k, k ∉ map o_key resources → store w' !! k = store w !! k).
Proof.
  unfold deployProxyServer in *. set (objs := proxy_server_resources _ _ _ _ _ _) in *.
  assert (Hnd : NoDup (map o_key objs)).
  { apply (NoDup_fmap_1 (λ k, k.1.1)), (bool_decide_unpack _). vm_compute. exact I. }
  assert (Hrv : Forall (λ o, o_resourceVersion o = 0%nat) objs).
  { repeat (apply Forall_cons; split; [done|]). by apply Forall_nil. }
  destruct (ensure_all_quiet c (Generation config) Hgen _ _ _ _ _ Hq Hnd Hrv Hok)
    as (Hq' & Hs & Hap & Hf & Hm).
  split_and!; [exact Hap| |done|done]. by apply ensure_all_settled.
Qed.

(** The certificates that a configuration needs. *)
Definition needed_rotations (config : ManagedProxyConfiguration) (sans : list string) : list rotation :=
  let ns := ps_namespace (ProxyServer config) in
  MkRotation ns (SigningProxyServerSecretName config) sans false ::
  MkRotation ns (SigningAgentServerSecretName config) sans false ::
  MkRotation ns (SigningProxyClientSecretName config) sans true ::
  match UserServer config with
  | Some additional => [MkRotation ns UserServerSecretName (buildUserServerSANs ns additional) false]
  | None => []
  end.

Lemma ensure_cert_granted msg r w u w' : ensure_cert c msg r w = (Done u, w') → rotate c r = Ok ().
Proof. unfold ensure_cert. by destruct (rotate c r) as [[]|]. Qed.

Lemma ensureRotation_granted config ep w w' :
  ensureRotation c config ep w = (Done (), w') →
  ∃ sans, proxy_server_sans config ep = Some sans ∧
    Forall (λ r, rotate c r = Ok ()) (needed_rotations config sans).
Proof.
  unfold ensureRotation. destruct (proxy_server_sans config ep) as [sans|]; [|done]. intros H.
  exists sans. split; [done|]. unfold needed_rotations.
  do 3 (apply bind_done in H as (? & ? & ?%ensure_cert_granted & H); constructor; [done|]).
  destruct (UserServer config); [|constructor]. constructor; [|constructor]. by eapply ensure_cert_granted.
Qed.

(** Everything that precedes the status has succeeded: the configuration
    [config] was found, with its namespace and entry point, every certificate
    that it needs was granted, all objects were applied, which [modified] some
    or none, and the state [st] was read. *)
Inductive all_succeeded (fuel : nat) (get : result ManagedProxyConfiguration) (w : world)
  : ManagedProxyConfiguration → bool → state → Prop :=
| AllSucceeded config ep sans modified st w1 w2 w3 w4 w5 :
    get = Ok config →
    ensureNamespace config w = (Done (), w1) →
    ensureEntrypoint c config w1 = (Done ep, w2) →
    ensureRotation c config ep w2 = (Done (), w3) →
    proxy_server_sans config ep = Some sans →
    Forall (λ x, rotate c x = Ok ()) (needed_rotations config sans) →
    deployProxyServer c fuel config w3 = (Done modified, w4) →
    getCurrentState c modified config w4 = (Done st, w5) →
    all_succeeded fuel get w config modified st.

(** C32: the status is written last, once, and only if everything before it
    succeeded.  A reconciliation that writes a status has found the
    configuration, its namespace and its entry point, was granted every
    certificate that the configuration needs, has applied all objects of the
    proxy-server and has read the state from which the conditions of the
    status are computed; it has then succeeded, or failed in that very write
    with its answer lost.  One that succeeds without writing a status has done
    all that, too, modified nothing and found the conditions as they are, for
    the generation observed last. *)
Theorem status_written_last (fuel : nat) (get : result ManagedProxyConfiguration) (w : world)
    (r : outcome unit) (w' : world)
  (Hrun : Reconcile c fuel get w = (r, w')) :
  (status_updates w' = status_updates w ∧
   (r = Done () → ∃ config st, all_succeeded fuel get w config false st ∧
      getConditions (time_string c) st = map clear_time (Conditions (mpc_status config)) ∧
      Generation config = LastObservedGeneration (mpc_status config))) ∨
  ∃ config modified st, all_succeeded fuel get w config modified st ∧
    status_updates w' = edited_status c config (getConditions (time_string c) st) :: status_updates w ∧
    (r = Done () ∨ ∃ e, r = Fails e).
Proof.
  unfold Reconcile in Hrun. destruct get as [config|e].
  2: { injection Hrun as <- <-. by left. }
  apply bind_keeps in Hrun as [([] & w1 & H1 & K1 & Hrun)|[K1 Hn]];
    [|no_status|auto with proxy nocore].
  apply bind_keeps in Hrun as [(ep & w2 & H2 & K2 & Hrun)|[K2 Hn]];
    [|no_status|auto with proxy nocore].
  apply bind_keeps in Hrun as [([] & w3 & H3 & K3 & Hrun)|[K3 Hn]];
    [|no_status|auto with proxy nocore].
  apply bind_keeps in Hrun as [(m & w4 & H4%wrapf_done & K4 & Hrun)|[K4 Hn]];
    [|no_status|auto with proxy nocore].
  apply bind_keeps in Hrun as [(st & w5 & H5 & K5 & Hrun)|[K5 Hn]];
    [|no_status|auto with proxy nocore].
  destruct (ensureRotation_granted _ _ _ _ H3) as (sans & Hs & Hg).
  assert (all_succeeded fuel (Ok config) w config m st) as Hp by (by econstructor).
  cbv zeta in Hrun. destruct (negb m && _) eqn:E.
  - injection Hrun as <- <-. left. split; [congruence|]. intros _.
    apply andb_true_iff in E as [Em E]. apply bool_decide_eq_true in E. injection E as Eg Ec.
    destruct m; [done|]. by exists config, st.
  - apply update_status_cases in Hrun as [[K6 Hr]|[K6 Hn]];
      [right|no_status].
    exists config, m, st. split; [done|]. split; [|done]. rewrite K6. cbn [Conditions]. congruence.
Qed.

(** What a status refresh writes: every reported condition with its
    status, reason and message, the transition time moved exactly when the
    status flipped, and conditions of other types untouched; but the observed
    generation is not recorded, so a configuration of another generation is
    written again at every reconciliation, even when nothing changed. *)
Theorem refresh_writes_every_time (config : ManagedProxyConfiguration) (st : state) (w w1 : world)
  (Hst : getCurrentState c false config w = (Done st, w1)) (Hq : quiet w1)
  (Hgen : LastObservedGeneration (mpc_status config) ≠ Generation config) :
  ∃ s, refreshStatus c false config w =
         (Done (), MkWorld (store w1) (next_rv w1) (schedule w1) (rotations w1)
                     (s :: status_updates w1)) ∧
    LastObservedGeneration s ≠ Generation config ∧
    ∀ ty, find_condition ty (Conditions s) =
      match find_condition ty (getConditions (time_string c) st) with
      | Some new => Some (merged (now c) (find_condition ty (Conditions (mpc_status config))) new)
      | None => find_condition ty (Conditions (mpc_status config))
      end.
Proof.
  exists (edited_status c config (getConditions (time_string c) st)). split_and!.
  - unfold refreshStatus, bind at 1. rewrite Hst. cbn [negb andb].
    rewrite bool_decide_false by (intros E; injection E as E _; congruence).
    unfold update_status. by rewrite take_turn_quiet.
  - done.
  - intros ty. cbn [edited_status Conditions].
    apply find_fold_conditions, getConditions_types.
Qed.

Lemma get_or_absent_quiet k w :
  quiet w → get_or_absent k w = (Done (store w !! k), w).
Proof.
  intros Hq. unfold get_or_absent, bind, attempt. rewrite api_get_quiet by done.
  destruct (store w !! k); [done|]. by change (IsNotFound (EApi NotFound "not found")) with true.
Qed.

(** A missing certificate secret is treated as "not signed yet" when it
    is looked up, but reading its expiry then dereferences the PEM block that
    is not there: the reconciliation panics instead of reporting the condition
    as false. *)
Theorem missing_secret_panics (m : bool) (config : ManagedProxyConfiguration) (w : world)
  (Hq : quiet w) (Hus : UserServer config = None)
  (Hpem : pem_decode c "" = None)
  (Hmiss : store w !! ("Secret", ps_namespace (ProxyServer config),
                       SigningProxyServerSecretName config) = None) :
  getCurrentState c m config w = (Panicked, w).
Proof.
  unfold getCurrentState, bind. rewrite !get_or_absent_quiet by done. rewrite Hmiss, Hus.
  cbn [ret]. unfold getPEMCertExpireTime. cbn [tls_crt fmap option_fmap option_map]. by rewrite Hpem.
Qed.

(** The certificates asked for: proxy-server, agent-server and client,
    in this order, then the user-server's if it is configured; the first three
    are valid for the loopback names, the service's names, the additional
    names, a configured host name and the entry point; only the client's is
    restricted to client authentication; the user-server's is valid for the
    names its service has; nothing else changes. *)
Theorem rotation_covers_names (config : ManagedProxyConfiguration) (entrypoint : string)
    (w w' : world)
  (Hok : ensureRotation c config entrypoint w = (Done (), w')) :
  ∃ sans, let ps := ProxyServer config in let ns := ps_namespace ps in
    rotations w' =
      (match UserServer config with
       | Some extra => [MkRotation ns UserServerSecretName (buildUserServerSANs ns extra) false]
       | None => []
       end ++
       [MkRotation ns (SigningProxyClientSecretName config) sans true;
        MkRotation ns (SigningAgentServerSecretName config) sans false;
        MkRotation ns (SigningProxyServerSecretName config) sans false] ++ rotations w)%list ∧
    (∀ n, n ∈ ["127.0.0.1"; "localhost"; (InClusterServiceName ps ++ "." ++ ns)%string;
               (InClusterServiceName ps ++ "." ++ ns ++ ".svc")%string] ∨
          n ∈ default [] (SelfSignedSANs config) ∨
          (n = entrypoint ∧ entrypoint ≠ "") ∨
          (∃ ep, ps_entrypoint ps = Some ep ∧ ep_type ep = EntryPointTypeHostname ∧
                 Hostname ep = Some n) → n ∈ sans) ∧
    store w' = store w ∧ schedule w' = schedule w.
Proof.
  unfold ensureRotation in Hok.
  destruct (proxy_server_sans config entrypoint) as [sans|] eqn:Es; [|done].
  exists sans. cbn zeta.
  apply bind_done in Hok as (? & w1 & H1 & Hok). apply ensure_cert_done in H1 as ->.
  apply bind_done in Hok as (? & w2 & H2 & Hok). apply ensure_cert_done in H2 as ->.
  apply bind_done in Hok as (? & w3 & H3 & Hok). apply ensure_cert_done in H3 as ->.
  assert (Hn : ∀ n, _ → n ∈ sans) by exact (proxy_server_sans_covers config entrypoint sans Es).
  destruct (UserServer config) as [extra|].
  - apply ensure_cert_done in Hok as ->. by split_and!.
  - unfold ret in Hok. injection Hok as <-. by split_and!.
Qed.
End theorems.

Lemma getAnnotation_fold (qn lv : string → list string) l (m : gmap string string) k v :
  fold_left (λ annotation '(k, v),
    if (length (qn k) =? 0)%nat then annotation
    else if (0 <? length (lv v))%nat then annotation
    else <[k := v]> annotation) l m !! k = Some v →
  m !! k = Some v ∨ qn k ≠ [] ∧ lv v = [] ∧ (k, v) ∈ l.
Proof.
  revert m. induction l as [|[k' v'] l IH]; intros m H; cbn [fold_left] in H; [by left|].
  apply IH in H as [H|(? & ? & ?)]; [|set_solver].
  destruct (length (qn k') =? 0)%nat eqn:E1; [by left|].
  destruct (0 <? length (lv v'))%nat eqn:E2; [by left|].
  destruct (decide (k' = k)) as [->|Hne]; [|rewrite lookup_insert_ne in H by done; by left].
  rewrite lookup_insert_eq in H. injection H as ->. right. split_and!; [| |set_solver].
  - intros E. by rewrite E in E1.
  - by destruct (lv v).
Qed.

(** The annotations of the load-balancer service: only keys that are NOT
    qualified names are kept, and every valid key is dropped, the opposite of
    what the warning in the code says. *)
Theorem annotations_filter_inverted (IsQualifiedName IsValidLabelValue : string → list string)
    (l : list (string * string)) (k v : string)
  (Hk : getAnnotation IsQualifiedName IsValidLabelValue l !! k = Some v) :
  IsQualifiedName k ≠ [] ∧ IsValidLabelValue v = [] ∧ (k, v) ∈ l.
Proof. by apply getAnnotation_fold in Hk as [Hk|?]. Qed.

(** ** Witnesses *)

(** A hub with an operator that signs everything and parses any non-empty
    certificate. *)
Definition demo_reconciler : reconciler :=
  MkReconciler (λ ct, Ok (kind_of ct)) (λ o, Ok [("", kind_of (o_content o))]) "CA" "IfNotPresent"
    None (λ _, "") (λ _, "") (λ _, Ok ()) (λ _, ["10.0.0.1"]) (λ _, 1%Z)
    (λ s, if String.eqb s "" then None else Some s) (λ _, Ok 100%Z) Itoa
    (λ k, if String.eqb k "good" then [] else ["bad key"]) (λ _, []) 7.

Definition demo_config : ManagedProxyConfiguration :=
  MkMPC "cluster-proxy" "uid" 2 None "server-cert" "client-cert" "agent-cert"
    (MkProxyServerSpec "img" 3 "proxy-entrypoint" "ocm"
       (Some (MkEntrypoint EntryPointTypeHostname None (Some "hub.example.com") 8091)) [] ∅ [])
    None (MkStatus 0 []).

Definition signed_secret (name : string) : object :=
  MkObject "ocm" name [] ∅ ∅ 1 (CSecret {["tls.crt" := "PEM"]}).

(** The world holds the two signed secrets. *)
Definition demo_world : world :=
  MkWorld {[("Secret", "ocm", "server-cert") := signed_secret "server-cert";
            ("Secret", "ocm", "agent-cert") := signed_secret "agent-cert"]} 2 [] [] [].

Definition demo_service : object := newProxyService demo_config.

(** The service exists already, with an address and an old generation. *)
Definition old_service : object :=
  MkObject "ocm" "proxy-entrypoint" [] ∅ {[AnnotationKeyConfigurationGeneration := "1"]} 1
    (CService (MkServiceSpec component_label "ClusterIP" server_ports "10.1.2.3" ["10.1.2.3"]
                 ["IPv4"] (Some "SingleStack"))).

Definition service_world : world :=
  MkWorld {[o_key old_service := old_service]} 2 [] [] [].

Definition service_world' : world := (ensure demo_reconciler 1 2 "" demo_service service_world).2.

Lemma service_world_updated :
  ensure demo_reconciler 1 2 "" demo_service service_world = (Done (false, true), service_world').
Proof. apply outcome_is. vm_compute. reflexivity. Qed.

(** Two writers bump the service while it is being applied. *)
Definition contended_world : world :=
  MkWorld {[o_key old_service := old_service]} 2
    [MkTurn [] None; MkTurn [Put old_service] None; MkTurn [] None; MkTurn [Put old_service] None]
    [] [].

Lemma ensure_terminates_witness :
  (ensure demo_reconciler 5 2 "" demo_service contended_world).1 ≠ OutOfFuel.
Proof.
  apply (ensure_terminates demo_reconciler 5 2 "" demo_service contended_world). cbn. lia.
Defined.

Example contended_run :
  (ensure demo_reconciler 5 2 "" demo_service contended_world).1 = Done (false, true) ∧
  (ensure demo_reconciler 2 2 "" demo_service contended_world).1 = OutOfFuel.
Proof. split; vm_compute; reflexivity. Qed.

Lemma ensure_applies_witness :
  ensure demo_reconciler 1 2 "" demo_service service_world' = (Done (false, false), service_world') ∧
  ∃ stored, store service_world' !! o_key demo_service = Some stored.
Proof.
  destruct (ensure_applies demo_reconciler 0 2 "" demo_service service_world service_world' false true)
    as (h & _ & _ & _ & _ & _ & Hs & _ & Ha).
  - vm_compute. split; discriminate.
  - reflexivity.
  - reflexivity.
  - apply service_world_updated.
  - split; [exact Ha|]. destruct (Hs (or_intror eq_refl)) as (stored & E & _).
    exists stored. exact E.
Defined.

Definition deployed_world : world := (deployProxyServer demo_reconciler 1 demo_config demo_world).2.

Lemma deployed_world_ok :
  deployProxyServer demo_reconciler 1 demo_config demo_world = (Done true, deployed_world).
Proof. apply outcome_is. vm_compute. reflexivity. Qed.

Lemma deploy_converges_witness :
  deployProxyServer demo_reconciler 1 demo_config deployed_world = (Done false, deployed_world) ∧
  ∃ stored, store deployed_world !! ("Service", "ocm", "proxy-entrypoint") = Some stored ∧
    annotation (o_annotations stored) AnnotationKeyRenderedHash = "Service".
Proof.
  destruct (deploy_converges demo_reconciler 0 0 demo_config demo_world deployed_world true) as (Ha & Hd & _).
  - vm_compute. split; discriminate.
  - reflexivity.
  - apply deployed_world_ok.
  - split; [exact Hd|]. apply Forall_cons in Ha as [_ Ha]. apply Forall_cons in Ha as [Ha _].
    destruct Ha as (h & stored & Hh & Hs & (Hc & _) & _). injection Hh as <-.
    exists stored. split; [exact Hs|exact Hc].
Defined.

(** A reconciliation that writes the first status. *)
Definition reconciled_world : world := (Reconcile demo_reconciler 1 (Ok demo_config) demo_world).2.

Lemma reconciled_world_ok :
  Reconcile demo_reconciler 1 (Ok demo_config) demo_world = (Done (), reconciled_world).
Proof.
  unfold reconciled_world. refine (outcome_is (Reconcile demo_reconciler 1 (Ok demo_config) demo_world) (Done ()) _).
  vm_compute. reflexivity.
Qed.

Lemma reconciled_once : length (status_updates reconciled_world) = 1%nat.
Proof. vm_compute. reflexivity. Qed.

Lemma status_written_last_witness :
  Reconcile demo_reconciler 1 (Ok demo_config) demo_world = (Done (), reconciled_world) ∧
  ∃ sans, Forall (λ x, rotate demo_reconciler x = Ok ()) (needed_rotations demo_config sans).
Proof.
  split; [exact reconciled_world_ok|].
  destruct (status_written_last demo_reconciler 1 (Ok demo_config) demo_world _ _ reconciled_world_ok)
    as [[H _]|(config & m & st & [config' ep sans m' st' w1 w2 w3 w4 w5 Hg _ _ _ _ Hr _ _] & _)].
  - exfalso. pose proof reconciled_once as L. rewrite H in L. discriminate L.
  - injection Hg as <-. exists sans. exact Hr.
Defined.

Definition demo_state : state := MkState false false true 0 (Some 100%Z) (Some 100%Z) None.

Lemma refresh_writes_every_time_witness :
  ∃ s, refreshStatus demo_reconciler false demo_config demo_world =
         (Done (), MkWorld (store demo_world) (next_rv demo_world) (schedule demo_world)
                     (rotations demo_world) (s :: status_updates demo_world)) ∧
    LastObservedGeneration s ≠ Generation demo_config.
Proof.
  destruct (refresh_writes_every_time demo_reconciler demo_config demo_state demo_world demo_world)
    as (s & E & Hs & _).
  - reflexivity.
  - reflexivity.
  - discriminate.
  - exists s. split; [exact E|exact Hs].
Defined.

Lemma missing_secret_panics_witness :
  getCurrentState demo_reconciler false demo_config service_world = (Panicked, service_world).
Proof.
  apply (missing_secret_panics demo_reconciler false demo_config service_world); reflexivity.
Defined.

Lemma rotation_covers_names_witness :
  ∃ sans : list string, "hub.example.com" ∈ sans ∧ "proxy-entrypoint.ocm.svc" ∈ sans.
Proof.
  destruct (rotation_covers_names demo_reconciler demo_config "" demo_world
              (ensureRotation demo_reconciler demo_config "" demo_world).2 eq_refl)
    as (sans & _ & Hn & _).
  exists sans. split; apply Hn.
  - right. right. right. eexists. split; [reflexivity|]. split; reflexivity.
  - left. apply list_elem_of_In. cbn. tauto.
Defined.

Lemma annotations_filter_inverted_witness :
  qualifiedName demo_reconciler "no good" ≠ [].
Proof.
  apply (annotations_filter_inverted (qualifiedName demo_reconciler) (validLabelValue demo_reconciler)
           [("good", "1"); ("no good", "2")] "no good" "2").
  reflexivity.
Defined.

Example valid_annotation_dropped :
  getAnnotation (qualifiedName demo_reconciler) (validLabelValue demo_reconciler)
    [("good", "1")] = ∅.
Proof. reflexivity. Qed.

(** A whole reconciliation: it deploys, then has nothing to do but the
    status. *)
Example reconcile_twice :
  let '(r1, w1) := Reconcile demo_reconciler 1 (Ok demo_config) demo_world in
  let '(r2, w2) := Reconcile demo_reconciler 1 (Ok demo_config) w1 in
  r1 = Done () ∧ r2 = Done () ∧ length (status_updates w1) = 1%nat ∧
  length (status_updates w2) = 2%nat ∧ next_rv w2 = next_rv w1.
Proof. vm_compute. auto. Qed.
