(* ===== verification/DeepCopy.v ===== *)
(** * Deep copies of the API objects (apis/proxy/v1alpha1/zz_generated.deepcopy.go)

    Go objects share memory: pointers, slices and maps are references, and
    assigning a struct copies the references.  The informers hand out
    objects of a shared cache, and the controller edits conditions in place,
    on copies.  Here a value may refer to a store, the generated functions
    are computations on it, and a copy is right when it reads the same and
    shares nothing with the original. *)

From S2P Require Import Prelude.

Local Open Scope string_scope.

(** ** Memory *)

Abbreviation loc := nat.

(** A struct is its fields in order.  A reference is a pointer, a map, or a
    slice, which is its whole backing array. *)
Inductive goval :=
| VInt (z : Z)
| VString (s : string)
| VBool (b : bool)
| VNil
| VRef (l : loc)
| VEnd
| VField (name : string) (v rest : goval).

(** What a reference points to. *)
Inductive cell :=
| CVar (v : goval)
| CArray (vs : list goval)
| CMap (kvs : list (string * goval)).

Abbreviation heap := (gmap loc cell).

Definition struct (fields : list (string * goval)) : goval :=
  fold_right (λ nv r, VField nv.1 nv.2 r) VEnd fields.

(** ** Types *)

(** A [metav1.Time] is copied by assignment: it is immutable. *)
Inductive shape :=
| SInt | SString | SBool
| SPtr (s : shape)
| SSlice (s : shape)
| SMap (s : shape)
| SEnd
| SField (name : string) (s rest : shape).

Definition SStruct (fields : list (string * shape)) : shape :=
  fold_right (λ ns r, SField ns.1 ns.2 r) SEnd fields.
Arguments SStruct !fields /.

Definition STime : shape := SInt.

(** ** Reading *)

(** The value that is read by following every reference. *)
Inductive tree :=
| TInt (z : Z) | TString (s : string) | TBool (b : bool)
| TNil
| TPtr (t : tree)
| TSlice (ts : list tree)
| TMap (kts : list (string * tree))
| TEnd
| TField (name : string) (t rest : tree).

(** Read every value of a list, in order, and collect what was visited. *)
Fixpoint read_all (f : goval → option (tree * gset loc)) (vs : list goval)
  : option (list tree * gset loc) :=
  match vs with
  | [] => Some ([], ∅)
  | v :: rest =>
      '(t, fp) ← f v; '(ts, fps) ← read_all f rest; Some (t :: ts, fp ∪ fps)
  end.

(** Reading a value of a type: what it means, and the locations it visits;
    [None] where the memory does not hold a value of the type. *)
Fixpoint reify (h : heap) (s : shape) (v : goval) {struct s} : option (tree * gset loc) :=
  match s, v with
  | SInt, VInt z => Some (TInt z, ∅)
  | SString, VString x => Some (TString x, ∅)
  | SBool, VBool b => Some (TBool b, ∅)
  | SPtr _, VNil | SSlice _, VNil | SMap _, VNil => Some (TNil, ∅)
  | SPtr s, VRef l =>
      match h !! l with
      | Some (CVar x) => '(t, fp) ← reify h s x; Some (TPtr t, {[l]} ∪ fp)
      | _ => None
      end
  | SSlice s, VRef l =>
      match h !! l with
      | Some (CArray xs) => '(ts, fp) ← read_all (reify h s) xs; Some (TSlice ts, {[l]} ∪ fp)
      | _ => None
      end
  | SMap s, VRef l =>
      match h !! l with
      | Some (CMap kvs) =>
          '(ts, fp) ← read_all (reify h s) (map snd kvs);
          Some (TMap (zip (map fst kvs) ts), {[l]} ∪ fp)
      | _ => None
      end
  | SEnd, VEnd => Some (TEnd, ∅)
  | SField n s rest, VField n' v r =>
      if String.eqb n n'
      then '(t, fp) ← reify h s v; '(t', fp') ← reify h rest r; Some (TField n t t', fp ∪ fp')
      else None
  | _, _ => None
  end.

(** ** Copying *)

(** [None] is a dangling reference. *)
Definition copier : Type := goval → heap → option (goval * heap).

Definition alloc (c : cell) (h : heap) : goval * heap :=
  let l := fresh (dom h) in (VRef l, <[l := c]> h).

(** The assignment that every function starts with. *)
Definition assign : copier := λ v h, Some (v, h).

(** A field that is a pointer: nil stays nil, otherwise a new variable is
    made and the function of the type copies into it. *)
Definition copy_ptr (c : copier) : copier := λ v h,
  match v with
  | VRef l =>
      match h !! l with
      | Some (CVar x) => '(x', h1) ← c x h; Some (alloc (CVar x') h1)
      | _ => None
      end
  | _ => Some (v, h)
  end.

Fixpoint copy_all (c : copier) (vs : list goval) (h : heap) : option (list goval * heap) :=
  match vs with
  | [] => Some ([], h)
  | v :: rest => '(v', h1) ← c v h; '(vs', h2) ← copy_all c rest h1; Some (v' :: vs', h2)
  end.

(** [make] and a loop, or [copy], over the elements. *)
Definition copy_slice (c : copier) : copier := λ v h,
  match v with
  | VRef l =>
      match h !! l with
      | Some (CArray xs) => '(xs', h1) ← copy_all c xs h; Some (alloc (CArray xs') h1)
      | _ => None
      end
  | _ => Some (v, h)
  end.

Definition copy_map (c : copier) : copier := λ v h,
  match v with
  | VRef l =>
      match h !! l with
      | Some (CMap kvs) =>
          '(xs', h1) ← copy_all c (map snd kvs) h; Some (alloc (CMap (zip (map fst kvs) xs')) h1)
      | _ => None
      end
  | _ => Some (v, h)
  end.

(** A struct: the fields that the function names are copied its way, the
    others by the assignment of the struct. *)
Definition copier_for (cs : list (string * copier)) (name : string) : copier :=
  match find (λ nc, String.eqb nc.1 name) cs with Some nc => nc.2 | None => assign end.

Fixpoint copy_struct (cs : list (string * copier)) (v : goval) (h : heap) : option (goval * heap) :=
  match v with
  | VField n x rest =>
      '(x', h1) ← copier_for cs n x h; '(rest', h2) ← copy_struct cs rest h1;
      Some (VField n x' rest', h2)
  | _ => Some (v, h)
  end.

(** [DeepCopy] of a type: nil, or a new variable that is copied into. *)
Definition DeepCopy (into : copier) : copier := copy_ptr into.

(** ** Lemmas *)

Lemma read_all_frame f g vs ts fp :
  (∀ v t fp', f v = Some (t, fp') → fp' ⊆ fp → g v = Some (t, fp')) →
  read_all f vs = Some (ts, fp) → read_all g vs = Some (ts, fp).
Proof.
  intros Hfg. assert (∀ fp0 ts, fp0 ⊆ fp → read_all f vs = Some (ts, fp0) → read_all g vs = Some (ts, fp0)) as H.
  { induction vs as [|v vs IH]; intros fp0 ts0 Hsub Hr; cbn in *; [done|].
    destruct (f v) as [[t fp1]|] eqn:E1; [|done]. cbn in Hr.
    destruct (read_all f vs) as [[ts1 fps]|] eqn:E2; [|done]. cbn in Hr. injection Hr as <- <-.
    rewrite (Hfg _ _ _ E1) by set_solver. cbn. by rewrite (IH fps ts1) by set_solver. }
  by apply H.
Qed.

(** Reading depends on what it visits only. *)
Lemma reify_frame s : ∀ h h' v t fp,
  reify h s v = Some (t, fp) → (∀ l, l ∈ fp → h' !! l = h !! l) → reify h' s v = Some (t, fp).
Proof.
  induction s as [| | |s IH|s IH|s IH| |n s IH rest IHr]; intros h h' v t fp H Hl;
    destruct v as [z|x|b| |l| |n' v r]; cbn in H |- *; try done.
  - destruct (h !! l) as [[x| |]|] eqn:E; try done.
    destruct (reify h s x) as [[t0 fp0]|] eqn:Er; [|done]. cbn in H. injection H as <- <-.
    rewrite Hl, E by set_solver. by rewrite (IH _ h' _ _ _ Er) by set_solver.
  - destruct (h !! l) as [[|xs|]|] eqn:E; try done.
    destruct (read_all _ xs) as [[ts fp0]|] eqn:Er; [|done]. cbn in H. injection H as <- <-.
    rewrite Hl, E by set_solver. rewrite (read_all_frame _ (reify h' s) _ _ _) with (2 := Er); [done|].
    intros v t fp' Hv Hsub. apply (IH h); [done|]. set_solver.
  - destruct (h !! l) as [[| |kvs]|] eqn:E; try done.
    destruct (read_all _ _) as [[ts fp0]|] eqn:Er; [|done]. cbn in H. injection H as <- <-.
    rewrite Hl, E by set_solver. rewrite (read_all_frame _ (reify h' s) _ _ _) with (2 := Er); [done|].
    intros v t fp' Hv Hsub. apply (IH h); [done|]. set_solver.
  - destruct (String.eqb n n'); [|done].
    destruct (reify h s v) as [[t1 fp1]|] eqn:E1; [|done]. cbn in H.
    destruct (reify h rest r) as [[t2 fp2]|] eqn:E2; [|done]. cbn in H. injection H as <- <-.
    rewrite (IH _ h' _ _ _ E1) by set_solver. cbn. by rewrite (IHr _ h' _ _ _ E2) by set_solver.
Qed.

Lemma read_all_dom (f : goval → option (tree * gset loc)) (D : gset loc) vs ts fp :
  (∀ v t fp', f v = Some (t, fp') → fp' ⊆ D) → read_all f vs = Some (ts, fp) → fp ⊆ D.
Proof.
  intros Hf. revert ts fp. induction vs as [|v vs IH]; intros ts fp H; cbn in H.
  - injection H as _ <-. set_solver.
  - destruct (f v) as [[t fp1]|] eqn:E1; [|done]. cbn in H.
    destruct (read_all f vs) as [[ts1 fps]|] eqn:E2; [|done]. cbn in H. injection H as _ <-.
    apply Hf in E1. pose proof (IH _ _ eq_refl). set_solver.
Qed.

Lemma reify_dom h s : ∀ v t fp, reify h s v = Some (t, fp) → fp ⊆ dom h.
Proof.
  induction s as [| | |s IH|s IH|s IH| |n s IH rest IHr]; intros v t fp H;
    destruct v as [z|x|b| |l| |n' v r]; cbn in H; try done;
    try (injection H as _ <-; set_solver).
  - destruct (h !! l) as [[x| |]|] eqn:E; try done. apply elem_of_dom_2 in E.
    destruct (reify h s x) as [[t0 fp0]|] eqn:Er; [|done]. injection H as _ <-.
    apply IH in Er. set_solver.
  - destruct (h !! l) as [[|xs|]|] eqn:E; try done. apply elem_of_dom_2 in E.
    destruct (read_all _ xs) as [[ts fp0]|] eqn:Er; [|done]. injection H as _ <-.
    apply (read_all_dom _ (dom h)) in Er; [|done]. set_solver.
  - destruct (h !! l) as [[| |kvs]|] eqn:E; try done. apply elem_of_dom_2 in E.
    destruct (read_all _ _) as [[ts fp0]|] eqn:Er; [|done]. injection H as _ <-.
    apply (read_all_dom _ (dom h)) in Er; [|done]. set_solver.
  - destruct (String.eqb n n'); [|done].
    destruct (reify h s v) as [[t1 fp1]|] eqn:E1; [|done]. cbn in H.
    destruct (reify h rest r) as [[t2 fp2]|] eqn:E2; [|done]. cbn in H. injection H as _ <-.
    apply IH in E1. apply IHr in E2. set_solver.
Qed.

(** Allocation changes nothing that is there. *)
Lemma reify_grow h h' s v t fp : h ⊆ h' → reify h s v = Some (t, fp) → reify h' s v = Some (t, fp).
Proof.
  intros Hsub H. eapply reify_frame; [exact H|]. intros l Hl.
  apply (reify_dom _ _ _ _ _ H) in Hl. apply elem_of_dom in Hl as [c Hc].
  rewrite Hc. by eapply lookup_weaken.
Qed.

Lemma read_all_grow h h' s vs ts fp :
  h ⊆ h' → read_all (reify h s) vs = Some (ts, fp) → read_all (reify h' s) vs = Some (ts, fp).
Proof. intros Hsub. apply read_all_frame. intros v t fp' H _. by eapply reify_grow. Qed.

(** ** Copiers that copy *)

(** [c] copies values of type [s]: it runs on every one of them, allocates
    only, and what it returns reads the same and visits new memory only. *)
Definition copies (s : shape) (c : copier) : Prop := ∀ h v t fp,
  reify h s v = Some (t, fp) →
  ∃ v' h' fp', c v h = Some (v', h') ∧ h ⊆ h' ∧ reify h' s v' = Some (t, fp') ∧ fp' ## dom h.

(** Types without references. *)
Fixpoint plain (s : shape) : bool :=
  match s with
  | SInt | SString | SBool | SEnd => true
  | SPtr _ | SSlice _ | SMap _ => false
  | SField _ s rest => plain s && plain rest
  end.

Lemma reify_plain h s : plain s = true → ∀ v t fp, reify h s v = Some (t, fp) → fp = ∅.
Proof.
  induction s as [| | |s IH|s IH|s IH| |n s IH rest IHr]; cbn; intros Hp v t fp H; try done;
    destruct v as [z|x|b| |l| |n' v r]; cbn in H; try done; try (by injection H as _ <-).
  apply andb_true_iff in Hp as [Hp Hr]. destruct (String.eqb n n'); [|done].
  destruct (reify h s v) as [[t1 fp1]|] eqn:E1; [|done]. cbn in H.
  destruct (reify h rest r) as [[t2 fp2]|] eqn:E2; [|done]. cbn in H. injection H as _ <-.
  rewrite (IH Hp _ _ _ E1), (IHr Hr _ _ _ E2). set_solver.
Qed.

Lemma copies_assign s : plain s = true → copies s assign.
Proof.
  intros Hp h v t fp H. exists v, h, fp. split; [done|]. split; [done|]. split; [done|].
  rewrite (reify_plain _ _ Hp _ _ _ H). set_solver.
Qed.

Lemma alloc_grows c h v h' :
  alloc c h = (v, h') → ∃ l, v = VRef l ∧ (l ∉ dom h) ∧ h' = <[l := c]> h ∧ h ⊆ h'.
Proof.
  unfold alloc. intros [= <- <-]. pose proof (is_fresh (dom h)) as Hf.
  eexists. split; [done|]. split; [done|]. split; [done|].
  apply insert_subseteq. by apply not_elem_of_dom.
Qed.

(** The allocation that ends the copy of a reference. *)
Ltac new_cell h l Hs :=
  let v := fresh in let h' := fresh in let Ha := fresh in
  destruct (alloc _ h) as [v h'] eqn:Ha;
  destruct (alloc_grows _ _ _ _ Ha) as (l & -> & ? & -> & Hs).

Lemma copies_all s c xs : copies s c → ∀ h ts fp,
  read_all (reify h s) xs = Some (ts, fp) →
  ∃ xs' h' fp', copy_all c xs h = Some (xs', h') ∧ h ⊆ h' ∧
    read_all (reify h' s) xs' = Some (ts, fp') ∧ fp' ## dom h ∧ length xs' = length xs.
Proof.
  intros Hc. induction xs as [|x xs IH]; intros h ts fp H; cbn in H |- *.
  { injection H as <- <-. exists [], h, ∅. set_solver. }
  destruct (reify h s x) as [[t fp1]|] eqn:E1; [|done]. cbn in H.
  destruct (read_all (reify h s) xs) as [[ts1 fps]|] eqn:E2; [|done]. cbn in H. injection H as <- <-.
  destruct (Hc _ _ _ _ E1) as (x' & h1 & fp1' & -> & Hs1 & Hr1 & Hd1). cbn.
  destruct (IH h1 ts1 fps) as (xs' & h2 & fps' & -> & Hs2 & Hr2 & Hd2 & Hlen);
    [by eapply read_all_grow|].
  cbn. exists (x' :: xs'), h2, (fp1' ∪ fps'). split; [done|]. split; [by etrans|].
  split; [cbn; rewrite (reify_grow h1 h2 s x' t fp1' Hs2 Hr1); cbn; by rewrite Hr2|].
  split; [|cbn; by rewrite Hlen]. apply subseteq_dom in Hs1. set_solver.
Qed.

Lemma copies_ptr s c : copies s c → copies (SPtr s) (copy_ptr c).
Proof.
  intros Hc h v t fp H. destruct v as [z|x|b| |l| |n' v r]; cbn in H |- *; try done.
  { injection H as <- <-. exists VNil, h, ∅. set_solver. }
  destruct (h !! l) as [[x| |]|]; try done.
  destruct (reify h s x) as [[t0 fp0]|] eqn:Er; [|done]. cbn in H. injection H as <- <-.
  destruct (Hc _ _ _ _ Er) as (x' & h1 & fp' & -> & Hs & Hr & Hd). cbn.
  new_cell h1 l' Hs2.
  eexists _, _, ({[l']} ∪ fp'). split; [done|]. split; [by etrans|].
  split; [cbn; rewrite lookup_insert_eq; by rewrite (reify_grow _ _ _ _ _ _ Hs2 Hr)|].
  apply subseteq_dom in Hs. set_solver.
Qed.

Lemma copies_slice s c : copies s c → copies (SSlice s) (copy_slice c).
Proof.
  intros Hc h v t fp H. destruct v as [z|x|b| |l| |n' v r]; cbn in H |- *; try done.
  { injection H as <- <-. exists VNil, h, ∅. set_solver. }
  destruct (h !! l) as [[|xs|]|]; try done.
  destruct (read_all (reify h s) xs) as [[ts fp0]|] eqn:Er; [|done]. cbn in H. injection H as <- <-.
  destruct (copies_all _ _ _ Hc _ _ _ Er) as (xs' & h1 & fp' & -> & Hs & Hr & Hd & _). cbn.
  new_cell h1 l' Hs2.
  eexists _, _, ({[l']} ∪ fp'). split; [done|]. split; [by etrans|].
  split; [cbn; rewrite lookup_insert_eq; by rewrite (read_all_grow _ _ _ _ _ _ Hs2 Hr)|].
  apply subseteq_dom in Hs. set_solver.
Qed.

Lemma copies_map s c : copies s c → copies (SMap s) (copy_map c).
Proof.
  intros Hc h v t fp H. destruct v as [z|x|b| |l| |n' v r]; cbn in H |- *; try done.
  { injection H as <- <-. exists VNil, h, ∅. set_solver. }
  destruct (h !! l) as [[| |kvs]|]; try done.
  destruct (read_all (reify h s) _) as [[ts fp0]|] eqn:Er; [|done]. cbn in H. injection H as <- <-.
  destruct (copies_all _ _ _ Hc _ _ _ Er) as (xs' & h1 & fp' & -> & Hs & Hr & Hd & Hlen). cbn.
  new_cell h1 l' Hs2.
  rewrite length_map in Hlen.
  assert (map fst (zip (map fst kvs) xs') = map fst kvs) as E1
    by (apply fst_zip; rewrite length_map; lia).
  assert (map snd (zip (map fst kvs) xs') = xs') as E2
    by (apply snd_zip; rewrite length_map; lia).
  eexists _, _, ({[l']} ∪ fp'). split; [done|]. split; [by etrans|].
  split; [cbn; rewrite lookup_insert_eq, E1, E2; by rewrite (read_all_grow _ _ _ _ _ _ Hs2 Hr)|].
  apply subseteq_dom in Hs. set_solver.
Qed.

Lemma copies_end cs : copies SEnd (copy_struct cs).
Proof.
  intros h v t fp H. destruct v; try done. cbn in H. injection H as <- <-.
  exists VEnd, h, ∅. set_solver.
Qed.

Lemma copies_field cs n s rest :
  copies s (copier_for cs n) → copies rest (copy_struct cs) → copies (SField n s rest) (copy_struct cs).
Proof.
  intros Hc Hr h v t fp H. destruct v as [z|x|b| |l| |n' v r]; cbn in H |- *; try done.
  destruct (String.eqb n n') eqn:En; [|done]. apply String.eqb_eq in En. subst n'.
  destruct (reify h s v) as [[t1 fp1]|] eqn:E1; [|done]. cbn in H.
  destruct (reify h rest r) as [[t2 fp2]|] eqn:E2; [|done]. cbn in H. injection H as <- <-.
  destruct (Hc _ _ _ _ E1) as (v' & h1 & fp1' & -> & Hs1 & Hr1 & Hd1). cbn.
  destruct (Hr h1 r t2 fp2) as (r' & h2 & fp2' & -> & Hs2 & Hr2 & Hd2); [by eapply reify_grow|].
  cbn. exists (VField n v' r'), h2, (fp1' ∪ fp2'). split; [done|]. split; [by etrans|].
  split; [cbn; rewrite String.eqb_refl, (reify_grow _ _ _ _ _ _ Hs2 Hr1); cbn; by rewrite Hr2|].
  apply subseteq_dom in Hs1. set_solver.
Qed.

(** ** The types and their functions *)

Definition strings : shape := SSlice SString.
Definition copy_strings : copier := copy_slice assign.

(** *** k8s.io/apimachinery and k8s.io/api *)

Definition TypeMeta : shape := SStruct [("Kind", SString); ("APIVersion", SString)].

Definition OwnerReference : shape := SStruct
  [("APIVersion", SString); ("Kind", SString); ("Name", SString); ("UID", SString);
   ("Controller", SPtr SBool); ("BlockOwnerDeletion", SPtr SBool)].
Definition OwnerReference_DeepCopyInto : copier := copy_struct
  [("Controller", copy_ptr assign); ("BlockOwnerDeletion", copy_ptr assign)].

Definition FieldsV1 : shape := SStruct [("Raw", SSlice SInt)].
Definition FieldsV1_DeepCopyInto : copier := copy_struct [("Raw", copy_slice assign)].

Definition ManagedFieldsEntry : shape := SStruct
  [("Manager", SString); ("Operation", SString); ("APIVersion", SString); ("Time", SPtr STime);
   ("FieldsType", SString); ("FieldsV1", SPtr FieldsV1); ("Subresource", SString)].
Definition ManagedFieldsEntry_DeepCopyInto : copier := copy_struct
  [("Time", copy_ptr assign); ("FieldsV1", copy_ptr FieldsV1_DeepCopyInto)].

Definition ObjectMeta : shape := SStruct
  [("Name", SString); ("GenerateName", SString); ("Namespace", SString); ("SelfLink", SString);
   ("UID", SString); ("ResourceVersion", SString); ("Generation", SInt); ("CreationTimestamp", STime);
   ("DeletionTimestamp", SPtr STime); ("DeletionGracePeriodSeconds", SPtr SInt);
   ("Labels", SMap SString); ("Annotations", SMap SString);
   ("OwnerReferences", SSlice OwnerReference); ("Finalizers", strings);
   ("ManagedFields", SSlice ManagedFieldsEntry)].
Definition ObjectMeta_DeepCopyInto : copier := copy_struct
  [("CreationTimestamp", assign); ("DeletionTimestamp", copy_ptr assign);
   ("DeletionGracePeriodSeconds", copy_ptr assign); ("Labels", copy_map assign);
   ("Annotations", copy_map assign); ("OwnerReferences", copy_slice OwnerReference_DeepCopyInto);
   ("Finalizers", copy_strings); ("ManagedFields", copy_slice ManagedFieldsEntry_DeepCopyInto)].

Definition ListMeta : shape := SStruct
  [("SelfLink", SString); ("ResourceVersion", SString); ("Continue", SString);
   ("RemainingItemCount", SPtr SInt); ("ShardInfo", SPtr (SStruct [("Selector", SString)]))].
Definition ListMeta_DeepCopyInto : copier := copy_struct
  [("RemainingItemCount", copy_ptr assign); ("ShardInfo", copy_ptr assign)].

Definition Condition : shape := SStruct
  [("Type", SString); ("Status", SString); ("ObservedGeneration", SInt);
   ("LastTransitionTime", STime); ("Reason", SString); ("Message", SString)].
Definition Condition_DeepCopyInto : copier := copy_struct [("LastTransitionTime", assign)].

Definition Toleration : shape := SStruct
  [("Key", SString); ("Operator", SString); ("Value", SString); ("Effect", SString);
   ("TolerationSeconds", SPtr SInt)].
Definition Toleration_DeepCopyInto : copier := copy_struct [("TolerationSeconds", copy_ptr assign)].

(** *** proxy.open-cluster-management.io *)

Definition AnnotationVar : shape := SStruct [("Key", SString); ("Value", SString)].
Definition AnnotationVar_DeepCopyInto : copier := assign.

Definition AuthenticationSelfSigned : shape := SStruct [("AdditionalSANs", strings)].
Definition AuthenticationSelfSigned_DeepCopyInto : copier := copy_struct [("AdditionalSANs", copy_strings)].

Definition CertificateSigningSecrets : shape := SStruct
  [("SigningProxyServerSecretName", SString); ("SigningProxyClientSecretName", SString);
   ("SigningAgentServerSecretName", SString)].
Definition CertificateSigningSecrets_DeepCopyInto : copier := assign.

Definition EntryPointHostname : shape := SStruct [("Value", SString)].
Definition EntryPointHostname_DeepCopyInto : copier := assign.

Definition EntryPointLoadBalancerService : shape := SStruct
  [("Name", SString); ("Annotations", SSlice AnnotationVar)].
Definition EntryPointLoadBalancerService_DeepCopyInto : copier := copy_struct
  [("Annotations", copy_slice assign)].

Definition ManagedProxyConfigurationCertificateDump : shape := SStruct
  [("Secrets", CertificateSigningSecrets)].
Definition ManagedProxyConfigurationCertificateDump_DeepCopyInto : copier := copy_struct
  [("Secrets", assign)].

Definition ManagedProxyConfigurationCertificateSigner : shape := SStruct
  [("Type", SString); ("SelfSigned", SPtr AuthenticationSelfSigned)].
Definition ManagedProxyConfigurationCertificateSigner_DeepCopyInto : copier := copy_struct
  [("SelfSigned", copy_ptr AuthenticationSelfSigned_DeepCopyInto)].

Definition ManagedProxyConfigurationAuthentication : shape := SStruct
  [("Signer", ManagedProxyConfigurationCertificateSigner);
   ("Dump", ManagedProxyConfigurationCertificateDump)].
Definition ManagedProxyConfigurationAuthentication_DeepCopyInto : copier := copy_struct
  [("Signer", ManagedProxyConfigurationCertificateSigner_DeepCopyInto); ("Dump", assign)].

Definition ManagedProxyConfigurationDeployPorts : shape := SStruct
  [("ProxyServer", SInt); ("AgentServer", SInt); ("HealthServer", SInt); ("AdminServer", SInt)].
Definition ManagedProxyConfigurationDeployPorts_DeepCopyInto : copier := assign.

Definition ManagedProxyConfigurationDeploy : shape := SStruct
  [("Ports", ManagedProxyConfigurationDeployPorts)].
Definition ManagedProxyConfigurationDeploy_DeepCopyInto : copier := copy_struct [("Ports", assign)].

Definition ManagedProxyConfigurationProxyAgent : shape := SStruct
  [("Image", SString); ("Replicas", SInt); ("AdditionalArgs", strings);
   ("AdditionalServiceProxyArgs", strings); ("ImagePullSecrets", strings);
   ("AdditionalServiceCAConfigMap", SString)].
Definition ManagedProxyConfigurationProxyAgent_DeepCopyInto : copier := copy_struct
  [("AdditionalArgs", copy_strings); ("AdditionalServiceProxyArgs", copy_strings);
   ("ImagePullSecrets", copy_strings)].

Definition NodePlacement : shape := SStruct
  [("NodeSelector", SMap SString); ("Tolerations", SSlice Toleration)].
Definition NodePlacement_DeepCopyInto : copier := copy_struct
  [("NodeSelector", copy_map assign); ("Tolerations", copy_slice Toleration_DeepCopyInto)].

Definition ManagedProxyConfigurationProxyServerEntrypoint : shape := SStruct
  [("Type", SString); ("LoadBalancerService", SPtr EntryPointLoadBalancerService);
   ("Hostname", SPtr EntryPointHostname); ("Port", SInt)].
Definition ManagedProxyConfigurationProxyServerEntrypoint_DeepCopyInto : copier := copy_struct
  [("LoadBalancerService", copy_ptr EntryPointLoadBalancerService_DeepCopyInto);
   ("Hostname", copy_ptr assign)].

Definition ManagedProxyConfigurationProxyServer : shape := SStruct
  [("Image", SString); ("Replicas", SInt); ("InClusterServiceName", SString); ("Namespace", SString);
   ("Entrypoint", SPtr ManagedProxyConfigurationProxyServerEntrypoint); ("AdditionalArgs", strings);
   ("NodePlacement", NodePlacement)].
Definition ManagedProxyConfigurationProxyServer_DeepCopyInto : copier := copy_struct
  [("Entrypoint", copy_ptr ManagedProxyConfigurationProxyServerEntrypoint_DeepCopyInto);
   ("AdditionalArgs", copy_strings); ("NodePlacement", NodePlacement_DeepCopyInto)].

Definition ManagedProxyConfigurationUserServer : shape := SStruct [("AdditionalSANs", strings)].
Definition ManagedProxyConfigurationUserServer_DeepCopyInto : copier := copy_struct
  [("AdditionalSANs", copy_strings)].

Definition ManagedProxyConfigurationSpec : shape := SStruct
  [("Authentication", ManagedProxyConfigurationAuthentication);
   ("ProxyServer", ManagedProxyConfigurationProxyServer);
   ("ProxyAgent", ManagedProxyConfigurationProxyAgent);
   ("Deploy", SPtr ManagedProxyConfigurationDeploy);
   ("UserServer", SPtr ManagedProxyConfigurationUserServer)].
Definition ManagedProxyConfigurationSpec_DeepCopyInto : copier := copy_struct
  [("Authentication", ManagedProxyConfigurationAuthentication_DeepCopyInto);
   ("ProxyServer", ManagedProxyConfigurationProxyServer_DeepCopyInto);
   ("ProxyAgent", ManagedProxyConfigurationProxyAgent_DeepCopyInto);
   ("Deploy", copy_ptr assign);
   ("UserServer", copy_ptr ManagedProxyConfigurationUserServer_DeepCopyInto)].

Definition ManagedProxyConfigurationStatus : shape := SStruct
  [("LastObservedGeneration", SInt); ("Conditions", SSlice Condition)].
Definition ManagedProxyConfigurationStatus_DeepCopyInto : copier := copy_struct
  [("Conditions", copy_slice Condition_DeepCopyInto)].

Definition ManagedProxyConfiguration : shape := SStruct
  [("TypeMeta", TypeMeta); ("ObjectMeta", ObjectMeta); ("Spec", ManagedProxyConfigurationSpec);
   ("Status", ManagedProxyConfigurationStatus)].
Definition ManagedProxyConfiguration_DeepCopyInto : copier := copy_struct
  [("TypeMeta", assign); ("ObjectMeta", ObjectMeta_DeepCopyInto);
   ("Spec", ManagedProxyConfigurationSpec_DeepCopyInto);
   ("Status", ManagedProxyConfigurationStatus_DeepCopyInto)].

Definition ManagedProxyConfigurationList : shape := SStruct
  [("TypeMeta", TypeMeta); ("ListMeta", ListMeta); ("Items", SSlice ManagedProxyConfiguration)].
Definition ManagedProxyConfigurationList_DeepCopyInto : copier := copy_struct
  [("TypeMeta", assign); ("ListMeta", ListMeta_DeepCopyInto);
   ("Items", copy_slice ManagedProxyConfiguration_DeepCopyInto)].

(** *** The copies into new variables *)

Definition AnnotationVar_DeepCopy : copier := DeepCopy AnnotationVar_DeepCopyInto.
Definition AuthenticationSelfSigned_DeepCopy : copier := DeepCopy AuthenticationSelfSigned_DeepCopyInto.
Definition CertificateSigningSecrets_DeepCopy : copier := DeepCopy CertificateSigningSecrets_DeepCopyInto.
Definition EntryPointHostname_DeepCopy : copier := DeepCopy EntryPointHostname_DeepCopyInto.
Definition EntryPointLoadBalancerService_DeepCopy : copier := DeepCopy EntryPointLoadBalancerService_DeepCopyInto.
Definition ManagedProxyConfiguration_DeepCopy : copier := DeepCopy ManagedProxyConfiguration_DeepCopyInto.
Definition ManagedProxyConfigurationAuthentication_DeepCopy : copier := DeepCopy ManagedProxyConfigurationAuthentication_DeepCopyInto.
Definition ManagedProxyConfigurationCertificateDump_DeepCopy : copier := DeepCopy ManagedProxyConfigurationCertificateDump_DeepCopyInto.
Definition ManagedProxyConfigurationCertificateSigner_DeepCopy : copier := DeepCopy ManagedProxyConfigurationCertificateSigner_DeepCopyInto.
Definition ManagedProxyConfigurationDeploy_DeepCopy : copier := DeepCopy ManagedProxyConfigurationDeploy_DeepCopyInto.
Definition ManagedProxyConfigurationDeployPorts_DeepCopy : copier := DeepCopy ManagedProxyConfigurationDeployPorts_DeepCopyInto.
Definition ManagedProxyConfigurationList_DeepCopy : copier := DeepCopy ManagedProxyConfigurationList_DeepCopyInto.
Definition ManagedProxyConfigurationProxyAgent_DeepCopy : copier := DeepCopy ManagedProxyConfigurationProxyAgent_DeepCopyInto.
Definition ManagedProxyConfigurationProxyServer_DeepCopy : copier := DeepCopy ManagedProxyConfigurationProxyServer_DeepCopyInto.
Definition ManagedProxyConfigurationProxyServerEntrypoint_DeepCopy : copier := DeepCopy ManagedProxyConfigurationProxyServerEntrypoint_DeepCopyInto.
Definition ManagedProxyConfigurationSpec_DeepCopy : copier := DeepCopy ManagedProxyConfigurationSpec_DeepCopyInto.
Definition ManagedProxyConfigurationStatus_DeepCopy : copier := DeepCopy ManagedProxyConfigurationStatus_DeepCopyInto.
Definition ManagedProxyConfigurationUserServer_DeepCopy : copier := DeepCopy ManagedProxyConfigurationUserServer_DeepCopyInto.
Definition NodePlacement_DeepCopy : copier := DeepCopy NodePlacement_DeepCopyInto.

(** The copy as a [runtime.Object]; nil for nil. *)
Definition ManagedProxyConfiguration_DeepCopyObject : copier := ManagedProxyConfiguration_DeepCopy.
Definition ManagedProxyConfigurationList_DeepCopyObject : copier := ManagedProxyConfigurationList_DeepCopy.

(** The functions of the types, by the types. *)
Create HintDb deepcopy.

Ltac copies_struct :=
  intros; match goal with |- copies ?s ?c => unfold s, c end; cbn [SStruct fold_right fst snd];
  repeat (apply copies_field; [|]); try apply copies_end;
  cbn [copier_for find String.eqb Ascii.eqb Bool.eqb fst snd];
  auto 6 using copies_assign, copies_ptr, copies_slice, copies_map with deepcopy.

Lemma copies_strings : copies strings copy_strings.
Proof. by apply copies_slice, copies_assign. Qed.

Lemma copies_Time : copies STime assign.
Proof. by apply copies_assign. Qed.
#[export] Hint Resolve copies_strings copies_Time : deepcopy.

Lemma copies_OwnerReference : copies OwnerReference OwnerReference_DeepCopyInto.
Proof. copies_struct. Qed.
#[export] Hint Resolve copies_OwnerReference : deepcopy.

Lemma copies_FieldsV1 : copies FieldsV1 FieldsV1_DeepCopyInto.
Proof. copies_struct. Qed.
#[export] Hint Resolve copies_FieldsV1 : deepcopy.

Lemma copies_ManagedFieldsEntry : copies ManagedFieldsEntry ManagedFieldsEntry_DeepCopyInto.
Proof. copies_struct. Qed.
#[export] Hint Resolve copies_ManagedFieldsEntry : deepcopy.

Lemma copies_ObjectMeta : copies ObjectMeta ObjectMeta_DeepCopyInto.
Proof. copies_struct. Qed.
#[export] Hint Resolve copies_ObjectMeta : deepcopy.

Lemma copies_ListMeta : copies ListMeta ListMeta_DeepCopyInto.
Proof. copies_struct. Qed.
#[export] Hint Resolve copies_ListMeta : deepcopy.

Lemma copies_Condition : copies Condition Condition_DeepCopyInto.
Proof. copies_struct. Qed.
#[export] Hint Resolve copies_Condition : deepcopy.

Lemma copies_Toleration : copies Toleration Toleration_DeepCopyInto.
Proof. copies_struct. Qed.
#[export] Hint Resolve copies_Toleration : deepcopy.

Lemma copies_AnnotationVar : copies AnnotationVar AnnotationVar_DeepCopyInto.
Proof. by apply copies_assign. Qed.

Lemma copies_CertificateSigningSecrets : copies CertificateSigningSecrets CertificateSigningSecrets_DeepCopyInto.
Proof. by apply copies_assign. Qed.

Lemma copies_EntryPointHostname : copies EntryPointHostname EntryPointHostname_DeepCopyInto.
Proof. by apply copies_assign. Qed.

Lemma copies_ManagedProxyConfigurationDeployPorts : copies ManagedProxyConfigurationDeployPorts ManagedProxyConfigurationDeployPorts_DeepCopyInto.
Proof. by apply copies_assign. Qed.

Lemma copies_AuthenticationSelfSigned : copies AuthenticationSelfSigned AuthenticationSelfSigned_DeepCopyInto.
Proof. copies_struct. Qed.
#[export] Hint Resolve copies_AuthenticationSelfSigned : deepcopy.

Lemma copies_EntryPointLoadBalancerService : copies EntryPointLoadBalancerService EntryPointLoadBalancerService_DeepCopyInto.
Proof. copies_struct. Qed.
#[export] Hint Resolve copies_EntryPointLoadBalancerService : deepcopy.

Lemma copies_ManagedProxyConfigurationCertificateSigner : copies ManagedProxyConfigurationCertificateSigner ManagedProxyConfigurationCertificateSigner_DeepCopyInto.
Proof. copies_struct. Qed.
#[export] Hint Resolve copies_ManagedProxyConfigurationCertificateSigner : deepcopy.

Lemma copies_ManagedProxyConfigurationCertificateDump : copies ManagedProxyConfigurationCertificateDump ManagedProxyConfigurationCertificateDump_DeepCopyInto.
Proof. copies_struct. Qed.

Lemma copies_ManagedProxyConfigurationDeploy : copies ManagedProxyConfigurationDeploy ManagedProxyConfigurationDeploy_DeepCopyInto.
Proof. copies_struct. Qed.

Lemma copies_ManagedProxyConfigurationAuthentication : copies ManagedProxyConfigurationAuthentication ManagedProxyConfigurationAuthentication_DeepCopyInto.
Proof. copies_struct. Qed.
#[export] Hint Resolve copies_ManagedProxyConfigurationAuthentication : deepcopy.

Lemma copies_ManagedProxyConfigurationProxyAgent : copies ManagedProxyConfigurationProxyAgent ManagedProxyConfigurationProxyAgent_DeepCopyInto.
Proof. copies_struct. Qed.
#[export] Hint Resolve copies_ManagedProxyConfigurationProxyAgent : deepcopy.

Lemma copies_NodePlacement : copies NodePlacement NodePlacement_DeepCopyInto.
Proof. copies_struct. Qed.
#[export] Hint Resolve copies_NodePlacement : deepcopy.

Lemma copies_ManagedProxyConfigurationProxyServerEntrypoint : copies ManagedProxyConfigurationProxyServerEntrypoint ManagedProxyConfigurationProxyServerEntrypoint_DeepCopyInto.
Proof. copies_struct. Qed.
#[export] Hint Resolve copies_ManagedProxyConfigurationProxyServerEntrypoint : deepcopy.

Lemma copies_ManagedProxyConfigurationProxyServer : copies ManagedProxyConfigurationProxyServer ManagedProxyConfigurationProxyServer_DeepCopyInto.
Proof. copies_struct. Qed.
#[export] Hint Resolve copies_ManagedProxyConfigurationProxyServer : deepcopy.

Lemma copies_ManagedProxyConfigurationUserServer : copies ManagedProxyConfigurationUserServer ManagedProxyConfigurationUserServer_DeepCopyInto.
Proof. copies_struct. Qed.
#[export] Hint Resolve copies_ManagedProxyConfigurationUserServer : deepcopy.

Lemma copies_ManagedProxyConfigurationSpec : copies ManagedProxyConfigurationSpec ManagedProxyConfigurationSpec_DeepCopyInto.
Proof. copies_struct. Qed.
#[export] Hint Resolve copies_ManagedProxyConfigurationSpec : deepcopy.

Lemma copies_ManagedProxyConfigurationStatus : copies ManagedProxyConfigurationStatus ManagedProxyConfigurationStatus_DeepCopyInto.
Proof. copies_struct. Qed.
#[export] Hint Resolve copies_ManagedProxyConfigurationStatus : deepcopy.

Lemma copies_ManagedProxyConfiguration : copies ManagedProxyConfiguration ManagedProxyConfiguration_DeepCopyInto.
Proof. copies_struct. Qed.
#[export] Hint Resolve copies_ManagedProxyConfiguration : deepcopy.

Lemma copies_ManagedProxyConfigurationList : copies ManagedProxyConfigurationList ManagedProxyConfigurationList_DeepCopyInto.
Proof. copies_struct. Qed.
#[export] Hint Resolve copies_ManagedProxyConfigurationList : deepcopy.

(** A copy shares nothing: writes that stay within what one of the two
    visits do not show in the other. *)
Lemma copy_independent s c h v t fp :
  copies s c → reify h s v = Some (t, fp) →
  ∃ v' h' fp', c v h = Some (v', h') ∧ reify h' s v' = Some (t, fp') ∧ fp ## fp' ∧
    (∀ h2, (∀ l, l ∉ fp' → h2 !! l = h' !! l) → reify h2 s v = Some (t, fp)) ∧
    (∀ h2, (∀ l, l ∉ fp → h2 !! l = h' !! l) → reify h2 s v' = Some (t, fp')).
Proof.
  intros Hc Hr. destruct (Hc _ _ _ _ Hr) as (v' & h' & fp' & Hv & Hs & Hr' & Hd).
  pose proof (reify_dom _ _ _ _ _ Hr) as Hfp. assert (fp ## fp') as Hdis by set_solver.
  exists v', h', fp'. split; [done|]. split; [done|]. split; [done|]. split; intros h2 H2.
  - eapply reify_frame; [exact (reify_grow _ _ _ _ _ _ Hs Hr)|]. intros l Hl. apply H2. set_solver.
  - eapply reify_frame; [exact Hr'|]. intros l Hl. apply H2. set_solver.
Qed.

(** ** Properties *)

(** C38: a deep copy of a configuration, or of a list of them, through a
    pointer, always succeeds, reads exactly as the original, and is
    independent of it: no write into the memory of the copy, at any depth,
    can be seen through the original, and none into the original's through
    the copy. *)
Theorem deep_copies_are_independent h p t fp :
  (reify h (SPtr ManagedProxyConfiguration) p = Some (t, fp) →
   ∃ p' h' fp', ManagedProxyConfiguration_DeepCopy p h = Some (p', h') ∧
     reify h' (SPtr ManagedProxyConfiguration) p' = Some (t, fp') ∧ fp ## fp' ∧
     (∀ h2, (∀ l, l ∉ fp' → h2 !! l = h' !! l) →
            reify h2 (SPtr ManagedProxyConfiguration) p = Some (t, fp)) ∧
     (∀ h2, (∀ l, l ∉ fp → h2 !! l = h' !! l) →
            reify h2 (SPtr ManagedProxyConfiguration) p' = Some (t, fp'))) ∧
  (reify h (SPtr ManagedProxyConfigurationList) p = Some (t, fp) →
   ∃ p' h' fp', ManagedProxyConfigurationList_DeepCopy p h = Some (p', h') ∧
     reify h' (SPtr ManagedProxyConfigurationList) p' = Some (t, fp') ∧ fp ## fp' ∧
     (∀ h2, (∀ l, l ∉ fp' → h2 !! l = h' !! l) →
            reify h2 (SPtr ManagedProxyConfigurationList) p = Some (t, fp)) ∧
     (∀ h2, (∀ l, l ∉ fp → h2 !! l = h' !! l) →
            reify h2 (SPtr ManagedProxyConfigurationList) p' = Some (t, fp'))).
Proof. split; apply copy_independent, copies_ptr; auto with deepcopy. Qed.

(** ** A concrete memory *)

Definition sample_spec : goval := struct
  [("Authentication", struct
      [("Signer", struct [("Type", VString "SelfSigned"); ("SelfSigned", VNil)]);
       ("Dump", struct [("Secrets", struct
          [("SigningProxyServerSecretName", VString "a"); ("SigningProxyClientSecretName", VString "b");
           ("SigningAgentServerSecretName", VString "c")])])]);
   ("ProxyServer", struct
      [("Image", VString "img"); ("Replicas", VInt 3); ("InClusterServiceName", VString "e");
       ("Namespace", VString "ns"); ("Entrypoint", VRef 1); ("AdditionalArgs", VRef 2);
       ("NodePlacement", struct [("NodeSelector", VRef 3); ("Tolerations", VNil)])]);
   ("ProxyAgent", struct
      [("Image", VString "img"); ("Replicas", VInt 1); ("AdditionalArgs", VRef 2);
       ("AdditionalServiceProxyArgs", VNil); ("ImagePullSecrets", VNil);
       ("AdditionalServiceCAConfigMap", VString "")]);
   ("Deploy", VNil); ("UserServer", VNil)].

Definition sample_object : goval := struct
  [("TypeMeta", struct [("Kind", VString "ManagedProxyConfiguration"); ("APIVersion", VString "v1alpha1")]);
   ("ObjectMeta", struct
      [("Name", VString "cluster-proxy"); ("GenerateName", VString ""); ("Namespace", VString "");
       ("SelfLink", VString ""); ("UID", VString "uid"); ("ResourceVersion", VString "1");
       ("Generation", VInt 2); ("CreationTimestamp", VInt 7); ("DeletionTimestamp", VNil);
       ("DeletionGracePeriodSeconds", VNil); ("Labels", VNil); ("Annotations", VNil);
       ("OwnerReferences", VNil); ("Finalizers", VNil); ("ManagedFields", VNil)]);
   ("Spec", sample_spec);
   ("Status", struct [("LastObservedGeneration", VInt 0); ("Conditions", VNil)])].

(** Two fields of the original share an array. *)
Definition sample_heap : heap := list_to_map
  [(0%nat, CVar sample_object);
   (1%nat, CVar (struct [("Type", VString "PortForward"); ("LoadBalancerService", VNil); ("Hostname", VNil);
                         ("Port", VInt 8091)]));
   (2%nat, CArray [VString "--v=2"]);
   (3%nat, CMap [("node", VString "infra")])].

Definition sample_read : tree * gset loc :=
  default (TNil, ∅) (reify sample_heap (SPtr ManagedProxyConfiguration) (VRef 0)).

Lemma deep_copies_are_independent_witness :
  ∃ p' h' fp', ManagedProxyConfiguration_DeepCopy (VRef 0) sample_heap = Some (p', h') ∧
    reify h' (SPtr ManagedProxyConfiguration) p' = Some (sample_read.1, fp') ∧ sample_read.2 ## fp'.
Proof.
  destruct (deep_copies_are_independent sample_heap (VRef 0) sample_read.1 sample_read.2) as [H _].
  destruct H as (p' & h' & fp' & H1 & H2 & H3 & _); [vm_compute; reflexivity|].
  exists p', h', fp'. split; [exact H1|]. split; [exact H2|exact H3].
Defined.
