(* ===== verification/StatusCopy.v ===== *)
(** * The status is edited on copies (refreshStatus, in memory)

    [Controller.refreshStatus] treats a status as a value.  The code edits
    memory: it clears the times of the conditions of one copy in a loop, and
    passes a pointer to the conditions of another to
    [meta.SetStatusCondition], which edits an element or appends.  Here the
    two edits are written on the memory of [DeepCopy], and shown to compute
    the values of [Controller] without touching the object they came from. *)

From S2P Require Import Prelude Manifests Api Controller DeepCopy.

Local Open Scope string_scope.

(** ** Representation *)

Definition status_string (b : bool) : string := if b then "True" else "False".
Definition time_val (t : option Z) : goval := VInt (default 0%Z t).

(** A condition of the controller in memory; it sets no observed
    generation. *)
Definition condition_val (c : Manifests.Condition) : goval := struct
  [("Type", VString (c_type c)); ("Status", VString (status_string (c_status c)));
   ("ObservedGeneration", VInt 0); ("LastTransitionTime", time_val (c_lastTransition c));
   ("Reason", VString (c_reason c)); ("Message", VString (c_message c))].

Definition status_val (generation : Z) (conditions : goval) : goval := struct
  [("LastObservedGeneration", VInt generation); ("Conditions", conditions)].

(** [v] is the status [st] in memory, in the array of [fp]. *)
Definition holds_status (h : heap) (v : goval) (st : Status) (fp : gset loc) : Prop :=
  ∃ r, v = status_val (LastObservedGeneration st) r ∧
  ((r = VNil ∧ Conditions st = [] ∧ fp = ∅) ∨
   ∃ l, r = VRef l ∧ fp = {[l]} ∧ h !! l = Some (CArray (map condition_val (Conditions st)))).

(** ** The edits *)

Fixpoint get_field (name : string) (v : goval) : option goval :=
  match v with
  | VField n x rest => if String.eqb n name then Some x else get_field name rest
  | _ => None
  end.

Fixpoint set_field (name : string) (x : goval) (v : goval) : goval :=
  match v with
  | VField n y rest => if String.eqb n name then VField n x rest else VField n y (set_field name x rest)
  | _ => v
  end.

(** [for i := range s.Conditions { s.Conditions[i].LastTransitionTime = metav1.Time{} }]. *)
Definition clear_times (v : goval) (h : heap) : option heap :=
  match get_field "Conditions" v with
  | Some VNil => Some h
  | Some (VRef l) =>
      match h !! l with
      | Some (CArray xs) =>
          Some (<[l := CArray (map (set_field "LastTransitionTime" (VInt 0)) xs)]> h)
      | _ => None
      end
  | _ => None
  end.

(** The element that [SetStatusCondition] edits: the index of the type. *)
Fixpoint find_index (ty : string) (xs : list goval) : option nat :=
  match xs with
  | [] => None
  | x :: rest =>
      match get_field "Type" x with
      | Some (VString t) => if String.eqb t ty then Some 0%nat else S <$> find_index ty rest
      | _ => S <$> find_index ty rest
      end
  end.

(** The fields that it writes into the element it found. *)
Definition edit_element (now : Z) (new : Manifests.Condition) (x : goval) : goval :=
  let status := VString (status_string (c_status new)) in
  let x := match get_field "Status" x with
           | Some (VString s) =>
               if String.eqb s (status_string (c_status new)) then x
               else set_field "LastTransitionTime" (VInt (default now (c_lastTransition new)))
                      (set_field "Status" status x)
           | _ => x
           end in
  set_field "ObservedGeneration" (VInt 0)
    (set_field "Message" (VString (c_message new)) (set_field "Reason" (VString (c_reason new)) x)).

(** [append] on a slice without spare capacity moves to a new array. *)
Definition set_condition (now : Z) (new : Manifests.Condition) (v : goval) (h : heap)
  : option (goval * heap) :=
  let added := condition_val (MkCondition (c_type new) (c_status new) (c_reason new) (c_message new)
                                (Some (default now (c_lastTransition new)))) in
  match get_field "Conditions" v with
  | Some VNil => let '(r, h1) := alloc (CArray [added]) h in Some (set_field "Conditions" r v, h1)
  | Some (VRef l) =>
      match h !! l with
      | Some (CArray xs) =>
          match find_index (c_type new) xs with
          | Some i => Some (v, <[l := CArray (alter (edit_element now new) i xs)]> h)
          | None => let '(r, h1) := alloc (CArray (xs ++ [added])%list) h in
                    Some (set_field "Conditions" r v, h1)
          end
      | _ => None
      end
  | _ => None
  end.

(** The loop over the expected conditions. *)
Fixpoint set_conditions (now : Z) (news : list Manifests.Condition) (v : goval) (h : heap)
  : option (goval * heap) :=
  match news with
  | [] => Some (v, h)
  | new :: rest => '(v1, h1) ← set_condition now new v h; set_conditions now rest v1 h1
  end.

(** ** Lemmas *)

Lemma holds_status_frame h h' v st fp :
  holds_status h v st fp → (∀ l, l ∈ fp → h' !! l = h !! l) → holds_status h' v st fp.
Proof.
  intros (r & Hv & [Hn|(l & Hr & Hfp & Hl)]) H; exists r; (split; [done|]).
  - by left.
  - right. exists l. split; [done|]. split; [done|]. rewrite H; [done|]. set_solver.
Qed.

Lemma holds_status_dom h v st fp : holds_status h v st fp → fp ⊆ dom h.
Proof.
  intros (r & Hv & [(_ & _ & ->)|(l & Hr & -> & Hl)]); [set_solver|].
  apply elem_of_dom_2 in Hl. set_solver.
Qed.

(** Copying a condition is copying its fields. *)
Lemma copy_conditions cs h :
  copy_all Condition_DeepCopyInto (map condition_val cs) h = Some (map condition_val cs, h).
Proof.
  induction cs as [|c cs IH]; [done|]. cbn [map copy_all].
  change (Condition_DeepCopyInto (condition_val c) h) with (Some (condition_val c, h)).
  cbn. by rewrite IH.
Qed.

(** A copy of a status, in new memory. *)
Lemma copy_status h v st fp :
  holds_status h v st fp →
  ∃ v' h' fp', ManagedProxyConfigurationStatus_DeepCopyInto v h = Some (v', h') ∧
    h ⊆ h' ∧ holds_status h' v' st fp' ∧ fp' ## dom h.
Proof.
  intros (r & -> & [(-> & Hc & ->)|(l & -> & -> & Hl)]).
  - exists (status_val (LastObservedGeneration st) VNil), h, ∅. split; [done|]. split; [done|].
    split; [|set_solver]. exists VNil. split; [done|]. by left.
  - destruct (alloc (CArray (map condition_val (Conditions st))) h) as [r' h'] eqn:Ha.
    exists (status_val (LastObservedGeneration st) r'), h'.
    assert (ManagedProxyConfigurationStatus_DeepCopyInto
              (status_val (LastObservedGeneration st) (VRef l)) h
            = Some (status_val (LastObservedGeneration st) r', h')) as E.
    { unfold ManagedProxyConfigurationStatus_DeepCopyInto, status_val, struct.
      cbn [fold_right fst snd copy_struct copier_for find String.eqb Ascii.eqb Bool.eqb].
      unfold assign, copy_slice. cbn -[alloc copy_all]. rewrite Hl. cbn -[alloc copy_all].
      rewrite copy_conditions. cbn -[alloc]. by rewrite Ha. }
    destruct (alloc_grows _ _ _ _ Ha) as (l' & -> & Hf & -> & Hs).
    exists {[l']}. split; [exact E|]. split; [done|]. split; [|set_solver].
    exists (VRef l'). split; [done|]. right. exists l'. split; [done|]. split; [done|].
    by rewrite lookup_insert_eq.
Qed.

(** The loop over the times computes [clear_time], in the array it is given. *)
Lemma clear_times_spec h v st fp :
  holds_status h v st fp →
  ∃ h', clear_times v h = Some h' ∧
    holds_status h' v (MkStatus (LastObservedGeneration st) (map clear_time (Conditions st))) fp ∧
    ∀ l, l ∉ fp → h' !! l = h !! l.
Proof.
  intros (r & -> & [(-> & Hc & ->)|(l & -> & -> & Hl)]).
  - exists h. split; [done|]. split; [|done]. exists VNil. split; [done|]. left. by rewrite Hc.
  - eexists. split; [unfold clear_times; cbn; by rewrite Hl|]. split.
    + exists (VRef l). split; [done|]. right. exists l. split; [done|]. split; [done|].
      rewrite lookup_insert_eq. cbn [Conditions]. by rewrite !map_map.
    + intros l' Hl'. rewrite lookup_insert_ne; [done|]. set_solver.
Qed.

(** One edit in an array is [SetStatusCondition] on the conditions. *)
Lemma edit_conditions now new cs :
  match find_index (c_type new) (map condition_val cs) with
  | Some i => alter (edit_element now new) i (map condition_val cs)
  | None => (map condition_val cs ++
             [condition_val (MkCondition (c_type new) (c_status new) (c_reason new) (c_message new)
                               (Some (default now (c_lastTransition new))))])%list
  end = map condition_val (SetStatusCondition now cs new).
Proof.
  induction cs as [|c cs IH].
  { cbn [map find_index SetStatusCondition app]. by destruct (c_lastTransition new). }
  cbn [map find_index SetStatusCondition].
  change (get_field "Type" (condition_val c)) with (Some (VString (c_type c))). cbv iota beta.
  destruct (String.eqb (c_type c) (c_type new)).
  - cbn [map]. change (alter (edit_element now new) 0 (condition_val c :: map condition_val cs))
      with (edit_element now new (condition_val c) :: map condition_val cs). f_equal.
    unfold edit_element. change (get_field "Status" (condition_val c))
      with (Some (VString (status_string (c_status c)))). cbv iota beta.
    destruct c as [ty st re me lt]. cbn [c_status c_type c_lastTransition].
    destruct st, (c_status new), (c_lastTransition new); reflexivity.
  - cbn [map]. rewrite <- IH. by destruct (find_index (c_type new) (map condition_val cs)).
Qed.

(** What an edit may touch: the array of the status, and new memory. *)
Definition edits (h : heap) (fp : gset loc) (h' : heap) (fp' : gset loc) : Prop :=
  (∀ l, l ∈ dom h → l ∉ fp → h' !! l = h !! l) ∧ dom h ⊆ dom h' ∧ fp' ∩ dom h ⊆ fp.

Lemma edits_trans h1 fp1 h2 fp2 h3 fp3 :
  edits h1 fp1 h2 fp2 → edits h2 fp2 h3 fp3 → edits h1 fp1 h3 fp3.
Proof.
  intros (A1 & A2 & A3) (B1 & B2 & B3). split; [|set_solver].
  intros l Hl Hn. rewrite B1, A1; set_solver.
Qed.

(** The conditions move to a new array. *)
Lemma moved_status h g cs r' h' :
  alloc (CArray (map condition_val cs)) h = (r', h') →
  ∃ fp', holds_status h' (status_val g r') (MkStatus g cs) fp' ∧ ∀ fp, edits h fp h' fp'.
Proof.
  intros Ha. destruct (alloc_grows _ _ _ _ Ha) as (l & -> & Hf & -> & Hs).
  exists {[l]}. split.
  - exists (VRef l). split; [done|]. right. exists l. by rewrite lookup_insert_eq.
  - intros fp. split; [|set_solver]. intros l' Hl' _. rewrite lookup_insert_ne; [done|]. set_solver.
Qed.

Lemma set_condition_spec now new h v st fp :
  holds_status h v st fp →
  ∃ v' h' fp', set_condition now new v h = Some (v', h') ∧
    holds_status h' v' (MkStatus (LastObservedGeneration st)
                          (SetStatusCondition now (Conditions st) new)) fp' ∧
    edits h fp h' fp'.
Proof.
  intros (r & -> & H). pose proof (edit_conditions now new (Conditions st)) as He.
  unfold set_condition. destruct H as [(-> & Hc & ->)|(l & -> & -> & Hl)].
  - rewrite Hc in He |- *. cbn [map find_index app] in He.
    cbn -[alloc SetStatusCondition condition_val]. rewrite He.
    destruct (alloc _ h) as [r' h'] eqn:Ha.
    destruct (moved_status _ (LastObservedGeneration st) _ _ _ Ha) as (fp' & Hs & Hed).
    exists (status_val (LastObservedGeneration st) r'), h', fp'. done.
  - cbn -[alloc find_index SetStatusCondition condition_val alter]. rewrite Hl.
    destruct (find_index _ _) as [i|].
    + eexists _, _, {[l]}. split; [done|]. split.
      * exists (VRef l). split; [done|]. right. exists l. rewrite lookup_insert_eq. by rewrite He.
      * split; [|set_solver]. intros l' _ Hn. rewrite lookup_insert_ne; [done|]. set_solver.
    + rewrite He. destruct (alloc _ h) as [r' h'] eqn:Ha.
      destruct (moved_status _ (LastObservedGeneration st) _ _ _ Ha) as (fp' & Hs & Hed).
      exists (status_val (LastObservedGeneration st) r'), h', fp'. done.
Qed.

Lemma set_conditions_spec now news : ∀ h v st fp,
  holds_status h v st fp →
  ∃ v' h' fp', set_conditions now news v h = Some (v', h') ∧
    holds_status h' v' (MkStatus (LastObservedGeneration st)
                          (fold_left (SetStatusCondition now) news (Conditions st))) fp' ∧
    edits h fp h' fp'.
Proof.
  induction news as [|new news IH]; intros h v st fp H.
  - exists v, h, fp. split; [done|]. split; [by destruct st|]. split; [done|set_solver].
  - destruct (set_condition_spec now new _ _ _ _ H) as (v1 & h1 & fp1 & E1 & H1 & Hed1).
    destruct (IH _ _ _ _ H1) as (v2 & h2 & fp2 & E2 & H2 & Hed2).
    exists v2, h2, fp2. split; [cbn; by rewrite E1|]. split; [done|]. by eapply edits_trans.
Qed.

(** ** Properties *)

(** C37: refreshing the status never writes to the object it was given: on
    a deep copy of its status the loop over the times computes the status
    that is compared, on another the calls of SetStatusCondition compute the
    status that is written, each exactly as the controller's model has them,
    and afterwards the original, and the first copy, read as before. *)
Theorem refresh_edits_are_private now news h v st fp :
  holds_status h v st fp →
  ∃ cur h1 h2 ed h3 ed' h4 fp1 fp2,
    ManagedProxyConfigurationStatus_DeepCopyInto v h = Some (cur, h1) ∧
    clear_times cur h1 = Some h2 ∧
    ManagedProxyConfigurationStatus_DeepCopyInto v h2 = Some (ed, h3) ∧
    set_conditions now news ed h3 = Some (ed', h4) ∧
    holds_status h4 cur (MkStatus (LastObservedGeneration st) (map clear_time (Conditions st))) fp1 ∧
    holds_status h4 ed' (MkStatus (LastObservedGeneration st)
                           (fold_left (SetStatusCondition now) news (Conditions st))) fp2 ∧
    holds_status h4 v st fp.
Proof.
  intros H. pose proof (holds_status_dom _ _ _ _ H) as Hfp.
  destruct (copy_status _ _ _ _ H) as (cur & h1 & fp1 & E1 & S1 & H1 & D1).
  pose proof (holds_status_dom _ _ _ _ H1) as Hfp1.
  destruct (clear_times_spec _ _ _ _ H1) as (h2 & E2 & H2 & F2).
  assert (holds_status h2 v st fp) as Hv2.
  { eapply holds_status_frame; [exact H|]. intros l Hl. rewrite F2 by set_solver.
    apply Hfp, elem_of_dom in Hl as [c Hc]. rewrite Hc. by eapply lookup_weaken. }
  pose proof (holds_status_dom _ _ _ _ H2) as Hd2. pose proof (holds_status_dom _ _ _ _ Hv2) as Hdv2.
  destruct (copy_status _ _ _ _ Hv2) as (ed & h3 & fp3 & E3 & S3 & H3 & D3).
  destruct (set_conditions_spec now news _ _ _ _ H3) as (ed' & h4 & fp4 & E4 & H4 & F4 & _).
  assert (∀ l, l ∈ dom h2 → h4 !! l = h2 !! l) as Hkeep.
  { intros l Hl. rewrite F4; [|by apply (subseteq_dom _ _ S3)|set_solver].
    apply elem_of_dom in Hl as [c Hc]. rewrite Hc. by eapply lookup_weaken. }
  exists cur, h1, h2, ed, h3, ed', h4, fp1, fp4. split_and!; try done.
  - eapply holds_status_frame; [exact H2|]. intros l Hl. apply Hkeep. set_solver.
  - eapply holds_status_frame; [exact Hv2|]. intros l Hl. apply Hkeep. set_solver.
Qed.

(** ** A concrete run *)

Definition deployed : Manifests.Condition := MkCondition "ProxyServerDeployed" true "a" "b" (Some 5%Z).
Definition cached : Status := MkStatus 1 [deployed].
Definition cache : heap := {[0%nat := CArray [condition_val deployed]]}.

Lemma refresh_edits_are_private_witness :
  ∃ h4, holds_status h4 (status_val 1 (VRef 0)) cached {[0%nat]}.
Proof.
  destruct (refresh_edits_are_private 9 [MkCondition "ProxyServerDeployed" false "c" "d" None] cache
    (status_val 1 (VRef 0)) cached {[0%nat]})
    as (cur & h1 & h2 & ed & h3 & ed' & h4 & fp1 & fp2 & _ & _ & _ & _ & _ & _ & H).
  - exists (VRef 0). split; [reflexivity|]. right. exists 0%nat.
    split; [reflexivity|]. split; reflexivity.
  - exists h4. exact H.
Defined.
