(* ===== verification/RestClient.v ===== *)
(** * REST requests (client-go's [rest] package and Go's [path])

    The generated clients build their requests with the chained methods of
    [rest.Request].  A request is the record of what has been set so far;
    the first error stops all later settings and is what the call returns.
    The exchange with the server (throttling, TLS, retries) is a parameter;
    what may be sent, and where to, is computed here.

    Sources: k8s.io/client-go/rest/request.go, config.go, url_utils.go,
    client.go and k8s.io/apimachinery/pkg/conversion/queryparams. *)

From S2P Require Import Prelude GoStrings Http GoUrl.

Local Open Scope string_scope.

(** ** Go's [path] package *)

(** One component of a path, on the reversed list of those kept. *)
Definition clean_step (rooted : bool) (kept : list string) (seg : string) : list string :=
  if String.eqb seg "" || String.eqb seg "." then kept
  else if String.eqb seg ".." then
    match kept with
    | [] => if rooted then [] else [seg]
    | x :: kept' => if String.eqb x ".." then seg :: kept else kept'
    end
  else seg :: kept.

Definition components (rooted : bool) (p : string) : list string :=
  rev (fold_left (clean_step rooted) (Split "/" p) []).

(** [path.Clean]. *)
Definition Clean (p : string) : string :=
  if HasPrefix p "/" then "/" ++ Join (components true p) "/"
  else match components false p with
       | [] => "."
       | l => Join l "/"
       end.

(** [path.Join]: leading empty elements are skipped. *)
Fixpoint path_Join (elems : list string) : string :=
  match elems with
  | [] => ""
  | "" :: rest => path_Join rest
  | _ => Clean (Join elems "/")
  end.

(** A path segment that [Clean] keeps as it is. *)
Definition proper_segment (s : string) : bool :=
  negb (has_byte "/" s) && negb (existsb (String.eqb s) [""; "."; ".."]).

(** The absolute path of a list of segments. *)
Definition abs_path (segs : list string) : string := "/" ++ Join segs "/".

(** ** Durations: int64 nanoseconds *)

Definition int64_wrap (z : Z) : Z := ((z + 2 ^ 63) mod 2 ^ 64 - 2 ^ 63)%Z.

Definition Second : Z := 1000000000.

(** [time.Duration(n) * time.Second]. *)
Definition seconds (n : Z) : Z := int64_wrap (n * Second).

(** [fmtFrac]: the [prec] low digits of [u] behind a point, without trailing
    zeros. *)
Fixpoint fmt_frac (prec : nat) (u : Z) (print : bool) : string :=
  match prec with
  | O => ""
  | S p =>
      let digit := (u mod 10)%Z in
      let print := print || negb (digit =? 0)%Z in
      fmt_frac p (u / 10)%Z print ++ (if print then Itoa digit else "")
  end.

Definition fmt_unit (prec : nat) (u : Z) : string :=
  let frac := fmt_frac prec u false in
  Itoa (u / 10 ^ Z.of_nat prec) ++ (if String.eqb frac "" then "" else "." ++ frac).

(** [time.Duration.String]. *)
Definition Duration_String (d : Z) : string :=
  let u := Z.abs d in
  let sign := if (d <? 0)%Z then "-" else "" in
  if (u <? Second)%Z then
    if (u =? 0)%Z then "0s"
    else if (u <? 1000)%Z then sign ++ fmt_unit 0 u ++ "ns"
    else if (u <? 1000000)%Z
      then sign ++ fmt_unit 3 u ++ String "194" (String "181" "s")
    else sign ++ fmt_unit 6 u ++ "ms"
  else
    let s := (u / Second)%Z in
    let m := (s / 60)%Z in
    let secs := fmt_unit 9 (u mod (60 * Second))%Z ++ "s" in
    if (m =? 0)%Z then sign ++ secs
    else if (m / 60 =? 0)%Z then sign ++ Itoa m ++ "m" ++ secs
    else sign ++ Itoa (m / 60) ++ "h" ++ Itoa (m mod 60) ++ "m" ++ secs.

(** ** Query parameters *)

Abbreviation url_values := (gmap string (list string)).

(** [url.Values.Add] and [Set]. *)
Definition vadd (v : url_values) (k x : string) : url_values :=
  <[k := (default [] (v !! k) ++ [x])%list]> v.

(** The fields of an options object, by their JSON names, as [Convert]
    meets them: a value, the value behind a non-nil pointer, or a slice.
    Every field of the options is [omitempty]. *)
Inductive query_field :=
| QString (s : string)
| QBool (b : bool)
| QInt (n : Z)
| QPtrBool (b : option bool)
| QPtrInt (n : option Z)
| QStrings (l : list string).

Definition bool_text (b : bool) : string := if b then "true" else "false".

(** [addParam] and [addListOfParams]: zero values are left out, except
    behind a pointer; the elements of a slice are left out one by one. *)
Definition field_values (f : query_field) : list string :=
  match f with
  | QString s => if String.eqb s "" then [] else [s]
  | QBool b => if b then ["true"] else []
  | QInt n => if (n =? 0)%Z then [] else [Itoa n]
  | QPtrBool b => match b with Some b => [bool_text b] | None => [] end
  | QPtrInt n => match n with Some n => [Itoa n] | None => [] end
  | QStrings l => List.filter (λ s, negb (String.eqb s "")) l
  end.

(** [queryparams.Convert]. *)
Definition Convert (fields : list (string * query_field)) : url_values :=
  fold_left (λ v '(k, f), fold_left (λ v x, vadd v k x) (field_values f) v) fields ∅.

(** ** Configuration and client *)

Record GroupVersion := MkGV { gv_group : string; gv_version : string }.

#[export] Instance GroupVersion_eq_dec : EqDecision GroupVersion.
Proof. solve_decision. Defined.

(** A rate limiter is an object with a state of its own: two clients that
    hold the same one share its budget.  [limiter_id] is its identity. *)
Record limiter := MkLimiter { limiter_id : nat; limiter_qps : Z; limiter_burst : Z }.

(** [rest.Config], the fields that are read here.  A float32 is a multiple
    of 2^-149: [QPS] counts these. *)
Record Config := MkConfig {
  cfg_Host : string;
  cfg_TLS : bool;                       (* a CA, a certificate, or Insecure *)
  cfg_APIPath : string;
  cfg_GroupVersion : option GroupVersion;
  cfg_Serializer : option string;       (* NegotiatedSerializer *)
  cfg_ContentType : string;
  cfg_UserAgent : string;
  cfg_QPS : Z;
  cfg_Burst : Z;
  cfg_RateLimiter : option limiter;
  cfg_Timeout : Z
}.

Record http_Client := MkHttpClient { client_Timeout : Z }.

(** [rest.RESTClient]. *)
Record RESTClient := MkRESTClient {
  rc_base : URL;
  rc_versionedAPIPath : string;
  rc_GroupVersion : GroupVersion;
  rc_ContentType : string;
  rc_Serializer : string;
  rc_rateLimiter : option limiter;
  rc_Client : option http_Client
}.

Definition float32_5 : Z := 5 * 2 ^ 149.
Definition DefaultQPS : Z := float32_5.
Definition DefaultBurst : Z := 10.

(** [DefaultVersionedAPIPath]. *)
Definition DefaultVersionedAPIPath (apiPath : string) (gv : GroupVersion) : string :=
  let p := path_Join ["/"; apiPath] in
  if String.eqb (gv_group gv) "" then path_Join [p; gv_version gv]
  else path_Join [p; gv_group gv; gv_version gv].

Section server_url.
Context `{UrlParse}.

(** [DefaultServerURL]: a URL, or a host that gets a scheme. *)
Definition server_host (host : string) (defaultTLS : bool) : result URL :=
  if String.eqb host "" then Err (ENew "host must be a URL or a host:port pair")
  else
    let with_scheme :=
      u ← url_parse ((if defaultTLS then "https://" else "http://") ++ host);
      if negb (String.eqb (Path u) "") && negb (String.eqb (Path u) "/")
      then Err (ENew ("host must be a URL or a host:port pair: " ++ Quote host))
      else Ok u in
    match url_parse host with
    | Ok u => if String.eqb (Scheme u) "" || String.eqb (Host u) "" then with_scheme else Ok u
    | Err _ => with_scheme
    end.

Definition DefaultServerURL (host apiPath : string) (gv : GroupVersion) (defaultTLS : bool)
    : result (URL * string) :=
  hostURL ← server_host host defaultTLS;
  Ok (hostURL, DefaultVersionedAPIPath apiPath gv).

(** [DefaultServerUrlFor]. *)
Definition DefaultServerUrlFor (c : Config) : result (URL * string) :=
  let host := if String.eqb (cfg_Host c) "" then "localhost" else cfg_Host c in
  DefaultServerURL host (cfg_APIPath c) (default (MkGV "" "") (cfg_GroupVersion c)) (cfg_TLS c).

(** The rate limiter of a client: the configured one, or a new token bucket;
    [fresh] numbers the limiters created so far. *)
Definition client_limiter (c : Config) (fresh : nat) : option limiter * nat :=
  match cfg_RateLimiter c with
  | Some l => (Some l, fresh)
  | None =>
      let qps := if (cfg_QPS c =? 0)%Z then DefaultQPS else cfg_QPS c in
      let burst := if (cfg_Burst c =? 0)%Z then DefaultBurst else cfg_Burst c in
      if (qps >? 0)%Z then (Some (MkLimiter fresh qps burst), S fresh) else (None, fresh)
  end.

(** [NewRESTClient]: the base path ends in a slash, the query goes. *)
Definition NewRESTClient (base : URL) (versionedAPIPath : string) (gv : GroupVersion)
    (contentType serializer : string) (l : option limiter) (h : option http_Client) : RESTClient :=
  let p := if HasSuffix (Path base) "/" then Path base else Path base ++ "/" in
  MkRESTClient (MkURL (Scheme base) (Host base) p "") versionedAPIPath gv contentType serializer l h.

(** [RESTClientForConfigAndClient], and its unversioned variant, which needs
    no group version ([meta_v1] then). *)
Definition meta_v1 : GroupVersion := MkGV "meta.k8s.io" "v1".

Definition UnversionedRESTClientForConfigAndClient (c : Config) (h : option http_Client)
    (fresh : nat) : result RESTClient * nat :=
  match cfg_Serializer c with
  | None => (Err (ENew "NegotiatedSerializer is required when initializing a RESTClient"), fresh)
  | Some s =>
      match DefaultServerUrlFor c with
      | Err e => (Err e, fresh)
      | Ok (base, vp) =>
          let '(l, fresh) := client_limiter c fresh in
          (Ok (NewRESTClient base vp (default meta_v1 (cfg_GroupVersion c)) (cfg_ContentType c) s l h),
           fresh)
      end
  end.

Definition RESTClientForConfigAndClient (c : Config) (h : option http_Client)
    (fresh : nat) : result RESTClient * nat :=
  match cfg_GroupVersion c with
  | None => (Err (ENew "GroupVersion is required when initializing a RESTClient"), fresh)
  | Some gv => UnversionedRESTClientForConfigAndClient c h fresh
  end.
End server_url.

(** ** Requests *)

(** What is sent as the body: bytes, or an object that the serializer
    encodes ([None]: a nil pointer, which sets nothing). *)
Inductive request_body (O : Type) :=
| BodyBytes (data : string)
| BodyObject (o : option O).
Arguments BodyBytes {O} data.
Arguments BodyObject {O} o.

(** [rest.Request], the fields that generated clients of cluster-scoped
    resources set; none of them sets a namespace or a suffix. *)
Record rest_Request := MkRR {
  rr_client : RESTClient;
  rr_timeout : Z;
  rr_verb : string;
  rr_pathPrefix : string;
  rr_params : url_values;
  rr_headers : header;
  rr_resource : string;
  rr_resourceName : string;
  rr_subresource : string;
  rr_err : option goerror;
  rr_bodyBytes : option string
}.

(** The settings, each leaving the other fields alone. *)
Definition set_err (r : rest_Request) (e : goerror) : rest_Request :=
  MkRR (rr_client r) (rr_timeout r) (rr_verb r) (rr_pathPrefix r) (rr_params r) (rr_headers r)
    (rr_resource r) (rr_resourceName r) (rr_subresource r) (Some e) (rr_bodyBytes r).
Definition with_headers (r : rest_Request) (h : header) : rest_Request :=
  MkRR (rr_client r) (rr_timeout r) (rr_verb r) (rr_pathPrefix r) (rr_params r) h
    (rr_resource r) (rr_resourceName r) (rr_subresource r) (rr_err r) (rr_bodyBytes r).
Definition with_resource (r : rest_Request) (x : string) : rest_Request :=
  MkRR (rr_client r) (rr_timeout r) (rr_verb r) (rr_pathPrefix r) (rr_params r) (rr_headers r)
    x (rr_resourceName r) (rr_subresource r) (rr_err r) (rr_bodyBytes r).
Definition with_name (r : rest_Request) (x : string) : rest_Request :=
  MkRR (rr_client r) (rr_timeout r) (rr_verb r) (rr_pathPrefix r) (rr_params r) (rr_headers r)
    (rr_resource r) x (rr_subresource r) (rr_err r) (rr_bodyBytes r).
Definition with_subresource (r : rest_Request) (x : string) : rest_Request :=
  MkRR (rr_client r) (rr_timeout r) (rr_verb r) (rr_pathPrefix r) (rr_params r) (rr_headers r)
    (rr_resource r) (rr_resourceName r) x (rr_err r) (rr_bodyBytes r).
Definition with_params (r : rest_Request) (x : url_values) : rest_Request :=
  MkRR (rr_client r) (rr_timeout r) (rr_verb r) (rr_pathPrefix r) x (rr_headers r)
    (rr_resource r) (rr_resourceName r) (rr_subresource r) (rr_err r) (rr_bodyBytes r).
Definition with_timeout (r : rest_Request) (d : Z) : rest_Request :=
  MkRR (rr_client r) d (rr_verb r) (rr_pathPrefix r) (rr_params r) (rr_headers r)
    (rr_resource r) (rr_resourceName r) (rr_subresource r) (rr_err r) (rr_bodyBytes r).
Definition with_body (r : rest_Request) (data : string) : rest_Request :=
  MkRR (rr_client r) (rr_timeout r) (rr_verb r) (rr_pathPrefix r) (rr_params r) (rr_headers r)
    (rr_resource r) (rr_resourceName r) (rr_subresource r) (rr_err r) (Some data).

(** The content type in force ([GetClientContentConfig], CBOR disabled). *)
Definition content_type (c : RESTClient) : string :=
  if String.eqb (rc_ContentType c) "" then "application/json" else rc_ContentType c.

(** [SetHeader] with one value. *)
Definition SetHeader (r : rest_Request) (k v : string) : rest_Request :=
  with_headers r (hadd (hdel (rr_headers r) k) k v).

(** [NewRequest] and [RESTClient.Verb]. *)
Definition Verb (c : RESTClient) (verb : string) : rest_Request :=
  SetHeader
    (MkRR c (match rc_Client c with Some h => client_Timeout h | None => 0%Z end) verb
       (path_Join ["/"; Path (rc_base c); rc_versionedAPIPath c]) ∅ ∅ "" "" "" None None)
    "Accept" (content_type c ++ ", */*").

Definition PatchVerb (c : RESTClient) (pt : string) : rest_Request :=
  SetHeader (Verb c "PATCH") "Content-Type" pt.

(** The guard every setting starts with: [if r.err != nil { return r }]. *)
Definition setting (f : rest_Request → rest_Request) (r : rest_Request) : rest_Request :=
  match rr_err r with Some _ => r | None => f r end.

(** [IsValidPathSegmentName]. *)
Definition IsValidPathSegmentName (name : string) : list string :=
  match List.find (String.eqb name) ["."; ".."] with
  | Some illegal => ["may not be '" ++ illegal ++ "'"]
  | None => map (λ c, "may not contain '" ++ c ++ "'") (List.filter (Contains name) ["/"; "%"])
  end.

(** [%v] of a slice of strings. *)
Definition print_strings (l : list string) : string := "[" ++ Join l " " ++ "]".

Definition Resource (resource : string) : rest_Request → rest_Request := setting (λ r,
  if negb (String.eqb (rr_resource r) "")
  then set_err r (ENew ("resource already set to " ++ Quote (rr_resource r) ++
                        ", cannot change to " ++ Quote resource))
  else match IsValidPathSegmentName resource with
  | [] => with_resource r resource
  | msgs => set_err r (ENew ("invalid resource " ++ Quote resource ++ ": " ++ print_strings msgs))
  end).

Definition Name (name : string) : rest_Request → rest_Request := setting (λ r,
  if String.eqb name "" then set_err r (ENew "resource name may not be empty")
  else if negb (String.eqb (rr_resourceName r) "")
  then set_err r (ENew ("resource name already set to " ++ Quote (rr_resourceName r) ++
                        ", cannot change to " ++ Quote name))
  else match IsValidPathSegmentName name with
  | [] => with_name r name
  | msgs => set_err r (ENew ("invalid resource name " ++ Quote name ++ ": " ++ print_strings msgs))
  end).

(** The first subresource that is not a path segment, with its messages. *)
Fixpoint invalid_segment (l : list string) : option (string * list string) :=
  match l with
  | [] => None
  | s :: rest =>
      match IsValidPathSegmentName s with
      | [] => invalid_segment rest
      | msgs => Some (s, msgs)
      end
  end.

Definition SubResource (subresources : list string) : rest_Request → rest_Request := setting (λ r,
  let subresource := path_Join subresources in
  if negb (String.eqb (rr_subresource r) "")
  then set_err r (ENew ("subresource already set to " ++ Quote (rr_subresource r) ++
                        ", cannot change to " ++ Quote subresource))
  else match invalid_segment subresources with
  | None => with_subresource r subresource
  | Some (s, msgs) =>
      set_err r (ENew ("invalid subresource " ++ Quote s ++ ": " ++ print_strings msgs))
  end).

(** [VersionedParams]: the values are added to those already set. *)
Definition VersionedParams (encoded : result url_values) : rest_Request → rest_Request := setting (λ r,
  match encoded with
  | Err e => set_err r e
  | Ok params => with_params r (union_with (λ old new, Some (old ++ new)%list) (rr_params r) params)
  end).

(** [Request.Timeout]. *)
Definition SetTimeout (d : Z) : rest_Request → rest_Request := setting (λ r, with_timeout r d).

(** [Request.Body], [encode] being the encoder that the negotiator picks for
    a content type and its result. *)
Definition Body {O} (encode : string → O → result string) (b : request_body O)
    : rest_Request → rest_Request := setting (λ r,
  match b with
  | BodyBytes data => with_body r data
  | BodyObject None => r
  | BodyObject (Some o) =>
      match encode (content_type (rr_client r)) o with
      | Err e => set_err r e
      | Ok data => SetHeader (with_body r data) "Content-Type" (content_type (rr_client r))
      end
  end).

(** [Request.URL]: the path, and the query before its encoding. *)
Definition url_path (r : rest_Request) : string :=
  let p := rr_pathPrefix r in
  let p := if String.eqb (rr_resource r) "" then p else path_Join [p; ToLower (rr_resource r)] in
  if String.eqb (rr_resourceName r) "" && String.eqb (rr_subresource r) "" then p
  else path_Join [p; rr_resourceName r; rr_subresource r; ""].

Definition url_query (r : rest_Request) : url_values :=
  if (rr_timeout r =? 0)%Z then rr_params r
  else <["timeout" := [Duration_String (rr_timeout r)]]> (rr_params r).

(** The HTTP request on its way to the server. *)
Record wire_request := MkWire {
  w_scheme : string;
  w_host : string;
  w_method : string;
  w_path : string;
  w_query : url_values;
  w_header : header;
  w_body : option string;
  w_deadline : option Z;         (* the overall timeout of the call *)
  w_limiter : option limiter     (* what it waits for first *)
}.

(** [newHTTPRequest]. *)
Definition newHTTPRequest (r : rest_Request) (deadline : option Z) (l : option limiter)
    : wire_request :=
  MkWire (Scheme (rc_base (rr_client r))) (Host (rc_base (rr_client r))) (rr_verb r)
    (url_path r) (url_query r) (rr_headers r) (rr_bodyBytes r) deadline l.

(** [request], behind [Do]: an error of the construction ends the call before
    anything is sent; a positive timeout bounds it, the client's limiter
    throttles it. *)
Definition prepared (r : rest_Request) : result wire_request :=
  match rr_err r with
  | Some e => Err e
  | None =>
      Ok (newHTTPRequest r (if (rr_timeout r >? 0)%Z then Some (rr_timeout r) else None)
            (rc_rateLimiter (rr_client r)))
  end.

(** [Request.Watch]: neither bounded nor throttled. *)
Definition prepared_watch (r : rest_Request) : result wire_request :=
  match rr_err r with
  | Some e => Err e
  | None => Ok (newHTTPRequest r None None)
  end.

(** ** Paths *)

Lemma proper_segment_spec s :
  proper_segment s = true ↔ has_byte "/" s = false ∧ s ≠ "" ∧ s ≠ "." ∧ s ≠ "..".
Proof.
  unfold proper_segment. cbn [existsb].
  rewrite andb_true_iff, !negb_true_iff, !orb_false_iff, !String.eqb_neq. tauto.
Qed.

Lemma clean_step_proper rooted kept s :
  proper_segment s = true → clean_step rooted kept s = s :: kept.
Proof.
  rewrite proper_segment_spec. intros (_ & H1 & H2 & H3). unfold clean_step.
  by repeat rewrite (proj2 (String.eqb_neq _ _)) by done.
Qed.

Lemma clean_steps_proper rooted segs kept :
  Forall (λ s, proper_segment s = true) segs →
  fold_left (clean_step rooted) segs kept = (rev segs ++ kept)%list.
Proof.
  intros H. revert kept. induction H as [|s segs Hs _ IH]; intros kept; cbn [fold_left]; [done|].
  rewrite clean_step_proper, IH by done. cbn [rev]. by rewrite <- app_assoc.
Qed.

(** Rooted cleaning keeps proper segments only. *)
Lemma clean_steps_rooted l kept :
  Forall (λ s, has_byte "/" s = false) l → Forall (λ s, proper_segment s = true) kept →
  Forall (λ s, proper_segment s = true) (fold_left (clean_step true) l kept).
Proof.
  intros Hl. revert kept. induction Hl as [|s l Hs _ IH]; intros kept Hk; cbn [fold_left]; [done|].
  apply IH. unfold clean_step.
  destruct (String.eqb_spec s ""), (String.eqb_spec s "."), (String.eqb_spec s ".."); cbn [orb];
    try done.
  - destruct kept as [|x kept]; [done|]. apply Forall_cons in Hk as [Hx Hk].
    apply proper_segment_spec in Hx as (_ & _ & _ & Hx).
    by rewrite (proj2 (String.eqb_neq x "..")).
  - constructor; [|done]. by apply proper_segment_spec.
Qed.

Lemma components_proper p : Forall (λ s, proper_segment s = true) (components true p).
Proof.
  unfold components. apply Forall_rev, clean_steps_rooted; [apply Split_pieces | constructor].
Qed.

Lemma Clean_rooted p : HasPrefix p "/" = true → Clean p = abs_path (components true p).
Proof. unfold Clean, abs_path. by intros ->. Qed.

(** The components of a path that goes on behind a slash. *)
Lemma components_app b p q :
  components b (p ++ "/" ++ q) =
  rev (fold_left (clean_step b) (Split "/" q) (rev (components b p))).
Proof.
  unfold components. change ("/" ++ q) with (String "/" q).
  by rewrite Split_app, fold_left_app, rev_involutive.
Qed.

(** Elements that are relative paths of proper segments, [""] being none. *)
Definition relative_of (e : string) (segs : list string) : Prop :=
  e = Join segs "/" ∧ Forall (λ s, proper_segment s = true) segs.

Lemma components_extend b p e segs :
  relative_of e segs → components b (p ++ "/" ++ e) = (components b p ++ segs)%list.
Proof.
  intros [-> Hs]. rewrite components_app. destruct segs as [|s segs].
  - cbn. by rewrite rev_involutive, app_nil_r.
  - rewrite (Split_Join "/") by
      (done || (eapply Forall_impl; [exact Hs|]; intros x Hx; by apply proper_segment_spec in Hx as [])).
    by rewrite clean_steps_proper, rev_app_distr, !rev_involutive by done.
Qed.

Lemma components_abs segs :
  Forall (λ s, proper_segment s = true) segs → components true (abs_path segs) = segs.
Proof. intros Hs. by apply (components_extend true "" (Join segs "/") segs). Qed.

Lemma Join_merge x y l sep : Join (x :: y :: l) sep = Join ((x ++ sep ++ y) :: l) sep.
Proof.
  destruct l as [|z l]; [done|].
  rewrite !(Join_cons _ (_ :: _)) by done. by rewrite <- !str_app_assoc.
Qed.

Lemma components_Join b p more segss :
  Forall2 relative_of more segss →
  components b (Join (p :: more) "/") = (components b p ++ concat segss)%list.
Proof.
  intros H. revert p. induction H as [|e segs more segss He _ IH]; intros p.
  - cbn. by rewrite app_nil_r.
  - rewrite Join_merge, IH, components_extend with (segs := segs) by done.
    cbn [concat]. by rewrite app_assoc.
Qed.

Lemma Join_rooted s more : HasPrefix (Join (String "/" s :: more) "/") "/" = true.
Proof. by destruct more. Qed.

(** Joining relative paths to a rooted one. *)
Lemma path_Join_rooted s more segss :
  Forall2 relative_of more segss →
  path_Join (String "/" s :: more) =
  abs_path (components true (String "/" s) ++ concat segss).
Proof.
  intros H. cbn [path_Join]. by rewrite Clean_rooted, (components_Join true _ _ segss) by auto using Join_rooted.
Qed.

Lemma path_Join_abs segs more segss :
  Forall (λ s, proper_segment s = true) segs → Forall2 relative_of more segss →
  path_Join (abs_path segs :: more) = abs_path (segs ++ concat segss).
Proof.
  intros Hs H. unfold abs_path at 1. cbn [String.append].
  rewrite (path_Join_rooted _ _ segss) by done.
  by rewrite <- (components_abs segs) at 2.
Qed.

Lemma relative_one s : proper_segment s = true → relative_of s [s].
Proof. intros Hs. by repeat constructor. Qed.

Lemma relative_none : relative_of "" [].
Proof. by repeat constructor. Qed.

#[export] Hint Resolve relative_one relative_none components_proper : proxy.

(** A path determines its segments. *)
Lemma abs_path_inj l1 l2 :
  Forall (λ s, proper_segment s = true) l1 → Forall (λ s, proper_segment s = true) l2 →
  abs_path l1 = abs_path l2 → l1 = l2.
Proof. intros H1 H2 H. rewrite <- (components_abs l1), <- (components_abs l2) by done. by rewrite H. Qed.

(** Joining segments that are proper or empty drops the empty ones. *)
Definition nonempty_segments (l : list string) : list string :=
  List.filter (λ s, negb (String.eqb s "")) l.

Lemma segments_relative l :
  Forall (λ s, s = "" ∨ proper_segment s = true) l →
  ∃ segss, Forall2 relative_of l segss ∧ concat segss = nonempty_segments l ∧
    Forall (λ s, proper_segment s = true) (concat segss).
Proof.
  induction 1 as [|s l [->|Hs] _ (segss & H1 & H2 & H3)].
  - exists []. by repeat constructor.
  - exists ([] :: segss). cbn. eauto using relative_none.
  - exists ([s] :: segss). cbn. pose proof Hs as (_ & Hne & _)%proper_segment_spec.
    rewrite (proj2 (String.eqb_neq _ _) Hne), H2. cbn. repeat constructor; auto using relative_one.
    by rewrite <- H2.
Qed.

Lemma proper_not_rooted s l : proper_segment s = true → HasPrefix (Join (s :: l) "/") "/" = false.
Proof.
  intros (Hb & Hne & _)%proper_segment_spec. destruct s as [|c s]; [done|].
  cbn [has_byte] in Hb. apply orb_false_iff in Hb as [Hc _].
  assert (Ascii.eqb "/" c = false) as Hc' by by rewrite Ascii.eqb_sym.
  by destruct l; cbn [Join HasPrefix String.append]; rewrite Hc'.
Qed.

Lemma components_one b s : proper_segment s = true → components b s = [s].
Proof.
  intros Hs. pose proof Hs as (Hb & _)%proper_segment_spec.
  unfold components. rewrite Split_no_sep by done. by rewrite clean_steps_proper by auto.
Qed.

Lemma path_Join_segments l :
  Forall (λ s, s = "" ∨ proper_segment s = true) l →
  relative_of (path_Join l) (nonempty_segments l).
Proof.
  induction 1 as [|s l [->|Hs] Hl IH]; [apply relative_none | exact IH |].
  destruct (segments_relative l Hl) as (segss & H1 & H2 & H3).
  pose proof Hs as (_ & Hne & _)%proper_segment_spec.
  unfold nonempty_segments in *. cbn [List.filter].
  rewrite (proj2 (String.eqb_neq _ _) Hne), <- H2. cbn [negb].
  assert (path_Join (s :: l) = Clean (Join (s :: l) "/")) as -> by (by destruct s).
  unfold Clean. rewrite proper_not_rooted by done.
  rewrite (components_Join false _ _ segss), components_one by done.
  split; [done | by constructor].
Qed.

(** ** What a request addresses *)

(** The segments under which a client's resources live. *)
Definition api_segments (c : RESTClient) : list string :=
  components true (Path (rc_base c) ++ "/" ++ rc_versionedAPIPath c).

Lemma Contains_byte c s : Contains s (String c "") = has_byte c s.
Proof.
  induction s as [|d s IH]; cbn [Contains HasPrefix has_byte]; [done|].
  rewrite IH, andb_true_r. by rewrite Ascii.eqb_sym.
Qed.

Lemma valid_segment s :
  IsValidPathSegmentName s = [] → s = "" ∨ proper_segment s = true.
Proof.
  unfold IsValidPathSegmentName. cbn [List.find List.filter].
  destruct (String.eqb_spec s "."), (String.eqb_spec s ".."); try done.
  rewrite (Contains_byte "/"). destruct (has_byte "/" s) eqn:Hb; [done|]. intros _.
  destruct (decide (s = "")); [by left | right]. by apply proper_segment_spec.
Qed.

Lemma pathPrefix_segments c verb : rr_pathPrefix (Verb c verb) = abs_path (api_segments c).
Proof.
  cbn [Verb SetHeader with_headers rr_pathPrefix].
  change (path_Join _) with (Clean (Join ["/"; Path (rc_base c); rc_versionedAPIPath c] "/")).
  rewrite Clean_rooted by done. f_equal.
Qed.

(** Under a versioned path that is in order, every base path keeps its own
    segments. *)
Lemma api_segments_under c segs :
  Forall (λ s, proper_segment s = true) segs → rc_versionedAPIPath c = abs_path segs →
  api_segments c = (components true (Path (rc_base c)) ++ segs)%list.
Proof.
  intros Hs Hv. unfold api_segments, abs_path in *. rewrite Hv.
  change (Path (rc_base c) ++ "/" ++ "/" ++ Join segs "/")
    with (Path (rc_base c) ++ ("/" ++ "") ++ "/" ++ Join segs "/").
  rewrite str_app_assoc, (components_extend true _ _ segs) by done.
  by rewrite (components_extend true _ "" []), app_nil_r by auto using relative_none.
Qed.

Lemma relative_empty segs : relative_of "" segs → segs = [].
Proof.
  intros [H Hs]. destruct segs as [|s segs]; [done|]. exfalso.
  apply Forall_cons in Hs as [(_ & Hne & _)%proper_segment_spec _].
  destruct s; [done|]. by destruct segs.
Qed.

Lemma url_path_segments r base names subs :
  rr_pathPrefix r = abs_path base → Forall (λ s, proper_segment s = true) base →
  proper_segment (ToLower (rr_resource r)) = true →
  relative_of (rr_resourceName r) names → relative_of (rr_subresource r) subs →
  url_path r = abs_path (base ++ [ToLower (rr_resource r)] ++ names ++ subs).
Proof.
  intros Hp Hb Hr Hn Hs. unfold url_path. rewrite Hp.
  destruct (String.eqb_spec (rr_resource r) "") as [E|_]; [by rewrite E in Hr|].
  rewrite (path_Join_abs base _ [[ToLower (rr_resource r)]]) by eauto using relative_one.
  cbn [concat].
  assert (Forall (λ s, proper_segment s = true) (base ++ [ToLower (rr_resource r)] ++ [])) as Hall
    by (apply Forall_app; split; [done | by repeat constructor]).
  destruct (_ && _) eqn:E.
  - apply andb_true_iff in E as [E1%String.eqb_eq E2%String.eqb_eq].
    rewrite E1 in Hn. rewrite E2 in Hs.
    by rewrite (relative_empty names), (relative_empty subs).
  - rewrite (path_Join_abs _ _ [names; subs; []]) by eauto using relative_none.
    cbn [concat]. by rewrite !app_nil_r, <- app_assoc.
Qed.

(** ** The settings that succeed *)

Lemma setting_ok f r : rr_err (setting f r) = None → rr_err r = None ∧ setting f r = f r.
Proof. unfold setting. destruct (rr_err r) eqn:E; [congruence | done]. Qed.

Lemma setting_err f r e : rr_err r = Some e → setting f r = r.
Proof. unfold setting. by intros ->. Qed.

Ltac setting_inv :=
  let H := fresh in let Hr := fresh in let Heq := fresh in
  intros H; pose proof (setting_ok _ _ H) as [Hr Heq]; rewrite Heq in H |- *;
  clear Heq; cbv beta zeta in *.

Lemma Resource_ok x r :
  rr_err (Resource x r) = None →
  rr_err r = None ∧ (x = "" ∨ proper_segment x = true) ∧ Resource x r = with_resource r x.
Proof.
  unfold Resource. setting_inv. destruct (negb _); [done|].
  destruct (IsValidPathSegmentName x) eqn:Hv; [|done]. auto using valid_segment.
Qed.

Lemma Name_ok x r :
  rr_err (Name x r) = None →
  rr_err r = None ∧ proper_segment x = true ∧ has_byte "%" x = false ∧ Name x r = with_name r x.
Proof.
  unfold Name. setting_inv. destruct (String.eqb_spec x ""); [done|]. destruct (negb _); [done|].
  destruct (IsValidPathSegmentName x) eqn:Hv; [|done].
  pose proof (valid_segment x Hv) as [?|?]; [done|]. repeat split; auto.
  rewrite <- Contains_byte. revert Hv. unfold IsValidPathSegmentName.
  destruct (List.find _ _); [done|]. cbn [List.filter].
  by destruct (Contains x "/"), (Contains x "%").
Qed.

Lemma invalid_segment_none l :
  invalid_segment l = None → Forall (λ s, s = "" ∨ proper_segment s = true) l.
Proof.
  induction l as [|s l IH]; cbn [invalid_segment]; [by constructor|].
  destruct (IsValidPathSegmentName s) eqn:Hv; [|done]. constructor; auto using valid_segment.
Qed.

Lemma SubResource_ok l r :
  rr_err (SubResource l r) = None →
  rr_err r = None ∧ relative_of (path_Join l) (nonempty_segments l) ∧
  SubResource l r = with_subresource r (path_Join l).
Proof.
  unfold SubResource. setting_inv. destruct (negb _); [done|].
  destruct (invalid_segment l) as [[]|] eqn:Hv; [done|].
  auto using path_Join_segments, invalid_segment_none.
Qed.

Lemma VersionedParams_ok enc r :
  rr_err (VersionedParams enc r) = None →
  rr_err r = None ∧ ∃ params, enc = Ok params ∧
    VersionedParams enc r =
    with_params r (union_with (λ old new, Some (old ++ new)%list) (rr_params r) params).
Proof. unfold VersionedParams. setting_inv. destruct enc; [eauto | done]. Qed.

Lemma SetTimeout_ok d r :
  rr_err (SetTimeout d r) = None → rr_err r = None ∧ SetTimeout d r = with_timeout r d.
Proof. unfold SetTimeout. by setting_inv. Qed.

(** What [Body] sends. *)
Definition body_data {O} (encode : string → O → result string) (ct : string)
    (b : request_body O) : result (option string) :=
  match b with
  | BodyBytes data => Ok (Some data)
  | BodyObject None => Ok None
  | BodyObject (Some o) => Some <$> encode ct o
  end.

(** Two requests for the same target. *)
Definition same_target (r1 r2 : rest_Request) : Prop :=
  rr_client r1 = rr_client r2 ∧ rr_timeout r1 = rr_timeout r2 ∧ rr_verb r1 = rr_verb r2 ∧
  rr_pathPrefix r1 = rr_pathPrefix r2 ∧ rr_params r1 = rr_params r2 ∧
  rr_resource r1 = rr_resource r2 ∧ rr_resourceName r1 = rr_resourceName r2 ∧
  rr_subresource r1 = rr_subresource r2.

Lemma Body_ok {O} (encode : string → O → result string) b r :
  rr_err (Body encode b r) = None →
  rr_err r = None ∧ same_target (Body encode b r) r ∧
  ∃ d, body_data encode (content_type (rr_client r)) b = Ok d ∧
       rr_bodyBytes (Body encode b r) = match d with Some _ => d | None => rr_bodyBytes r end.
Proof.
  unfold Body. setting_inv. split; [done|].
  destruct b as [data|[o|]]; cbn [body_data].
  - split; [done | by exists (Some data)].
  - destruct (encode _ o) as [data|e]; [|done]. split; [done | by exists (Some data)].
  - split; [done | by exists None].
Qed.

(** ** Whether a setting succeeds *)

Definition no_err (r : rest_Request) : bool :=
  match rr_err r with None => true | Some _ => false end.

Lemma no_err_spec r : no_err r = true ↔ rr_err r = None.
Proof. unfold no_err. by destruct (rr_err r). Qed.

Lemma no_err_setting f r : no_err (setting f r) = true → no_err r = true.
Proof. rewrite !no_err_spec. by intros [? _]%setting_ok. Qed.

(** A name that can be sent: a path segment of its own, without escapes. *)
Definition sendable_name (n : string) : bool := proper_segment n && negb (has_byte "%" n).

Lemma IsValidPathSegmentName_spec n :
  n ≠ "" → IsValidPathSegmentName n = [] ↔ sendable_name n = true.
Proof.
  intros Hne. unfold sendable_name, IsValidPathSegmentName.
  rewrite andb_true_iff, proper_segment_spec, negb_true_iff.
  cbn [List.find List.filter]. rewrite !Contains_byte.
  destruct (String.eqb_spec n "."), (String.eqb_spec n ".."); subst;
    try (split; [done | intros ((_ & _ & ? & ?) & _); done]).
  destruct (has_byte "/" n), (has_byte "%" n); cbn; naive_solver.
Qed.

Lemma Name_no_err x r :
  rr_err r = None → rr_resourceName r = "" → no_err (Name x r) = sendable_name x.
Proof.
  intros Hr Hn. unfold Name, setting. rewrite Hr, Hn. cbn [negb String.eqb].
  destruct (String.eqb_spec x "") as [->|Hx]; [done|].
  pose proof (IsValidPathSegmentName_spec x Hx) as Hv.
  destruct (IsValidPathSegmentName x), (sendable_name x); cbn; unfold no_err; cbn; rewrite ?Hr;
    destruct Hv as [Hv Hv']; try done; [by discriminate Hv | by discriminate Hv'].
Qed.

Lemma SubResource_no_err l r :
  rr_err r = None → rr_subresource r = "" →
  no_err (SubResource l r) = match invalid_segment l with Some _ => false | None => true end.
Proof.
  intros Hr Hn. unfold SubResource, setting. rewrite Hr, Hn. cbn [negb String.eqb].
  destruct (invalid_segment l) as [[]|]; unfold no_err; cbn; by rewrite ?Hr.
Qed.

Lemma Body_no_err {O} (encode : string → O → result string) b r :
  rr_err r = None →
  no_err (Body encode b r) = is_ok (body_data encode (content_type (rr_client r)) b).
Proof.
  intros Hr. unfold Body, setting. rewrite Hr. destruct b as [data|[o|]]; unfold no_err; cbn.
  - by rewrite Hr.
  - destruct (encode _ o); cbn; by rewrite ?Hr.
  - by rewrite Hr.
Qed.

(** ** A chain of settings, as the generated methods build it *)

Definition opt {A} (f : A → rest_Request → rest_Request) (x : option A) (r : rest_Request)
    : rest_Request :=
  match x with Some a => f a r | None => r end.

Definition chain {O} (encode : string → O → result string) (name : option string)
    (subs : option (list string)) (ps : option url_values) (timeout : option Z)
    (body : option (request_body O)) (r : rest_Request) : rest_Request :=
  opt (Body encode) body (opt SetTimeout timeout (opt (λ p, VersionedParams (Ok p)) ps
    (opt SubResource subs (opt Name name r)))).

Definition chain_valid {O} (encode : string → O → result string) (name : option string)
    (subs : option (list string)) (body : option (request_body O)) (c : RESTClient) : bool :=
  match name with Some n => sendable_name n | None => true end &&
  match invalid_segment (default [] subs) with Some _ => false | None => true end &&
  match body with Some b => is_ok (body_data encode (content_type c) b) | None => true end.

(** What is set after a chain that met no error. *)
Record chained {O} (encode : string → O → result string) (name : option string)
    (subs : option (list string)) (ps : option url_values) (timeout : option Z)
    (body : option (request_body O)) (r0 r : rest_Request) : Prop := {
  chained_client : rr_client r = rr_client r0;
  chained_verb : rr_verb r = rr_verb r0;
  chained_prefix : rr_pathPrefix r = rr_pathPrefix r0;
  chained_resource : rr_resource r = rr_resource r0;
  chained_name : rr_resourceName r = default "" name;
  chained_sub : rr_subresource r = path_Join (default [] subs);
  chained_timeout : rr_timeout r = default (rr_timeout r0) timeout;
  chained_params : rr_params r = default ∅ ps;
  chained_body :
    match body with
    | Some b => body_data encode (content_type (rr_client r0)) b = Ok (rr_bodyBytes r)
    | None => rr_bodyBytes r = None
    end
}.

(** A request on which only the verb, the headers and the resource are set. *)
Definition fresh_request (r : rest_Request) : Prop :=
  rr_err r = None ∧ rr_params r = ∅ ∧ rr_resourceName r = "" ∧ rr_subresource r = "" ∧
  rr_bodyBytes r = None.

Lemma no_err_false r : no_err r = false → ∃ e, rr_err r = Some e.
Proof. unfold no_err. destruct (rr_err r) eqn:E; [eauto | done]. Qed.

(** After an error, nothing more is set. *)
Lemma setting_stuck f r : no_err r = false → setting f r = r.
Proof. intros [e He]%no_err_false. by apply (setting_err _ _ e). Qed.

Lemma opt_stuck {A} (f : A → rest_Request → rest_Request) x r :
  (∀ a r, no_err r = false → f a r = r) → no_err r = false → opt f x r = r.
Proof. destruct x; cbn; auto. Qed.

Ltac stuck :=
  repeat match goal with
  | H : no_err ?r = false |- context [opt ?f ?x ?r] =>
      rewrite (opt_stuck f x r) by (first [exact H | intros ? ? ?; by apply setting_stuck])
  end.

Lemma Name_stage name r :
  rr_err r = None → rr_resourceName r = "" →
  no_err (opt Name name r) = match name with Some n => sendable_name n | None => true end ∧
  (no_err (opt Name name r) = true → opt Name name r = with_name r (default "" name)).
Proof.
  intros Hr Hn. destruct name as [n|]; cbn [opt default].
  - split; [by apply Name_no_err|]. intros H%no_err_spec. by apply Name_ok in H as (_ & _ & _ & ->).
  - split; [by apply no_err_spec|]. intros _. destruct r; cbn in *. by subst.
Qed.

Lemma SubResource_stage subs r :
  rr_err r = None → rr_subresource r = "" →
  no_err (opt SubResource subs r) =
    match invalid_segment (default [] subs) with Some _ => false | None => true end ∧
  (no_err (opt SubResource subs r) = true →
   opt SubResource subs r = with_subresource r (path_Join (default [] subs))).
Proof.
  intros Hr Hn. destruct subs as [l|]; cbn [opt default].
  - split; [by apply SubResource_no_err|]. intros H%no_err_spec.
    by apply SubResource_ok in H as (_ & _ & ->).
  - split; [by apply no_err_spec|]. intros _. destruct r; cbn in *. by subst.
Qed.

Lemma params_timeout_stage ps timeout r :
  rr_err r = None → rr_params r = ∅ →
  opt SetTimeout timeout (opt (λ p, VersionedParams (Ok p)) ps r) =
  with_timeout (with_params r (default ∅ ps)) (default (rr_timeout r) timeout).
Proof.
  intros Hr Hp. destruct r; cbn in *; subst.
  destruct ps, timeout; cbn; by rewrite ?(left_id_L ∅ (union_with _)).
Qed.

Lemma chain_no_err {O} (encode : string → O → result string) name subs ps timeout body r :
  fresh_request r →
  no_err (chain encode name subs ps timeout body r) =
  chain_valid encode name subs body (rr_client r).
Proof.
  intros (Hr & Hp & Hn & Hs & _). unfold chain, chain_valid.
  destruct (Name_stage name r Hr Hn) as [E1 H1]. rewrite <- E1.
  destruct (no_err (opt Name name r)) eqn:E.
  2:{ by stuck; rewrite E. }
  rewrite H1 by done.
  destruct (SubResource_stage subs (with_name r (default "" name)) Hr Hs) as [E2 H2].
  rewrite <- E2. destruct (no_err (opt SubResource _ _)) eqn:E'.
  2:{ by stuck; rewrite E'. }
  rewrite H2, params_timeout_stage by done. cbn [andb].
  destruct body as [b|]; cbn [opt]; [by rewrite Body_no_err | by apply no_err_spec].
Qed.

Lemma chain_chained {O} (encode : string → O → result string) name subs ps timeout body r :
  fresh_request r → no_err (chain encode name subs ps timeout body r) = true →
  chained encode name subs ps timeout body r (chain encode name subs ps timeout body r).
Proof.
  intros Hf H. rewrite chain_no_err in H by done. destruct Hf as (Hr & Hp & Hn & Hs & Hb).
  unfold chain_valid in H. bool_to_prop. unfold chain.
  destruct (Name_stage name r Hr Hn) as [E1 ->]; [|by rewrite E1].
  destruct (SubResource_stage subs (with_name r (default "" name)) Hr Hs) as [E2 ->]; [|by rewrite E2].
  rewrite params_timeout_stage by done. cbn [rr_timeout with_subresource with_name].
  destruct body as [b|]; cbn [opt]; [|by split].
  destruct (Body_ok encode b (with_timeout (with_params (with_subresource (with_name r (default "" name))
     (path_Join (default [] subs))) (default ∅ ps)) (default (rr_timeout r) timeout)))
    as (_ & (? & ? & ? & ? & ? & ? & ? & ?) & d & Hd & Hd').
  { by apply no_err_spec; rewrite Body_no_err. }
  split; try done. rewrite Hd'. cbn in Hd |- *. rewrite Hd. by destruct d; rewrite ?Hb.
Qed.

(** ** Query parameters *)

Lemma vadd_fold_values v k l k' :
  hvalues (fold_left (λ v x, vadd v k x) l v) k' =
  (hvalues v k' ++ if decide (k' = k) then l else [])%list.
Proof.
  revert v. induction l as [|x l IH]; intros v; cbn [fold_left].
  - destruct (decide _); by rewrite app_nil_r.
  - rewrite IH. unfold hvalues, vadd. destruct (decide (k' = k)) as [->|Hne].
    + rewrite lookup_insert_eq. cbn. by rewrite <- app_assoc.
    + by rewrite lookup_insert_ne.
Qed.

Lemma Convert_fold_values fields v k :
  hvalues (fold_left (λ v '(k, f), fold_left (λ v x, vadd v k x) (field_values f) v) fields v) k =
  (hvalues v k ++
   concat (map (λ '(k', f), if decide (k = k') then field_values f else []) fields))%list.
Proof.
  revert v. induction fields as [|[k' f] fields IH]; intros v; cbn [fold_left map concat].
  - by rewrite app_nil_r.
  - rewrite IH, vadd_fold_values. by rewrite app_assoc.
Qed.

(** The values of a parameter: those of the fields with its name. *)
Lemma Convert_values fields k :
  hvalues (Convert fields) k =
  concat (map (λ '(k', f), if decide (k = k') then field_values f else []) fields).
Proof. unfold Convert. by rewrite Convert_fold_values. Qed.

(** ** Durations *)

Lemma int64_wrap_id z : (- 2 ^ 63 <= z < 2 ^ 63)%Z → int64_wrap z = z.
Proof. intros H. unfold int64_wrap. rewrite Z.mod_small; lia. Qed.

(** The largest number of seconds that a duration holds. *)
Definition max_seconds : Z := 9223372036.

Lemma seconds_exact n : (- max_seconds <= n <= max_seconds)%Z → seconds n = (n * Second)%Z.
Proof. unfold max_seconds, seconds, Second. intros H. apply int64_wrap_id. lia. Qed.

(** Beyond it the product wraps around to a negative duration. *)
Lemma seconds_wraps n : (max_seconds < n <= 2 * max_seconds)%Z → (seconds n < 0)%Z.
Proof.
  unfold max_seconds, seconds, Second, int64_wrap. intros H.
  assert ((n * 1000000000 + 2 ^ 63) mod 2 ^ 64 = n * 1000000000 + 2 ^ 63 - 2 ^ 64)%Z as ->; [|lia].
  symmetry. apply (Z.mod_unique _ _ 1); lia.
Qed.
