(* ===== verification/Clientset.v ===== *)
(** * The generated clientset

    src/pkg/apis/proxy/v1alpha1/groupversion_info.go and
    src/pkg/generated/clientset/versioned: the scheme that its types are
    registered in, the construction of the clients from a [rest.Config], and
    the typed client of ManagedProxyConfigurations, whose methods are
    requests of [RestClient].  The addon-manager and the certificate
    controller read their configuration through it. *)

From S2P Require Import Prelude GoStrings Http GoUrl Manifests RestClient.

Local Open Scope string_scope.

(** ** The scheme (apimachinery's [runtime.Scheme]) *)

Abbreviation gvk := (GroupVersion * string)%type.

(** What is registered, in order: a kind and its Go type; and the types that
    are unversioned. *)
Record scheme := MkScheme {
  known : list (gvk * string);
  unversioned : list string
}.

Definition NewScheme : scheme := MkScheme [] [].

Definition lookup_kind (s : scheme) (k : gvk) : option string :=
  snd <$> List.find (λ e, bool_decide (e.1 = k)) (known s).

(** [AddKnownTypeWithName]; [None] is a panic: no version, or another type
    under the same kind. *)
Definition AddKnownTypeWithName (k : gvk) (t : string) (s : scheme) : option scheme :=
  if String.eqb (gv_version k.1) "" then None
  else match lookup_kind s k with
  | Some t' => if String.eqb t t' then Some s else None
  | None => Some (MkScheme (known s ++ [(k, t)])%list (unversioned s))
  end.

(** A Go type: its package and its name. *)
Definition type_name (t : string * string) : string := t.1 ++ "." ++ t.2.

(** [AddKnownTypes]: the kind is the name of the type. *)
Fixpoint AddKnownTypes (gv : GroupVersion) (ts : list (string * string)) (s : scheme)
    : option scheme :=
  match ts with
  | [] => Some s
  | t :: ts => AddKnownTypeWithName (gv, t.2) (type_name t) s ≫= AddKnownTypes gv ts
  end.

Definition metav1_types (l : list string) : list (string * string) := map (pair "metav1") l.

Definition optionsTypes : list string :=
  ["ListOptions"; "GetOptions"; "DeleteOptions"; "CreateOptions"; "UpdateOptions"; "PatchOptions"].

Definition unversionedTypes : list string :=
  ["Status"; "APIVersions"; "APIGroupList"; "APIGroup"; "APIResourceList"].

(** [metav1.AddToGroupVersion]. *)
Definition AddToGroupVersion (gv : GroupVersion) (s : scheme) : option scheme :=
  s ← AddKnownTypeWithName (gv, "WatchEvent") "metav1.WatchEvent" s;
  s ← AddKnownTypeWithName (MkGV (gv_group gv) "__internal", "WatchEvent") "metav1.InternalEvent" s;
  s ← AddKnownTypes gv (metav1_types optionsTypes) s;
  s ← AddKnownTypes (MkGV "" "v1") (metav1_types unversionedTypes) s;
  Some (MkScheme (known s)
    (unversioned s ++ map type_name (metav1_types unversionedTypes))%list).

(** *** groupversion_info.go *)

Definition GroupName : string := "proxy.open-cluster-management.io".
Definition SchemeGroupVersion : GroupVersion := MkGV GroupName "v1alpha1".

Definition addKnownTypes (s : scheme) : option scheme :=
  s ← AddKnownTypes SchemeGroupVersion
        [("v1alpha1", "ManagedProxyConfiguration"); ("v1alpha1", "ManagedProxyConfigurationList")] s;
  AddToGroupVersion SchemeGroupVersion s.

(** [Resource]: a group and a resource. *)
Definition GroupResource (resource : string) : string * string := (GroupName, resource).

(** [IsManagedProxyConfiguration] (pkg/config/agent.go). *)
Definition IsManagedProxyConfiguration (gr : string * string) : bool :=
  if negb (String.eqb gr.1 (gv_group SchemeGroupVersion)) then false
  else if negb (String.eqb gr.2 "managedproxyconfigurations") then false
  else true.

(** *** scheme/register.go *)

(** [SchemeBuilder.AddToScheme] applies the functions in turn. *)
Definition AddToScheme (s : scheme) : option scheme := addKnownTypes s.

Definition init_scheme : option scheme :=
  s ← AddToGroupVersion (MkGV "" "v1") NewScheme;
  AddToScheme s.

Definition Scheme : scheme := default NewScheme init_scheme.

(** *** fake/register.go *)

Definition fake_scheme : option scheme :=
  s ← AddToGroupVersion (MkGV "" "v1") NewScheme;
  AddToScheme s.

(** ** Options as query parameters *)

Record ListOptions := MkListOptions {
  LabelSelector : string;
  FieldSelector : string;
  WatchOpt : bool;
  AllowWatchBookmarks : bool;
  ResourceVersion : string;
  ResourceVersionMatch : string;
  TimeoutSeconds : option Z;
  Limit : Z;
  Continue : string;
  SendInitialEvents : option bool;
  ShardSelector : string
}.

Definition set_watch (o : ListOptions) : ListOptions :=
  MkListOptions (LabelSelector o) (FieldSelector o) true (AllowWatchBookmarks o) (ResourceVersion o)
    (ResourceVersionMatch o) (TimeoutSeconds o) (Limit o) (Continue o) (SendInitialEvents o)
    (ShardSelector o).

Definition no_ListOptions : ListOptions :=
  MkListOptions "" "" false false "" "" None 0 "" None "".

Definition ListOptions_fields (o : ListOptions) : list (string * query_field) :=
  [("labelSelector", QString (LabelSelector o)); ("fieldSelector", QString (FieldSelector o));
   ("watch", QBool (WatchOpt o)); ("allowWatchBookmarks", QBool (AllowWatchBookmarks o));
   ("resourceVersion", QString (ResourceVersion o));
   ("resourceVersionMatch", QString (ResourceVersionMatch o));
   ("timeoutSeconds", QPtrInt (TimeoutSeconds o)); ("limit", QInt (Limit o));
   ("continue", QString (Continue o)); ("sendInitialEvents", QPtrBool (SendInitialEvents o));
   ("shardSelector", QString (ShardSelector o))].

Record GetOptions := MkGetOptions { get_ResourceVersion : string }.

Definition GetOptions_fields (o : GetOptions) : list (string * query_field) :=
  [("resourceVersion", QString (get_ResourceVersion o))].

(** [CreateOptions], [UpdateOptions] and, with [force], [PatchOptions]. *)
Record WriteOptions := MkWriteOptions {
  DryRun : list string;
  Force : option bool;
  FieldManager : string;
  FieldValidation : string
}.

Definition write_fields (o : WriteOptions) : list (string * query_field) :=
  [("dryRun", QStrings (DryRun o)); ("fieldManager", QString (FieldManager o));
   ("fieldValidation", QString (FieldValidation o))].

Definition patch_fields (o : WriteOptions) : list (string * query_field) :=
  [("dryRun", QStrings (DryRun o)); ("force", QPtrBool (Force o));
   ("fieldManager", QString (FieldManager o)); ("fieldValidation", QString (FieldValidation o))].

Record DeleteOptions := MkDeleteOptions {
  GracePeriodSeconds : option Z;
  PropagationPolicy : option string;
  delete_DryRun : list string
}.

Definition not_suitable (t : string) (gv : GroupVersion) : goerror :=
  ENew (t ++ " is not suitable for converting to " ++
        Quote (gv_group gv ++ "/" ++ gv_version gv)).

(** [ParameterCodec.EncodeParameters]: the options must be known for the
    version asked for; their fields are then converted. *)
Definition EncodeParameters (s : scheme) (t : string) (fields : list (string * query_field))
    (to : GroupVersion) : result url_values :=
  match List.filter (λ e, String.eqb e.2 t) (known s) with
  | [] => Err (ENew ("no kind is registered for the type " ++ t ++ " in scheme"))
  | kinds =>
      if existsb (λ e, bool_decide (e.1.1 = to)) kinds || existsb (String.eqb t) (unversioned s)
      then Ok (Convert fields)
      else Err (not_suitable t to)
  end.

(** ** Configuration defaults and construction *)

(** *** typed/proxy/v1alpha1/proxy_client.go *)

Section construction.
Context `{UrlParse}.
Variable DefaultKubernetesUserAgent : string.
(** [TransportFor]: fails on unreadable certificates, say; [true] is a
    transport other than the default one. *)
Variable TransportFor : Config → result bool.

Definition HTTPClientFor (c : Config) : result http_Client :=
  custom ← TransportFor c;
  Ok (MkHttpClient (if custom || (cfg_Timeout c >? 0)%Z then cfg_Timeout c else 0%Z)).

Definition setConfigDefaults (c : Config) : Config :=
  MkConfig (cfg_Host c) (cfg_TLS c) "/apis" (Some SchemeGroupVersion)
    (Some "Codecs.WithoutConversion") (cfg_ContentType c)
    (if String.eqb (cfg_UserAgent c) "" then DefaultKubernetesUserAgent else cfg_UserAgent c)
    (cfg_QPS c) (cfg_Burst c) (cfg_RateLimiter c) (cfg_Timeout c).

Definition proxy_NewForConfigAndClient (c : Config) (h : option http_Client) (fresh : nat)
    : result RESTClient * nat :=
  RESTClientForConfigAndClient (setConfigDefaults c) h fresh.

Definition proxy_NewForConfig (c : Config) (fresh : nat) : result RESTClient * nat :=
  let config := setConfigDefaults c in
  match HTTPClientFor config with
  | Err e => (Err e, fresh)
  | Ok httpClient => proxy_NewForConfigAndClient config (Some httpClient) fresh
  end.

(** *** clientset.go *)

(** The discovery client (client-go): no group version, longer timeout and
    burst when they are not configured. *)
Definition setDiscoveryDefaults (c : Config) : Config :=
  MkConfig (cfg_Host c) (cfg_TLS c) "" None (Some "UniversalDecoder") (cfg_ContentType c)
    (if String.eqb (cfg_UserAgent c) "" then DefaultKubernetesUserAgent else cfg_UserAgent c)
    (cfg_QPS c) (if (cfg_Burst c =? 0)%Z then 300%Z else cfg_Burst c) (cfg_RateLimiter c)
    (if (cfg_Timeout c =? 0)%Z then seconds 32 else cfg_Timeout c).

Definition NewDiscoveryClientForConfigAndClient (c : Config) (h : option http_Client) (fresh : nat)
    : result RESTClient * nat :=
  UnversionedRESTClientForConfigAndClient (setDiscoveryDefaults c) h fresh.

Record Clientset := MkClientset {
  DiscoveryClient : RESTClient;
  proxyV1alpha1 : RESTClient
}.

Definition with_limiter (c : Config) (l : limiter) : Config :=
  MkConfig (cfg_Host c) (cfg_TLS c) (cfg_APIPath c) (cfg_GroupVersion c) (cfg_Serializer c)
    (cfg_ContentType c) (cfg_UserAgent c) (cfg_QPS c) (cfg_Burst c) (Some l) (cfg_Timeout c).

Definition burst_required : goerror :=
  ENew ("burst is required to be greater than 0 when RateLimiter is not set and QPS is set " ++
        "to greater than 0").

(** The limiter that both clients are given, if one is to be made. *)
Definition shared_limiter (c : Config) (fresh : nat) : result Config * nat :=
  match cfg_RateLimiter c with
  | Some _ => (Ok c, fresh)
  | None =>
      if (cfg_QPS c >? 0)%Z then
        if (cfg_Burst c <=? 0)%Z then (Err burst_required, fresh)
        else (Ok (with_limiter c (MkLimiter fresh (cfg_QPS c) (cfg_Burst c))), S fresh)
      else (Ok c, fresh)
  end.

Definition NewForConfigAndClient (c : Config) (h : option http_Client) (fresh : nat)
    : result Clientset * nat :=
  match shared_limiter c fresh with
  | (Err e, fresh) => (Err e, fresh)
  | (Ok c, fresh) =>
      match proxy_NewForConfigAndClient c h fresh with
      | (Err e, fresh) => (Err e, fresh)
      | (Ok p, fresh) =>
          match NewDiscoveryClientForConfigAndClient c h fresh with
          | (Err e, fresh) => (Err e, fresh)
          | (Ok d, fresh) => (Ok (MkClientset d p), fresh)
          end
      end
  end.

Definition NewForConfig (c : Config) (fresh : nat) : result Clientset * nat :=
  match HTTPClientFor c with
  | Err e => (Err e, fresh)
  | Ok httpClient => NewForConfigAndClient c (Some httpClient) fresh
  end.

(** [NewForConfigOrDie]; [None] is a panic. *)
Definition NewForConfigOrDie (c : Config) (fresh : nat) : option Clientset :=
  match (NewForConfig c fresh).1 with Ok cs => Some cs | Err _ => None end.

Definition proxy_NewForConfigOrDie (c : Config) (fresh : nat) : option RESTClient :=
  match (proxy_NewForConfig c fresh).1 with Ok cs => Some cs | Err _ => None end.
End construction.

(** [New]: both clients on the given REST client. *)
Definition New (c : RESTClient) : Clientset := MkClientset c c.

(** The accessors accept a nil receiver. *)
Definition Discovery (c : option Clientset) : option RESTClient := DiscoveryClient <$> c.
Definition ProxyV1alpha1 (c : Clientset) : RESTClient := proxyV1alpha1 c.

(** ** Objects *)

(** A configuration as the clients see it: the object of the controllers and
    the metadata that clients and caches read. *)
Record configuration := MkConfiguration {
  c_namespace : string;
  c_labels : gmap string string;
  c_resourceVersion : string;
  c_object : ManagedProxyConfiguration
}.

Definition c_name (o : configuration) : string := mpc_name (c_object o).

Record configuration_list := MkConfigurationList {
  l_resourceVersion : string;
  l_items : list configuration
}.

(** [&v1alpha1.ManagedProxyConfiguration{}] and the empty list. *)
Definition zero_object : ManagedProxyConfiguration :=
  MkMPC "" "" 0 None "" "" "" (MkProxyServerSpec "" 0 "" "" None [] ∅ []) None (MkStatus 0 []).
Definition zero_configuration : configuration := MkConfiguration "" ∅ "" zero_object.
Definition zero_list : configuration_list := MkConfigurationList "" [].

Inductive body_object := BConfiguration (o : configuration) | BDeleteOptions (o : DeleteOptions).

(** What comes back from an exchange: an error (the exchange failed, or the
    server answered with a failure), an object of one of the two kinds, or
    another object that the serializer knows, such as a successful Status. *)
Inductive response :=
| RespError (e : goerror)
| RespConfiguration (o : configuration)
| RespList (l : configuration_list)
| RespOther.

(** [Result.Into]: an object of another kind is no error, and leaves the
    target as it is. *)
Definition Into (target : configuration) (r : response) : configuration * option goerror :=
  match r with
  | RespError e => (target, Some e)
  | RespConfiguration o => (o, None)
  | _ => (target, None)
  end.

Definition Into_list (target : configuration_list) (r : response)
    : configuration_list * option goerror :=
  match r with
  | RespError e => (target, Some e)
  | RespList l => (l, None)
  | _ => (target, None)
  end.

Definition Error (r : response) : option goerror :=
  match r with RespError e => Some e | _ => None end.

(** ** typed/proxy/v1alpha1/managedproxyconfiguration.go *)

Definition resource : string := "managedproxyconfigurations".

Definition options_timeout (o : ListOptions) : Z :=
  match TimeoutSeconds o with Some n => seconds n | None => 0%Z end.

Section typed_client.
Variable encode : string → body_object → result string.
Variable exchange : wire_request → response.
Variable stream : Type.
Variable open_watch : wire_request → result stream.
Variable c : RESTClient.

Definition params (t : string) (fields : list (string * query_field)) : result url_values :=
  EncodeParameters Scheme t fields (rc_GroupVersion c).

Definition send (r : rest_Request) : response :=
  match prepared r with Err e => RespError e | Ok w => exchange w end.

Definition Get_request (name : string) (options : GetOptions) : rest_Request :=
  VersionedParams (params "metav1.GetOptions" (GetOptions_fields options))
    (Name name (Resource resource (Verb c "GET"))).

Definition Get (name : string) (options : GetOptions) : configuration * option goerror :=
  Into zero_configuration (send (Get_request name options)).

Definition List_request (opts : ListOptions) : rest_Request :=
  let timeout := options_timeout opts in
  SetTimeout timeout
    (VersionedParams (params "metav1.ListOptions" (ListOptions_fields opts))
       (Resource resource (Verb c "GET"))).

Definition List (opts : ListOptions) : configuration_list * option goerror :=
  Into_list zero_list (send (List_request opts)).

Definition Watch (opts : ListOptions) : result stream :=
  w ← prepared_watch (List_request (set_watch opts)); open_watch w.

Definition Create_request (o : option configuration) (opts : WriteOptions) : rest_Request :=
  Body encode (BodyObject (BConfiguration <$> o))
    (VersionedParams (params "metav1.CreateOptions" (write_fields opts))
       (Resource resource (Verb c "POST"))).

Definition Create (o : option configuration) (opts : WriteOptions) : configuration * option goerror :=
  Into zero_configuration (send (Create_request o opts)).

Definition Update_request (o : configuration) (opts : WriteOptions) : rest_Request :=
  Body encode (BodyObject (Some (BConfiguration o)))
    (VersionedParams (params "metav1.UpdateOptions" (write_fields opts))
       (Name (c_name o) (Resource resource (Verb c "PUT")))).

Definition Update (o : configuration) (opts : WriteOptions) : configuration * option goerror :=
  Into zero_configuration (send (Update_request o opts)).

Definition UpdateStatus_request (o : configuration) (opts : WriteOptions) : rest_Request :=
  Body encode (BodyObject (Some (BConfiguration o)))
    (VersionedParams (params "metav1.UpdateOptions" (write_fields opts))
       (SubResource ["status"] (Name (c_name o) (Resource resource (Verb c "PUT"))))).

Definition UpdateStatus (o : configuration) (opts : WriteOptions) : configuration * option goerror :=
  Into zero_configuration (send (UpdateStatus_request o opts)).

Definition Delete_request (name : string) (opts : DeleteOptions) : rest_Request :=
  Body encode (BodyObject (Some (BDeleteOptions opts)))
    (Name name (Resource resource (Verb c "DELETE"))).

Definition Delete (name : string) (opts : DeleteOptions) : option goerror :=
  Error (send (Delete_request name opts)).

Definition DeleteCollection_request (opts : DeleteOptions) (listOpts : ListOptions) : rest_Request :=
  let timeout := options_timeout listOpts in
  Body encode (BodyObject (Some (BDeleteOptions opts)))
    (SetTimeout timeout
       (VersionedParams (params "metav1.ListOptions" (ListOptions_fields listOpts))
          (Resource resource (Verb c "DELETE")))).

Definition DeleteCollection (opts : DeleteOptions) (listOpts : ListOptions) : option goerror :=
  Error (send (DeleteCollection_request opts listOpts)).

Definition Patch_request (name pt data : string) (opts : WriteOptions) (subresources : list string)
    : rest_Request :=
  Body encode (BodyBytes data)
    (VersionedParams (params "metav1.PatchOptions" (patch_fields opts))
       (SubResource subresources (Name name (Resource resource (PatchVerb c pt))))).

Definition Patch (name pt data : string) (opts : WriteOptions) (subresources : list string)
    : configuration * option goerror :=
  Into zero_configuration (send (Patch_request name pt data opts subresources)).
End typed_client.

(** *** The operations of the typed client *)

Inductive operation :=
| OpGet (name : string) (options : GetOptions)
| OpList (opts : ListOptions)
| OpWatch (opts : ListOptions)
| OpCreate (o : option configuration) (opts : WriteOptions)
| OpUpdate (o : configuration) (opts : WriteOptions)
| OpUpdateStatus (o : configuration) (opts : WriteOptions)
| OpDelete (name : string) (opts : DeleteOptions)
| OpDeleteCollection (opts : DeleteOptions) (listOpts : ListOptions)
| OpPatch (name pt data : string) (opts : WriteOptions) (subresources : list string).

Definition op_request (encode : string → body_object → result string) (c : RESTClient)
    (op : operation) : rest_Request :=
  match op with
  | OpGet name options => Get_request c name options
  | OpList opts => List_request c opts
  | OpWatch opts => List_request c (set_watch opts)
  | OpCreate o opts => Create_request encode c o opts
  | OpUpdate o opts => Update_request encode c o opts
  | OpUpdateStatus o opts => UpdateStatus_request encode c o opts
  | OpDelete name opts => Delete_request encode c name opts
  | OpDeleteCollection opts listOpts => DeleteCollection_request encode c opts listOpts
  | OpPatch name pt data opts subs => Patch_request encode c name pt data opts subs
  end.

(** What an operation puts on the wire, or why it sends nothing. *)
Definition op_sent (encode : string → body_object → result string) (c : RESTClient)
    (op : operation) : result wire_request :=
  match op with
  | OpWatch _ => prepared_watch (op_request encode c op)
  | _ => prepared (op_request encode c op)
  end.

Definition op_method (op : operation) : string :=
  match op with
  | OpGet _ _ | OpList _ | OpWatch _ => "GET"
  | OpCreate _ _ => "POST"
  | OpUpdate _ _ | OpUpdateStatus _ _ => "PUT"
  | OpDelete _ _ | OpDeleteCollection _ _ => "DELETE"
  | OpPatch _ _ _ _ _ => "PATCH"
  end.

(** The name that an operation is about, and the subresource. *)
Definition op_name (op : operation) : option string :=
  match op with
  | OpGet name _ | OpDelete name _ | OpPatch name _ _ _ _ => Some name
  | OpUpdate o _ | OpUpdateStatus o _ => Some (c_name o)
  | _ => None
  end.

Definition op_subresources (op : operation) : option (list string) :=
  match op with
  | OpUpdateStatus _ _ => Some ["status"]
  | OpPatch _ _ _ _ subs => Some subs
  | _ => None
  end.

(** The query parameters, and the timeout where the operation sets one. *)
Definition op_params (op : operation) : option url_values :=
  match op with
  | OpGet _ o => Some (Convert (GetOptions_fields o))
  | OpList o | OpDeleteCollection _ o => Some (Convert (ListOptions_fields o))
  | OpWatch o => Some (Convert (ListOptions_fields (set_watch o)))
  | OpCreate _ o | OpUpdate _ o | OpUpdateStatus _ o => Some (Convert (write_fields o))
  | OpDelete _ _ => None
  | OpPatch _ _ _ o _ => Some (Convert (patch_fields o))
  end.

Definition op_timeout (op : operation) : option Z :=
  match op with
  | OpList o | OpWatch o | OpDeleteCollection _ o => Some (options_timeout o)
  | _ => None
  end.

Definition op_start (c : RESTClient) (op : operation) : rest_Request :=
  match op with
  | OpPatch _ pt _ _ _ => PatchVerb c pt
  | _ => Verb c (op_method op)
  end.

Definition op_body (op : operation) : option (request_body body_object) :=
  match op with
  | OpGet _ _ | OpList _ | OpWatch _ => None
  | OpCreate o _ => Some (BodyObject (BConfiguration <$> o))
  | OpUpdate o _ | OpUpdateStatus o _ => Some (BodyObject (Some (BConfiguration o)))
  | OpDelete _ opts | OpDeleteCollection opts _ => Some (BodyObject (Some (BDeleteOptions opts)))
  | OpPatch _ _ data _ _ => Some (BodyBytes data)
  end.

(** The segments that an operation addresses below the server's base path. *)
Definition op_segments (op : operation) : list string :=
  (["apis"; GroupName; "v1alpha1"; resource] ++
  match op_name op with Some n => [n] | None => [] end ++
  nonempty_segments (default [] (op_subresources op)))%list.

(** An operation that can be sent. *)
Definition op_valid (encode : string → body_object → result string) (c : RESTClient)
    (op : operation) : bool :=
  chain_valid encode (op_name op) (op_subresources op) (op_body op) c.

(** ** The scheme *)

Definition encodable (s : scheme) (t : string) (to : GroupVersion) : bool :=
  existsb (λ e, bool_decide (e.1.1 = to)) (List.filter (λ e, String.eqb e.2 t) (known s)).

Lemma EncodeParameters_ok s t fields to :
  encodable s t to = true → EncodeParameters s t fields to = Ok (Convert fields).
Proof.
  unfold encodable, EncodeParameters. destruct (List.filter _ _) eqn:E; [done|].
  by intros ->.
Qed.

(** Registration does not panic, and all options are known for the group. *)
Lemma options_registered :
  init_scheme = Some Scheme ∧
  Forall (λ t, encodable Scheme (type_name ("metav1", t)) SchemeGroupVersion = true) optionsTypes.
Proof. split; [by vm_compute | by repeat constructor]. Qed.

Lemma params_ok c t fields :
  rc_GroupVersion c = SchemeGroupVersion → encodable Scheme t SchemeGroupVersion = true →
  params c t fields = Ok (Convert fields).
Proof. intros Hgv Ht. unfold params. rewrite Hgv. by apply EncodeParameters_ok. Qed.

(** ** Requests of the typed client *)

Lemma op_request_chain encode c op :
  rc_GroupVersion c = SchemeGroupVersion →
  op_request encode c op =
  chain encode (op_name op) (op_subresources op) (op_params op) (op_timeout op) (op_body op)
    (Resource resource (op_start c op)).
Proof.
  intros Hgv.
  destruct op; cbn [op_request op_name op_subresources op_params op_timeout op_body op_start
                    op_method chain opt];
    unfold Get_request, List_request, Create_request, Update_request, UpdateStatus_request,
      Delete_request, DeleteCollection_request, Patch_request; try done.
  all: repeat match goal with
  | |- context [params ?c ?t ?f] => rewrite (params_ok c t f Hgv) by (by vm_compute)
  end; done.
Qed.

Lemma op_start_fresh c op :
  let r := Resource resource (op_start c op) in
  fresh_request r ∧ rr_client r = c ∧ rr_verb r = op_method op ∧
  rr_pathPrefix r = abs_path (api_segments c) ∧ rr_resource r = resource ∧
  rr_timeout r = match rc_Client c with Some h => client_Timeout h | None => 0%Z end.
Proof.
  assert (∀ c v, rr_pathPrefix (Verb c v) = abs_path (api_segments c)) as Hp
    by apply pathPrefix_segments.
  assert (Resource resource (op_start c op) = with_resource (op_start c op) resource) as ->
    by by destruct op.
  destruct op; cbn [op_start op_method]; repeat split; apply Hp.
Qed.

(** The client's own path. *)
Definition versioned_segments : list string := ["apis"; GroupName; "v1alpha1"].

Definition op_query (c : RESTClient) (op : operation) : url_values :=
  let t := default (match rc_Client c with Some h => client_Timeout h | None => 0%Z end)
             (op_timeout op) in
  if (t =? 0)%Z then default ∅ (op_params op)
  else <["timeout" := [Duration_String t]]> (default ∅ (op_params op)).

(** The path of a request whose settings succeeded. *)
Lemma op_path c op r :
  rc_versionedAPIPath c = abs_path versioned_segments →
  match op_name op with Some n => sendable_name n | None => true end = true →
  invalid_segment (default [] (op_subresources op)) = None →
  rr_pathPrefix r = abs_path (api_segments c) → rr_resource r = resource →
  rr_resourceName r = default "" (op_name op) →
  rr_subresource r = path_Join (default [] (op_subresources op)) →
  let segs := (components true (Path (rc_base c)) ++ op_segments op)%list in
  url_path r = abs_path segs ∧ Forall (λ s, proper_segment s = true) segs.
Proof.
  intros Hv Hname Hsubs Hp Hr Hn Hs segs.
  pose proof (path_Join_segments _ (invalid_segment_none _ Hsubs)) as Hrel. rewrite <- Hs in Hrel.
  assert (relative_of (rr_resourceName r) (match op_name op with Some n => [n] | None => [] end))
    as Hrel'.
  { rewrite Hn. destruct (op_name op) as [n|]; cbn; [|apply relative_none].
    unfold sendable_name in Hname. bool_to_prop. by apply relative_one. }
  pose proof (api_segments_under c versioned_segments ltac:(by repeat constructor) Hv) as Hapi.
  assert (Forall (λ s, proper_segment s = true) (api_segments c)) as Hbase
    by apply components_proper.
  split.
  - rewrite (url_path_segments r (api_segments c) _ _ Hp Hbase) with (2 := Hrel') (3 := Hrel)
      by by rewrite Hr.
    rewrite Hr, Hapi, <- app_assoc. done.
  - unfold segs, op_segments. rewrite Forall_app. split; [apply components_proper|].
    destruct Hrel as [_ Hrel], Hrel' as [_ Hrel']. rewrite !Forall_app. repeat split; try done.
    by repeat constructor.
Qed.

Lemma op_request_spec encode c op :
  rc_GroupVersion c = SchemeGroupVersion → rc_versionedAPIPath c = abs_path versioned_segments →
  no_err (op_request encode c op) = op_valid encode c op ∧
  (op_valid encode c op = true →
   let segs := (components true (Path (rc_base c)) ++ op_segments op)%list in
   rr_client (op_request encode c op) = c ∧
   rr_verb (op_request encode c op) = op_method op ∧
   url_path (op_request encode c op) = abs_path segs ∧
   Forall (λ s, proper_segment s = true) segs ∧
   url_query (op_request encode c op) = op_query c op ∧
   match op_body op with
   | Some b => body_data encode (content_type c) b = Ok (rr_bodyBytes (op_request encode c op))
   | None => rr_bodyBytes (op_request encode c op) = None
   end).
Proof.
  intros Hgv Hv. rewrite (op_request_chain encode c op Hgv).
  destruct (op_start_fresh c op) as (Hf & Hc & Hm & Hp & Hr & Ht).
  set (r := Resource resource (op_start c op)) in *.
  split; [by rewrite chain_no_err, Hc|]. intros Hok.
  assert (no_err (chain encode (op_name op) (op_subresources op) (op_params op) (op_timeout op)
            (op_body op) r) = true) as Hn by by rewrite chain_no_err, Hc.
  apply chain_chained in Hn as []; [|done].
  unfold op_valid, chain_valid in Hok. bool_to_prop.
  destruct (invalid_segment (default [] (op_subresources op))) eqn:Hsubs; [done|].
  destruct (op_path c op _ Hv ltac:(eassumption) Hsubs (eq_trans chained_prefix Hp)
    (eq_trans chained_resource Hr) chained_name chained_sub) as [Hpath Hall].
  repeat split; [by rewrite chained_client | by rewrite chained_verb | done | done | |].
  - unfold url_query, op_query. by rewrite chained_timeout, chained_params, Ht.
  - by rewrite Hc in chained_body.
Qed.

(** ** Construction *)

Section construction_facts.
Context `{UrlParse}.
Variable UA : string.
Variable TransportFor : Config → result bool.

Lemma slashed_components p :
  components true (if HasSuffix p "/" then p else p ++ "/") = components true p.
Proof.
  destruct (HasSuffix p "/"); [done|].
  rewrite <- (app_nil_r (components true p)).
  by apply (components_extend true p "" []), relative_none.
Qed.

Lemma client_limiter_defaults c fresh :
  client_limiter (setConfigDefaults UA c) fresh = client_limiter c fresh.
Proof. done. Qed.

(** What a REST client made from a configuration is. *)
Lemma rest_client_facts c h fresh r n :
  UnversionedRESTClientForConfigAndClient c h fresh = (Ok r, n) →
  rc_GroupVersion r = default meta_v1 (cfg_GroupVersion c) ∧ rc_Client r = h ∧
  (rc_rateLimiter r, n) = client_limiter c fresh ∧
  ∃ base, DefaultServerUrlFor c = Ok (base, rc_versionedAPIPath r) ∧
    GoUrl.Scheme (rc_base r) = GoUrl.Scheme base ∧ Host (rc_base r) = Host base ∧
    components true (Path (rc_base r)) = components true (Path base).
Proof.
  unfold UnversionedRESTClientForConfigAndClient.
  destruct (cfg_Serializer c); [|done].
  destruct (DefaultServerUrlFor c) as [[base vp]|]; [|done].
  destruct (client_limiter c fresh) as [l m]. intros [= <- <-]. cbn.
  repeat split. exists base. repeat split. apply slashed_components.
Qed.

Lemma server_url_version c base vp :
  DefaultServerUrlFor c = Ok (base, vp) →
  vp = DefaultVersionedAPIPath (cfg_APIPath c) (default (MkGV "" "") (cfg_GroupVersion c)).
Proof.
  unfold DefaultServerUrlFor, DefaultServerURL. rewrite bind_ok. by intros (u & _ & [= _ <-]).
Qed.

Lemma proxy_client_facts c h fresh r n :
  proxy_NewForConfigAndClient UA c h fresh = (Ok r, n) →
  rc_GroupVersion r = SchemeGroupVersion ∧ rc_versionedAPIPath r = abs_path versioned_segments ∧
  rc_Client r = h ∧ (rc_rateLimiter r, n) = client_limiter c fresh ∧
  ∃ base, DefaultServerUrlFor (setConfigDefaults UA c) = Ok (base, abs_path versioned_segments) ∧
    GoUrl.Scheme (rc_base r) = GoUrl.Scheme base ∧ Host (rc_base r) = Host base ∧
    components true (Path (rc_base r)) = components true (Path base).
Proof.
  unfold proxy_NewForConfigAndClient, RESTClientForConfigAndClient. cbn [cfg_GroupVersion setConfigDefaults].
  intros (Hg & Hh & Hl & base & Hs & Hb)%rest_client_facts.
  pose proof (server_url_version _ _ _ Hs) as Hv. vm_compute (DefaultVersionedAPIPath _ _) in Hv.
  rewrite Hv in *. repeat split; try done. exists base. done.
Qed.

(** A clientset from its configuration: its parts. *)
Lemma clientset_facts c h fresh cs n :
  NewForConfigAndClient UA c h fresh = (Ok cs, n) →
  ∃ c' m1 m2, shared_limiter c fresh = (Ok c', m1) ∧
    proxy_NewForConfigAndClient UA c' h m1 = (Ok (proxyV1alpha1 cs), m2) ∧
    NewDiscoveryClientForConfigAndClient UA c' h m2 = (Ok (DiscoveryClient cs), n).
Proof.
  unfold NewForConfigAndClient. destruct (shared_limiter c fresh) as [[c'|] m1]; [|done].
  destruct (proxy_NewForConfigAndClient UA c' h m1) as [[p|] m2] eqn:Hp; [|done].
  destruct (NewDiscoveryClientForConfigAndClient UA c' h m2) as [[d|] m3] eqn:Hd; [|done].
  intros [= <- <-]. by exists c', m1, m2.
Qed.

Lemma shared_limiter_server c fresh c' n :
  shared_limiter c fresh = (Ok c', n) →
  DefaultServerUrlFor (setConfigDefaults UA c') = DefaultServerUrlFor (setConfigDefaults UA c).
Proof.
  unfold shared_limiter. repeat case_match; by intros [= <- <-].
Qed.
End construction_facts.

(** ** The typed client keeps to its resource *)

Lemma op_sent_prepared encode c op :
  op_sent encode c op =
  match rr_err (op_request encode c op) with
  | Some e => Err e
  | None =>
      let r := op_request encode c op in
      Ok (match op with
          | OpWatch _ => newHTTPRequest r None None
          | _ => newHTTPRequest r (if (rr_timeout r >? 0)%Z then Some (rr_timeout r) else None)
                   (rc_rateLimiter (rr_client r))
          end)
  end.
Proof. by destruct op; cbn; unfold prepared, prepared_watch; destruct (rr_err _). Qed.

Definition op_is_watch (op : operation) : bool :=
  match op with OpWatch _ => true | _ => false end.

Lemma Split_abs segs :
  segs ≠ [] → Forall (λ s, proper_segment s = true) segs → Split "/" (abs_path segs) = "" :: segs.
Proof.
  intros Hne Hs. unfold abs_path. change ("/" ++ Join segs "/") with ("" ++ String "/" (Join segs "/")).
  rewrite Split_app, Split_Join; [done | done |].
  eapply Forall_impl; [exact Hs|]. intros x Hx. by apply proper_segment_spec in Hx as [].
Qed.

(** What the operations of a client send. *)
Lemma op_sent_spec encode c op :
  rc_GroupVersion c = SchemeGroupVersion → rc_versionedAPIPath c = abs_path versioned_segments →
  match op_sent encode c op with
  | Err _ => op_valid encode c op = false
  | Ok w =>
      op_valid encode c op = true ∧ w_method w = op_method op ∧
      w_scheme w = GoUrl.Scheme (rc_base c) ∧ w_host w = Host (rc_base c) ∧
      Split "/" (w_path w) = "" :: components true (Path (rc_base c)) ++ op_segments op ∧
      w_query w = op_query c op ∧
      match op_body op with
      | Some b => body_data encode (content_type c) b = Ok (w_body w)
      | None => w_body w = None
      end ∧
      w_limiter w = if op_is_watch op then None else rc_rateLimiter c
  end.
Proof.
  intros Hgv Hv. destruct (op_request_spec encode c op Hgv Hv) as [Hok H].
  rewrite op_sent_prepared. unfold no_err in Hok.
  destruct (rr_err (op_request encode c op)); [by rewrite <- Hok|].
  destruct (H (eq_sym Hok)) as (Hc & Hm & Hp & Hall & Hq & Hb). cbv zeta.
  assert (Split "/" (url_path (op_request encode c op)) =
          "" :: components true (Path (rc_base c)) ++ op_segments op) as Hsplit.
  { rewrite Hp. apply Split_abs; [|done]. by destruct (components true _). }
  destruct op; cbn [newHTTPRequest w_method w_scheme w_host w_path w_query w_body w_limiter op_is_watch];
    rewrite Hc; repeat split; done.
Qed.

(** The proxy client of a clientset: its version, its path, its server. *)
Lemma clientset_proxy_client `{UrlParse} UA TransportFor config fresh cs n :
  NewForConfig UA TransportFor config fresh = (Ok cs, n) →
  let c := ProxyV1alpha1 cs in
  rc_GroupVersion c = SchemeGroupVersion ∧ rc_versionedAPIPath c = abs_path versioned_segments ∧
  ∃ base, DefaultServerUrlFor (setConfigDefaults UA config) =
            Ok (base, "/apis/proxy.open-cluster-management.io/v1alpha1") ∧
    GoUrl.Scheme (rc_base c) = GoUrl.Scheme base ∧ Host (rc_base c) = Host base ∧
    components true (Path (rc_base c)) = components true (Path base).
Proof.
  unfold NewForConfig. destruct (HTTPClientFor TransportFor config) as [h|]; [|done].
  intros (c' & m1 & m2 & Hsh & Hp & _)%clientset_facts. unfold ProxyV1alpha1. cbv zeta.
  destruct (proxy_client_facts _ _ _ _ _ _ Hp) as (Hgv & Hv & _ & _ & base & Hb & Hs & Hh & Hpath).
  rewrite (shared_limiter_server UA _ _ _ _ Hsh) in Hb.
  split; [done|]. split; [done|]. exists base. by rewrite Hs, Hh, Hpath.
Qed.

(** C33: every operation of the typed client that a clientset offers either
    sends nothing, because its name or subresource is not a path segment or
    its body cannot be encoded, or sends one request with the operation's
    method to the configured server, whose path has, below the server's base
    path, exactly the segments of this API's resource and of the object
    named; no name or subresource reaches another resource. *)
Theorem typed_client_keeps_to_resource `{UrlParse} encode UA TransportFor config fresh cs n op :
  NewForConfig UA TransportFor config fresh = (Ok cs, n) →
  let c := ProxyV1alpha1 cs in
  match op_sent encode c op with
  | Err _ => op_valid encode c op = false
  | Ok w =>
      op_valid encode c op = true ∧ w_method w = op_method op ∧
      (∃ base, DefaultServerUrlFor (setConfigDefaults UA config) =
                 Ok (base, "/apis/proxy.open-cluster-management.io/v1alpha1") ∧
         w_scheme w = GoUrl.Scheme base ∧ w_host w = Host base ∧
         Split "/" (w_path w) = "" :: components true (Path base) ++
           ["apis"; "proxy.open-cluster-management.io"; "v1alpha1"; "managedproxyconfigurations"] ++
           match op_name op with Some name => [name] | None => [] end ++
           nonempty_segments (default [] (op_subresources op))) ∧
      w_query w = op_query c op ∧
      match op_body op with
      | Some b => body_data encode (content_type c) b = Ok (w_body w)
      | None => w_body w = None
      end
  end.
Proof.
  intros (Hgv & Hv & base & Hb & Hs & Hh & Hpath)%clientset_proxy_client. cbv zeta.
  set (c := ProxyV1alpha1 cs) in *. pose proof (op_sent_spec encode c op Hgv Hv) as Hsent.
  destruct (op_sent encode c op) as [w|e]; [|done].
  destruct Hsent as (? & ? & Hws & Hwh & Hwp & ? & ? & _). repeat split; try done.
  exists base. repeat split; [done | by rewrite Hws | by rewrite Hwh |].
  by rewrite Hwp, Hpath.
Qed.

(** ** Rate limits *)

(** Whether a server URL can be made depends on the host only. *)
Lemma server_url_same `{UrlParse} c c' :
  cfg_Host c = cfg_Host c' → cfg_TLS c = cfg_TLS c' →
  match DefaultServerUrlFor c with
  | Ok _ => is_ok (DefaultServerUrlFor c') = true
  | Err e => DefaultServerUrlFor c' = Err e
  end.
Proof.
  intros Hh Ht. unfold DefaultServerUrlFor, DefaultServerURL. rewrite Hh, Ht.
  by destruct (server_host _ _).
Qed.

Lemma rest_client_cases `{UrlParse} c h fresh s :
  cfg_Serializer c = Some s →
  match DefaultServerUrlFor c with
  | Ok _ => ∃ r, UnversionedRESTClientForConfigAndClient c h fresh = (Ok r, (client_limiter c fresh).2) ∧
                 rc_rateLimiter r = (client_limiter c fresh).1
  | Err e => UnversionedRESTClientForConfigAndClient c h fresh = (Err e, fresh)
  end.
Proof.
  intros Hs. unfold UnversionedRESTClientForConfigAndClient. rewrite Hs.
  destruct (DefaultServerUrlFor c) as [[base vp]|e]; [|done].
  destruct (client_limiter c fresh). eauto.
Qed.

(** The two clients of a configuration that a limiter has been settled for. *)
Definition proxy_limiter (UA : string) (c : Config) (fresh : nat) : option limiter * nat :=
  client_limiter (setConfigDefaults UA c) fresh.
Definition discovery_limiter (UA : string) (c : Config) (fresh : nat) : option limiter * nat :=
  client_limiter (setDiscoveryDefaults UA c) fresh.

Lemma clientset_cases `{UrlParse} UA c h fresh :
  match shared_limiter c fresh with
  | (Err e, _) => (NewForConfigAndClient UA c h fresh).1 = Err e
  | (Ok c', m) =>
      match DefaultServerUrlFor (setConfigDefaults UA c) with
      | Err e => (NewForConfigAndClient UA c h fresh).1 = Err e
      | Ok _ => ∃ cs, (NewForConfigAndClient UA c h fresh).1 = Ok cs ∧
          rc_rateLimiter (proxyV1alpha1 cs) = (proxy_limiter UA c' m).1 ∧
          rc_rateLimiter (DiscoveryClient cs) =
            (discovery_limiter UA c' (proxy_limiter UA c' m).2).1
      end
  end.
Proof.
  unfold NewForConfigAndClient. destruct (shared_limiter c fresh) as [[c'|e] m] eqn:Hsh; [|done].
  pose proof (shared_limiter_server UA _ _ _ _ Hsh) as Hurl. rewrite <- Hurl. clear Hurl.
  unfold proxy_NewForConfigAndClient, RESTClientForConfigAndClient, NewDiscoveryClientForConfigAndClient.
  cbn [cfg_GroupVersion setConfigDefaults].
  pose proof (rest_client_cases (setConfigDefaults UA c') h m _ eq_refl) as Hp.
  pose proof (server_url_same (setConfigDefaults UA c') (setDiscoveryDefaults UA c') eq_refl eq_refl) as Hu.
  destruct (DefaultServerUrlFor (setConfigDefaults UA c')) as [u|e]; [|by rewrite Hp].
  destruct Hp as (p & -> & Hlp).
  pose proof (rest_client_cases (setDiscoveryDefaults UA c') h
    (client_limiter (setConfigDefaults UA c') m).2 _ eq_refl) as Hd.
  destruct (DefaultServerUrlFor (setDiscoveryDefaults UA c')) as [u'|e]; [|done].
  destruct Hd as (d & -> & Hld). exists (MkClientset d p). done.
Qed.

(** A clientset fails exactly when the server's address is unusable or a
    rate is asked for without a burst; otherwise its two clients draw on one
    budget when a limiter or a rate is configured, each on one of its own,
    with the default rate, when nothing is configured, and are not limited
    when the rate is negative. *)
Theorem clientset_budget `{UrlParse} UA config h fresh :
  match (NewForConfigAndClient UA config h fresh).1 with
  | Err e =>
      (cfg_RateLimiter config = None ∧ (cfg_QPS config > 0)%Z ∧ (cfg_Burst config <= 0)%Z ∧
       e = burst_required) ∨
      DefaultServerUrlFor (setConfigDefaults UA config) = Err e
  | Ok cs =>
      is_ok (DefaultServerUrlFor (setConfigDefaults UA config)) = true ∧
      let l1 := rc_rateLimiter (proxyV1alpha1 cs) in
      let l2 := rc_rateLimiter (DiscoveryClient cs) in
      match cfg_RateLimiter config with
      | Some l => l1 = Some l ∧ l2 = Some l
      | None =>
          if (cfg_QPS config >? 0)%Z
          then (cfg_Burst config > 0)%Z ∧ l1 = l2 ∧
               l1 = Some (MkLimiter fresh (cfg_QPS config) (cfg_Burst config))
          else if (cfg_QPS config =? 0)%Z
          then ∃ a b, l1 = Some a ∧ l2 = Some b ∧ limiter_id a ≠ limiter_id b ∧
                 limiter_qps a = DefaultQPS ∧ limiter_qps b = DefaultQPS ∧
                 (cfg_Burst config = 0%Z → limiter_burst a = 10%Z ∧ limiter_burst b = 300%Z)
          else l1 = None ∧ l2 = None
      end
  end.
Proof.
  pose proof (clientset_cases UA config h fresh) as H0.
  destruct (shared_limiter config fresh) as [[c'|e] m] eqn:Hsh; unfold shared_limiter in Hsh.
  - destruct (DefaultServerUrlFor (setConfigDefaults UA config)) as [u|e];
      [destruct H0 as (cs & -> & -> & ->) | rewrite H0; by right].
    split; [done|]. cbv zeta. unfold proxy_limiter, discovery_limiter, client_limiter.
    destruct (cfg_RateLimiter config) eqn:Hl.
    + injection Hsh as <- <-. cbn. by rewrite Hl.
    + destruct (cfg_QPS config >? 0)%Z eqn:Hq.
      * destruct (cfg_Burst config <=? 0)%Z eqn:Hb; [done|]. injection Hsh as <- <-. cbn.
        repeat split. lia.
      * injection Hsh as <- <-.
        cbn [cfg_RateLimiter cfg_QPS cfg_Burst setConfigDefaults setDiscoveryDefaults]. rewrite Hl.
        destruct (cfg_QPS config =? 0)%Z eqn:Hz; [|by rewrite Hq].
        change (DefaultQPS >? 0)%Z with true. cbn iota.
        eexists _, _. split; [done|]. split; [done|]. cbn [limiter_id limiter_qps limiter_burst fst snd].
        split; [lia|]. split; [done|]. split; [done|]. by intros ->.
  - rewrite H0. left.
    destruct (cfg_RateLimiter config) eqn:Hl; [done|].
    destruct (cfg_QPS config >? 0)%Z eqn:Hq; [|done].
    destruct (cfg_Burst config <=? 0)%Z eqn:Hb; [|done]. injection Hsh as <- <-.
    repeat split; lia.
Qed.

(** ** Timeouts *)

Lemma op_deadline encode c op w :
  rc_GroupVersion c = SchemeGroupVersion → op_sent encode c op = Ok w →
  w_deadline w =
  (if op_is_watch op then None
   else let t := default (match rc_Client c with Some h => client_Timeout h | None => 0%Z end)
                   (op_timeout op) in
        if (t >? 0)%Z then Some t else None).
Proof.
  intros Hgv. rewrite op_sent_prepared.
  destruct (rr_err (op_request encode c op)) eqn:E; [done|]. intros [= <-].
  destruct (op_start_fresh c op) as (Hf & _ & _ & _ & _ & Ht).
  assert (rr_timeout (op_request encode c op) =
          default (match rc_Client c with Some h => client_Timeout h | None => 0%Z end) (op_timeout op))
    as Htime.
  { rewrite (op_request_chain encode c op Hgv) in E |- *. apply no_err_spec in E.
    rewrite (chained_timeout _ _ _ _ _ _ _ _ (chain_chained _ _ _ _ _ _ _ Hf E)). by rewrite Ht. }
  cbv zeta. rewrite <- Htime. clear. generalize (op_request encode c op) as r. by destruct op.
Qed.

(** The operations that take list options. *)
Definition op_list_options (op : operation) : option ListOptions :=
  match op with
  | OpList o | OpDeleteCollection _ o => Some o
  | OpWatch o => Some (set_watch o)
  | _ => None
  end.

Lemma list_query_timeout c op o n :
  op_list_options op = Some o → TimeoutSeconds o = Some n →
  hvalues (op_query c op) "timeoutSeconds" = [Itoa n].
Proof.
  intros Ho Hn.
  assert (hvalues (Convert (ListOptions_fields o)) "timeoutSeconds" = [Itoa n]) as Hv.
  { rewrite Convert_values. cbn. by rewrite Hn. }
  assert (op_params op = Some (Convert (ListOptions_fields o))) as Hp
    by (destruct op; cbn in Ho; inv_ok; done).
  unfold op_query. rewrite Hp. cbn [default]. case_match; [done|].
  unfold hvalues in *. by rewrite lookup_insert_ne.
Qed.

(** The timeout of a list, a watch or a collection's deletion reaches the
    server as asked for; as a deadline of the call it is exact up to
    9223372036 seconds, while beyond, up to twice that, the multiplication
    wraps around and the call is left without any deadline; a watch never has
    one; and without a timeout in the options, the timeout that the client is
    configured with is not passed on to the server. *)
Theorem list_timeouts encode c op o w :
  rc_GroupVersion c = SchemeGroupVersion → rc_versionedAPIPath c = abs_path versioned_segments →
  op_list_options op = Some o → op_sent encode c op = Ok w →
  match TimeoutSeconds o with
  | Some n =>
      hvalues (w_query w) "timeoutSeconds" = [Itoa n] ∧
      ((0 < n <= max_seconds)%Z →
       w_deadline w = (if op_is_watch op then None else Some (n * 1000000000)%Z) ∧
       hvalues (w_query w) "timeout" = [Duration_String (n * 1000000000)]) ∧
      ((max_seconds < n <= 2 * max_seconds)%Z → w_deadline w = None)
  | None => w_deadline w = None ∧ hvalues (w_query w) "timeout" = []
  end.
Proof.
  intros Hgv Hv Ho Hw.
  pose proof (op_sent_spec encode c op Hgv Hv) as Hspec. rewrite Hw in Hspec.
  destruct Hspec as (_ & _ & _ & _ & _ & Hq & _).
  pose proof (op_deadline encode c op w Hgv Hw) as Hd. rewrite Hq.
  assert (op_timeout op = Some (options_timeout o)) as Ht
    by (destruct op; cbn in Ho; inv_ok; done).
  assert (op_params op = Some (Convert (ListOptions_fields o))) as Hp
    by (destruct op; cbn in Ho; inv_ok; done).
  unfold options_timeout in Ht. rewrite Ht in Hd. unfold from_option, id in Hd. cbv zeta in Hd.
  destruct (TimeoutSeconds o) as [n|] eqn:Hn.
  - split; [by eapply list_query_timeout|].
    unfold op_query. rewrite Ht, Hp. unfold from_option, id. cbv zeta. split; intros Hrange.
    + rewrite (seconds_exact n) in * by lia. unfold Second in *.
      assert ((n * 1000000000 >? 0)%Z = true) as E by lia. rewrite E in Hd. split; [done|].
      rewrite (proj2 (Z.eqb_neq _ _)) by lia. unfold hvalues. by rewrite lookup_insert_eq.
    + pose proof (seconds_wraps n Hrange). rewrite Hd.
      assert ((seconds n >? 0)%Z = false) as -> by lia. by destruct (op_is_watch op).
  - split; [rewrite Hd; by destruct (op_is_watch op)|].
    unfold op_query. rewrite Ht, Hp. unfold from_option, id. cbn [Z.eqb].
    rewrite Convert_values. reflexivity.
Qed.

(** A sample: a server behind a path, and operations that are and are not
    sent. *)
Module ClientSample.
Definition config : Config :=
  MkConfig "https://10.0.0.1:6443/hub" true "" None None "" "" 0 0 None 0.
Definition encode (ct : string) (o : body_object) : result string := Ok "{}".
Definition TransportFor (c : Config) : result bool := Ok true.

Definition made : result Clientset * nat := @NewForConfig go_url "agent" TransportFor config 0.

Definition client : RESTClient :=
  match made.1 with Ok cs => ProxyV1alpha1 cs | Err _ => MkRESTClient (MkURL "" "" "" "") "" meta_v1 "" "" None None end.

Lemma client_facts :
  (∃ cs, made = (Ok cs, 2)) ∧ rc_GroupVersion client = SchemeGroupVersion ∧
  rc_versionedAPIPath client = abs_path versioned_segments.
Proof. split; [eexists; by vm_compute | by vm_compute]. Qed.

Definition request_line (op : operation) : result (string * string) :=
  w ← op_sent encode client op; Ok (w_method w, w_path w).

Lemma sample_requests :
  request_line (OpGet "cluster-proxy" (MkGetOptions "")) =
    Ok ("GET", "/hub/apis/proxy.open-cluster-management.io/v1alpha1/managedproxyconfigurations/cluster-proxy") ∧
  request_line (OpGet "../nodes" (MkGetOptions "")) =
    Err (ENew ("invalid resource name " ++ Quote "../nodes" ++ ": [may not contain '/']")) ∧
  request_line (OpDelete "" (MkDeleteOptions None None [])) =
    Err (ENew "resource name may not be empty") ∧
  request_line (OpPatch "a b" "application/merge-patch+json" "{}" (MkWriteOptions [] None "" "")
                  ["status"; ""]) =
    Ok ("PATCH", "/hub/apis/proxy.open-cluster-management.io/v1alpha1/managedproxyconfigurations/a b/status").
Proof. by vm_compute. Qed.

Definition ask (n : Z) : ListOptions := MkListOptions "" "" false false "" "" (Some n) 0 "" None "".

Definition sent (op : operation) : wire_request :=
  match op_sent encode client op with
  | Ok w => w
  | Err _ => MkWire "" "" "" "" ∅ ∅ None None None
  end.

Lemma typed_client_keeps_to_resource_witness :
  match op_sent encode client (OpDelete "cluster-proxy" (MkDeleteOptions None None [])) with
  | Err _ => False
  | Ok w => w_method w = "DELETE"
  end.
Proof.
  destruct client_facts as [[cs Hcs] _].
  assert (client = ProxyV1alpha1 cs) as Hc by (unfold client; by rewrite Hcs).
  pose proof (@typed_client_keeps_to_resource go_url encode "agent" TransportFor config 0 cs 2
    (OpDelete "cluster-proxy" (MkDeleteOptions None None [])) Hcs) as H.
  rewrite Hc. cbv zeta in H.
  destruct (op_sent encode (ProxyV1alpha1 cs) _) as [w|e].
  - by destruct H as (_ & H & _).
  - by vm_compute in H.
Defined.

Lemma list_timeouts_witness :
  w_deadline (sent (OpList (ask 30))) = Some 30000000000%Z ∧
  w_deadline (sent (OpList (ask 9223372037))) = None.
Proof.
  destruct client_facts as (_ & Hg & Hv).
  assert (∀ n, op_sent encode client (OpList (ask n)) = Ok (sent (OpList (ask n)))) as Hs.
  { intros n. pose proof (op_sent_spec encode client (OpList (ask n)) Hg Hv) as H.
    unfold sent. by destruct (op_sent _ _ _). }
  destruct (list_timeouts encode client (OpList (ask 30)) (ask 30) _ Hg Hv eq_refl (Hs 30%Z))
    as (_ & H1 & _).
  destruct (list_timeouts encode client (OpList (ask 9223372037)) (ask 9223372037) _ Hg Hv eq_refl
              (Hs 9223372037%Z)) as (_ & _ & H2).
  split; [apply H1 | apply H2]; unfold max_seconds; lia.
Defined.
End ClientSample.
