(* ===== verification/Informers.v ===== *)
(** * The generated informers and listers

    src/pkg/generated/informers/externalversions (factory.go, generic.go,
    proxy/) and src/pkg/generated/listers: a factory hands out one shared
    informer per type and starts each of them once.  The factory's methods
    hold its lock from beginning to end (WaitForCacheSync while it takes its
    snapshot), so a run of the program is a sequence of them.  An informer
    itself is client-go's; here it is what it was made with, under an
    identity of its own, and [f_runs] records the goroutines that run one. *)

From S2P Require Import Prelude GoStrings Http GoUrl Manifests RestClient Clientset.

Local Open Scope string_scope.

(** [internalinterfaces.TweakListOptionsFunc]: what it leaves in the options
    that it is given. *)
Abbreviation tweak := (ListOptions → ListOptions).

(** ** A shared informer: what [NewSharedIndexInformer] was given *)

Record informer := MkInformer {
  inf_id : nat;
  inf_client : RESTClient;
  inf_tweak : option tweak;
  inf_type : string;                 (* the example object *)
  inf_resync : Z;
  inf_indexers : list string
}.

Definition apply_tweak (t : option tweak) (o : ListOptions) : ListOptions :=
  match t with Some f => f o | None => o end.

(** [ListFunc] and [WatchFunc] of the informer. *)
Definition ListFunc (exchange : wire_request → response) (i : informer) (options : ListOptions)
    : configuration_list * option goerror :=
  List exchange (inf_client i) (apply_tweak (inf_tweak i) options).

Definition WatchFunc (stream : Type) (open_watch : wire_request → result stream) (i : informer)
    (options : ListOptions) : result stream :=
  Watch stream open_watch (inf_client i) (apply_tweak (inf_tweak i) options).

Definition configuration_type : string := "*v1alpha1.ManagedProxyConfiguration".

(** [NewFilteredManagedProxyConfigurationInformer]; [fresh] is the identity
    that the new informer gets. *)
Definition NewFilteredManagedProxyConfigurationInformer (client : RESTClient) (resync : Z)
    (indexers : list string) (t : option tweak) (fresh : nat) : informer :=
  MkInformer fresh client t configuration_type resync indexers.

Definition NewManagedProxyConfigurationInformer (client : RESTClient) (resync : Z)
    (indexers : list string) (fresh : nat) : informer :=
  NewFilteredManagedProxyConfigurationInformer client resync indexers None fresh.

(** [internalinterfaces.NewInformerFunc]. *)
Abbreviation new_informer := (RESTClient → Z → nat → informer).

(** ** factory.go *)

Record factory := MkFactory {
  f_client : RESTClient;
  f_namespace : string;
  f_tweak : option tweak;
  f_defaultResync : Z;
  f_customResync : gmap string Z;
  f_informers : gmap string informer;
  f_started : gset string;           (* startedInformers: the keys that are true *)
  f_runs : list (nat * nat);         (* goroutines: informer, stop channel; newest first *)
  f_fresh : nat
}.

(** [SharedInformerOption]. *)
Abbreviation SharedInformerOption := (factory → factory).

(** [WithCustomResyncConfig]: the type of every example object, in the order
    in which the map is visited. *)
Definition WithCustomResyncConfig (resyncConfig : list (string * Z)) : SharedInformerOption := λ f,
  MkFactory (f_client f) (f_namespace f) (f_tweak f) (f_defaultResync f)
    (fold_left (λ m kv, <[kv.1 := kv.2]> m) resyncConfig (f_customResync f))
    (f_informers f) (f_started f) (f_runs f) (f_fresh f).

Definition WithTweakListOptions (t : option tweak) : SharedInformerOption := λ f,
  MkFactory (f_client f) (f_namespace f) t (f_defaultResync f) (f_customResync f)
    (f_informers f) (f_started f) (f_runs f) (f_fresh f).

Definition WithNamespace (namespace : string) : SharedInformerOption := λ f,
  MkFactory (f_client f) namespace (f_tweak f) (f_defaultResync f) (f_customResync f)
    (f_informers f) (f_started f) (f_runs f) (f_fresh f).

Definition NewSharedInformerFactoryWithOptions (client : RESTClient) (defaultResync : Z)
    (options : list SharedInformerOption) : factory :=
  fold_left (λ f opt, opt f) options
    (MkFactory client "" None defaultResync ∅ ∅ ∅ [] 0).

Definition NewSharedInformerFactory (client : RESTClient) (defaultResync : Z) : factory :=
  NewSharedInformerFactoryWithOptions client defaultResync [].

Definition NewFilteredSharedInformerFactory (client : RESTClient) (defaultResync : Z)
    (namespace : string) (t : option tweak) : factory :=
  NewSharedInformerFactoryWithOptions client defaultResync
    [WithNamespace namespace; WithTweakListOptions t].

(** One turn of the loop of [Start]. *)
Definition start_one (stopCh : nat) (f : factory) (informerType : string) : factory :=
  match f_informers f !! informerType with
  | None => f
  | Some i =>
      if bool_decide (informerType ∈ f_started f) then f
      else MkFactory (f_client f) (f_namespace f) (f_tweak f) (f_defaultResync f) (f_customResync f)
             (f_informers f) ({[informerType]} ∪ f_started f) ((inf_id i, stopCh) :: f_runs f)
             (f_fresh f)
  end.

(** [Start]; [order] is the order in which the map is visited. *)
Definition Start (order : list string) (stopCh : nat) (f : factory) : factory :=
  fold_left (start_one stopCh) order f.

(** [WaitForCacheSync]: the snapshot, then the wait for each of its
    informers; [synced] is what the wait for one returns. *)
Definition started_informers (f : factory) : gmap string informer :=
  filter (λ kv, kv.1 ∈ f_started f) (f_informers f).

Definition WaitForCacheSync (synced : informer → bool) (f : factory) : gmap string bool :=
  synced <$> started_informers f.

(** [InformerFor]. *)
Definition InformerFor (informerType : string) (newFunc : new_informer) (f : factory)
    : informer * factory :=
  match f_informers f !! informerType with
  | Some i => (i, f)
  | None =>
      let resyncPeriod := default (f_defaultResync f) (f_customResync f !! informerType) in
      let i := newFunc (f_client f) resyncPeriod (f_fresh f) in
      (i, MkFactory (f_client f) (f_namespace f) (f_tweak f) (f_defaultResync f) (f_customResync f)
            (<[informerType := i]> (f_informers f)) (f_started f) (f_runs f) (S (f_fresh f)))
  end.

(** ** proxy/v1alpha1/managedproxyconfiguration.go *)

(** [f.Proxy().V1alpha1().ManagedProxyConfigurations()]: the factory's
    namespace is handed down to the version, which drops it; the resource is
    cluster-scoped. *)
Record group_access := MkGroup { g_namespace : string; g_tweak : option tweak }.
Record informer_access := MkAccess { a_tweak : option tweak }.

Definition Proxy (f : factory) : group_access := MkGroup (f_namespace f) (f_tweak f).
Definition V1alpha1 (g : group_access) : group_access := MkGroup (g_namespace g) (g_tweak g).
Definition ManagedProxyConfigurations (v : group_access) : informer_access := MkAccess (g_tweak v).

Definition defaultInformer (a : informer_access) : new_informer := λ client resync fresh,
  NewFilteredManagedProxyConfigurationInformer client resync ["namespace"] (a_tweak a) fresh.

Definition Informer (a : informer_access) (f : factory) : informer * factory :=
  InformerFor configuration_type (defaultInformer a) f.

(** [Lister]: reads the indexer of the informer it asks the factory for. *)
Definition Lister (a : informer_access) (f : factory) : informer * factory := Informer a f.

(** The accessor from the factory itself. *)
Definition configuration_informer (f : factory) : informer * factory :=
  Informer (ManagedProxyConfigurations (V1alpha1 (Proxy f))) f.

(** ** generic.go *)

Record gvr := MkGVR { r_gv : GroupVersion; r_resource : string }.

#[export] Instance gvr_eq_dec : EqDecision gvr.
Proof. solve_decision. Defined.

Record genericInformer := MkGeneric { gi_informer : informer; gi_resource : string * string }.

Definition gvr_string (r : gvr) : string :=
  gv_group (r_gv r) ++ "/" ++ gv_version (r_gv r) ++ ", Resource=" ++ r_resource r.

Definition ForResource (r : gvr) (f : factory) : result genericInformer * factory :=
  if decide (r = MkGVR SchemeGroupVersion "managedproxyconfigurations")
  then let '(i, f) := configuration_informer f in
       (Ok (MkGeneric i (gv_group (r_gv r), r_resource r)), f)
  else (Err (ENew ("no informer found for " ++ gvr_string r)), f).

(** ** listers *)

(** [labels.Selector]: the selector that matches nothing, or requirements
    that must all hold. *)
Inductive selector := Nothing | Requirements (l : list (gmap string string → bool)).

Definition Everything : selector := Requirements [].

Definition Matches (s : selector) (labels : gmap string string) : bool :=
  match s with Nothing => false | Requirements l => forallb (λ r, r labels) l end.

Definition selector_Empty (s : selector) : bool :=
  match s with Requirements [] => true | _ => false end.

(** An indexer: the objects under their keys; [List] visits them in some
    order. *)
Abbreviation indexer := (gmap string configuration).

(** [MetaNamespaceKeyFunc]. *)
Definition MetaNamespaceKey (o : configuration) : string :=
  if String.eqb (c_namespace o) "" then c_name o else c_namespace o ++ "/" ++ c_name o.

(** [cache.ListAll] over the objects in the order visited. *)
Definition ListAll (s : selector) (items : list configuration) : list configuration :=
  match s with
  | Nothing => []
  | _ => List.filter (λ o, selector_Empty s || Matches s (c_labels o)) items
  end.

Definition lister_List (s : selector) (items : list configuration) : list configuration :=
  ListAll s items.

(** [errors.NewNotFound]. *)
Definition resource_string (r : string * string) : string :=
  if String.eqb r.1 "" then r.2 else r.2 ++ "." ++ r.1.

Definition NewNotFound (r : string * string) (name : string) : goerror :=
  EApi NotFound (resource_string r ++ " " ++ Quote name ++ " not found").

Definition lister_Get (ix : indexer) (name : string) : result configuration :=
  match ix !! name with
  | Some o => Ok o
  | None => Err (NewNotFound (GroupResource "managedproxyconfiguration") name)
  end.

(** ** Runs of a factory *)

(** What callers do, one critical section after the other; a lister asks for
    the same informer as [EConfigurationInformer].  A new informer
    function of another type may be anything that makes an informer with the
    identity it is given. *)
Inductive event :=
| EInformerFor (informerType : string) (newFunc : new_informer)
| EConfigurationInformer
| EForResource (r : gvr)
| EStart (order : list string) (stopCh : nat).

Definition exec_event (f : factory) (e : event) : factory :=
  match e with
  | EInformerFor t new => (InformerFor t new f).2
  | EConfigurationInformer => (configuration_informer f).2
  | EForResource r => (ForResource r f).2
  | EStart order stopCh => Start order stopCh f
  end.

(** An event that can occur: [Start] visits exactly the informers there are,
    and a function for a new informer makes a new one. *)
Definition possible (f : factory) (e : event) : Prop :=
  match e with
  | EInformerFor _ new => ∀ c r n, inf_id (new c r n) = n
  | EStart order _ => order ≡ₚ elements (dom (f_informers f))
  | _ => True
  end.

Inductive factory_step : factory → factory → Prop :=
| FStep f e : possible f e → factory_step f (exec_event f e).

Definition initial_factory (f : factory) : Prop :=
  ∃ client resync options,
    Forall (λ opt, (∃ l, opt = WithCustomResyncConfig l) ∨ (∃ t, opt = WithTweakListOptions t) ∨
                   (∃ ns, opt = WithNamespace ns)) options ∧
    f = NewSharedInformerFactoryWithOptions client resync options.

(** ** The factory's invariant *)

Record factory_inv (f : factory) : Prop := {
  inv_started : f_started f ⊆ dom (f_informers f);
  inv_fresh : ∀ t i, f_informers f !! t = Some i → inf_id i < f_fresh f;
  inv_distinct : ∀ t1 t2 i1 i2,
    f_informers f !! t1 = Some i1 → f_informers f !! t2 = Some i2 → inf_id i1 = inf_id i2 → t1 = t2;
  inv_runs : ∀ n, n ∈ (f_runs f).*1 ↔
    ∃ t i, t ∈ f_started f ∧ f_informers f !! t = Some i ∧ inf_id i = n;
  inv_once : NoDup (f_runs f).*1
}.

Lemma options_keep options f :
  Forall (λ opt, (∃ l, opt = WithCustomResyncConfig l) ∨ (∃ t, opt = WithTweakListOptions t) ∨
                 (∃ ns, opt = WithNamespace ns)) options →
  let f' := fold_left (λ f opt, opt f) options f in
  f_informers f' = f_informers f ∧ f_started f' = f_started f ∧ f_runs f' = f_runs f ∧
  f_fresh f' = f_fresh f.
Proof.
  intros H. revert f. induction H as [|opt options Hopt _ IH]; intros f; cbn [fold_left]; [done|].
  destruct (IH (opt f)) as (-> & -> & -> & ->).
  destruct Hopt as [[l ->]|[[t ->]|[ns ->]]]; done.
Qed.

Lemma initial_inv f : initial_factory f → factory_inv f ∧ f_informers f = ∅.
Proof.
  intros (client & resync & options & Hopts & ->).
  unfold NewSharedInformerFactoryWithOptions.
  destruct (options_keep options (MkFactory client "" None resync ∅ ∅ ∅ [] 0) Hopts)
    as (E1 & E2 & E3 & E4).
  split; [|by rewrite E1].
  split; rewrite ?E1, ?E2, ?E3; cbn; try set_solver.
  constructor.
Qed.

Lemma InformerFor_inv t new f :
  (∀ c r n, inf_id (new c r n) = n) → factory_inv f → factory_inv (InformerFor t new f).2.
Proof.
  intros Hnew [Hs Hf Hd Hr Ho]. unfold InformerFor.
  destruct (f_informers f !! t) as [i|] eqn:E; [done|].
  assert (t ∉ f_started f) as Ht by (intros H%Hs; by apply not_elem_of_dom in E).
  cbn [snd]. split; cbn [f_informers f_started f_runs f_fresh].
  - rewrite dom_insert. set_solver.
  - intros t' i' [[<- <-]|[? H]]%lookup_insert_Some; [rewrite Hnew; lia|].
    apply Hf in H. lia.
  - intros t1 t2 i1 i2 [[<- <-]|[? H1]]%lookup_insert_Some [[<- <-]|[? H2]]%lookup_insert_Some;
      rewrite ?Hnew; try done; intros Heq.
    + apply Hf in H2. lia.
    + apply Hf in H1. lia.
    + eauto.
  - intros n. rewrite Hr. split; intros (t' & i' & Hin & Hl & <-); exists t', i'.
    + by rewrite lookup_insert_ne by (intros ->; done).
    + rewrite lookup_insert_ne in Hl by (intros ->; done). done.
  - done.
Qed.

Lemma start_one_inv stopCh f t : factory_inv f → factory_inv (start_one stopCh f t).
Proof.
  intros [Hs Hf Hd Hr Ho]. unfold start_one.
  destruct (f_informers f !! t) as [i|] eqn:E; [|done]. case_bool_decide as Hin; [done|].
  assert (inf_id i ∉ (f_runs f).*1) as Hnew.
  { rewrite Hr. intros (t' & i' & Ht' & Hl & Hid). apply Hin.
    by rewrite <- (Hd t' t i' i Hl E Hid). }
  split; cbn [f_informers f_started f_runs f_fresh]; [| done | done | |].
  - apply union_subseteq. split; [|done]. apply singleton_subseteq_l, elem_of_dom. eauto.
  - intros n. rewrite fmap_cons, elem_of_cons, Hr. cbn [fst]. split.
    + intros [->|(t' & i' & Ht' & Hl & <-)]; [exists t, i | exists t', i']; set_solver.
    + intros (t' & i' & [->%elem_of_singleton|Ht']%elem_of_union & Hl & <-); [left; congruence|].
      right. eauto.
  - rewrite fmap_cons. by constructor.
Qed.

Lemma start_one_keeps stopCh f t :
  f_informers (start_one stopCh f t) = f_informers f ∧
  f_started f ⊆ f_started (start_one stopCh f t) ∧
  (t ∈ dom (f_informers f) → t ∈ f_started (start_one stopCh f t)).
Proof.
  unfold start_one. destruct (f_informers f !! t) as [i|] eqn:E.
  - case_bool_decide; cbn; set_solver.
  - apply not_elem_of_dom in E. set_solver.
Qed.

Lemma Start_spec order stopCh f :
  factory_inv f →
  let f' := Start order stopCh f in
  factory_inv f' ∧ f_informers f' = f_informers f ∧ f_started f ⊆ f_started f' ∧
  (∀ t, t ∈ order → t ∈ dom (f_informers f) → t ∈ f_started f').
Proof.
  unfold Start. revert f. induction order as [|t order IH]; intros f Hinv; cbn [fold_left].
  { repeat split; try apply Hinv; try done. set_solver. }
  destruct (start_one_keeps stopCh f t) as (Hi & Hs & Ht).
  destruct (IH _ (start_one_inv stopCh f t Hinv)) as (Hinv' & Hi' & Hs' & Ho).
  rewrite Hi in *. repeat split; try apply Hinv'; [done | set_solver |].
  intros t' [->|Hin]%elem_of_cons Hd; [|auto]. auto.
Qed.

Lemma default_informer_id a c r n : inf_id (defaultInformer a c r n) = n.
Proof. done. Qed.

Lemma configuration_informer_inv f : factory_inv f → factory_inv (configuration_informer f).2.
Proof. apply InformerFor_inv, default_informer_id. Qed.

Lemma ForResource_state r f :
  (ForResource r f).2 = (configuration_informer f).2 ∨ (ForResource r f).2 = f.
Proof. unfold ForResource. destruct (decide _); [|by right]. destruct (configuration_informer f). by left. Qed.

Lemma exec_event_inv f e : possible f e → factory_inv f → factory_inv (exec_event f e).
Proof.
  intros Hp Hinv. destruct e; cbn [exec_event possible] in *.
  - by apply InformerFor_inv.
  - by apply configuration_informer_inv.
  - destruct (ForResource_state r f) as [-> | ->]; [by apply configuration_informer_inv | done].
  - by apply Start_spec.
Qed.

Lemma InformerFor_keeps t new f : f_informers f ⊆ f_informers (InformerFor t new f).2.
Proof.
  unfold InformerFor. destruct (f_informers f !! t) eqn:E; [done|].
  cbn [snd f_informers]. by apply insert_subseteq.
Qed.

Lemma exec_event_keeps f e : factory_inv f → f_informers f ⊆ f_informers (exec_event f e).
Proof.
  intros Hinv. destruct e; cbn [exec_event].
  - apply InformerFor_keeps.
  - apply InformerFor_keeps.
  - destruct (ForResource_state r f) as [-> | ->]; [apply InformerFor_keeps | done].
  - destruct (Start_spec order stopCh f Hinv) as (_ & -> & _). done.
Qed.

Lemma steps_inv f f' : factory_inv f → steps factory_step f f' → factory_inv f'.
Proof.
  intros Hinv. apply steps_invariant; [done|].
  intros x y Hx Hstep. destruct Hstep as [g e Hp]. by apply exec_event_inv.
Qed.

Lemma steps_keep f f' :
  factory_inv f → steps factory_step f f' → f_informers f ⊆ f_informers f'.
Proof.
  intros Hinv Hs.
  assert (factory_inv f' ∧ f_informers f ⊆ f_informers f') as [_ H]; [|done].
  induction Hs as [f|f g h Hs IH Hstep]; [done|].
  destruct (IH Hinv) as [Hg Hsub]. clear IH Hs. destruct Hstep as [g e Hp]. split; [by apply exec_event_inv|].
  etrans; [exact Hsub | by apply exec_event_keeps].
Qed.

(** Asking again gives the same informer, by either accessor. *)
Lemma configuration_informer_shared f f' :
  f_informers (configuration_informer f).2 ⊆ f_informers f' →
  configuration_informer f' = ((configuration_informer f).1, f') ∧
  ForResource (MkGVR SchemeGroupVersion "managedproxyconfigurations") f' =
    (Ok (MkGeneric (configuration_informer f).1 (GroupResource "managedproxyconfigurations")), f').
Proof.
  intros Hsub.
  assert (f_informers f' !! configuration_type = Some (configuration_informer f).1) as Hl.
  { eapply lookup_weaken; [|exact Hsub]. unfold configuration_informer, Informer, InformerFor.
    destruct (f_informers f !! configuration_type) as [i|] eqn:E; cbn; [done|].
    by rewrite lookup_insert_eq. }
  assert (configuration_informer f' = ((configuration_informer f).1, f')) as Hc.
  { unfold configuration_informer at 1, Informer, InformerFor. by rewrite Hl. }
  split; [done|]. unfold ForResource. rewrite decide_True by done. by rewrite Hc.
Qed.

Lemma started_informers_spec f t i :
  started_informers f !! t = Some i ↔ f_informers f !! t = Some i ∧ t ∈ f_started f.
Proof. unfold started_informers. by rewrite map_lookup_filter_Some. Qed.

(** C35: in every reachable state of a factory, whatever its options and the
    order of calls: every informer is run by at most one goroutine, by one
    exactly if it has been started; a start leaves none behind; a wait for
    the caches is for the started informers only, so it never waits for one
    that nobody runs; and the informer of a type never changes, whichever
    accessor asks for it. *)
Theorem informers_shared_and_run_once f0 f :
  initial_factory f0 → steps factory_step f0 f →
  NoDup (f_runs f).*1 ∧
  (∀ t i, f_informers f !! t = Some i → inf_id i ∈ (f_runs f).*1 ↔ t ∈ f_started f) ∧
  (∀ order stopCh, order ≡ₚ elements (dom (f_informers f)) →
     ∀ t i, f_informers f !! t = Some i → inf_id i ∈ (f_runs (Start order stopCh f)).*1) ∧
  (∀ synced t b, WaitForCacheSync synced f !! t = Some b →
     ∃ i, f_informers f !! t = Some i ∧ inf_id i ∈ (f_runs f).*1 ∧ b = synced i) ∧
  (∀ f', steps factory_step (configuration_informer f).2 f' →
     configuration_informer f' = ((configuration_informer f).1, f') ∧
     ForResource (MkGVR SchemeGroupVersion "managedproxyconfigurations") f' =
       (Ok (MkGeneric (configuration_informer f).1 (GroupResource "managedproxyconfigurations")), f')).
Proof.
  intros [H0 _]%initial_inv Hsteps.
  pose proof (steps_inv _ _ H0 Hsteps) as Hinv. destruct Hinv as [Hs Hf Hd Hr Ho] eqn:E. clear E.
  assert (∀ g, factory_inv g → ∀ t i, f_informers g !! t = Some i →
            inf_id i ∈ (f_runs g).*1 ↔ t ∈ f_started g) as Hrun.
  { intros g [_ _ Hd' Hr' _] t i Hl. rewrite Hr'. split; [|eauto].
    intros (t' & i' & Ht' & Hl' & Hid). by rewrite <- (Hd' t' t i' i Hl' Hl Hid). }
  split; [done|]. split; [by apply Hrun|]. split; [|split].
  - intros order stopCh Hord t i Hl.
    destruct (Start_spec order stopCh f Hinv) as (Hinv' & Hi & _ & Hall).
    apply (Hrun _ Hinv' t i); [by rewrite Hi|].
    assert (t ∈ dom (f_informers f)) by (apply elem_of_dom; eauto).
    apply Hall; [|done]. rewrite Hord. by apply elem_of_elements.
  - intros synced t b (i & <- & [Hl Ht]%started_informers_spec)%lookup_fmap_Some.
    exists i. split; [done|]. split; [|done]. by apply (Hrun f Hinv t i).
  - intros f' Hsteps'. apply configuration_informer_shared.
    apply steps_keep; [by apply configuration_informer_inv | done].
Qed.


(** The factory's namespace does not reach the informer of this resource,
    its list options do, for the list and for the watch alike. *)
Lemma informer_requests client resync ns t exchange stream open_watch o :
  let i := (configuration_informer (NewFilteredSharedInformerFactory client resync ns t)).1 in
  inf_resync i = resync ∧
  ListFunc exchange i o = List exchange client (apply_tweak t o) ∧
  WatchFunc stream open_watch i o = Watch stream open_watch client (apply_tweak t o).
Proof. done. Qed.

(** ** Listers *)

(** A cache whose objects lie under their own keys, none in a namespace. *)
Definition well_keyed (ix : indexer) : Prop :=
  ∀ k o, ix !! k = Some o → c_namespace o = "" ∧ k = MetaNamespaceKey o.

Lemma lister_List_spec (ix : indexer) items s o :
  items ≡ₚ (map_to_list ix).*2 →
  o ∈ lister_List s items ↔ (∃ k, ix !! k = Some o) ∧ Matches s (c_labels o) = true.
Proof.
  intros Hp. assert (o ∈ items ↔ ∃ k, ix !! k = Some o) as Hin.
  { rewrite Hp, list_elem_of_fmap. split.
    - intros ([k o'] & -> & Hl%elem_of_map_to_list). eauto.
    - intros [k Hl]. exists (k, o). by rewrite elem_of_map_to_list. }
  rewrite <- Hin. unfold lister_List, ListAll.
  destruct s as [|l]; cbn [Matches]; [set_solver|].
  rewrite list_elem_of_In, filter_In, <- list_elem_of_In.
  by destruct l.
Qed.

(** On a cache of cluster-scoped objects under their keys, in whatever
    order it is visited, the lister lists exactly the objects that match the
    selector, and gets by name the object of that name or the error that
    there is none. *)
Theorem lister_reads_cache (ix : indexer) items s :
  well_keyed ix → items ≡ₚ (map_to_list ix).*2 →
  (∀ o, o ∈ lister_List s items ↔
        lister_Get ix (c_name o) = Ok o ∧ Matches s (c_labels o) = true) ∧
  (∀ name o, lister_Get ix name = Ok o → c_name o = name) ∧
  (∀ name e, lister_Get ix name = Err e ↔
     (∀ o, o ∈ lister_List Everything items → c_name o ≠ name) ∧
     e = EApi NotFound ("managedproxyconfiguration.proxy.open-cluster-management.io " ++
                        Quote name ++ " not found")).
Proof.
  intros Hk Hp.
  assert (∀ k o, ix !! k = Some o → k = c_name o) as Hname.
  { intros k o [Hns ->]%Hk. unfold MetaNamespaceKey. by rewrite Hns. }
  assert (∀ name o, lister_Get ix name = Ok o ↔ ix !! name = Some o) as Hget.
  { intros name o. unfold lister_Get. destruct (ix !! name); naive_solver. }
  split; [|split].
  - intros o. rewrite (lister_List_spec ix items s o Hp), Hget. split.
    + intros [[k Hl] ?]. pose proof (Hname k o Hl) as ->. done.
    + intros [Hl ?]. eauto.
  - intros name o Hl%Hget. symmetry. eauto.
  - intros name e. split.
    + intros He. split.
      * intros o Ho. apply (lister_List_spec ix items Everything o Hp) in Ho as [[k Hl] _].
        pose proof (Hname k o Hl) as ->. intros <-. apply Hget in Hl. congruence.
      * revert He. unfold lister_Get. destruct (ix !! name); [done|]. by intros [= <-].
    + intros [Hno ->]. unfold lister_Get. destruct (ix !! name) as [o|] eqn:Hl; [|done].
      exfalso. apply (Hno o); [|symmetry; eauto].
      apply (lister_List_spec ix items Everything o Hp). eauto.
Qed.

(** ** A sample run *)
Module InformerSample.
Definition client : RESTClient := ClientSample.client.
Definition start : factory := NewFilteredSharedInformerFactory client 0 "ns" None.
Definition requested : factory := exec_event start EConfigurationInformer.
Definition running : factory := exec_event requested (EStart [configuration_type] 7).

Definition object (name : string) : configuration :=
  MkConfiguration "" {[ "app" := name ]} "1"
    (MkMPC name "" 0 None "" "" "" (MkProxyServerSpec "" 0 "" "" None [] ∅ []) None (MkStatus 0 [])).
Definition cache : indexer := {[ "a" := object "a"; "b" := object "b" ]}.
Definition only_a : selector := Requirements [λ l, bool_decide (l !! "app" = Some "a")].

Lemma start_initial : initial_factory start.
Proof.
  exists client, 0%Z, [WithNamespace "ns"; WithTweakListOptions None].
  split; [|done]. constructor; [right; right; eauto|]. constructor; [right; left; eauto|]. constructor.
Qed.

Lemma running_reachable : steps factory_step start running.
Proof.
  eapply (steps_snoc _ _ requested).
  - apply steps_one. by apply FStep.
  - apply FStep. cbn [possible].
    assert (f_informers requested = {[configuration_type := (configuration_informer start).1]}) as ->
      by done.
    by rewrite dom_singleton_L, elements_singleton.
Qed.

Lemma informers_shared_and_run_once_witness :
  f_runs running = [(0, 7)] ∧ NoDup (f_runs running).*1.
Proof.
  split; [by vm_compute|].
  by destruct (informers_shared_and_run_once start running start_initial running_reachable).
Defined.

Lemma cache_keyed : well_keyed cache.
Proof.
  intros k o. unfold cache.
  intros [[<- <-]|[? [<- <-]%lookup_singleton_Some]]%lookup_insert_Some; done.
Qed.

Lemma lister_reads_cache_witness :
  lister_Get cache "a" = Ok (object "a") ∧
  object "a" ∈ lister_List only_a ((map_to_list cache).*2).
Proof.
  destruct (lister_reads_cache cache _ only_a cache_keyed (reflexivity _)) as (H & _ & _).
  split; [done|]. by apply H.
Defined.
End InformerSample.
