(* ===== verification/FakeClient.v ===== *)
(** * The generated fake clientset

    src/pkg/generated/clientset/versioned/fake and
    typed/proxy/v1alpha1/fake: the client that tests put in the place of the
    real one.  Its methods are actions that go through a chain of reactors;
    [NewSimpleClientset] installs the one of client-go's object tracker
    (k8s.io/client-go/testing/fake.go, fixture.go), which is modelled as it
    is, for the one resource of this clientset.  Objects are values: the
    tracker stores and returns deep copies.  [None] is a panic. *)

From stdpp Require Import sorting.
From S2P Require Import Prelude GoStrings Http GoUrl Manifests RestClient Clientset Informers.

Local Open Scope string_scope.

(** ** Watchers (apimachinery's [RaceFreeFakeWatcher]) *)

Inductive event_type := Added | Modified | Deleted.
Abbreviation watch_event := (event_type * configuration)%type.

Record watcher := MkWatcher {
  wt_namespace : string;
  wt_events : list watch_event;      (* the channel: sent and not yet received *)
  wt_stopped : bool
}.

Definition DefaultChanSize : nat := 100.

(** [Add], [Modify] and [Delete] of a watcher: a full channel panics. *)
Definition send_event (w : watcher) (e : watch_event) : option watcher :=
  if wt_stopped w then Some w
  else if (length (wt_events w) <? DefaultChanSize)%nat
  then Some (MkWatcher (wt_namespace w) (wt_events w ++ [e])%list false)
  else None.

(** ** The object tracker *)

Abbreviation object_key := (string * string)%type.

Record tracker := MkTracker {
  t_objects : gmap object_key (Z * configuration);
  t_resourceVersion : option Z;
  t_watchers : list watcher
}.

Definition NewObjectTracker : tracker := MkTracker ∅ None [].

Definition managedproxyconfigurationsResource : gvr :=
  MkGVR (MkGV "proxy.open-cluster-management.io" "v1alpha1") "managedproxyconfigurations".
Definition managedproxyconfigurationsKind : gvk :=
  (MkGV "proxy.open-cluster-management.io" "v1alpha1", "ManagedProxyConfiguration").

Definition tracked_resource : string * string :=
  (gv_group (r_gv managedproxyconfigurationsResource), r_resource managedproxyconfigurationsResource).

Definition NewAlreadyExists (r : string * string) (name : string) : goerror :=
  EApi AlreadyExists (resource_string r ++ " " ++ Quote name ++ " already exists").

(** [getWatches]: those of the namespace and those of all namespaces; every
    one is sent the event. *)
Definition watches (ns : string) (w : watcher) : bool :=
  String.eqb (wt_namespace w) ns || (negb (String.eqb ns "") && String.eqb (wt_namespace w) "").

Fixpoint notify (ns : string) (e : watch_event) (ws : list watcher) : option (list watcher) :=
  match ws with
  | [] => Some []
  | w :: ws =>
      w ← (if watches ns w then send_event w e else Some w);
      ws ← notify ns e ws;
      Some (w :: ws)
  end.

Definition set_namespace (o : configuration) (ns : string) : configuration :=
  MkConfiguration ns (c_labels o) (c_resourceVersion o) (c_object o).

Definition namespace_mismatch (ns objns : string) : goerror :=
  EApi OtherReason ("request namespace does not match object namespace, request: " ++ Quote ns ++
                    " object: " ++ Quote objns).

(** [tracker.add]. *)
Definition tracker_add (obj : configuration) (ns : string) (replaceExisting : bool) (t : tracker)
    : option (result unit * tracker) :=
  let obj := if String.eqb (c_namespace obj) "" then set_namespace obj ns else obj in
  if negb (String.eqb ns (c_namespace obj))
  then Some (Err (namespace_mismatch ns (c_namespace obj)), t)
  else
    let rv := (default 1 (t_resourceVersion t) + 1)%Z in
    let key := (c_namespace obj, c_name obj) in
    let stored := <[key := (rv, obj)]> (t_objects t) in
    match t_objects t !! key with
    | Some _ =>
        if replaceExisting
        then ws ← notify ns (Modified, obj) (t_watchers t);
             Some (Ok (), MkTracker stored (Some rv) ws)
        else Some (Err (NewAlreadyExists tracked_resource (c_name obj)), t)
    | None =>
        if replaceExisting then Some (Err (NewNotFound tracked_resource (c_name obj)), t)
        else ws ← notify ns (Added, obj) (t_watchers t);
             Some (Ok (), MkTracker stored (Some rv) ws)
    end.

(** [tracker.Get] and [tracker.Delete]. *)
Definition tracker_Get (ns name : string) (t : tracker) : result configuration :=
  match t_objects t !! (ns, name) with
  | Some (_, o) => Ok o
  | None => Err (NewNotFound tracked_resource name)
  end.

Definition tracker_Delete (ns name : string) (t : tracker) : option (result unit * tracker) :=
  match t_objects t !! (ns, name) with
  | None => Some (Err (NewNotFound tracked_resource name), t)
  | Some (_, o) =>
      ws ← notify ns (Deleted, o) (t_watchers t);
      Some (Ok (), MkTracker (delete (ns, name) (t_objects t)) (t_resourceVersion t) ws)
  end.

(** [tracker.List]: by namespace, then by name. *)
Definition object_le (o1 o2 : configuration) : Prop :=
  (if String.eqb (c_namespace o1) (c_namespace o2)
   then String.leb (c_name o1) (c_name o2)
   else String.leb (c_namespace o1) (c_namespace o2)) = true.

#[export] Instance object_le_dec : RelDecision object_le.
Proof. intros o1 o2. unfold object_le. apply _. Defined.

Definition filterByNamespace (ns : string) (objs : gmap object_key (Z * configuration))
    : list configuration :=
  merge_sort object_le
    (List.filter (λ o, String.eqb ns "" || String.eqb (c_namespace o) ns)
       (map (λ kv, kv.2.2) (map_to_list objs))).

Definition tracker_List (ns : string) (t : tracker) : configuration_list :=
  MkConfigurationList (Itoa (default 1%Z (t_resourceVersion t))) (filterByNamespace ns (t_objects t)).

(** [tracker.Watch] without options: nothing that exists is delivered. *)
Definition tracker_Watch (ns : string) (t : tracker) : nat * tracker :=
  (length (t_watchers t),
   MkTracker (t_objects t) (t_resourceVersion t) (t_watchers t ++ [MkWatcher ns [] false])%list).

(** [tracker.Add] of what [NewSimpleClientset] is given: an object, a list of
    objects, or something that the scheme does not know. *)
Inductive initial_object := IObject (o : configuration) | IList (l : list configuration) | IUnknown.

(** [UnsafeGuessKindToResource]: the plural. *)
Definition guess_resource (kind : string) : string :=
  if String.eqb kind "" then ""
  else
    let singular := ToLower kind in
    if HasSuffix singular "endpoints" then singular
    else if HasSuffix singular "s" then singular ++ "es"
    else if HasSuffix singular "y" then str_take (String.length singular - 1) singular ++ "ies"
    else singular ++ "s".

(** [ObjectKinds]: the kinds under which the scheme knows a type. *)
Definition ObjectKinds (s : scheme) (t : string) : list gvk :=
  map fst (List.filter (λ e, String.eqb e.2 t) (known s)).

(** [Add]; [None]: an error, on which [NewSimpleClientset] panics. *)
Fixpoint tracker_Add_all (l : list configuration) (t : tracker) : option tracker :=
  match l with
  | [] => Some t
  | o :: l =>
      match tracker_add o (c_namespace o) false t with
      | Some (Ok _, t) => tracker_Add_all l t
      | _ => None
      end
  end.

Definition tracker_Add (o : initial_object) (t : tracker) : option tracker :=
  match o with
  | IObject o => tracker_Add_all [o] t
  | IList l => tracker_Add_all l t
  | IUnknown => None
  end.

(** What the tracker files a preset configuration under is what the methods
    of the fake client ask for; and a scheme that knows fewer types would be
    noticed here. *)
Lemma preset_objects_found :
  fake_scheme = init_scheme ∧
  ObjectKinds (default NewScheme fake_scheme) (type_name ("v1alpha1", "ManagedProxyConfiguration")) =
    [managedproxyconfigurationsKind] ∧
  MkGVR managedproxyconfigurationsKind.1 (guess_resource managedproxyconfigurationsKind.2) =
    managedproxyconfigurationsResource ∧
  IsManagedProxyConfiguration tracked_resource = true.
Proof. split_and!; by vm_compute. Qed.

(** ** Actions and reactors *)

Inductive action :=
| AGet (name : string)
| AList (labelSelector fieldSelector : string)
| ACreate (o : configuration)
| AUpdate (subresource : string) (o : configuration)
| ADelete (name : string) (opts : DeleteOptions)
| ADeleteCollection (listOpts : ListOptions)
| APatch (name pt data subresource : string)
| AWatch (opts : ListOptions).

Definition action_verb (a : action) : string :=
  match a with
  | AGet _ => "get"
  | AList _ _ => "list"
  | ACreate _ => "create"
  | AUpdate _ _ => "update"
  | ADelete _ _ => "delete"
  | ADeleteCollection _ => "delete-collection"
  | APatch _ _ _ _ => "patch"
  | AWatch _ => "watch"
  end.

Definition action_subresource (a : action) : string :=
  match a with AUpdate s _ | APatch _ _ _ s => s | _ => "" end.

Inductive runtime_object := RObject (o : configuration) | RList (l : configuration_list).

(** What a reaction returns: not handled, or an object (or nil) and an error. *)
Abbreviation reaction := (option (option runtime_object * option goerror)).

Record reactor := MkReactor {
  re_verb : string;
  re_resource : string;
  re_react : action → tracker → option (reaction * tracker)
}.

(** [resourceCovers] and [SimpleReactor.Handles]. *)
Definition resourceCovers (resource : string) (a : action) : bool :=
  String.eqb resource "*" || String.eqb resource (r_resource managedproxyconfigurationsResource) ||
  let '(before, after, found) := Cut "/" resource in
  found && String.eqb before (r_resource managedproxyconfigurationsResource) &&
  String.eqb after (action_subresource a).

Definition Handles (r : reactor) (a : action) : bool :=
  (String.eqb (re_verb r) "*" || String.eqb (re_verb r) (action_verb a)) &&
  resourceCovers (re_resource r) a.

Definition returned {A} (f : A → runtime_object) (r : result A) : reaction :=
  match r with Ok a => Some (Some (f a), None) | Err e => Some (None, Some e) end.

Section reactions.
(** The patches of the JSON libraries: by type, and for an apply. *)
Variable patch_object : string → string → configuration → result configuration.
Variable apply_object : string → configuration → result configuration.

Definition supported_patch (pt : string) : bool :=
  existsb (String.eqb pt)
    ["application/json-patch+json"; "application/merge-patch+json";
     "application/strategic-merge-patch+json"].

(** [reactor.Create] and [reactor.Update]: write, then read back. *)
Definition write_and_get (o : configuration) (replaceExisting : bool) (t : tracker)
    : option (reaction * tracker) :=
  '(r, t) ← tracker_add o "" replaceExisting t;
  Some (match r with
        | Err e => Some (None, Some e)
        | Ok _ => returned RObject (tracker_Get "" (c_name o) t)
        end, t).

Definition reactor_Patch (name pt data : string) (t : tracker) : option (reaction * tracker) :=
  match tracker_Get "" name t with
  | Err e => Some (Some (None, Some e), t)
  | Ok o =>
      match (if supported_patch pt then patch_object pt data o
             else Err (ENew ("PatchType " ++ pt ++ " is not supported"))) with
      | Err e => Some (Some (None, Some e), t)
      | Ok o' =>
          '(r, t) ← tracker_add o' "" true t;
          Some (match r with
                | Err e => Some (None, Some e)
                | Ok _ => Some (Some (RObject o'), None)
                end, t)
      end
  end.

Definition reactor_Apply (name data : string) (t : tracker) : option (reaction * tracker) :=
  match tracker_Get "" name t with
  | Err e => Some (Some (None, Some e), t)
  | Ok o =>
      match apply_object data o with
      | Err e => Some (Some (None, Some e), t)
      | Ok o' =>
          '(r, t) ← tracker_add o' "" true t;
          Some (match r with
                | Err e => Some (None, Some e)
                | Ok _ => returned RObject (tracker_Get "" name t)
                end, t)
      end
  end.

(** [ObjectReaction]: an action of another type is not handled. *)
Definition ObjectReaction (a : action) (t : tracker) : option (reaction * tracker) :=
  match a with
  | AList _ _ => Some (Some (Some (RList (tracker_List "" t)), None), t)
  | AGet name => Some (returned RObject (tracker_Get "" name t), t)
  | ACreate o => write_and_get o false t
  | AUpdate _ o => write_and_get o true t
  | ADelete name _ =>
      '(r, t) ← tracker_Delete "" name t;
      Some (Some (None, match r with Err e => Some e | Ok _ => None end), t)
  | APatch name pt data _ =>
      if String.eqb pt "application/apply-patch+yaml" then reactor_Apply name data t
      else reactor_Patch name pt data t
  | _ => Some (None, t)
  end.

(** ** The clientset *)

Record FakeClientset := MkFake {
  fk_actions : list action;          (* oldest first *)
  fk_reactors : list reactor;
  fk_tracker : tracker
}.

Definition with_tracker (c : FakeClientset) (t : tracker) : FakeClientset :=
  MkFake (fk_actions c) (fk_reactors c) t.

Definition PrependReactor (r : reactor) (c : FakeClientset) : FakeClientset :=
  MkFake (fk_actions c) (r :: fk_reactors c) (fk_tracker c).

Fixpoint tracker_Add_objects (l : list initial_object) (t : tracker) : option tracker :=
  match l with
  | [] => Some t
  | o :: l => t ← tracker_Add o t; tracker_Add_objects l t
  end.

(** [NewSimpleClientset]. *)
Definition NewSimpleClientset (objects : list initial_object) : option FakeClientset :=
  t ← tracker_Add_objects objects NewObjectTracker;
  Some (MkFake [] [MkReactor "*" "*" ObjectReaction] t).

(** The loop over the reactors. *)
Fixpoint react (rs : list reactor) (a : action) (t : tracker) : option (reaction * tracker) :=
  match rs with
  | [] => Some (None, t)
  | r :: rs =>
      if Handles r a then
        '(res, t) ← re_react r a t;
        match res with Some _ => Some (res, t) | None => react rs a t end
      else react rs a t
  end.

(** [Fake.Invokes]. *)
Definition Invokes (a : action) (defaultReturnObj : runtime_object) (c : FakeClientset)
    : option ((option runtime_object * option goerror) * FakeClientset) :=
  '(res, t) ← react (fk_reactors c) a (fk_tracker c);
  Some (default (Some defaultReturnObj, None) res,
        MkFake (fk_actions c ++ [a])%list (fk_reactors c) t).
End reactions.

(** ** fake_managedproxyconfiguration.go *)

Section fake_methods.
(** [labels.Parse], and whether [fields.ParseSelector] accepts. *)
Variable parse_labels : string → result selector.
Variable parse_fields : string → bool.

(** [ExtractFromListOptions]: a selector that does not parse panics. *)
Definition ExtractFromListOptions (o : ListOptions) : option selector :=
  match parse_labels (LabelSelector o) with
  | Err _ => None
  | Ok s => if parse_fields (FieldSelector o) then Some s else None
  end.

(** [if obj == nil { return nil, err }; return obj.( *T ), err]. *)
Definition as_configuration (r : option runtime_object * option goerror)
    : option (option configuration * option goerror) :=
  match r with
  | (None, e) => Some (None, e)
  | (Some (RObject o), e) => Some (Some o, e)
  | (Some (RList _), _) => None
  end.

Definition fake_configuration (a : action) (c : FakeClientset)
    : option ((option configuration * option goerror) * FakeClientset) :=
  '(r, c) ← Invokes a (RObject zero_configuration) c;
  r ← as_configuration r;
  Some (r, c).

Definition fake_Get (name : string) (options : GetOptions) := fake_configuration (AGet name).
Definition fake_Create (o : configuration) (opts : WriteOptions) := fake_configuration (ACreate o).
Definition fake_Update (o : configuration) (opts : WriteOptions) :=
  fake_configuration (AUpdate "" o).
Definition fake_UpdateStatus (o : configuration) (opts : WriteOptions) :=
  fake_configuration (AUpdate "status" o).
Definition fake_Patch (name pt data : string) (opts : WriteOptions) (subresources : list string) :=
  fake_configuration (APatch name pt data (path_Join subresources)).

Definition fake_List (opts : ListOptions) (c : FakeClientset)
    : option ((option configuration_list * option goerror) * FakeClientset) :=
  label ← ExtractFromListOptions opts;
  '(r, c) ← Invokes (AList (LabelSelector opts) (FieldSelector opts)) (RList zero_list) c;
  match r with
  | (None, e) => Some ((None, e), c)
  | (Some (RList l), e) =>
      let items := List.filter (λ o, Matches label (c_labels o)) (l_items l) in
      Some ((Some (MkConfigurationList (l_resourceVersion l) items), e), c)
  | (Some (RObject _), _) => None
  end.

(** [Watch]: the watch reactor that [NewSimpleClientset] installs passes no
    options to the tracker. *)
Definition fake_Watch (opts : ListOptions) (c : FakeClientset) : option (nat * FakeClientset) :=
  _ ← ExtractFromListOptions opts;
  let '(w, t) := tracker_Watch "" (fk_tracker c) in
  Some (w, MkFake (fk_actions c ++ [AWatch opts])%list (fk_reactors c) t).

Definition fake_Delete (name : string) (opts : DeleteOptions) (c : FakeClientset)
    : option (option goerror * FakeClientset) :=
  '(r, c) ← Invokes (ADelete name opts) (RObject zero_configuration) c;
  Some (r.2, c).

Definition fake_DeleteCollection (opts : DeleteOptions) (listOpts : ListOptions) (c : FakeClientset)
    : option (option goerror * FakeClientset) :=
  _ ← ExtractFromListOptions listOpts;
  '(r, c) ← Invokes (ADeleteCollection listOpts) (RList zero_list) c;
  Some (r.2, c).
End fake_methods.

(** What the code under test may do with a fake clientset: the operations of
    the typed client, and receiving from or stopping a watch. *)
Inductive fake_op :=
| FGet (name : string)
| FList (opts : ListOptions)
| FCreate (o : configuration)
| FUpdate (o : configuration)
| FUpdateStatus (o : configuration)
| FDelete (name : string)
| FPatch (name pt data : string)
| FDeleteCollection (listOpts : ListOptions)
| FWatch (opts : ListOptions)
| FReceive (w : nat)
| FStop (w : nat).

Inductive answer :=
| AnObject (o : option configuration) (e : option goerror)
| AnList (l : option configuration_list) (e : option goerror)
| AnError (e : option goerror)
| AnWatch (w : nat)
| AnEvent (e : option watch_event).

Definition no_write_options : WriteOptions := MkWriteOptions [] None "" "".
Definition no_delete_options : DeleteOptions := MkDeleteOptions None None [].

(** Receiving from a channel takes its first event, if there is one. *)
Definition receive (k : nat) (t : tracker) : option watch_event * tracker :=
  match t_watchers t !! k with
  | Some (MkWatcher ns (e :: es) st) =>
      (Some e, MkTracker (t_objects t) (t_resourceVersion t) (<[k := MkWatcher ns es st]> (t_watchers t)))
  | _ => (None, t)
  end.

Definition stop_watch (k : nat) (t : tracker) : tracker :=
  MkTracker (t_objects t) (t_resourceVersion t)
    (alter (λ w, MkWatcher (wt_namespace w) (wt_events w) true) k (t_watchers t)).

Section fake_exec.
Variable parse_labels : string → result selector.
Variable parse_fields : string → bool.

Definition fake_exec (op : fake_op) (c : FakeClientset) : option (answer * FakeClientset) :=
  match op with
  | FGet name => '(r, c) ← fake_Get name (MkGetOptions "") c; Some (AnObject r.1 r.2, c)
  | FList opts => '(r, c) ← fake_List parse_labels parse_fields opts c; Some (AnList r.1 r.2, c)
  | FCreate o => '(r, c) ← fake_Create o no_write_options c; Some (AnObject r.1 r.2, c)
  | FUpdate o => '(r, c) ← fake_Update o no_write_options c; Some (AnObject r.1 r.2, c)
  | FUpdateStatus o => '(r, c) ← fake_UpdateStatus o no_write_options c; Some (AnObject r.1 r.2, c)
  | FPatch name pt data => '(r, c) ← fake_Patch name pt data no_write_options [] c; Some (AnObject r.1 r.2, c)
  | FDelete name => '(e, c) ← fake_Delete name no_delete_options c; Some (AnError e, c)
  | FDeleteCollection lo =>
      '(e, c) ← fake_DeleteCollection parse_labels parse_fields no_delete_options lo c;
      Some (AnError e, c)
  | FWatch opts => '(w, c) ← fake_Watch parse_labels parse_fields opts c; Some (AnWatch w, c)
  | FReceive k =>
      let '(e, t) := receive k (fk_tracker c) in Some (AnEvent e, with_tracker c t)
  | FStop k => Some (AnError None, with_tracker c (stop_watch k (fk_tracker c)))
  end.

Fixpoint fake_run (ops : list fake_op) (c : FakeClientset) : option (list answer * FakeClientset) :=
  match ops with
  | [] => Some ([], c)
  | op :: ops =>
      '(a, c) ← fake_exec op c;
      '(l, c) ← fake_run ops c;
      Some (a :: l, c)
  end.
End fake_exec.

(** ** The store that a fake clientset stands for *)

Record store := MkStore { s_objects : gmap string configuration; s_version : Z }.

(** Why a write is refused, if it is: only cluster-scoped objects are
    accepted, a creation needs a new name, an update an existing one. *)
Definition refusal (replaceExisting : bool) (o : configuration) (s : store) : option goerror :=
  if negb (String.eqb (c_namespace o) "") then Some (namespace_mismatch "" (c_namespace o))
  else match s_objects s !! c_name o, replaceExisting with
       | Some _, false => Some (NewAlreadyExists tracked_resource (c_name o))
       | None, true => Some (NewNotFound tracked_resource (c_name o))
       | _, _ => None
       end.

Definition spec_write (replaceExisting : bool) (o : configuration) (s : store)
    : answer * store * list watch_event :=
  match refusal replaceExisting o s with
  | Some e => (AnObject None (Some e), s, [])
  | None => (AnObject (Some o) None, MkStore (<[c_name o := o]> (s_objects s)) (s_version s + 1),
             [(if replaceExisting then Modified else Added, o)])
  end.

Definition missing (name : string) : goerror := NewNotFound tracked_resource name.

Section spec.
Variable patch_object : string → string → configuration → result configuration.
Variable apply_object : string → configuration → result configuration.

(** A patch: of what is there, by a supported patch, then an update.  An
    apply reads the result back under the name that was asked for. *)
Definition spec_patch (name pt data : string) (s : store) : answer * store * list watch_event :=
  match s_objects s !! name with
  | None => (AnObject None (Some (missing name)), s, [])
  | Some o =>
      let apply := String.eqb pt "application/apply-patch+yaml" in
      match (if apply then apply_object data o
             else if supported_patch pt then patch_object pt data o
             else Err (ENew ("PatchType " ++ pt ++ " is not supported"))) with
      | Err e => (AnObject None (Some e), s, [])
      | Ok o' =>
          let '(a, s', evs) := spec_write true o' s in
          (match a with
           | AnObject (Some _) None =>
               if apply then match s_objects s' !! name with
                             | Some o'' => AnObject (Some o'') None
                             | None => AnObject None (Some (missing name))
                             end
               else a
           | _ => a
           end, s', evs)
      end
  end.

(** What an operation on objects answers, does and announces; a list is
    specified separately. *)
Definition spec_exec (op : fake_op) (s : store) : option answer * store * list watch_event :=
  let some r := let '(a, s', evs) := r in (Some a, s', evs) in
  match op with
  | FGet name =>
      (Some (match s_objects s !! name with
             | Some o => AnObject (Some o) None
             | None => AnObject None (Some (missing name))
             end), s, [])
  | FCreate o => some (spec_write false o s)
  | FUpdate o | FUpdateStatus o => some (spec_write true o s)
  | FPatch name pt data => some (spec_patch name pt data s)
  | FDelete name =>
      match s_objects s !! name with
      | Some o => (Some (AnError None), MkStore (delete name (s_objects s)) (s_version s), [(Deleted, o)])
      | None => (Some (AnError (Some (missing name))), s, [])
      end
  | FDeleteCollection _ => (Some (AnError None), s, [])
  | _ => (None, s, [])
  end.
End spec.

(** The tracker's objects are those of the store, under their names and in
    no namespace. *)
Definition represents (t : tracker) (s : store) : Prop :=
  ∃ vs : gmap string (Z * configuration),
    t_objects t = kmap (pair "") vs ∧ s_objects s = snd <$> vs ∧
    (∀ n v, vs !! n = Some v → c_namespace v.2 = "" ∧ c_name v.2 = n) ∧
    default 1%Z (t_resourceVersion t) = s_version s.

Lemma represents_lookup t s name :
  represents t s → snd <$> t_objects t !! ("", name) = s_objects s !! name.
Proof.
  intros (vs & -> & -> & _). rewrite (lookup_kmap (pair "")), lookup_fmap. done.
Qed.

Lemma represents_object t s name o :
  represents t s → s_objects s !! name = Some o → c_namespace o = "" ∧ c_name o = name.
Proof.
  intros (vs & _ & -> & Hv & _). rewrite lookup_fmap. intros ([rv o'] & E & ->)%fmap_Some.
  by destruct (Hv name _ E).
Qed.

Lemma represents_insert t s o rv ws :
  represents t s → c_namespace o = "" → rv = (s_version s + 1)%Z →
  represents (MkTracker (<[("", c_name o) := (rv, o)]> (t_objects t)) (Some rv) ws)
    (MkStore (<[c_name o := o]> (s_objects s)) (s_version s + 1)).
Proof.
  intros (vs & Ho & Hs & Hv & Hr) Hns ->. exists (<[c_name o := ((s_version s + 1)%Z, o)]> vs).
  cbn [t_objects s_objects t_resourceVersion s_version].
  rewrite Ho, Hs, (kmap_insert (pair "")), fmap_insert. repeat split; try done.
  - by apply lookup_insert_Some in H as [[<- <-]|[? ?]]; [|destruct (Hv n v)].
  - by apply lookup_insert_Some in H as [[<- <-]|[? ?]]; [|destruct (Hv n v)].
Qed.

Lemma represents_delete t s name ws :
  represents t s →
  represents (MkTracker (delete ("", name) (t_objects t)) (t_resourceVersion t) ws)
    (MkStore (delete name (s_objects s)) (s_version s)).
Proof.
  intros (vs & Ho & Hs & Hv & Hr). exists (delete name vs).
  cbn [t_objects s_objects t_resourceVersion s_version].
  rewrite Ho, Hs, (kmap_delete (pair "")), fmap_delete. repeat split; try done.
  - by apply lookup_delete_Some in H as [? ?]; destruct (Hv n v).
  - by apply lookup_delete_Some in H as [? ?]; destruct (Hv n v).
Qed.

(** The watchers do not matter. *)
Lemma represents_watchers t s ws :
  represents t s → represents (MkTracker (t_objects t) (t_resourceVersion t) ws) s.
Proof. done. Qed.

(** ** The tracker implements the store *)

(** The events of an operation, sent to every watch. *)
Fixpoint announce (evs : list watch_event) (ws : list watcher) : option (list watcher) :=
  match evs with
  | [] => Some ws
  | e :: evs => ws ← notify "" e ws; announce evs ws
  end.

Lemma set_same_namespace o : c_namespace o = "" → set_namespace o "" = o.
Proof. destruct o; cbn. by intros ->. Qed.

Lemma represents_found t s name :
  represents t s →
  match s_objects s !! name with
  | Some o => ∃ rv, t_objects t !! ("", name) = Some (rv, o)
  | None => t_objects t !! ("", name) = None
  end.
Proof.
  intros H. rewrite <- (represents_lookup t s name H).
  destruct (t_objects t !! ("", name)) as [[rv o]|]; cbn; eauto.
Qed.

(** A write, on the tracker and on the store. *)
Lemma tracker_add_spec t s o replaceExisting :
  represents t s →
  tracker_add o "" replaceExisting t =
  match refusal replaceExisting o s with
  | Some e => Some (Err e, t)
  | None =>
      ws ← notify "" (if replaceExisting then Modified else Added, o) (t_watchers t);
      Some (Ok (), MkTracker (<[("", c_name o) := ((s_version s + 1)%Z, o)]> (t_objects t))
                     (Some (s_version s + 1)%Z) ws)
  end.
Proof.
  intros Hrep. pose proof (represents_found t s (c_name o) Hrep) as Hf.
  destruct Hrep as (vs & _ & _ & _ & Hv).
  unfold tracker_add, refusal.
  destruct (String.eqb_spec (c_namespace o) "") as [E|E].
  - rewrite (set_same_namespace o E), E, Hv. cbn [negb String.eqb].
    destruct (s_objects s !! c_name o), replaceExisting;
      [destruct Hf as [rv ->] | destruct Hf as [rv ->] | rewrite Hf | rewrite Hf]; done.
  - cbn [negb]. rewrite (proj2 (String.eqb_neq "" (c_namespace o))) by done. done.
Qed.

Lemma tracker_Get_spec t s name :
  represents t s →
  tracker_Get "" name t =
  match s_objects s !! name with Some o => Ok o | None => Err (missing name) end.
Proof.
  intros Hrep. pose proof (represents_found t s name Hrep) as Hf. unfold tracker_Get.
  destruct (s_objects s !! name); [destruct Hf as [rv ->] | rewrite Hf]; done.
Qed.

Lemma tracker_Delete_spec t s name :
  represents t s →
  tracker_Delete "" name t =
  match s_objects s !! name with
  | None => Some (Err (missing name), t)
  | Some o => ws ← notify "" (Deleted, o) (t_watchers t);
              Some (Ok (), MkTracker (delete ("", name) (t_objects t)) (t_resourceVersion t) ws)
  end.
Proof.
  intros Hrep. pose proof (represents_found t s name Hrep) as Hf. unfold tracker_Delete.
  destruct (s_objects s !! name); [destruct Hf as [rv ->] | rewrite Hf]; done.
Qed.

(** Writing and what is then there. *)
Lemma spec_write_cases replaceExisting o s :
  (∃ e, refusal replaceExisting o s = Some e ∧
        spec_write replaceExisting o s = (AnObject None (Some e), s, [])) ∨
  (refusal replaceExisting o s = None ∧ c_namespace o = "" ∧
   spec_write replaceExisting o s =
     (AnObject (Some o) None, MkStore (<[c_name o := o]> (s_objects s)) (s_version s + 1),
      [(if replaceExisting then Modified else Added, o)])).
Proof.
  unfold spec_write. destruct (refusal replaceExisting o s) as [e|] eqn:E; [left; eauto | right].
  repeat split. unfold refusal in E. by destruct (String.eqb_spec (c_namespace o) "").
Qed.

(** What an executed operation must look like from outside. *)
Definition reaction_answer (r : reaction) : option answer :=
  match r with
  | Some (None, e) => Some (AnObject None e)
  | Some (Some (RObject o), e) => Some (AnObject (Some o) e)
  | _ => None
  end.

(** A reaction of the tracker that does what the store says. *)
Definition implements (r : option (reaction * tracker)) (ws : list watcher)
    (spec : answer * store * list watch_event) : Prop :=
  let '(a, s', evs) := spec in
  match announce evs ws with
  | None => r = None
  | Some ws' => ∃ res t', r = Some (res, t') ∧ reaction_answer res = Some a ∧
                          represents t' s' ∧ t_watchers t' = ws'
  end.

Lemma write_and_get_spec t s o replaceExisting :
  represents t s →
  implements (write_and_get o replaceExisting t) (t_watchers t) (spec_write replaceExisting o s).
Proof.
  intros Hrep. unfold write_and_get. rewrite (tracker_add_spec t s) by done.
  destruct (spec_write_cases replaceExisting o s) as [(e & -> & ->)|(-> & Hns & ->)].
  { cbn. eauto 8. }
  cbn [implements announce]. destruct (notify _ _ _) as [ws|]; cbn; [|done].
  pose proof (represents_insert t s o _ ws Hrep Hns eq_refl) as Hrep'.
  eexists _, _. split; [done|].
  rewrite (tracker_Get_spec _ _ (c_name o) Hrep'). cbn [s_objects]. rewrite lookup_insert_eq. done.
Qed.

Section implementation.
Variable patch_object : string → string → configuration → result configuration.
Variable apply_object : string → configuration → result configuration.
Variable parse_labels : string → result selector.
Variable parse_fields : string → bool.

Lemma patch_spec t s name pt data :
  represents t s →
  implements
    (if String.eqb pt "application/apply-patch+yaml" then reactor_Apply apply_object name data t
     else reactor_Patch patch_object name pt data t)
    (t_watchers t) (spec_patch patch_object apply_object name pt data s).
Proof.
  intros Hrep. unfold reactor_Apply, reactor_Patch, spec_patch.
  rewrite (tracker_Get_spec t s name Hrep).
  destruct (s_objects s !! name) as [o|]; [|destruct (String.eqb _ _); cbn; eauto 8].
  destruct (String.eqb pt "application/apply-patch+yaml").
  - destruct (apply_object data o) as [o'|e]; [|cbn; eauto 8].
    rewrite (tracker_add_spec t s) by done.
    destruct (spec_write_cases true o' s) as [(e & -> & ->)|(-> & Hns & ->)]; [cbn; eauto 8|].
    cbn [implements announce]. destruct (notify _ _ _) as [ws|]; cbn -[represents]; [|done].
    pose proof (represents_insert t s o' _ ws Hrep Hns eq_refl) as Hrep'.
    eexists _, _. split; [done|]. rewrite (tracker_Get_spec _ _ name Hrep'). cbn [s_objects].
    destruct (<[c_name o' := o']> (s_objects s) !! name); done.
  - destruct (if supported_patch pt then _ else _) as [o'|e]; [|cbn; eauto 8].
    rewrite (tracker_add_spec t s) by done.
    destruct (spec_write_cases true o' s) as [(e & -> & ->)|(-> & Hns & ->)]; [cbn; eauto 8|].
    cbn [implements announce]. destruct (notify _ _ _) as [ws|]; cbn -[represents]; [|done].
    eexists _, _. split; [done|]. split; [done|]. split; [|done].
    by apply represents_insert.
Qed.

Definition object_reactor : reactor := MkReactor "*" "*" (ObjectReaction patch_object apply_object).

Lemma react_object a t :
  react [object_reactor] a t =
  ('(res, t) ← ObjectReaction patch_object apply_object a t;
   match res with Some _ => Some (res, t) | None => Some (None, t) end).
Proof. done. Qed.

(** A method that returns an object, through the tracker's reactor. *)
Lemma fake_configuration_spec a c spec :
  fk_reactors c = [object_reactor] →
  implements (ObjectReaction patch_object apply_object a (fk_tracker c)) (t_watchers (fk_tracker c)) spec →
  let '(ans, s', evs) := spec in
  match announce evs (t_watchers (fk_tracker c)) with
  | None => fake_configuration a c = None
  | Some ws => ∃ r c', fake_configuration a c = Some (r, c') ∧ AnObject r.1 r.2 = ans ∧
      fk_reactors c' = [object_reactor] ∧ represents (fk_tracker c') s' ∧
      t_watchers (fk_tracker c') = ws
  end.
Proof.
  intros Hr. destruct spec as [[ans s'] evs]. unfold implements, fake_configuration, Invokes.
  rewrite Hr, react_object. destruct (announce evs _) as [ws|]; [|by intros ->].
  intros (res & t' & -> & Hans & Hrep & Hws). cbn -[represents].
  destruct res as [[[[o|l]|] e]|]; cbn in Hans; inv_ok; eexists _, _; done.
Qed.

(** A clientset as [NewSimpleClientset] makes it, standing for a store. *)
Definition stands_for (c : FakeClientset) (s : store) : Prop :=
  fk_reactors c = [object_reactor] ∧ represents (fk_tracker c) s.

Abbreviation spec_op := (spec_exec patch_object apply_object).
Abbreviation exec_op := (fake_exec parse_labels parse_fields).

(** The selectors of an operation parse. *)
Definition op_parses (op : fake_op) : bool :=
  match op with
  | FList o | FDeleteCollection o | FWatch o =>
      match ExtractFromListOptions parse_labels parse_fields o with Some _ => true | None => false end
  | _ => true
  end.

Definition executes (op : fake_op) (c : FakeClientset) (spec : answer * store * list watch_event) : Prop :=
  let '(a, s', evs) := spec in
  match announce evs (t_watchers (fk_tracker c)) with
  | None => exec_op op c = None
  | Some ws => ∃ c', exec_op op c = Some (a, c') ∧ stands_for c' s' ∧ t_watchers (fk_tracker c') = ws
  end.

Lemma method_executes op a c spec :
  exec_op op c = ('(r, c) ← fake_configuration a c; Some (AnObject r.1 r.2, c)) →
  fk_reactors c = [object_reactor] →
  implements (ObjectReaction patch_object apply_object a (fk_tracker c)) (t_watchers (fk_tracker c)) spec →
  executes op c spec.
Proof.
  intros Hop Hr Hi. pose proof (fake_configuration_spec a c spec Hr Hi) as H.
  destruct spec as [[ans s'] evs]. unfold executes. rewrite Hop.
  destruct (announce evs _); [|by rewrite H].
  destruct H as (r & c' & -> & <- & Hr' & Hrep & Hws). exists c'. done.
Qed.

Lemma Get_implements t s name :
  represents t s →
  implements (ObjectReaction patch_object apply_object (AGet name) t) (t_watchers t)
    (match s_objects s !! name with
     | Some o => AnObject (Some o) None
     | None => AnObject None (Some (missing name))
     end, s, []).
Proof.
  intros Hrep. cbn [ObjectReaction]. rewrite (tracker_Get_spec t s name Hrep).
  cbn -[represents]. destruct (s_objects s !! name); eexists _, _; done.
Qed.

(** Every operation on objects does what the store says. *)
Lemma store_op_executes op c s a s' evs :
  stands_for c s → op_parses op = true → spec_op op s = (Some a, s', evs) →
  executes op c (a, s', evs).
Proof.
  intros [Hr Hrep] Hp Hs. destruct op; cbn [spec_exec] in Hs; try discriminate Hs.
  - injection Hs as <- <- <-. eapply (method_executes _ (AGet name)); [done | done |].
    by apply Get_implements.
  - destruct (spec_write false o s) as [[a1 s1] e1] eqn:E. injection Hs as <- <- <-. rewrite <- E.
    eapply (method_executes _ (ACreate o)); [done | done |]. by apply write_and_get_spec.
  - destruct (spec_write true o s) as [[a1 s1] e1] eqn:E. injection Hs as <- <- <-. rewrite <- E.
    eapply (method_executes _ (AUpdate "" o)); [done | done |]. by apply write_and_get_spec.
  - destruct (spec_write true o s) as [[a1 s1] e1] eqn:E. injection Hs as <- <- <-. rewrite <- E.
    eapply (method_executes _ (AUpdate "status" o)); [done | done |]. by apply write_and_get_spec.
  - unfold executes. cbn [fake_exec]. unfold fake_Delete, Invokes. rewrite Hr, react_object.
    cbn [ObjectReaction]. rewrite (tracker_Delete_spec _ s name Hrep).
    destruct (s_objects s !! name) as [o|]; injection Hs as <- <- <-; cbn [announce].
    + destruct (notify _ _ _) as [ws|]; [|done]. eexists. split; [done|].
      split; [|done]. split; [done|]. by apply represents_delete.
    + eexists. done.
  - destruct (spec_patch _ _ name pt data s) as [[a1 s1] e1] eqn:E. injection Hs as <- <- <-.
    rewrite <- E. eapply (method_executes _ (APatch name pt data (path_Join []))); [done | done |].
    by apply patch_spec.
  - injection Hs as <- <- <-. unfold executes. cbn [announce fake_exec].
    unfold fake_DeleteCollection, Invokes. cbn [op_parses] in Hp.
    destruct (ExtractFromListOptions _ _ listOpts); [|done]. rewrite Hr, react_object.
    eexists. done.
Qed.

(** *** Lists *)

#[local] Instance object_le_total : Total object_le.
Proof.
  intros o1 o2. unfold object_le. rewrite (String.eqb_sym (c_namespace o2)).
  destruct (String.eqb _ _).
  - destruct (String.leb_total (c_name o1) (c_name o2)); auto.
  - destruct (String.leb_total (c_namespace o1) (c_namespace o2)); auto.
Qed.

Lemma kmap_values (vs : gmap string (Z * configuration)) :
  map (λ kv, kv.2.2) (map_to_list (kmap (M2:=gmap object_key) (pair "") vs)) ≡ₚ
  (map_to_list (snd <$> vs)).*2.
Proof.
  rewrite map_to_list_fmap. unfold kmap. rewrite map_to_list_to_map.
  - generalize (map_to_list vs) as l. induction l as [|[n [rv o]] l IH]; [done | by constructor].
  - assert ((prod_map (pair "") id <$> map_to_list vs).*1 = pair "" <$> (map_to_list vs).*1) as ->.
    { generalize (map_to_list vs) as l. induction l as [|[n v] l IH]; cbn; [done | by rewrite IH]. }
    apply NoDup_fmap_2; [apply _ | apply NoDup_fst_map_to_list].
Qed.

Lemma filter_all {A} (f : A → bool) l : (∀ x, f x = true) → List.filter f l = l.
Proof. intros Hf. induction l as [|x l IH]; cbn; [done|]. by rewrite Hf, IH. Qed.

Lemma listed_objects t s :
  represents t s →
  let l := filterByNamespace "" (t_objects t) in
  l ≡ₚ (map_to_list (s_objects s)).*2 ∧ Sorted object_le l.
Proof.
  intros (vs & -> & -> & _). unfold filterByNamespace. rewrite filter_all by done.
  split; [|apply Sorted_merge_sort, _]. by rewrite merge_sort_Permutation, kmap_values.
Qed.

(** What an operation answers. *)
Definition answers (op : fake_op) (s : store) (a : answer) : Prop :=
  match (spec_op op s).1.1 with
  | Some a' => a = a'
  | None =>
      match op with
      | FList opts => ∃ sel all,
          ExtractFromListOptions parse_labels parse_fields opts = Some sel ∧
          all ≡ₚ (map_to_list (s_objects s)).*2 ∧ Sorted object_le all ∧
          a = AnList (Some (MkConfigurationList (Itoa (s_version s))
                              (List.filter (λ o, Matches sel (c_labels o)) all))) None
      | _ => True
      end
  end.

(** The watches after an operation. *)
Definition next_watchers (op : fake_op) (s : store) (ws : list watcher) : option (list watcher) :=
  match op with
  | FWatch _ => Some (ws ++ [MkWatcher "" [] false])%list
  | FReceive k => Some (t_watchers (receive k (MkTracker ∅ None ws)).2)
  | FStop k => Some (alter (λ w, MkWatcher (wt_namespace w) (wt_events w) true) k ws)
  | _ => announce (spec_op op s).2 ws
  end.

Lemma receive_watchers k t :
  t_watchers (receive k t).2 = t_watchers (receive k (MkTracker ∅ None (t_watchers t))).2 ∧
  t_objects (receive k t).2 = t_objects t ∧
  t_resourceVersion (receive k t).2 = t_resourceVersion t.
Proof. unfold receive. cbn [t_watchers]. by destruct (t_watchers t !! k) as [[ns [|e es] st]|]. Qed.

(** One operation: it panics exactly when its selector does not parse or a
    watch is full; else it answers and changes as the store does. *)
Lemma fake_exec_spec op c s :
  stands_for c s →
  match exec_op op c with
  | None => op_parses op = false ∨ next_watchers op s (t_watchers (fk_tracker c)) = None
  | Some (a, c') =>
      answers op s a ∧ stands_for c' (spec_op op s).1.2 ∧
      next_watchers op s (t_watchers (fk_tracker c)) = Some (t_watchers (fk_tracker c'))
  end.
Proof.
  intros Hst. pose proof Hst as [Hr Hrep].
  destruct (spec_op op s) as [[[a|] s'] evs] eqn:Hs.
  - destruct (op_parses op) eqn:Hp.
    + pose proof (store_op_executes op c s a s' evs Hst Hp Hs) as H. unfold executes in H.
      assert (next_watchers op s (t_watchers (fk_tracker c)) = announce evs (t_watchers (fk_tracker c)))
        as -> by (unfold next_watchers; rewrite Hs; by destruct op; cbn in Hs).
      destruct (announce evs _) as [ws|]; [|rewrite H; by right].
      destruct H as (c' & -> & Hc' & <-). unfold answers. by rewrite Hs.
    + destruct op; try discriminate Hp; try discriminate Hs.
      cbn [fake_exec op_parses] in *. unfold fake_DeleteCollection.
      destruct (ExtractFromListOptions _ _ _); [done | by left].
  - destruct op; cbn [spec_exec] in Hs; try (destruct (spec_write _ _ _) as [[? ?] ?]; done);
      try (destruct (spec_patch _ _ _ _ _ _) as [[? ?] ?]; done);
      try (destruct (s_objects s !! name); done); try done; injection Hs as <- <-.
    + cbn [fake_exec op_parses]. unfold fake_List, Invokes.
      destruct (ExtractFromListOptions _ _ opts) as [sel|] eqn:Hsel; [|by left].
      rewrite Hr, react_object. cbn -[represents].
      destruct (listed_objects _ _ Hrep) as [Hperm Hsort].
      pose proof Hrep as (vs & _ & _ & _ & Hver). rewrite Hver.
      repeat split; try done. exists sel, (filterByNamespace "" (t_objects (fk_tracker c))). done.
    + cbn [fake_exec op_parses]. unfold fake_Watch.
      destruct (ExtractFromListOptions _ _ opts) as [sel|] eqn:Hsel; [|by left]. done.
    + cbn [fake_exec]. destruct (receive_watchers w (fk_tracker c)) as (Hw & Ho & Hv).
      destruct (receive w (fk_tracker c)) as [e t']. cbn [snd] in *.
      split; [done|]. split; [|cbn [next_watchers with_tracker fk_tracker]; by rewrite Hw].
      split; [done|]. unfold represents in *. cbn [with_tracker fk_tracker]. by rewrite Ho, Hv.
    + done.
Qed.

(** ** Runs *)

Inductive store_run : list fake_op → store → list answer → store → Prop :=
| store_run_nil s : store_run [] s [] s
| store_run_cons op ops s a l s' :
    answers op s a → store_run ops (spec_op op s).1.2 l s' → store_run (op :: ops) s (a :: l) s'.

Fixpoint run_events (ops : list fake_op) (s : store) : list watch_event :=
  match ops with
  | [] => []
  | op :: ops => ((spec_op op s).2 ++ run_events ops (spec_op op s).1.2)%list
  end.

Lemma fake_run_spec ops c s l c' :
  stands_for c s → fake_run parse_labels parse_fields ops c = Some (l, c') →
  ∃ s', store_run ops s l s' ∧ stands_for c' s'.
Proof.
  revert c s l. induction ops as [|op ops IH]; intros c s l Hst; cbn [fake_run].
  { intros [= <- <-]. exists s. split; [constructor | done]. }
  pose proof (fake_exec_spec op c s Hst) as H.
  destruct (exec_op op c) as [[a c1]|]; cbn [mbind option_bind]; [|done].
  destruct H as (Ha & Hst1 & _).
  destruct (fake_run _ _ ops c1) as [[l1 c2]|] eqn:E; cbn; [|done]. intros [= <- <-].
  destruct (IH c1 _ l1 Hst1 E) as (s' & Hrun & Hst'). exists s'. split; [by econstructor | done].
Qed.

Definition is_watch_op (op : fake_op) : bool := match op with FWatch _ => true | _ => false end.

Lemma announce_nobody evs : announce evs [] = Some [].
Proof. induction evs; cbn; done. Qed.

Lemma next_nobody op s : is_watch_op op = false → next_watchers op s [] = Some [].
Proof. destruct op; intros Hw; try done; by apply announce_nobody. Qed.

(** Without watches, nothing but a selector that does not parse panics. *)
Lemma fake_run_total ops c s :
  stands_for c s → t_watchers (fk_tracker c) = [] →
  Forall (λ op, op_parses op = true ∧ is_watch_op op = false) ops →
  is_Some (fake_run parse_labels parse_fields ops c).
Proof.
  intros Hst Hw Hops. revert c s Hst Hw.
  induction Hops as [|op ops [Hp Hn] _ IH]; intros c s Hst Hw; cbn [fake_run]; [eauto|].
  pose proof (fake_exec_spec op c s Hst) as H. rewrite Hw, (next_nobody op s Hn) in H.
  destruct (exec_op op c) as [[a c1]|]; cbn [mbind option_bind]; [|destruct H; congruence].
  destruct H as (_ & Hst1 & Hw1). injection Hw1 as Hw1.
  destruct (IH c1 _ Hst1 (eq_sym Hw1)) as [[l c2] ->]. cbn. eauto.
Qed.

(** *** The initial objects *)

Definition initial_objects (objects : list initial_object) : list configuration :=
  concat (map (λ i, match i with IObject o => [o] | IList l => l | IUnknown => [] end) objects).

Definition initial_store (objects : list initial_object) : store :=
  fold_left (λ s o, (spec_write false o s).1.2) (initial_objects objects) (MkStore ∅ 1).

Lemma Add_all_spec l t s t' :
  represents t s → t_watchers t = [] → Forall (λ o, c_namespace o = "") l →
  tracker_Add_all l t = Some t' →
  represents t' (fold_left (λ s o, (spec_write false o s).1.2) l s) ∧ t_watchers t' = [].
Proof.
  intros Hrep Hw Hl. revert t s Hrep Hw. induction Hl as [|o l Ho _ IH]; intros t s Hrep Hw;
    cbn [tracker_Add_all fold_left]; [by intros [= <-]|].
  rewrite Ho, (tracker_add_spec t s o false Hrep), Hw.
  destruct (spec_write_cases false o s) as [(e & -> & ->)|(-> & _ & ->)]; [done|]. cbn [notify mbind option_bind].
  apply IH; [by apply represents_insert | done].
Qed.

Lemma Add_objects_spec objects t s t' :
  represents t s → t_watchers t = [] → Forall (λ o, c_namespace o = "") (initial_objects objects) →
  tracker_Add_objects objects t = Some t' →
  represents t' (fold_left (λ s o, (spec_write false o s).1.2) (initial_objects objects) s) ∧
  t_watchers t' = [].
Proof.
  revert t s. induction objects as [|i objects IH]; intros t s Hrep Hw Hl; cbn [tracker_Add_objects].
  { by intros [= <-]. }
  unfold initial_objects in *. cbn [map concat] in *. apply Forall_app in Hl as [Hi Hl].
  rewrite fold_left_app. destruct (tracker_Add i t) as [t1|] eqn:E; cbn [mbind option_bind]; [|done].
  assert (∃ li, match i with IObject o => [o] | IList l => l | IUnknown => [] end = li ∧
                tracker_Add_all li t = Some t1) as (li & Hli & Hadd) by (destruct i as [o|l|]; [exists [o] | exists l | discriminate E]; done).
  rewrite Hli in *. destruct (Add_all_spec li t s t1 Hrep Hw Hi Hadd) as [Hrep1 Hw1].
  by apply IH.
Qed.

Lemma NewSimpleClientset_spec objects c :
  Forall (λ o, c_namespace o = "") (initial_objects objects) →
  NewSimpleClientset patch_object apply_object objects = Some c →
  stands_for c (initial_store objects) ∧ t_watchers (fk_tracker c) = [].
Proof.
  intros Hl. unfold NewSimpleClientset.
  destruct (tracker_Add_objects objects NewObjectTracker) as [t|] eqn:E; cbn; [|done].
  intros [= <-]. destruct (Add_objects_spec objects NewObjectTracker (MkStore ∅ 1) t) as [Hrep Hw];
    try done. exists ∅. done.
Qed.
End implementation.

(** C36: a fake clientset of cluster-scoped objects answers every sequence of
    operations as a store of objects by name does: creations refuse names
    that are taken, updates and deletions those that are not (the comment on
    the tracker's Delete promises no error there), lists are sorted and
    filtered; updating the status replaces the whole object, and deleting a
    collection deletes nothing.  Without watches no operation
    whose selectors parse panics. *)
Theorem fake_clientset_refines_store patch apply pl pf objects c ops :
  Forall (λ o, c_namespace o = "") (initial_objects objects) →
  NewSimpleClientset patch apply objects = Some c →
  (∀ l c', fake_run pl pf ops c = Some (l, c') →
     ∃ s', store_run patch apply pl pf ops (initial_store objects) l s' ∧
           stands_for patch apply c' s') ∧
  (Forall (λ op, op_parses pl pf op = true ∧ is_watch_op op = false) ops →
     is_Some (fake_run pl pf ops c)).
Proof.
  intros Hl Hc. destruct (NewSimpleClientset_spec patch apply objects c Hl Hc) as [Hst Hw].
  split.
  - intros l c'. by apply fake_run_spec.
  - by apply fake_run_total with (patch_object := patch) (apply_object := apply)
      (s := initial_store objects).
Qed.

(** ** Watches *)

Lemma notify_keeps e ws ws' k es :
  notify "" e ws = Some ws' → ws !! k = Some (MkWatcher "" es false) →
  ws' !! k = Some (MkWatcher "" (es ++ [e]) false) ∧ length (es ++ [e]) <= DefaultChanSize.
Proof.
  revert ws' k. induction ws as [|w ws IH]; intros ws' k H Hk; [done|]. cbn [notify] in H.
  destruct (if watches "" w then _ else _) as [w'|] eqn:Hw; cbn [mbind option_bind] in H; [|done].
  destruct (notify "" e ws) as [ws1|] eqn:Hn; cbn in H; [|done]. injection H as <-.
  destruct k as [|k]; cbn in Hk |- *; [|by apply IH].
  injection Hk as ->. change (watches "" (MkWatcher "" es false)) with true in Hw.
  unfold send_event in Hw. cbn [wt_stopped wt_events wt_namespace] in Hw.
  destruct (Nat.ltb_spec (length es) DefaultChanSize); [|done]. injection Hw as <-.
  split; [done|]. rewrite length_app. cbn [length]. lia.
Qed.

Lemma announce_keeps evs ws ws' k es :
  announce evs ws = Some ws' → ws !! k = Some (MkWatcher "" es false) →
  length es <= DefaultChanSize →
  ws' !! k = Some (MkWatcher "" (es ++ evs) false) ∧ length (es ++ evs) <= DefaultChanSize.
Proof.
  revert ws es. induction evs as [|e evs IH]; intros ws es H Hk Hlen; cbn [announce] in H.
  { injection H as <-. by rewrite app_nil_r. }
  destruct (notify "" e ws) as [ws1|] eqn:Hn; cbn [mbind option_bind] in H; [|done].
  destruct (notify_keeps e ws ws1 k es Hn Hk) as [Hk1 Hlen1].
  destruct (IH ws1 (es ++ [e])%list H Hk1 Hlen1) as [H1 H2]. by rewrite <- app_assoc in H1, H2.
Qed.

(** An operation that leaves watch [k] alone: it may receive from or stop
    other watches only. *)
Definition not_consuming (k : nat) (op : fake_op) : Prop :=
  match op with FReceive j | FStop j => j ≠ k | _ => True end.

Section watching.
Variable patch_object : string → string → configuration → result configuration.
Variable apply_object : string → configuration → result configuration.
Variable parse_labels : string → result selector.
Variable parse_fields : string → bool.

Lemma next_watchers_keeps op s ws ws' k es :
  next_watchers patch_object apply_object op s ws = Some ws' → not_consuming k op →
  ws !! k = Some (MkWatcher "" es false) → length es <= DefaultChanSize →
  let evs := (spec_exec patch_object apply_object op s).2 in
  ws' !! k = Some (MkWatcher "" (es ++ evs) false) ∧ length (es ++ evs) <= DefaultChanSize.
Proof.
  intros Hn Hk Hw Hlen.
  assert (∀ ws1 : list watcher, ws1 !! k = ws !! k → (spec_exec patch_object apply_object op s).2 = [] →
    ws1 !! k = Some (MkWatcher "" (es ++ (spec_exec patch_object apply_object op s).2) false) ∧
    length (es ++ (spec_exec patch_object apply_object op s).2) <= DefaultChanSize) as Hsame.
  { intros ws1 -> ->. by rewrite app_nil_r. }
  destruct op; try (by eapply announce_keeps); injection Hn as <-; apply Hsame; try done.
  - apply lookup_app_l. by eapply lookup_lt_Some.
  - unfold receive. cbn [t_watchers]. destruct (ws !! w) as [[ns [|e l] st]|]; cbn; try done.
    by apply list_lookup_insert_ne.
  - by apply list_lookup_alter_ne.
Qed.

Lemma watch_receives_run ops c s l c' k es :
  stands_for patch_object apply_object c s → Forall (not_consuming k) ops →
  t_watchers (fk_tracker c) !! k = Some (MkWatcher "" es false) → length es <= DefaultChanSize →
  fake_run parse_labels parse_fields ops c = Some (l, c') →
  let evs := run_events patch_object apply_object ops s in
  t_watchers (fk_tracker c') !! k = Some (MkWatcher "" (es ++ evs) false) ∧
  length (es ++ evs) <= DefaultChanSize.
Proof.
  revert c s l es. induction ops as [|op ops IH]; intros c s l es Hst Hops Hw Hlen; cbn [fake_run run_events].
  { intros [= <- <-]. by rewrite app_nil_r. }
  apply Forall_cons in Hops as [Hop Hops].
  pose proof (fake_exec_spec patch_object apply_object parse_labels parse_fields op c s Hst) as H.
  destruct (fake_exec parse_labels parse_fields op c) as [[a c1]|]; cbn [mbind option_bind]; [|done].
  destruct H as (_ & Hst1 & Hn).
  destruct (next_watchers_keeps op s _ _ k es Hn Hop Hw Hlen) as [Hw1 Hlen1].
  destruct (fake_run parse_labels parse_fields ops c1) as [[l1 c2]|] eqn:E; cbn [mbind option_bind]; [|done].
  intros [= <- <-]. destruct (IH c1 _ l1 _ Hst1 Hops Hw1 Hlen1 E) as [H1 H2].
  by rewrite <- app_assoc in H1, H2.
Qed.
End watching.

(** A watch of the fake clientset delivers exactly the changes made after
    it was opened, in their order, and nothing that existed before; the
    hundredth change that nobody received is the last one that does not
    panic. *)
Theorem fake_watch_delivers_later_changes patch apply pl pf c s opts c1 k ops l c2 :
  stands_for patch apply c s →
  fake_exec pl pf (FWatch opts) c = Some (AnWatch k, c1) →
  Forall (not_consuming k) ops → fake_run pl pf ops c1 = Some (l, c2) →
  let evs := run_events patch apply ops s in
  t_watchers (fk_tracker c2) !! k = Some (MkWatcher "" evs false) ∧ length evs <= 100.
Proof.
  intros Hst Hw Hops Hrun.
  pose proof (fake_exec_spec patch apply pl pf (FWatch opts) c s Hst) as H. rewrite Hw in H.
  destruct H as (_ & Hst1 & Hn). injection Hn as Hn.
  assert (k = length (t_watchers (fk_tracker c))) as ->.
  { revert Hw. cbn [fake_exec]. unfold fake_Watch.
    destruct (ExtractFromListOptions pl pf opts); cbn; [|done]. by intros [= <- _]. }
  apply (watch_receives_run patch apply pl pf ops c1 s l c2 _ []); [done | done | | cbn; lia | done].
  rewrite <- Hn. apply list_lookup_middle. done.
Qed.

(** ** A sample *)
Module FakeSample.
Definition patch (pt data : string) (o : configuration) : result configuration := Ok o.
Definition apply (data : string) (o : configuration) : result configuration := Ok o.
Definition parse_labels (s : string) : result selector :=
  if String.eqb s "" then Ok Everything else Err (ENew "unable to parse").
Definition parse_fields (s : string) : bool := true.
Definition object := InformerSample.object.

Definition clientset : FakeClientset :=
  default (MkFake [] [] NewObjectTracker) (NewSimpleClientset patch apply [IObject (object "a")]).

Definition script : list fake_op :=
  [FCreate (object "a"); FCreate (object "b"); FList no_ListOptions; FDelete "c";
   FDeleteCollection no_ListOptions; FGet "b"].

Lemma script_answers :
  fst <$> fake_run parse_labels parse_fields script clientset =
  Some [AnObject None (Some (NewAlreadyExists tracked_resource "a"));
        AnObject (Some (object "b")) None;
        AnList (Some (MkConfigurationList "3" [object "a"; object "b"])) None;
        AnError (Some (missing "c")); AnError None; AnObject (Some (object "b")) None].
Proof. vm_compute. reflexivity. Qed.

Lemma clientset_made :
  NewSimpleClientset patch apply [IObject (object "a")] = Some clientset ∧
  Forall (λ o, c_namespace o = "") (initial_objects [IObject (object "a")]).
Proof. split; [done | by repeat constructor]. Qed.

Lemma fake_clientset_refines_store_witness :
  ∃ l c' s', fake_run parse_labels parse_fields script clientset = Some (l, c') ∧
    store_run patch apply parse_labels parse_fields script (initial_store [IObject (object "a")]) l s'.
Proof.
  destruct clientset_made as [Hc Hl].
  destruct (fake_clientset_refines_store patch apply parse_labels parse_fields
    [IObject (object "a")] clientset script Hl Hc) as [Href Htot].
  destruct Htot as [[l c'] Hrun]; [by repeat constructor|].
  destruct (Href l c' Hrun) as (s' & Hs & _). by exists l, c', s'.
Defined.

(** An informer lists, another client creates an object, the informer opens
    its watch: the object is neither in the list nor in the watch. *)
Definition gap : list fake_op := [FList no_ListOptions; FCreate (object "b"); FWatch no_ListOptions].

Lemma list_watch_gap :
  (λ r, (r.1, t_watchers (fk_tracker r.2))) <$> fake_run parse_labels parse_fields gap clientset =
  Some ([AnList (Some (MkConfigurationList "2" [object "a"])) None; AnObject (Some (object "b")) None;
         AnWatch 0], [MkWatcher "" [] false]).
Proof. vm_compute. reflexivity. Qed.

(** Updating the status replaces the specification, too. *)
Definition emptied (o : configuration) : configuration :=
  MkConfiguration "" ∅ "" (MkMPC (c_name o) "" 0 None "" "" "" (MkProxyServerSpec "" 0 "" "" None [] ∅ [])
                             None (MkStatus 7 [])).

Lemma status_update_replaces :
  fst <$> fake_run parse_labels parse_fields [FUpdateStatus (emptied (object "a")); FGet "a"] clientset =
  Some [AnObject (Some (emptied (object "a"))) None; AnObject (Some (emptied (object "a"))) None].
Proof. vm_compute. reflexivity. Qed.

Definition watching : FakeClientset :=
  default clientset (snd <$> fake_exec parse_labels parse_fields (FWatch no_ListOptions) clientset).
Definition changes : list fake_op := [FCreate (object "b"); FDelete "a"].

Lemma changes_answers :
  fst <$> fake_run parse_labels parse_fields changes watching =
  Some [AnObject (Some (object "b")) None; AnError None].
Proof. vm_compute. reflexivity. Qed.

Lemma changes_events :
  run_events patch apply changes (initial_store [IObject (object "a")]) =
  [(Added, object "b"); (Deleted, object "a")].
Proof. vm_compute. reflexivity. Qed.

Lemma fake_watch_delivers_later_changes_witness :
  ∃ l c2, fake_run parse_labels parse_fields changes watching = Some (l, c2) ∧
    t_watchers (fk_tracker c2) !! 0 =
      Some (MkWatcher "" [(Added, object "b"); (Deleted, object "a")] false).
Proof.
  pose proof changes_answers as Ha.
  destruct (fake_run parse_labels parse_fields changes watching) as [[l c2]|] eqn:Hrun;
    [|discriminate Ha].
  exists l, c2. split; [done|]. destruct clientset_made as [Hc Hl].
  destruct (NewSimpleClientset_spec patch apply _ clientset Hl Hc) as [Hst _].
  rewrite <- changes_events.
  by destruct (fake_watch_delivers_later_changes patch apply parse_labels parse_fields clientset
    (initial_store [IObject (object "a")]) no_ListOptions watching 0 changes l c2 Hst eq_refl
    ltac:(by repeat constructor) Hrun) as [H _].
Defined.
End FakeSample.
