(* ===== verification/Pem.v ===== *)
(** * Base64 and PEM (encoding/base64 and encoding/pem of Go's library)

    The certificate code prints keys and certificates as PEM blocks and
    reads them back.  Printing is written out here; reading is an
    interface, [PemDecoder]: what is relied on is that the decoder returns
    a printed block together with the input after it.  [strict] is a
    decoder that accepts printed blocks only, and implements the
    interface. *)

From S2P Require Import Prelude GoStrings Sha256.

Local Open Scope string_scope.

Definition newline : ascii := "010".
Definition line (s : string) : string := s ++ String newline "".

(** ** Base64 *)

(** The standard alphabet. *)
Definition b64_digit (d : Z) : ascii :=
  ascii_of_N (Z.to_N (if d <? 26 then 65 + d
                      else if d <? 52 then 71 + d
                      else if d <? 62 then d - 4
                      else if d =? 62 then 43 else 47)%Z).

Definition b64_value (c : ascii) : option Z :=
  let n := Z.of_N (N_of_ascii c) in
  if is_upper c then Some (n - 65)%Z
  else if is_lower c then Some (n - 71)%Z
  else if is_digit c then Some (n + 4)%Z
  else if (n =? 43)%Z then Some 62%Z
  else if (n =? 47)%Z then Some 63%Z
  else None.

Definition b64_pad : ascii := "=".

(** The 24 bits of three bytes are four digits. *)
Fixpoint b64_encode (l : list Z) : string :=
  match l with
  | [] => ""
  | [a] => String (b64_digit (a / 4)) (String (b64_digit (a mod 4 * 16)) "==")
  | [a; b] => String (b64_digit (a / 4)) (String (b64_digit (a mod 4 * 16 + b / 16))
                (String (b64_digit (b mod 16 * 4)) "="))
  | a :: b :: c :: l =>
      String (b64_digit (a / 4)) (String (b64_digit (a mod 4 * 16 + b / 16))
        (String (b64_digit (b mod 16 * 4 + c / 64)) (String (b64_digit (c mod 64))
          (b64_encode l))))
  end%Z.

(** [base64.StdEncoding.EncodeToString]. *)
Definition EncodeToString (s : string) : string := b64_encode (bytes_of_string s).

Definition b64_byte (z : Z) : ascii := ascii_of_N (Z.to_N z).

(** Decoding; the padding ends the input. *)
Fixpoint b64_decode (s : string) : option string :=
  match s with
  | "" => Some ""
  | String a (String b (String c (String d s))) =>
      x ← b64_value a; y ← b64_value b;
      let first := b64_byte (x * 4 + y / 16)%Z in
      if Ascii.eqb c b64_pad
      then if Ascii.eqb d b64_pad && String.eqb s "" then Some (String first "") else None
      else z ← b64_value c;
           let second := b64_byte (y mod 16 * 16 + z / 4)%Z in
           if Ascii.eqb d b64_pad
           then if String.eqb s "" then Some (String first (String second "")) else None
           else t ← b64_value d;
                rest ← b64_decode s;
                Some (String first (String second (String (b64_byte (z mod 4 * 64 + t)%Z) rest)))
  | _ => None
  end.

(** ** PEM blocks *)

Record Block := MkBlock {
  b_type : string;
  b_headers : list (string * string);
  b_bytes : string
}.

(** The writer that breaks lines after 64 bytes and ends the last one. *)
Fixpoint break_lines (used : nat) (s : string) : string :=
  match s with
  | "" => if (used =? 0)%nat then "" else String newline ""
  | String c s =>
      String c (if (used =? 63)%nat then String newline (break_lines 0 s)
                else break_lines (S used) s)
  end.

(** [pem.EncodeToMemory] of a block without headers. *)
Definition EncodeToMemory (ty bytes : string) : string :=
  line ("-----BEGIN " ++ ty ++ "-----") ++ break_lines 0 (EncodeToString bytes) ++
  line ("-----END " ++ ty ++ "-----").

(** The types that the code prints: capital letters and spaces. *)
Definition plain_type (ty : string) : bool :=
  all_bytes (λ c, is_upper c || Ascii.eqb c " ") ty.

(** What the code relies on of [pem.Decode]: a printed block is read back,
    and what follows it is left; the rest of any block is shorter than the
    input. *)
Class PemDecoder (Decode : string → option (Block * string)) : Prop := {
  Decode_Encode ty bytes rest :
    plain_type ty = true →
    Decode (EncodeToMemory ty bytes ++ rest) = Some (MkBlock ty [] bytes, rest);
  Decode_shrinks data b rest :
    Decode data = Some (b, rest) → (String.length rest < String.length data)%nat
}.

(** ** A strict decoder *)

Fixpoint strip_newlines (s : string) : string :=
  match s with
  | "" => ""
  | String c s => if Ascii.eqb c newline then strip_newlines s else String c (strip_newlines s)
  end.

Definition strip (p s : string) : option string :=
  if HasPrefix s p then Some (str_drop (String.length p) s) else None.

Definition strict (data : string) : option (Block * string) :=
  data ← strip "-----BEGIN " data;
  let '(ty, data, _) := Cut "-" data in
  data ← strip (line "----") data;
  let '(body, data, _) := Cut "-" data in
  rest ← strip (line ("----END " ++ ty ++ "-----")) data;
  bytes ← b64_decode (strip_newlines body);
  Some (MkBlock ty [] bytes, rest).

(** ** Lemmas *)

(** Every digit below 64, by computation. *)
Definition b64_digits_ok : bool :=
  forallb (λ n, let d := Z.of_nat n in
    bool_decide (b64_value (b64_digit d) = Some d) &&
    negb (Ascii.eqb (b64_digit d) b64_pad) && negb (Ascii.eqb (b64_digit d) newline) &&
    negb (Ascii.eqb (b64_digit d) "-")) (seq 0 64).

Lemma b64_digit_ok d :
  (0 <= d < 64)%Z →
  b64_value (b64_digit d) = Some d ∧ Ascii.eqb (b64_digit d) b64_pad = false ∧
  Ascii.eqb (b64_digit d) newline = false ∧ Ascii.eqb (b64_digit d) "-" = false.
Proof.
  intros Hd. assert (b64_digits_ok = true) as H by (vm_compute; reflexivity).
  unfold b64_digits_ok in H. rewrite forallb_forall in H.
  specialize (H (Z.to_nat d)). rewrite Z2Nat.id in H by lia.
  assert (In (Z.to_nat d) (seq 0 64)) as Hin by (apply in_seq; lia).
  specialize (H Hin). by bool_to_prop.
Qed.

(** Every byte is the byte of its number. *)
Lemma b64_byte_of c : b64_byte (Z.of_N (N_of_ascii c)) = c.
Proof. unfold b64_byte. rewrite N2Z.id. apply ascii_N_embedding. Qed.

Lemma byte_range c : (0 <= Z.of_N (N_of_ascii c) < 256)%Z.
Proof. pose proof (N_ascii_bounded c). lia. Qed.

Ltac digits :=
  repeat match goal with
  | |- context [b64_value (b64_digit ?d)] =>
      rewrite (proj1 (b64_digit_ok d ltac:(Z.to_euclidean_division_equations; lia)))
  | |- context [Ascii.eqb (b64_digit ?d) b64_pad] =>
      rewrite (proj1 (proj2 (b64_digit_ok d ltac:(Z.to_euclidean_division_equations; lia))))
  end.

(** Three bytes at a time. *)
Lemma string_ind3 (P : string → Prop) :
  P "" → (∀ a, P (String a "")) → (∀ a b, P (String a (String b ""))) →
  (∀ a b c s, P s → P (String a (String b (String c s)))) → ∀ s, P s.
Proof.
  intros H0 H1 H2 H3. fix IH 1. intros [|a [|b [|c s]]];
    [exact H0 | apply H1 | apply H2 | apply H3, IH].
Qed.

Lemma quad_first x y : (0 <= x < 256 → 0 <= y < 256 →
  x / 4 * 4 + (x mod 4 * 16 + y / 16) / 16 = x)%Z.
Proof. intros. Z.to_euclidean_division_equations. lia. Qed.

Lemma quad_second x y z : (0 <= x < 256 → 0 <= y < 256 → 0 <= z < 256 →
  (x mod 4 * 16 + y / 16) mod 16 * 16 + (y mod 16 * 4 + z / 64) / 4 = y)%Z.
Proof. intros. Z.to_euclidean_division_equations. lia. Qed.

Lemma quad_third y z : (0 <= y < 256 → 0 <= z < 256 →
  (y mod 16 * 4 + z / 64) mod 4 * 64 + z mod 64 = z)%Z.
Proof. intros. Z.to_euclidean_division_equations. lia. Qed.

(** Encoding and decoding are inverse. *)
Lemma b64_decode_encode s : b64_decode (EncodeToString s) = Some s.
Proof.
  unfold EncodeToString, bytes_of_string.
  induction s as [|a|a b|a b c s IH] using string_ind3; [done|..];
    cbn [String.list_ascii_of_string map b64_encode];
    pose proof (byte_range a) as Ha; try pose proof (byte_range b) as Hb;
    try pose proof (byte_range c) as Hc; cbn [b64_decode].
  - digits. cbn. pose proof (quad_first _ 0 Ha ltac:(lia)) as E.
    rewrite Z.div_0_l, Z.add_0_r in E by lia. by rewrite E, b64_byte_of.
  - digits. cbn. rewrite (quad_first _ _ Ha Hb), b64_byte_of.
    pose proof (quad_second _ _ 0 Ha Hb ltac:(lia)) as E.
    rewrite Z.div_0_l, Z.add_0_r in E by lia. by rewrite E, b64_byte_of.
  - digits. cbn. rewrite IH, (quad_first _ _ Ha Hb), (quad_second _ _ _ Ha Hb Hc),
      (quad_third _ _ Hb Hc). cbn. by rewrite !b64_byte_of.
Qed.

(** What base64 prints has neither line breaks nor dashes. *)
Definition b64_char (c : ascii) : bool := negb (Ascii.eqb c newline) && negb (Ascii.eqb c "-").

Lemma b64_char_digit d : (0 <= d < 64)%Z → b64_char (b64_digit d) = true.
Proof. intros Hd. destruct (b64_digit_ok d Hd) as (_ & _ & H1 & H2). unfold b64_char. by rewrite H1, H2. Qed.

Lemma b64_chars s : all_bytes b64_char (EncodeToString s) = true.
Proof.
  unfold EncodeToString, bytes_of_string.
  induction s as [|a|a b|a b c s IH] using string_ind3; [done|..];
    cbn [String.list_ascii_of_string map b64_encode all_bytes];
    pose proof (byte_range a) as Ha; try pose proof (byte_range b) as Hb;
    try pose proof (byte_range c) as Hc;
    rewrite !b64_char_digit by (Z.to_euclidean_division_equations; lia); try done.
Qed.

Lemma strip_break_lines n s :
  all_bytes b64_char s = true → strip_newlines (break_lines n s) = s.
Proof.
  revert n. induction s as [|c s IH]; intros n H; cbn [break_lines].
  - by destruct (n =? 0)%nat.
  - cbn in H. apply andb_true_iff in H as [Hc H].
    assert (Ascii.eqb c newline = false) as En by (unfold b64_char in Hc; by bool_to_prop).
    cbn [strip_newlines]. rewrite En. f_equal.
    destruct (n =? 63)%nat; [cbn|]; by apply IH.
Qed.

Lemma break_lines_no_dash n s :
  all_bytes b64_char s = true → has_byte "-" (break_lines n s) = false.
Proof.
  revert n. induction s as [|c s IH]; intros n H; cbn [break_lines].
  - by destruct (n =? 0)%nat.
  - cbn in H. apply andb_true_iff in H as [Hc H].
    assert (Ascii.eqb c "-" = false) as En by (unfold b64_char in Hc; by bool_to_prop).
    cbn [has_byte]. rewrite En. destruct (n =? 63)%nat; [cbn|]; by apply IH.
Qed.

Lemma strip_app p s : strip p (p ++ s) = Some s.
Proof. unfold strip. by rewrite HasPrefix_app, str_drop_app. Qed.

Lemma strip_length p s r :
  strip p s = Some r → String.length s = (String.length p + String.length r)%nat.
Proof.
  unfold strip. destruct (HasPrefix s p) eqn:E; [|done]. intros H. injection H as <-.
  apply HasPrefix_spec in E as [r ->]. by rewrite str_drop_app, str_length_app.
Qed.

Lemma Cut_length sep s a b f :
  Cut sep s = (a, b, f) → (String.length b <= String.length s)%nat.
Proof.
  revert a b f. induction s as [|c s IH]; cbn; intros a b f H.
  - injection H as <- <- <-. done.
  - destruct (Ascii.eqb c sep); [injection H as <- <- <-; lia|].
    destruct (Cut sep s) as [[a' b'] f']. injection H as <- <- <-.
    specialize (IH _ _ _ eq_refl). lia.
Qed.

Lemma plain_type_no_dash ty : plain_type ty = true → has_byte "-" ty = false.
Proof. intros H. eapply all_bytes_no_byte; [|exact H]. done. Qed.

Lemma EncodeToMemory_shape ty bytes rest :
  EncodeToMemory ty bytes ++ rest =
  "-----BEGIN " ++ ty ++ String "-" (line "----" ++ break_lines 0 (EncodeToString bytes) ++
    String "-" (line ("----END " ++ ty ++ "-----") ++ rest)).
Proof. unfold EncodeToMemory, line. by rewrite <- !str_app_assoc. Qed.

Lemma strict_Encode ty bytes rest :
  plain_type ty = true →
  strict (EncodeToMemory ty bytes ++ rest) = Some (MkBlock ty [] bytes, rest).
Proof.
  intros Hty. rewrite EncodeToMemory_shape. unfold strict.
  rewrite strip_app. cbn [mbind option_bind].
  rewrite Cut_app by by apply plain_type_no_dash. rewrite strip_app. cbn [mbind option_bind].
  rewrite Cut_app by apply break_lines_no_dash, b64_chars. rewrite strip_app. cbn [mbind option_bind].
  by rewrite strip_break_lines, b64_decode_encode by apply b64_chars.
Qed.

Lemma strict_shrinks data b rest :
  strict data = Some (b, rest) → (String.length rest < String.length data)%nat.
Proof.
  unfold strict. intros H.
  apply bind_Some in H as (d1 & E1 & H). destruct (Cut "-" d1) as [[ty d2] f] eqn:C1.
  apply bind_Some in H as (d3 & E3 & H). destruct (Cut "-" d3) as [[body d4] f'] eqn:C2.
  apply bind_Some in H as (d5 & E5 & H). apply bind_Some in H as (bytes & _ & H).
  injection H as <- <-. apply strip_length in E1, E3, E5. apply Cut_length in C1, C2.
  rewrite E1. cbn [String.length]. lia.
Qed.

#[export] Instance strict_decoder : PemDecoder strict.
Proof. split; eauto using strict_Encode, strict_shrinks. Qed.

(** A printed block, as OpenSSL prints it. *)
Example pem_sample :
  EncodeToMemory "CERTIFICATE" "cluster-proxy"
  = line "-----BEGIN CERTIFICATE-----" ++ line "Y2x1c3Rlci1wcm94eQ==" ++
    line "-----END CERTIFICATE-----".
Proof. vm_compute. reflexivity. Qed.
