(* ===== verification/Certificates.v ===== *)
(** * The signing authority (pkg/proxyserver/operator/authentication/selfsigned,
      pkg/controllers/certcontroller.go, pkg/common/help.go, pkg/util/secrets.go)

    Every certificate of the tunnel is signed by one authority, which lives
    in a secret: the add-on managers load it from there, and the first one
    to start creates it.  The file models the self-signer and its life in
    the secret under any interleaving with other writers, the merging of CA
    bundles, the controller that keeps the service-proxy's serving
    certificate, and the TLS configuration of a tunnel client. *)

From Stdlib Require Import Sorted.
From S2P Require Import Prelude GoStrings Sha256 Naming Manifests Api Controller Pem.

Local Open Scope string_scope.
Local Open Scope api_scope.

(** ** Certificates and the cryptography they rely on *)

(** The fields of [x509.Certificate] that the code sets or reads. *)
Record Template := MkTemplate {
  t_commonName : string;
  t_organization : list string;
  t_dnsNames : list string;
  t_ips : list string;
  t_serial : Z;                        (* big.Int: unbounded *)
  t_keyUsage : list string;
  t_extKeyUsage : list string;
  t_notBefore : Z;
  t_notAfter : Z
}.

Record Certificate := MkCertificate { Raw : string; fields : Template }.

Definition SerialNumber (c : Certificate) : Z := t_serial (fields c).

(** crypto/rsa, crypto/x509 and encoding/pem, as far as they are called.
    What is random or depends on the clock is numbered by the attempt. *)
Class Crypto := {
  PrivateKey : Type;                                   (* *rsa.PrivateKey *)
  Decode : string → option (Block * string);
  GenerateKey : nat → result PrivateKey;
  NewSelfSignedCACert : nat → string → PrivateKey → result Certificate;
  ParseCertificate : string → result Certificate;
  (* template, parent, key certified, key of the signer *)
  CreateCertificate : Template → Certificate → PrivateKey → PrivateKey → result string;
  MarshalPKCS8PrivateKey : PrivateKey → result string;
  (* [None] is a key that is not RSA *)
  ParsePKCS8PrivateKey : string → result (option PrivateKey)
}.

Class CryptoLaws (C : Crypto) : Prop := {
  Crypto_decoder :: PemDecoder Decode;
  Parse_Raw data c : ParseCertificate data = Ok c → Raw c = data;
  SelfSigned_parses n cn k c :
    NewSelfSignedCACert n cn k = Ok c → ParseCertificate (Raw c) = Ok c;
  Created_fields t parent k signer raw c :
    CreateCertificate t parent k signer = Ok raw → ParseCertificate raw = Ok c → fields c = t;
  PKCS8_roundtrip k data :
    MarshalPKCS8PrivateKey k = Ok data → ParsePKCS8PrivateKey data = Ok (Some k)
}.

(** [certutil.ParseCertsPEM] (client-go): the blocks of type CERTIFICATE
    without headers, and at least one.  Every block shortens the input. *)
Fixpoint ParseCertsPEM_loop `{Crypto} (fuel : nat) (data : string) (certs : list Certificate)
  : result (list Certificate) :=
  let finish := match certs with
                | [] => Err (ENew "data does not contain any valid RSA or ECDSA certificates")
                | _ => Ok certs
                end in
  match fuel, data with
  | O, _ | _, "" => finish
  | S fuel, _ =>
      match Decode data with
      | None => finish
      | Some (block, rest) =>
          if negb (String.eqb (b_type block) "CERTIFICATE") || negb (bool_decide (b_headers block = []))
          then ParseCertsPEM_loop fuel rest certs
          else match ParseCertificate (b_bytes block) with
               | Err e => Err e
               | Ok c => ParseCertsPEM_loop fuel rest (certs ++ [c])%list
               end
      end
  end.

Definition ParseCertsPEM `{Crypto} (data : string) : result (list Certificate) :=
  ParseCertsPEM_loop (String.length data) data [].

(** ** Merging CA bundles (pkg/common/help.go) *)

Section merge.
Context `{Crypto}.

(** The certificates of the bundles that are not empty. *)
Fixpoint collect_certs (all : list Certificate) (caBundles : list string)
  : result (list Certificate) :=
  match caBundles with
  | [] => Ok all
  | "" :: rest => collect_certs all rest
  | caBundle :: rest =>
      certs ← ParseCertsPEM caBundle;
      collect_certs (all ++ certs)%list rest
  end.

(** Keep the first certificate of every content. *)
Fixpoint remove_duplicates (merged all : list Certificate) : list Certificate :=
  match all with
  | [] => merged
  | c :: rest =>
      if existsb (λ m, String.eqb (Raw c) (Raw m)) merged
      then remove_duplicates merged rest
      else remove_duplicates (merged ++ [c])%list rest
  end.

Fixpoint encode_certs (certs : list Certificate) : string :=
  match certs with
  | [] => ""
  | c :: rest => EncodeToMemory "CERTIFICATE" (Raw c) ++ encode_certs rest
  end.

(** [MergeCertificateData].  Writing a block without headers into a buffer
    does not fail. *)
Definition MergeCertificateData (caBundles : list string) : result string :=
  all ← collect_certs [] caBundles;
  Ok (encode_certs (remove_duplicates [] all)).
End merge.

(** ** The self-signer *)

Definition TLSCACert : string := "ca.crt".
Definition TLSCAKey : string := "ca.key".
Definition AddonFullName : string := "open-cluster-management:cluster-proxy".

Section signer.
Context `{C : Crypto}.

(** [nextSerial] is a pointer that [Sign] advances. *)
Record selfSigner := MkSigner {
  caCert : Certificate;
  caKey : PrivateKey;
  nextSerial : Z
}.

Definition CAData (s : selfSigner) : string := EncodeToMemory "CERTIFICATE" (Raw (caCert s)).

Definition GetSigner (s : selfSigner) : PrivateKey := caKey s.

(** The authority that the rotations sign with. *)
Definition CA (s : selfSigner) : list Certificate * PrivateKey := ([caCert s], caKey s).

Definition NewSelfSignerWithCA (cert : Certificate) (key : PrivateKey) (next : Z) : selfSigner :=
  MkSigner cert key next.

Definition NewGeneratedSelfSigner (n : nat) : result selfSigner :=
  privateKey ← GenerateKey n;
  cert ← NewSelfSignedCACert n AddonFullName privateKey;
  Ok (NewSelfSignerWithCA cert privateKey 1).

Definition lift {A} (r : result A) : M A := match r with Ok a => ret a | Err e => fail e end.

Definition wrap {A} (msg : string) (r : result A) : M A :=
  match r with
  | Ok a => ret a
  | Err e => fail (EWrap (msg ++ ": " ++ error_string e) e)
  end.

(** [pem.Decode] returns nil where there is no block, and the code reads
    the block without a test; a key that is not RSA fails the type
    assertion.  Both panic. *)
Definition NewSelfSignerWithCAData (caCertData caKeyData : string) : M selfSigner :=
  match Decode caCertData with
  | None => panic
  | Some (certBlock, _) =>
      cert <- wrap "failed to parse ca certificate" (ParseCertificate (b_bytes certBlock));;
      match Decode caKeyData with
      | None => panic
      | Some (keyBlock, _) =>
          key <- wrap "failed to parse ca key" (ParsePKCS8PrivateKey (b_bytes keyBlock));;
          match key with
          | None => panic
          | Some key => ret (NewSelfSignerWithCA cert key (SerialNumber cert + 1))
          end
      end
  end.

(** [secret.Data[field]]; a missing field is nil, which is empty. *)
Definition secret_data (o : object) (field : string) : string :=
  match o_content o with CSecret data => default "" (data !! field) | _ => "" end.

Definition NewOwnerReferenceFromConfig (config : ManagedProxyConfiguration) : OwnerReference :=
  MkOwner "proxy.open-cluster-management.io/v1alpha1" "ManagedProxyConfiguration"
    (mpc_name config) (mpc_uid config) true.

Definition hasOwnerReference (refs : list OwnerReference) (target : OwnerReference) : bool :=
  existsb (λ ref, String.eqb (owner_uid ref) (owner_uid target)) refs.

Definition ca_secret (namespace name caCertData caKeyData : string)
    (ownerRef : option OwnerReference) : object :=
  MkObject namespace name (option_list ownerRef) ∅ ∅ 0
    (CSecret (<[TLSCACert := caCertData]> {[TLSCAKey := caKeyData]})).

(** Whether the secret was there already. *)
Definition DumpCASecret (namespace name caCertData caKeyData : string)
    (ownerRef : option OwnerReference) : M bool :=
  r <- attempt (api_create (ca_secret namespace name caCertData caKeyData ownerRef));;
  match r with
  | Ok _ => ret false
  | Err e => if IsAlreadyExists e then ret true else fail e
  end.

Definition with_owners (o : object) (owners : list OwnerReference) : object :=
  MkObject (o_namespace o) (o_name o) owners (o_labels o) (o_annotations o)
    (o_resourceVersion o) (o_content o).

(** Add the owner where it is missing. *)
Definition adopt (namespace name : string) (ownerRef : option OwnerReference) (caSecret : object)
  : M unit :=
  match ownerRef with
  | Some ref =>
      if hasOwnerReference (o_owners caSecret) ref then ret ()
      else wrapf ("failed to update owner reference for secret " ++ namespace ++ "/" ++ name)
             (api_update (with_owners caSecret [ref]))
  | None => ret ()
  end.

(** The recursion is the retry after another writer created the secret;
    [fuel] bounds it and numbers the attempts. *)
Fixpoint NewSelfSignerFromSecretOrGenerate (fuel : nat) (secretNamespace secretName : string)
    (ownerRef : option OwnerReference) : M selfSigner :=
  match fuel with
  | O => λ w, (OutOfFuel, w)
  | S fuel' =>
      r <- attempt (api_get ("Secret", secretNamespace, secretName));;
      match r with
      | Ok caSecret =>
          adopt secretNamespace secretName ownerRef caSecret;;;
          NewSelfSignerWithCAData (secret_data caSecret TLSCACert) (secret_data caSecret TLSCAKey)
      | Err e =>
          if negb (IsNotFound e)
          then fail (EWrap ("failed to read ca from secret " ++ secretNamespace ++ "/" ++
                            secretName ++ ": " ++ error_string e) e)
          else
            generatedSigner <- wrap "failed to generate new self-signer"
                                 (NewGeneratedSelfSigner fuel');;
            rawKeyData <- lift (MarshalPKCS8PrivateKey (GetSigner generatedSigner));;
            isAlreadyExists <- wrapf ("failed to dump generated ca secret " ++ secretNamespace ++
                                      "/" ++ secretName)
              (DumpCASecret secretNamespace secretName (CAData generatedSigner)
                 (EncodeToMemory "PRIVATE KEY" rawKeyData) ownerRef);;
            if (isAlreadyExists : bool)
            then NewSelfSignerFromSecretOrGenerate fuel' secretNamespace secretName ownerRef
            else ret generatedSigner
      end
  end.

(** ** Signing *)

(** [cert.Config] and the clock. *)
Record CertRequest := MkRequest {
  cfg_commonName : string;
  cfg_organization : list string;
  cfg_dnsNames : list string;
  cfg_ips : list string;
  cfg_usages : list string;
  cfg_now : Z;
  cfg_expiry : Z
}.

Record CertPair := MkPair { pair_key : PrivateKey; pair_cert : Certificate }.

Definition errorf {A} (msg : string) (r : result A) : result A :=
  match r with Ok a => Ok a | Err e => Err (ENew (msg ++ ": " ++ error_string e)) end.

Definition template_for (cfg : CertRequest) (serial : Z) : Template :=
  MkTemplate (cfg_commonName cfg) (cfg_organization cfg) (cfg_dnsNames cfg) (cfg_ips cfg) serial
    ["KeyEncipherment"; "DigitalSignature"] (cfg_usages cfg)
    (cfg_now cfg) (cfg_now cfg + cfg_expiry cfg).

(** The serial is used up before the certificate is created, also when
    that fails. *)
Definition Sign (n : nat) (s : selfSigner) (cfg : CertRequest) : result CertPair * selfSigner :=
  match errorf "unable to create private key" (GenerateKey n) with
  | Err e => (Err e, s)
  | Ok key =>
      let serial := nextSerial s in
      let s := MkSigner (caCert s) (caKey s) (nextSerial s + 1) in
      (certRaw ← errorf "unable to create certificate"
                   (CreateCertificate (template_for cfg serial) (caCert s) key (caKey s));
       certificate ← errorf "generated invalid certificate, could not parse"
                       (ParseCertificate certRaw);
       Ok (MkPair key certificate), s)
  end.

(** A sequence of calls, and the certificates that were issued. *)
Fixpoint sign_all (n : nat) (s : selfSigner) (cfgs : list CertRequest)
  : list (CertRequest * Certificate) * selfSigner :=
  match cfgs with
  | [] => ([], s)
  | cfg :: rest =>
      let '(r, s) := Sign n s cfg in
      let '(issued, s) := sign_all (S n) s rest in
      (match r with Ok p => (cfg, pair_cert p) :: issued | Err _ => issued end, s)
  end.

Definition CertBytes (p : CertPair) : string := EncodeToMemory "CERTIFICATE" (Raw (pair_cert p)).

Definition AsBytes (p : CertPair) : result (string * string) :=
  rawKeyData ← errorf "unable to encode private key" (MarshalPKCS8PrivateKey (pair_key p));
  Ok (CertBytes p, EncodeToMemory "PRIVATE KEY" rawKeyData).
End signer.

(** ** The serving certificate of the service-proxies (certcontroller.go) *)

Section certcontroller.
Context `{C : Crypto}.
(** [crypto.GetCAFromBytes], and the rotation library. *)
Context (GetCAFromBytes : string → string → result (list Certificate * PrivateKey)).
Context (EnsureTargetCertKeyPair : rotation → list Certificate → result unit).

(** The fields of the reconciler, the rotation's among them. *)
Record reconcileServerCertificates := MkServerCertificates {
  serverCertRotation : rotation;
  signer_secret_name : string;
  signer_secret_namespace : string
}.

Definition server_host_names : list string :=
  ["*"; "localhost"; "127.0.0.1"; "*.open-cluster-management.proxy"].

(** What [registerCertController] registers: the reconciler, and the
    predicate on the name and the namespace of an event's object. *)
Definition registerCertController (certNamespace secretName secretNamespace : string)
  : reconcileServerCertificates * (object → bool) :=
  (MkServerCertificates (MkRotation certNamespace ServerCertSecretName server_host_names false)
     secretName secretNamespace,
   λ o, String.eqb (o_name o) secretName && String.eqb (o_namespace o) secretNamespace).

Definition server_rotate (r : rotation) (ca : list Certificate * PrivateKey) : M unit := λ w,
  match EnsureTargetCertKeyPair r ca.1 with
  | Err e => (Fails e, w)
  | Ok _ => (Done (), MkWorld (store w) (next_rv w) (schedule w) (r :: rotations w)
                        (status_updates w))
  end.

Definition ReconcileServerCertificates (r : reconcileServerCertificates) : M unit :=
  signerSecret <- api_get ("Secret", signer_secret_namespace r, signer_secret_name r);;
  ca <- lift (GetCAFromBytes (secret_data signerSecret "ca.crt") (secret_data signerSecret "ca.key"));;
  server_rotate (serverCertRotation r) ca.
End certcontroller.

(** ** The tunnel client's TLS configuration (pkg/util/secrets.go) *)

Section tunnel.
Context `{C : Crypto}.
(** [tls.X509KeyPair]. *)
Context {KeyPair : Type} (X509KeyPair : string → string → result KeyPair).

Definition inClusterSecretProxyCA : string := "proxy-server-ca".
Definition inClusterSecretClient : string := "proxy-client".

Record tls_config := MkTls {
  RootCAs : list Certificate;
  MinVersion : Z;
  clientCertificates : list KeyPair;
  ServerName : string;
  NextProtos : list string
}.

Definition VersionTLS12 : Z := 0x0303.

Definition wrap_result {A} (msg : string) (r : result A) : result A :=
  match r with Ok a => Ok a | Err e => Err (EWrap (msg ++ ": " ++ error_string e) e) end.

Definition buildTLSConfig (caData certData keyData serverName : string) (protos : list string)
  : result tls_config :=
  certPool ← wrap_result "failed parsing CA data" (ParseCertsPEM caData);
  clientCert ← X509KeyPair certData keyData;
  Ok (MkTls certPool VersionTLS12 [clientCert] serverName
        (match protos with [] => [] | _ => protos end)).

(** [newClient] is what [kubernetes.NewForConfig] returns. *)
Definition GetKonnectivityTLSConfig (newClient : result unit) (proxyConfig : ManagedProxyConfiguration)
  : M tls_config :=
  let ns := ps_namespace (ProxyServer proxyConfig) in
  wrap "failed building cilent" newClient;;;
  caSecret <- wrapf "failed getting CA secret" (api_get ("Secret", ns, inClusterSecretProxyCA));;
  certSecret <- wrapf "failed getting cert & key secret" (api_get ("Secret", ns, inClusterSecretClient));;
  wrap "failed building TLS config from secret"
    (buildTLSConfig (secret_data caSecret "ca.crt") (secret_data certSecret "tls.crt")
       (secret_data certSecret "tls.key")
       (InClusterServiceName (ProxyServer proxyConfig) ++ "." ++ ns) []).
End tunnel.

(** ** Host names against a certificate's names ([VerifyHostname]) *)

Fixpoint toLowerCaseASCII (s : string) : string :=
  match s with "" => "" | String c s => String (lower_byte c) (toLowerCaseASCII s) end.

(** Go's [matchHostnames], for hosts without a trailing dot: label by
    label, and a star is one whole label on the left of the pattern.  The
    pattern "*" has one label, and matches hosts of one label. *)
Definition matchHostnames (pattern host : string) : bool :=
  let pattern := toLowerCaseASCII pattern in
  let host := toLowerCaseASCII host in
  negb (String.eqb pattern "") && negb (String.eqb host "") &&
  match Split "." pattern, Split "." host with
  | p :: ps, h :: hs =>
      (String.eqb p "*" || String.eqb p h) && bool_decide (ps = hs)
  | _, _ => false
  end.

Definition VerifyHostname (names : list string) (host : string) : bool :=
  existsb (λ p, matchHostnames p host) names.

(** ** Lemmas on bundles *)

Section merge_lemmas.
Context `{L : CryptoLaws}.

(** Certificates that came out of the parser. *)
Definition parsed (c : Certificate) : Prop := ParseCertificate (Raw c) = Ok c.

Lemma Parse_parsed data c : ParseCertificate data = Ok c → parsed c.
Proof. intros E. unfold parsed. by rewrite (Parse_Raw _ _ E). Qed.

Lemma parsed_inj c d : parsed c → parsed d → Raw c = Raw d → c = d.
Proof. unfold parsed. intros Hc Hd E. rewrite E, Hd in Hc. by inv_ok. Qed.

Lemma ParseCertsPEM_loop_ok fuel data certs out :
  Forall parsed certs → ParseCertsPEM_loop fuel data certs = Ok out →
  Forall parsed out ∧ out ≠ [].
Proof.
  revert data certs. induction fuel as [|fuel IH]; intros data certs Hc.
  - cbn. by destruct data, certs; intros; inv_ok.
  - cbn. destruct data as [|x data]; [by destruct certs; intros; inv_ok|].
    destruct (Decode (String x data)) as [[block rest]|]; [|by destruct certs; intros; inv_ok].
    destruct (_ || _); [by apply IH|].
    destruct (ParseCertificate (b_bytes block)) as [c|e] eqn:E; [|done].
    apply IH. apply Forall_app_2; [done|]. constructor; [by eapply Parse_parsed|done].
Qed.

Lemma ParseCertsPEM_ok data out : ParseCertsPEM data = Ok out → Forall parsed out ∧ out ≠ [].
Proof. by apply ParseCertsPEM_loop_ok. Qed.

Lemma Encode_nonempty ty bytes : EncodeToMemory ty bytes ≠ "".
Proof. done. Qed.

(** Printed certificates are parsed back, in order. *)
Lemma ParseCertsPEM_loop_encode fuel cs certs :
  Forall parsed cs → (String.length (encode_certs cs) <= fuel)%nat → (certs ++ cs)%list ≠ [] →
  ParseCertsPEM_loop fuel (encode_certs cs) certs = Ok (certs ++ cs)%list.
Proof.
  revert fuel certs. induction cs as [|c cs IH]; intros fuel certs Hp Hf Hne.
  - rewrite app_nil_r in *. by destruct fuel, certs.
  - apply Forall_cons in Hp as [Hc Hp]. cbn [encode_certs] in *.
    pose proof (Decode_Encode (Decode := Decode) "CERTIFICATE" (Raw c) (encode_certs cs) eq_refl) as HD.
    pose proof (Decode_shrinks (Decode := Decode) _ _ _ HD) as Hlt.
    destruct (EncodeToMemory "CERTIFICATE" (Raw c) ++ encode_certs cs) as [|x rest] eqn:E;
      [cbn in Hlt; lia|].
    destruct fuel as [|fuel]; [lia|]. cbn [ParseCertsPEM_loop]. rewrite HD.
    cbn [b_type b_headers b_bytes]. rewrite String.eqb_refl. cbn [negb orb].
    rewrite bool_decide_true by done. cbn [negb]. rewrite Hc.
    rewrite IH, <- app_assoc; [done|done|lia|]. by rewrite <- app_assoc.
Qed.

Lemma ParseCertsPEM_encode cs :
  Forall parsed cs → cs ≠ [] → ParseCertsPEM (encode_certs cs) = Ok cs.
Proof. intros Hp Hne. by apply (ParseCertsPEM_loop_encode _ cs []). Qed.

(** The bundles that are read. *)
Definition nonempty (bundles : list string) : list string := filter (λ b, b ≠ "") bundles.

Lemma collect_certs_ok bundles : ∀ all out,
  collect_certs all bundles = Ok out →
  ∃ lists, Forall2 (λ b l, ParseCertsPEM b = Ok l) (nonempty bundles) lists ∧
           out = (all ++ concat lists)%list.
Proof.
  induction bundles as [|b bundles IH]; intros all out; cbn [collect_certs].
  - intros. inv_ok. exists []. cbn. by rewrite app_nil_r.
  - destruct b as [|x b]; [apply IH|]. intros H. apply bind_ok in H as (l & Hl & H).
    destruct (IH _ _ H) as (lists & HF & ->). exists (l :: lists). split.
    + unfold nonempty. rewrite filter_cons_True by done. by constructor.
    + cbn. by rewrite app_assoc.
Qed.

Lemma collect_certs_err bundles : ∀ all e,
  collect_certs all bundles = Err e → ∃ b, b ∈ nonempty bundles ∧ ParseCertsPEM b = Err e.
Proof.
  induction bundles as [|b bundles IH]; intros all e; cbn [collect_certs]; [done|].
  destruct b as [|x b]; [apply IH|]. intros H. unfold nonempty.
  rewrite filter_cons_True by done.
  apply bind_err in H as [H|(l & Hl & H)]; [exists (String x b); split; [left|done]|].
  destruct (IH _ _ H) as (b' & Hb & He). exists b'. split; [by right|done].
Qed.

Lemma remove_duplicates_spec all : ∀ merged,
  Forall parsed (merged ++ all) → NoDup (map Raw merged) →
  NoDup (map Raw (remove_duplicates merged all)) ∧
  (∀ c, c ∈ remove_duplicates merged all ↔ c ∈ merged ∨ c ∈ all) ∧
  merged `prefix_of` remove_duplicates merged all.
Proof.
  induction all as [|c all IH]; intros merged Hp Hnd; cbn [remove_duplicates].
  - split; [done|]. split; [|done]. set_solver.
  - rewrite Forall_app, Forall_cons in Hp. destruct Hp as (Hm & Hc & Ha).
    destruct (existsb _ merged) eqn:E.
    + destruct (IH merged) as (H1 & H2 & H3); [by apply Forall_app_2|done|].
      split; [done|]. split; [|done]. intros d. rewrite H2, elem_of_cons.
      apply existsb_exists_elem in E as (m & Hin & Er). apply String.eqb_eq in Er.
      assert (c = m) as -> by (apply parsed_inj; [done| |done]; by eapply Forall_forall in Hm).
      naive_solver.
    + destruct (IH (merged ++ [c])%list) as (H1 & H2 & H3).
      * rewrite <- app_assoc. apply Forall_app_2; [done|]. by constructor.
      * rewrite map_app. apply NoDup_app. split; [done|]. split; [|apply NoDup_singleton].
        intros r Hr ->%list_elem_of_singleton. apply list_elem_of_fmap in Hr as (m & Er & Hin).
        apply not_true_iff_false in E. apply E, existsb_exists_elem. exists m.
        split; [done|]. by apply String.eqb_eq.
      * split; [done|]. split; [|by etrans; [eexists|exact H3]].
        intros d. rewrite H2. set_solver.
Qed.

(** Without duplicates everything is kept, in order. *)
Lemma remove_duplicates_id all : ∀ merged,
  NoDup (map Raw (merged ++ all)) → remove_duplicates merged all = (merged ++ all)%list.
Proof.
  induction all as [|c all IH]; intros merged Hnd; cbn [remove_duplicates].
  - by rewrite app_nil_r.
  - assert (existsb (λ m, String.eqb (Raw c) (Raw m)) merged = false) as ->.
    { apply not_true_iff_false. intros E. apply existsb_exists_elem in E as (m & Hin & Er).
      apply String.eqb_eq in Er. rewrite map_app in Hnd. apply NoDup_app in Hnd as (_ & Hd & _).
      apply (Hd (Raw c)); [rewrite Er; by apply (list_elem_of_fmap_2 Raw)|by left]. }
    rewrite IH; by rewrite <- app_assoc.
Qed.

Lemma bundles_parsed bundles lists :
  Forall2 (λ b l, ParseCertsPEM b = Ok l) bundles lists → Forall parsed (concat lists).
Proof.
  induction 1 as [|b l bs ls Hb _ IH]; cbn; [constructor|].
  apply Forall_app_2; [by apply ParseCertsPEM_ok in Hb as [? _]|done].
Qed.

Lemma bundles_nonempty bundles lists :
  Forall2 (λ b l, ParseCertsPEM b = Ok l) bundles lists → bundles ≠ [] →
  ∃ c, c ∈ concat lists.
Proof.
  destruct 1 as [|b l bs ls Hb _]; [done|]. intros _. apply ParseCertsPEM_ok in Hb as [_ Hne].
  destruct l as [|c l]; [done|]. exists c. cbn. by left.
Qed.

(** The merged bundle holds the certificates of its last part. *)
Lemma merged_holds bundle own out ownCerts :
  bundle ≠ "" → ParseCertsPEM own = Ok ownCerts → MergeCertificateData [bundle; own] = Ok out →
  ∃ certs, ParseCertsPEM out = Ok certs ∧ ∀ c, c ∈ ownCerts → c ∈ certs.
Proof.
  intros Hb Ho H. apply bind_ok in H as (all & Hall & H). inv_ok.
  assert (own ≠ "") as Hown by (intros ->; done).
  apply collect_certs_ok in Hall as (lists & HF & ->). cbn [app] in *.
  unfold nonempty in HF. rewrite !filter_cons_True in HF by done.
  assert (Forall parsed (concat lists)) as Hp by by eapply bundles_parsed.
  destruct (remove_duplicates_spec (concat lists) []) as (_ & Hin & _); [done|constructor|].
  assert (∀ c, c ∈ ownCerts → c ∈ remove_duplicates [] (concat lists)) as Hsub.
  { intros c Hc. apply Hin. right.
    inversion HF as [|? l1 ? ? H1 HF1]; subst. inversion HF1 as [|? l2 ? ? H2 HF2]; subst.
    rewrite Ho in H2. inv_ok. cbn. set_solver. }
  exists (remove_duplicates [] (concat lists)). split; [|done]. apply ParseCertsPEM_encode.
  - apply Forall_forall. intros c Hc. apply Hin in Hc as [Hc|Hc]; [by inversion Hc|].
    by eapply Forall_forall in Hp.
  - apply ParseCertsPEM_ok in Ho as [_ Ho]. destruct ownCerts as [|c l]; [done|].
    intros E. specialize (Hsub c ltac:(by left)). rewrite E in Hsub. by inversion Hsub.
Qed.

(** Merging what was printed without duplicates gives it back. *)
Lemma merge_printed cs :
  Forall parsed cs → NoDup (map Raw cs) → MergeCertificateData [encode_certs cs] = Ok (encode_certs cs).
Proof.
  intros Hp Hnd. unfold MergeCertificateData. destruct cs as [|c cs]; [done|].
  pose proof (ParseCertsPEM_encode (c :: cs) Hp ltac:(done)) as HP.
  cbn [collect_certs]. destruct (encode_certs (c :: cs)) as [|x data] eqn:E; [done|].
  rewrite HP. cbn [mbind result_bind app]. rewrite (remove_duplicates_id (c :: cs) []) by done.
  cbn [app]. by rewrite E.
Qed.
End merge_lemmas.

(** ** Lemmas on the store *)

(** Every object is stored under its own key. *)
Definition keyed (w : world) : Prop := map_Forall (λ k o, o_key o = k) (store w).

(** The others never touch the object of key [k]. *)
Definition spares (k : key) (w : world) : Prop :=
  Forall (λ t, Forall (λ x, match x with Put o => o_key o ≠ k | Del k' => k' ≠ k | Lost => True end) (others t))
    (schedule w).

Lemma put_keyed w o : keyed w → keyed (put w o).
Proof. intros H. by apply map_Forall_insert_2. Qed.

Lemma apply_writes_keyed xs w : keyed w → keyed (fold_left apply_write xs w).
Proof.
  revert w. induction xs as [|x xs IH]; intros w H; cbn [fold_left]; [done|].
  apply IH. destruct x as [o|k|]; [by apply put_keyed| |done]. by apply map_Forall_delete.
Qed.

Lemma take_turn_keyed w : keyed w → keyed (take_turn w).2.
Proof.
  intros H. unfold take_turn. destruct (schedule w) as [|t rest]; [done|].
  destruct (fault t); cbn [snd]; by apply apply_writes_keyed.
Qed.

(** What a call does to the world once the others had their turn. *)
Lemma api_get_world k w : (api_get k w).2 = (take_turn w).2.
Proof.
  unfold api_get, bind. destruct (take_turn w) as [[u|e| |] w']; try done. by destruct (store w' !! k).
Qed.

Lemma api_get_done k w o w' : api_get k w = (Done o, w') → store w' !! k = Some o.
Proof.
  intros H. apply bind_done in H as (u & w1 & _ & H). destruct (store w1 !! k) eqn:E; [|done].
  congruence.
Qed.

Lemma api_create_world o w :
  (api_create o w).2 = (take_turn w).2 ∧ (api_create o w).1 ≠ Done () ∨
  (api_create o w).2 = put (take_turn w).2 o ∧ store (take_turn w).2 !! o_key o = None.
Proof.
  unfold api_create, bind. destruct (take_turn w) as [[u|e| |] w']; [|by left..]. cbn [snd fst].
  destruct (negb _); [by left|]. destruct (store w' !! o_key o) eqn:E; [by left|by right].
Qed.

Lemma api_update_world o w :
  (api_update o w).2 = (take_turn w).2 ∧ (api_update o w).1 ≠ Done () ∨
  (api_update o w).2 = put (take_turn w).2 o.
Proof.
  unfold api_update, bind. destruct (take_turn w) as [[u|e| |] w']; [|by left..]. cbn [snd fst].
  destruct (store w' !! o_key o); [|by left]. destruct (_ && _); [by left|by right].
Qed.

Lemma api_get_keyed k w : keyed w → keyed (api_get k w).2.
Proof. rewrite api_get_world. apply take_turn_keyed. Qed.

Lemma api_create_keyed o w : keyed w → keyed (api_create o w).2.
Proof.
  intros H. destruct (api_create_world o w) as [[-> _]|[-> _]]; [|apply put_keyed];
    by apply take_turn_keyed.
Qed.

Lemma api_update_keyed o w : keyed w → keyed (api_update o w).2.
Proof.
  intros H. destruct (api_update_world o w) as [[-> _]| ->]; [|apply put_keyed];
    by apply take_turn_keyed.
Qed.

Lemma put_lookup w o : store (put w o) !! o_key o = Some (set_rv o (next_rv w)).
Proof. cbn. apply lookup_insert_eq. Qed.

Lemma api_create_done o w u w' :
  api_create o w = (Done u, w') → ∃ n, store w' !! o_key o = Some (set_rv o n).
Proof.
  intros H. destruct u, (api_create_world o w) as [[_ Hn]|[E _]].
  - by rewrite H in Hn.
  - rewrite H in E. cbn in E. subst. eexists. apply put_lookup.
Qed.

Lemma api_update_done o w u w' :
  api_update o w = (Done u, w') → ∃ n, store w' !! o_key o = Some (set_rv o n).
Proof.
  intros H. destruct u, (api_update_world o w) as [[_ Hn]|E].
  - by rewrite H in Hn.
  - rewrite H in E. cbn in E. subst. eexists. apply put_lookup.
Qed.

(** A key that the others spare keeps its object through their turn. *)
Lemma take_turn_spares k w :
  spares k w → store (take_turn w).2 !! k = store w !! k ∧ spares k (take_turn w).2.
Proof.
  intros H. split.
  - unfold take_turn. unfold spares in H. destruct (schedule w) as [|t rest]; [done|].
    apply Forall_cons in H as [Ht _].
    assert (∀ xs w, Forall (λ x, match x with Put o => o_key o ≠ k | Del k' => k' ≠ k | Lost => True end) xs →
              store (fold_left apply_write xs w) !! k = store w !! k) as Hx.
    { clear. induction xs as [|x xs IH]; intros w H; cbn [fold_left]; [done|].
      apply Forall_cons in H as [Hx H]. rewrite IH by done.
      destruct x; cbn; [by rewrite lookup_insert_ne|by rewrite lookup_delete_ne|done]. }
    destruct (fault t); cbn [snd]; by rewrite Hx.
  - unfold spares. rewrite take_turn_schedule. by apply Forall_tail.
Qed.

(** ** Lemmas on the signer *)

Section signer_lemmas.
Context `{L : CryptoLaws}.

(** Loading reads its arguments only. *)
Lemma WithCAData_pure a b :
  ∃ x, ∀ w, NewSelfSignerWithCAData a b w = (x, w).
Proof.
  unfold NewSelfSignerWithCAData. destruct (Decode a) as [[ca ?]|]; [|by eexists].
  unfold wrap. destruct (ParseCertificate (b_bytes ca)) as [c|e]; [|by eexists].
  destruct (Decode b) as [[cb ?]|]; [|by eexists].
  destruct (ParsePKCS8PrivateKey (b_bytes cb)) as [[k|]|e]; by eexists.
Qed.

Lemma Decode_printed ty bytes :
  plain_type ty = true → Decode (EncodeToMemory ty bytes) = Some (MkBlock ty [] bytes, "").
Proof.
  intros H. rewrite <- (str_app_nil_r (EncodeToMemory ty bytes)).
  by apply (Decode_Encode (Decode := Decode)).
Qed.

(** What a generated signer writes is what a loaded signer reads. *)
Lemma generated_loads n s raw w :
  NewGeneratedSelfSigner n = Ok s → MarshalPKCS8PrivateKey (GetSigner s) = Ok raw →
  NewSelfSignerWithCAData (CAData s) (EncodeToMemory "PRIVATE KEY" raw) w
  = (Done (MkSigner (caCert s) (caKey s) (SerialNumber (caCert s) + 1)), w).
Proof.
  intros Hg Hm. apply bind_ok in Hg as (key & _ & Hg). apply bind_ok in Hg as (cert & Hc & Hg).
  inv_ok. unfold NewSelfSignerWithCAData, CAData. rewrite !Decode_printed by done.
  cbn [b_bytes NewSelfSignerWithCA caCert]. rewrite (SelfSigned_parses _ _ _ _ Hc).
  cbn. unfold bind, ret. cbn. by rewrite (PKCS8_roundtrip _ _ Hm).
Qed.

(** The authority in the secret of key [k] is that of [s]. *)
Definition holds_authority (w : world) (k : key) (s : selfSigner) (o : object) : Prop :=
  store w !! k = Some o ∧
  ∃ s0, NewSelfSignerWithCAData (secret_data o TLSCACert) (secret_data o TLSCAKey) w = (Done s0, w) ∧
        CA s0 = CA s.

Definition owned_by (ownerRef : option OwnerReference) (o : object) : Prop :=
  ∀ ref, ownerRef = Some ref → hasOwnerReference (o_owners o) ref = true.

Lemma hasOwner_self ref : hasOwnerReference [ref] ref = true.
Proof. cbn. by rewrite String.eqb_refl. Qed.

Lemma attempt_done {A} (m : M A) w r w' :
  attempt m w = (Done r, w') →
  match r with Ok a => m w = (Done a, w') | Err e => m w = (Fails e, w') end.
Proof. unfold attempt. destruct (m w) as [[b|e| |] w2]; try done; intros H; by injection H as <- <-. Qed.

Lemma adopt_done ns name ownerRef o w u w' :
  o_key o = ("Secret", ns, name) → store w !! ("Secret", ns, name) = Some o →
  adopt ns name ownerRef o w = (Done u, w') →
  ∃ o', store w' !! ("Secret", ns, name) = Some o' ∧ o_content o' = o_content o ∧
        owned_by ownerRef o'.
Proof.
  intros Hk Hs. unfold adopt. destruct ownerRef as [ref|].
  - destruct (hasOwnerReference (o_owners o) ref) eqn:E; intros H.
    + injection H as <- <-. exists o. split; [done|]. split; [done|]. intros r Hr. congruence.
    + apply wrapf_done, api_update_done in H as [n H]. exists (set_rv (with_owners o [ref]) n).
      split; [by rewrite <- Hk|]. split; [done|]. intros r Hr. injection Hr as <-.
      apply hasOwner_self.
  - intros H. injection H as <- <-. by exists o.
Qed.

Lemma DumpCASecret_done ns name cert key ownerRef w b w' :
  DumpCASecret ns name cert key ownerRef w = (Done b, w') →
  if b then ∃ e, api_create (ca_secret ns name cert key ownerRef) w = (Fails e, w')
                 ∧ IsAlreadyExists e = true
  else ∃ n, store w' !! ("Secret", ns, name) = Some (set_rv (ca_secret ns name cert key ownerRef) n).
Proof.
  unfold DumpCASecret. intros H. apply bind_done in H as (r & w1 & H1 & H2).
  apply attempt_done in H1. destruct r as [u|e].
  - injection H2 as <- <-. by apply api_create_done in H1.
  - destruct (IsAlreadyExists e) eqn:E; [|done]. injection H2 as <- <-. eauto.
Qed.

Lemma secret_data_content o o' f : o_content o' = o_content o → secret_data o' f = secret_data o f.
Proof. unfold secret_data. by intros ->. Qed.

(** Reading back the secret that was dumped. *)
Lemma ca_secret_data ns name cert key ownerRef n :
  secret_data (set_rv (ca_secret ns name cert key ownerRef) n) TLSCACert = cert ∧
  secret_data (set_rv (ca_secret ns name cert key ownerRef) n) TLSCAKey = key.
Proof.
  unfold secret_data, ca_secret. cbn [set_rv o_content]. split.
  - by rewrite lookup_insert_eq.
  - rewrite lookup_insert_ne by done. by rewrite lookup_singleton_eq.
Qed.

Lemma lift_done {A} (r : result A) w a w' : lift r w = (Done a, w') → r = Ok a ∧ w' = w.
Proof. destruct r; cbn; [|done]. intros H. by injection H as <- <-. Qed.

Lemma wrap_done {A} msg (r : result A) w a w' : wrap msg r w = (Done a, w') → r = Ok a ∧ w' = w.
Proof. destruct r; cbn; [|done]. intros H. by injection H as <- <-. Qed.
End signer_lemmas.

(** Whichever replicas race and whatever calls fail, a manager that obtains
    a signer holds exactly the authority stored in the signer secret at that
    moment, and the secret carries the owner asked for. *)
Lemma signer_agrees `{L : CryptoLaws} fuel ns name ownerRef w s w' :
  keyed w →
  NewSelfSignerFromSecretOrGenerate fuel ns name ownerRef w = (Done s, w') →
  ∃ o, holds_authority w' ("Secret", ns, name) s o ∧ owned_by ownerRef o.
Proof.
  revert w. induction fuel as [|fuel IH]; intros w Hk H; [done|].
  cbn [NewSelfSignerFromSecretOrGenerate] in H.
  apply bind_done in H as (r & w1 & Hg & H). apply attempt_done in Hg.
  pose proof (api_get_keyed ("Secret", ns, name) w Hk) as Hk1.
  destruct r as [caSecret|e]; rewrite Hg in Hk1; cbn [snd] in Hk1.
  - apply api_get_done in Hg. pose proof (Hk1 _ _ Hg) as Hkey.
    apply bind_done in H as (u & w2 & Ha & H).
    destruct (adopt_done _ _ _ _ _ _ _ Hkey Hg Ha) as (o' & Hs & Hc & Ho).
    destruct (WithCAData_pure (secret_data caSecret TLSCACert) (secret_data caSecret TLSCAKey))
      as [x Hx]. rewrite Hx in H. injection H as -> <-.
    exists o'. split; [|done]. split; [done|]. exists s. rewrite !(secret_data_content caSecret o') by done. by rewrite Hx.
  - destruct (IsNotFound e); cbn [negb] in H; [|done].
    apply bind_done in H as (g & w2 & Hgen & H). apply wrap_done in Hgen as [Hgen ->].
    apply bind_done in H as (raw & w3 & Hraw & H). apply lift_done in Hraw as [Hraw ->].
    apply bind_done in H as (b & w4 & Hd & H). apply wrapf_done, DumpCASecret_done in Hd.
    destruct b.
    + destruct Hd as (e' & Hd & _). apply (IH w4); [|done].
      pose proof (api_create_keyed (ca_secret ns name (CAData g) (EncodeToMemory "PRIVATE KEY" raw) ownerRef) w1 Hk1) as Hk4.
      by rewrite Hd in Hk4.
    + destruct Hd as [n Hd]. injection H as <- <-.
      destruct (ca_secret_data ns name (CAData g) (EncodeToMemory "PRIVATE KEY" raw) ownerRef n) as [E1 E2].
      eexists. split; [split; [exact Hd|]|].
      * eexists. rewrite E1, E2. split; [by eapply generated_loads|done].
      * intros ref ->. apply hasOwner_self.
Qed.

(** What every call preserves is preserved on every path. *)
Section preserved.
Context (P : world → Prop).

Lemma pres_bind {A B} (m : M A) (f : A → M B) w :
  P (m w).2 → (∀ a w1, m w = (Done a, w1) → P w1 → P (f a w1).2) → P (bind m f w).2.
Proof. unfold bind. destruct (m w) as [[a|e| |] w1]; cbn; auto. Qed.

Lemma pres_attempt {A} (m : M A) w : P (m w).2 → P (attempt m w).2.
Proof. unfold attempt. by destruct (m w) as [[a|e| |] w1]. Qed.

Lemma pres_wrapf {A} msg (m : M A) w : P (m w).2 → P (wrapf msg m w).2.
Proof. intros H. apply pres_bind; [by apply pres_attempt|]. by intros [a|e] w1 _ Hw. Qed.

Context `{L : CryptoLaws} (ns name : string).
Abbreviation k := ("Secret", ns, name).
Hypothesis P_get : ∀ k w, P w → P (api_get k w).2.
Hypothesis P_create : ∀ o w, o_key o = k → P w → P (api_create o w).2.
(* an update of the secret just read that keeps its content *)
Hypothesis P_update : ∀ o o' w,
  store w !! k = Some o → o_key o' = o_key o → o_content o' = o_content o → P w →
  P (api_update o' w).2.

Lemma load_preserves fuel ownerRef w :
  P w → P (NewSelfSignerFromSecretOrGenerate fuel ns name ownerRef w).2.
Proof.
  revert w. induction fuel as [|fuel IH]; intros w Hw; [done|].
  cbn [NewSelfSignerFromSecretOrGenerate].
  apply pres_bind; [by apply pres_attempt, P_get|].
  intros [o|e] w1 Hg Hw1; apply attempt_done in Hg.
  - apply api_get_done in Hg. apply pres_bind.
    + unfold adopt. destruct ownerRef as [ref|]; [|done]. destruct (hasOwnerReference _ _); [done|].
      by eapply pres_wrapf, P_update.
    + intros _ w2 _ Hw2.
      by destruct (WithCAData_pure (secret_data o TLSCACert) (secret_data o TLSCAKey)) as [x ->].
  - destruct (negb (IsNotFound e)); [done|].
    apply pres_bind; [by destruct (NewGeneratedSelfSigner fuel)|]. intros g w2 _ Hw2.
    apply pres_bind; [by destruct (MarshalPKCS8PrivateKey (GetSigner g))|]. intros raw w3 _ Hw3.
    apply pres_bind; [|intros [] w4 _ Hw4; [by apply IH|done]].
    apply pres_wrapf, pres_bind; [by apply pres_attempt, P_create|].
    intros [u|e'] w1' _ Hw1'; [done|]. by destruct (IsAlreadyExists e').
Qed.
End preserved.

(** Objects stay under their keys. *)
Lemma load_keyed `{L : CryptoLaws} fuel ns name ownerRef w :
  keyed w → keyed (NewSelfSignerFromSecretOrGenerate fuel ns name ownerRef w).2.
Proof. apply load_preserves; eauto using api_get_keyed, api_create_keyed, api_update_keyed. Qed.

Section authority.
Context `{L : CryptoLaws}.
Context (ns name : string).
Abbreviation k := ("Secret", ns, name).

(** The secret has content [c], and only the code itself may write it. *)
Definition guarded (c : content) (w : world) : Prop :=
  keyed w ∧ spares k w ∧ o_content <$> store w !! k = Some c.

Lemma guarded_turn c w : guarded c w → guarded c (take_turn w).2.
Proof.
  intros (Hk & Hs & Hc). destruct (take_turn_spares _ _ Hs) as [E Hs'].
  split; [by apply take_turn_keyed|]. split; [done|]. by rewrite E.
Qed.

(** An authority that exists is never replaced, on any path. *)
Lemma authority_kept fuel ownerRef c w :
  guarded c w → guarded c (NewSelfSignerFromSecretOrGenerate fuel ns name ownerRef w).2.
Proof.
  apply load_preserves; clear w.
  - intros k' w. rewrite api_get_world. apply guarded_turn.
  - intros o w Ho Hw. apply guarded_turn in Hw.
    destruct (api_create_world o w) as [[-> _]|[_ E]]; [done|].
    destruct Hw as (_ & _ & Hc). rewrite Ho in E. by rewrite E in Hc.
  - intros o o' w Hs Ho Hc Hw. pose proof Hw as (Hk & _ & Hcont).
    rewrite Hs in Hcont. injection Hcont as <-. rewrite (Hk _ _ Hs) in Ho.
    apply guarded_turn in Hw. destruct (api_update_world o' w) as [[-> _]| ->]; [done|].
    destruct Hw as (Hk' & Hsp & _). split; [by apply put_keyed|]. split; [done|].
    rewrite <- Ho, put_lookup. cbn. by rewrite Hc.
Qed.

Lemma load_fuel_enough fuel ownerRef w :
  (length (schedule w) < fuel)%nat →
  (NewSelfSignerFromSecretOrGenerate fuel ns name ownerRef w).1 ≠ OutOfFuel.
Proof.
  revert w. induction fuel as [|fuel IH]; intros w Hf; [lia|].
  cbn [NewSelfSignerFromSecretOrGenerate]. unfold bind at 1, attempt.
  pose proof (api_get_plain k w) as Hp. pose proof (api_get_schedule k w) as Hs.
  destruct (api_get k w) as [[o|e| |] w1] eqn:Eg; cbn in Hp, Hs; try done.
  - unfold bind. assert (plain (adopt ns name ownerRef o w1).1) as Ha.
    { unfold adopt. destruct ownerRef as [ref|]; [|done]. destruct (hasOwnerReference _ _); [done|].
      pose proof (api_update_plain (with_owners o [ref]) w1) as Hu.
      unfold wrapf, bind, attempt. by destruct (api_update _ w1) as [[u|e| |] w2]. }
    destruct (adopt ns name ownerRef o w1) as [[u|e| |] w2]; try done.
    unfold NewSelfSignerWithCAData, wrap. repeat (case_match; try done). all: unfold bind, ret, fail; repeat (case_match; try done).
  - destruct (negb (IsNotFound e)) eqn:En; [done|].
    destruct (NewGeneratedSelfSigner fuel) as [g|]; [|done]. unfold bind at 1, wrap, ret at 1.
    destruct (MarshalPKCS8PrivateKey (GetSigner g)) as [raw|]; [|done]. unfold bind at 1, lift, ret at 1.
    set (o := ca_secret ns name (CAData g) (EncodeToMemory "PRIVATE KEY" raw) ownerRef).
    unfold wrapf, DumpCASecret. fold o. unfold bind, attempt.
    pose proof (api_create_plain o w1) as Hp2. pose proof (api_create_schedule o w1) as Hs2.
    destruct (api_create o w1) as [[u|e'| |] w2] eqn:Ec; cbn in Hp2, Hs2; try done.
    destruct (IsAlreadyExists e') eqn:Ee; [|done]. cbn. apply IH.
    destruct (schedule w) as [|t rest] eqn:Es.
    + rewrite api_get_quiet in Eg by done. destruct (store w !! k) eqn:Ek; [done|].
      injection Eg as <- <-. unfold api_create, bind in Ec. rewrite take_turn_quiet in Ec by done.
      cbn in Ec. change (o_key o) with k in Ec. rewrite Ek in Ec. done.
    + rewrite Hs2, Hs. cbn in *. destruct rest; cbn in *; lia.
Qed.
End authority.

(** ** Properties of the authority *)

(** C20: a manager that obtains a signer, racing with any other writers and
    with any calls failing, and a manager that starts later, while nobody
    else writes the signer secret, hold the same authority, and it is the
    one in the secret: an existing authority is never replaced. *)
Theorem replicas_share_authority `{L : CryptoLaws} fuel1 fuel2 ns name owner1 owner2 w s1 w1 s2 w2 :
  keyed w →
  NewSelfSignerFromSecretOrGenerate fuel1 ns name owner1 w = (Done s1, w1) →
  spares ("Secret", ns, name) w1 →
  NewSelfSignerFromSecretOrGenerate fuel2 ns name owner2 w1 = (Done s2, w2) →
  CA s1 = CA s2 ∧ ∃ o, holds_authority w2 ("Secret", ns, name) s1 o ∧ owned_by owner2 o.
Proof.
  intros Hk H1 Hs H2.
  pose proof (load_keyed fuel1 ns name owner1 w Hk) as Hk1. rewrite H1 in Hk1. cbn in Hk1.
  destruct (signer_agrees _ _ _ _ _ _ _ Hk H1) as (o1 & (E1 & t1 & L1 & C1) & _).
  destruct (signer_agrees _ _ _ _ _ _ _ Hk1 H2) as (o2 & (E2 & t2 & L2 & C2) & Ho).
  assert (guarded ns name (o_content o1) w2) as (_ & _ & Hc).
  { pose proof (authority_kept ns name fuel2 owner2 (o_content o1) w1) as Ha.
    rewrite H2 in Ha. apply Ha. split; [done|]. split; [done|]. by rewrite E1. }
  rewrite E2 in Hc. injection Hc as Hc.
  rewrite !(secret_data_content o1 o2) in L2 by done.
  destruct (WithCAData_pure (secret_data o1 TLSCACert) (secret_data o1 TLSCAKey)) as [x Hx].
  rewrite Hx in L1, L2. injection L1 as L1. injection L2 as L2.
  assert (t1 = t2) as -> by congruence.
  assert (CA s1 = CA s2) as E by congruence. split; [done|]. exists o2. split; [|done].
  split; [done|]. exists t2. rewrite !(secret_data_content o1 o2) by done. rewrite Hx. split; congruence.
Qed.

(** Obtaining the signer always ends: with more attempts than there are
    turns of other writers it returns a signer, fails with an error or
    panics. *)
Theorem signer_load_terminates `{L : CryptoLaws} fuel ns name ownerRef w :
  (length (schedule w) < fuel)%nat →
  (NewSelfSignerFromSecretOrGenerate fuel ns name ownerRef w).1 ≠ OutOfFuel.
Proof. apply load_fuel_enough. Qed.

(** A signer secret whose certificate data holds no PEM block crashes
    the manager with a nil dereference instead of giving an error. *)
Theorem malformed_authority_panics `{L : CryptoLaws} fuel ns name o w :
  quiet w → store w !! ("Secret", ns, name) = Some o →
  Decode (secret_data o TLSCACert) = None →
  (NewSelfSignerFromSecretOrGenerate (S fuel) ns name None w).1 = Panicked.
Proof.
  intros Hq Hs Hd. cbn [NewSelfSignerFromSecretOrGenerate]. unfold bind, attempt.
  rewrite api_get_quiet, Hs by done. cbn. unfold NewSelfSignerWithCAData. by rewrite Hd.
Qed.

(** Merging CA bundles parses every bundle that is not empty, fails
    exactly with a bundle's own error, and otherwise prints each
    certificate once: the output parses to the same set of certificates
    without duplicates, and merging it again changes nothing. *)
Theorem MergeCertificateData_correct `{L : CryptoLaws} caBundles :
  match MergeCertificateData caBundles with
  | Err e => ∃ b, b ∈ nonempty caBundles ∧ ParseCertsPEM b = Err e
  | Ok out =>
      ∃ lists, Forall2 (λ b l, ParseCertsPEM b = Ok l) (nonempty caBundles) lists ∧
        (nonempty caBundles = [] → out = "") ∧
        (nonempty caBundles ≠ [] →
           ∃ merged, ParseCertsPEM out = Ok merged ∧ NoDup (map Raw merged) ∧
                     ∀ c, c ∈ merged ↔ c ∈ concat lists) ∧
        MergeCertificateData [out] = Ok out
  end.
Proof.
  unfold MergeCertificateData at 1.
  destruct (collect_certs [] caBundles) as [all|e] eqn:E; cbn [mbind result_bind];
    [|by eapply collect_certs_err].
  destruct (collect_certs_ok _ _ _ E) as (lists & HF & ->). cbn [app] in *.
  exists lists. split; [done|]. set (all := concat lists).
  assert (Forall parsed all) as Hall by by eapply bundles_parsed.
  destruct (remove_duplicates_spec all []) as (Hnd & Hin & _); [done|constructor|].
  assert (Forall parsed (remove_duplicates [] all)) as Hp.
  { apply Forall_forall. intros c Hc. apply Hin in Hc as [Hc|Hc]; [by inversion Hc|].
    by eapply Forall_forall in Hall. }
  assert (nonempty caBundles ≠ [] → remove_duplicates [] all ≠ []) as Hne.
  { intros H Hr. destruct (bundles_nonempty _ _ HF H) as [c Hc].
    assert (c ∈ remove_duplicates [] all) as Hc' by (apply Hin; by right).
    rewrite Hr in Hc'. by inversion Hc'. }
  split; [|split].
  - intros Hn. rewrite Hn in HF. by inversion HF; subst.
  - intros H. exists (remove_duplicates [] all). split; [by apply ParseCertsPEM_encode, Hne|].
    split; [done|]. intros c. rewrite Hin. set_solver.
  - by apply merge_printed.
Qed.

(** ** Signing *)

Section sign_lemmas.
Context `{L : CryptoLaws}.

(** One call: the serial it used, and what it issued. *)
Lemma Sign_step n s cfg r s' :
  Sign n s cfg = (r, s') →
  CA s' = CA s ∧ (nextSerial s <= nextSerial s')%Z ∧
  ∀ p, r = Ok p → nextSerial s' = (nextSerial s + 1)%Z ∧
                  fields (pair_cert p) = template_for cfg (nextSerial s).
Proof.
  unfold Sign, errorf. destruct (GenerateKey n) as [key|e]; cbn.
  2: { intros H. injection H as <- <-. by split; [|split]. }
  intros H. injection H as <- <-. split; [done|]. split; [cbn; lia|]. intros p Hp. split; [done|].
  apply bind_ok in Hp as (raw & Hc & Hp). apply bind_ok in Hp as (cert & Hcert & Hp). inv_ok.
  destruct (CreateCertificate _ _ _ _) as [raw'|] eqn:Ec; [|done]. injection Hc as ->.
  destruct (ParseCertificate raw) as [cert'|] eqn:Ep; [|done]. injection Hcert as ->.
  by eapply Created_fields.
Qed.
End sign_lemmas.

(** However many certificates a signer issues, with calls failing in
    between, their serial numbers strictly increase from its first one, each
    certificate carries exactly the requested fields, and the authority
    stays the same. *)
Theorem issued_serials_increase `{L : CryptoLaws} n s cfgs :
  let '(issued, s') := sign_all n s cfgs in
  StronglySorted Z.lt (map (λ p, SerialNumber p.2) issued) ∧
  Forall (λ p, (nextSerial s <= SerialNumber p.2)%Z ∧
               fields p.2 = template_for p.1 (SerialNumber p.2)) issued ∧
  CA s' = CA s.
Proof.
  revert n s. induction cfgs as [|cfg cfgs IH]; intros n s; cbn [sign_all].
  { by split; [constructor|split; [constructor|]]. }
  destruct (Sign n s cfg) as [r s1] eqn:E. apply Sign_step in E as (Hca & Hle & Hok).
  specialize (IH (S n) s1). destruct (sign_all (S n) s1 cfgs) as [issued s2].
  destruct IH as (Hs & Hf & Hca2).
  assert (Forall (λ p, (nextSerial s <= SerialNumber p.2)%Z ∧
    fields p.2 = template_for p.1 (SerialNumber p.2)) issued) as Hf'.
  { eapply Forall_impl; [exact Hf|]. intros p [? ?]. split; [lia|done]. }
  destruct r as [p|e]; [|split; [done|split; [done|congruence]]].
  destruct (Hok p eq_refl) as [Hn Hfields].
  assert (SerialNumber (pair_cert p) = nextSerial s) as Hser by (unfold SerialNumber; by rewrite Hfields).
  split; [|split; [|congruence]].
  - cbn [map snd]. constructor; [done|]. apply List.Forall_map.
    eapply Forall_impl; [exact Hf|]. intros q [? _]. cbn. lia.
  - constructor; [|done]. cbn [fst snd]. rewrite Hser. by split.
Qed.

(** ** The serving certificate *)

Lemma take_turn_rotations w : rotations (take_turn w).2 = rotations w.
Proof.
  unfold take_turn. destruct (schedule w) as [|t rest]; [done|].
  assert (∀ xs w, rotations (fold_left apply_write xs w) = rotations w) as H.
  { induction xs as [|x xs IH]; intros w'; cbn [fold_left]; [done|]. rewrite IH. by destruct x. }
  destruct (fault t); cbn [snd]; by rewrite H.
Qed.

Lemma toLowerCaseASCII_id s : all_bytes (λ c, negb (is_upper c)) s = true → toLowerCaseASCII s = s.
Proof.
  induction s as [|c s IH]; cbn; [done|]. intros H. apply andb_true_iff in H as [Hc H].
  unfold lower_byte. apply negb_true_iff in Hc. by rewrite Hc, IH.
Qed.

Lemma hex_not_upper c : is_hex_digit c = true → negb (is_upper c) = true.
Proof. destruct c as [[] [] [] [] [] [] [] []]; vm_compute; congruence. Qed.

(** The wildcard name matches the host of every cluster. *)
Lemma wildcard_covers clusterName :
  matchHostnames "*.open-cluster-management.proxy" (GenerateServiceProxyHost clusterName) = true.
Proof.
  unfold matchHostnames. rewrite service_proxy_host_shape.
  pose proof (service_proxy_host_label clusterName) as Hl. apply no_dot_in_label in Hl.
  rewrite (toLowerCaseASCII_id ((_ ++ _) ++ _)).
  - change ".open-cluster-management.proxy" with (String "." "open-cluster-management.proxy").
    rewrite Split_app, (Split_no_sep "." _ Hl). cbn [app]. vm_compute. reflexivity.
  - rewrite !all_bytes_app. apply andb_true_iff. split; [|done]. apply andb_true_iff. split; [done|].
    eapply all_bytes_mono; [apply hex_not_upper|]. apply all_bytes_take, sha256_hex_is_hex.
Qed.

(** A reconciliation of the registered controller that succeeds has
    asked, with the authority of the signer secret, for the service-proxy
    serving certificate, and that certificate is valid for the host name
    under which the hub reaches the service-proxy of any cluster. *)
Theorem serving_certificate_covers_clusters `{L : CryptoLaws}
    (GetCAFromBytes : string → string → result (list Certificate * PrivateKey))
    (EnsureTargetCertKeyPair : rotation → list Certificate → result unit)
    certNamespace secretName secretNamespace w w' :
  ReconcileServerCertificates GetCAFromBytes EnsureTargetCertKeyPair
    (registerCertController certNamespace secretName secretNamespace).1 w = (Done (), w') →
  ∃ o ca r,
    store w' !! ("Secret", secretNamespace, secretName) = Some o ∧
    GetCAFromBytes (secret_data o "ca.crt") (secret_data o "ca.key") = Ok ca ∧
    EnsureTargetCertKeyPair r ca.1 = Ok () ∧
    rotations w' = r :: rotations w ∧
    rot_namespace r = certNamespace ∧ rot_name r = ServerCertSecretName ∧
    ∀ clusterName, VerifyHostname (rot_sans r) (GenerateServiceProxyHost clusterName) = true.
Proof.
  intros H. apply bind_done in H as (o & w1 & Hg & H).
  pose proof (api_get_world ("Secret", secretNamespace, secretName) w) as Hw. cbn in Hg.
  rewrite Hg in Hw. cbn in Hw. apply api_get_done in Hg.
  apply bind_done in H as (ca & w2 & Hca & H). apply lift_done in Hca as [Hca ->].
  unfold server_rotate in H.
  destruct (EnsureTargetCertKeyPair _ ca.1) as [[]|e] eqn:Er; [|done]. injection H as <-.
  eexists o, ca, _. split; [done|]. split; [done|]. split; [exact Er|].
  split; [cbn; by rewrite Hw, take_turn_rotations|]. split; [done|]. split; [done|].
  intros clusterName. apply existsb_exists_elem. eexists. split; [|by apply wildcard_covers].
  set_solver.
Qed.

(** A tunnel client's configuration trusts the certificates of the CA
    secret, speaks TLS 1.2 at least, and asks for a server name that the
    certificates which the controller rotates for the proxy-server carry. *)
Theorem tunnel_client_matches_server `{L : CryptoLaws} {KeyPair}
    (X509KeyPair : string → string → result KeyPair) newClient config entrypoint sans w cfg w' :
  GetKonnectivityTLSConfig X509KeyPair newClient config w = (Done cfg, w') →
  proxy_server_sans config entrypoint = Some sans →
  ServerName cfg ∈ sans ∧ (VersionTLS12 <= MinVersion cfg)%Z ∧
  RootCAs cfg ≠ [] ∧ length (clientCertificates cfg) = 1%nat.
Proof.
  intros H Hsans. unfold GetKonnectivityTLSConfig in H.
  apply bind_done in H as (u & w1 & _ & H). apply bind_done in H as (ca & w2 & _ & H).
  apply bind_done in H as (cs & w3 & _ & H). apply wrap_done in H as [H _].
  unfold buildTLSConfig in H. apply bind_ok in H as (pool & Hp & H).
  apply bind_ok in H as (pair & _ & H). inv_ok. cbn [ServerName MinVersion RootCAs clientCertificates].
  split; [|split; [done|split; [|done]]].
  - apply (proxy_server_sans_covers _ _ _ Hsans). left. set_solver.
  - unfold wrap_result in Hp. destruct (ParseCertsPEM _) as [l|e] eqn:E; [|done]. injection Hp as <-.
    by apply ParseCertsPEM_ok in E as [_ ?].
Qed.

(** ** Concrete runs *)

#[export] Instance Template_eq_dec : EqDecision Template.
Proof. solve_decision. Defined.

(** Certificates that are their serial number, and keys that are strings. *)
Module Sample.

Definition fields_of (serial : Z) : Template :=
  MkTemplate AddonFullName [] [] [] serial ["KeyEncipherment"; "DigitalSignature"] [] 0 100.

Definition parse (data : string) : result Certificate :=
  serial ← Atoi data; Ok (MkCertificate data (fields_of serial)).

Definition create (t : Template) : result string :=
  if bool_decide (t = fields_of (t_serial t)) &&
     match Atoi (Itoa (t_serial t)) with Ok z => bool_decide (z = t_serial t) | Err _ => false end
  then Ok (Itoa (t_serial t)) else Err (ENew "not encodable").

#[export] Instance crypto : Crypto := {|
  PrivateKey := string;
  Decode := strict;
  GenerateKey n := Ok ("key" ++ Itoa (Z.of_nat n));
  NewSelfSignedCACert n _ _ := parse "1000";
  ParseCertificate := parse;
  CreateCertificate t _ _ _ := create t;
  MarshalPKCS8PrivateKey k := Ok k;
  ParsePKCS8PrivateKey data := Ok (Some data)
|}.

#[export] Instance crypto_laws : CryptoLaws crypto.
Proof.
  split; cbn [Decode ParseCertificate NewSelfSignedCACert CreateCertificate crypto
              MarshalPKCS8PrivateKey ParsePKCS8PrivateKey].
  - apply strict_decoder.
  - unfold parse. intros data c H. apply bind_ok in H as (z & _ & H). by inv_ok.
  - unfold parse. intros n cn k c H. apply bind_ok in H as (z & Hz & H). inv_ok.
    cbn [Raw]. by rewrite Hz.
  - unfold create, parse. intros t _ _ _ raw c Hc Hp. destruct (_ && _) eqn:E; [|done]. inv_ok.
    bool_to_prop. apply bind_ok in Hp as (z & Hz & Hp). inv_ok. rewrite Hz in *. bool_to_prop.
    cbn. congruence.
  - intros k data H. by inv_ok.
Qed.

Definition empty_world : world := MkWorld ∅ 1 [] [] [].

(** Another replica's secret appears between the lookup and the creation. *)
Definition other_secret : object :=
  ca_secret "hub" "signer" (EncodeToMemory "CERTIFICATE" "7") (EncodeToMemory "PRIVATE KEY" "other") None.

Definition racing_world : world :=
  MkWorld ∅ 1 [MkTurn [] None; MkTurn [Put other_secret] None] [] [].

Definition owner : OwnerReference := MkOwner "v1alpha1" "ManagedProxyConfiguration" "cluster-proxy" "uid" true.

Definition load (o : option OwnerReference) : M selfSigner :=
  NewSelfSignerFromSecretOrGenerate 3 "hub" "signer" o.

Definition racing_world' : world := (load (Some owner) racing_world).2.

Definition the_signer : selfSigner :=
  MkSigner (MkCertificate "7" (fields_of 7)) ("other" : PrivateKey) 8.

Definition request (expiry : Z) : CertRequest := MkRequest AddonFullName [] [] [] [] 0 expiry.

Definition broken_world : world := put empty_world (ca_secret "hub" "signer" "not PEM" "" None).

Definition bundle (l : list string) : string :=
  encode_certs (map (λ d, MkCertificate d (fields_of 0)) l).
End Sample.
Import Sample.

Lemma racing_keyed : keyed racing_world.
Proof. apply map_Forall_empty. Qed.

(** The signer is the other replica's. *)
Lemma racing_first : load (Some owner) racing_world = (Done the_signer, racing_world').
Proof. unfold racing_world'. apply (outcome_is (load (Some owner) racing_world)).
  vm_cast_no_check (@eq_refl (outcome selfSigner) (Done the_signer)).
Qed.

(** The second load agrees. *)
Lemma racing_second : load None racing_world' = (Done the_signer, (load None racing_world').2).
Proof.
  apply (outcome_is (load None racing_world')).
  vm_cast_no_check (@eq_refl (outcome selfSigner) (Done the_signer)).
Qed.

Lemma racing_spared : spares ("Secret", "hub", "signer") racing_world'.
Proof.
  unfold spares. assert (schedule racing_world' = []) as -> by (vm_compute; reflexivity). constructor.
Qed.

Lemma replicas_share_authority_witness :
  keyed racing_world ∧ load (Some owner) racing_world = (Done the_signer, racing_world') ∧
  load None racing_world' = (Done the_signer, (load None racing_world').2) ∧
  CA the_signer = CA the_signer.
Proof.
  split; [exact racing_keyed|]. split; [exact racing_first|]. split; [exact racing_second|].
  exact (proj1 (replicas_share_authority 3 3 "hub" "signer" (Some owner) None racing_world the_signer
    racing_world' the_signer _ racing_keyed racing_first racing_spared racing_second)).
Defined.

Lemma signer_load_terminates_witness :
  (length (schedule racing_world) < 3)%nat ∧ (load None racing_world).1 ≠ OutOfFuel.
Proof.
  split; [cbn; lia|]. apply (signer_load_terminates 3 "hub" "signer" None racing_world). cbn. lia.
Defined.

Lemma malformed_authority_panics_witness :
  Decode "not PEM" = None ∧ (load None broken_world).1 = Panicked.
Proof.
  split; [vm_compute; reflexivity|].
  apply (malformed_authority_panics 2 "hub" "signer"
           (set_rv (ca_secret "hub" "signer" "not PEM" "" None) 1) broken_world); vm_compute; reflexivity.
Defined.

(** Two bundles that share a certificate, and an empty one. *)
Lemma MergeCertificateData_correct_witness :
  MergeCertificateData [bundle ["1"; "2"]; ""; bundle ["2"; "3"]] = Ok (bundle ["1"; "2"; "3"]) ∧
  match MergeCertificateData [bundle ["1"; "2"]; ""; bundle ["2"; "3"]] with
  | Ok out => MergeCertificateData [out] = Ok out
  | Err _ => False
  end.
Proof.
  assert (MergeCertificateData [bundle ["1"; "2"]; ""; bundle ["2"; "3"]] = Ok (bundle ["1"; "2"; "3"]))
    as E by (vm_compute; reflexivity).
  split; [exact E|].
  pose proof (MergeCertificateData_correct [bundle ["1"; "2"]; ""; bundle ["2"; "3"]]) as H.
  rewrite E in *. destruct H as (lists & _ & _ & _ & H). exact H.
Defined.

(** The second request cannot be encoded; its serial is used up. *)
Lemma issued_serials_increase_witness :
  map (λ p, SerialNumber p.2) (sign_all 0 the_signer [request 100; request 5; request 100]).1 = [8; 10]%Z ∧
  StronglySorted Z.lt (map (λ p, SerialNumber p.2)
    (sign_all 0 the_signer [request 100; request 5; request 100]).1).
Proof.
  split; [vm_compute; reflexivity|].
  pose proof (issued_serials_increase 0 the_signer [request 100; request 5; request 100]) as H.
  destruct (sign_all _ _ _) as [issued s']. exact (proj1 H).
Defined.

Definition sample_ca (cert key : string) : result (list Certificate * PrivateKey) :=
  Ok ([MkCertificate cert (fields_of 7)], key).
Definition sample_ensure (_ : rotation) (_ : list Certificate) : result unit := Ok ().
Definition signed_world : world := put empty_world other_secret.

Lemma serving_certificate_covers_clusters_witness :
  ∃ r, rotations (ReconcileServerCertificates sample_ca sample_ensure
         (registerCertController "hub" "signer" "hub").1 signed_world).2 = [r] ∧
    VerifyHostname (rot_sans r) (GenerateServiceProxyHost "cluster1") = true.
Proof.
  destruct (serving_certificate_covers_clusters sample_ca sample_ensure "hub" "signer" "hub" signed_world
    _ (outcome_is (ReconcileServerCertificates sample_ca sample_ensure
         (registerCertController "hub" "signer" "hub").1 signed_world) (Done ()) eq_refl))
    as (o & ca & r & _ & _ & _ & Hr & _ & _ & Hv).
  exists r. split; [exact Hr|apply Hv].
Defined.

Definition tunnel_world : world :=
  put (put empty_world (MkObject "ocm" "proxy-server-ca" [] ∅ ∅ 0
                          (CSecret {["ca.crt" := bundle ["7"]]})))
      (MkObject "ocm" "proxy-client" [] ∅ ∅ 0 (CSecret ∅)).

Definition sample_pair (cert key : string) : result (string * string) := Ok (cert, key).

Lemma tunnel_client_matches_server_witness :
  ∃ cfg w', GetKonnectivityTLSConfig sample_pair (Ok ()) demo_config tunnel_world = (Done cfg, w') ∧
    ∃ sans, proxy_server_sans demo_config "" = Some sans ∧ ServerName cfg ∈ sans.
Proof.
  eexists (MkTls [MkCertificate "7" (fields_of 7)] VersionTLS12 [("", "")] "proxy-entrypoint.ocm" []), _.
  assert (GetKonnectivityTLSConfig sample_pair (Ok ()) demo_config tunnel_world
          = (Done (MkTls [MkCertificate "7" (fields_of 7)] VersionTLS12 [("", "")] "proxy-entrypoint.ocm" []),
             (GetKonnectivityTLSConfig sample_pair (Ok ()) demo_config tunnel_world).2)) as H
    by (apply outcome_is; vm_compute; reflexivity).
  split; [exact H|]. eexists. split; [reflexivity|].
  exact (proj1 (tunnel_client_matches_server sample_pair (Ok ()) demo_config "" _ _ _ _ H eq_refl)).
Defined.
