(* ===== verification/Rotation.v ===== *)
(** * Rotating certificates

    What keeps the certificates of the tunnel fresh, from the vendored
    sources: [TargetRotation] of open-cluster-management.io/sdk-go
    (pkg/certrotation/target.go, pkg/helpers/resourceapply.go) on the
    certificates of openshift/library-go (pkg/crypto/crypto.go).  The two
    controllers run it with a validity of 180 days and without a directory
    to load into.  Times are nanoseconds; a certificate keeps whole seconds. *)

From stdpp Require Import sorting.
From S2P Require Import Prelude GoStrings Sha256 Naming Oidc Manifests Api Controller Pem Certificates.

Local Open Scope string_scope.
Local Open Scope Z_scope.

(** ** Secrets of certificates *)

Record Secret := MkSecret {
  s_type : string;
  s_owners : list OwnerReference;
  s_data : gmap string string
}.

#[export] Instance OwnerReference_eq_dec : EqDecision OwnerReference.
Proof. solve_decision. Defined.
#[export] Instance Secret_eq_dec : EqDecision Secret.
Proof. solve_decision. Defined.

Definition SecretTypeTLS : string := "kubernetes.io/tls".
Definition SecretTypeOpaque : string := "Opaque".
Definition SecretTypeServiceAccountToken : string := "kubernetes.io/service-account-token".

(** ** ApplySecret *)

(** The secret at the API server, and the failure of each kind of call. *)
Record secret_api := MkSecretApi {
  stored : option Secret;
  f_get : option goerror;
  f_create : option goerror;
  f_update : option goerror;
  f_delete : option goerror
}.

(** A secret as the server stores it: it defaults the type. *)
Definition defaulted (s : Secret) : Secret :=
  MkSecret (if String.eqb (s_type s) "" then SecretTypeOpaque else s_type s) (s_owners s) (s_data s).

(** [existingCopy]: what the existing secret becomes. *)
Definition merged_secret (existing required : Secret) : Secret :=
  let data := if String.eqb (s_type required) SecretTypeServiceAccountToken
              then s_data required ∪ s_data existing else s_data required in
  let owners := match s_owners existing, s_owners required with
                | [], _ :: _ => s_owners required
                | _, _ => s_owners existing
                end in
  defaulted (MkSecret (s_type required) owners data).

(** Deleting the secret and creating it anew. *)
Definition replace_secret (s : Secret) (a : secret_api) : result unit * option Secret :=
  match f_delete a with
  | Some e => (Err e, stored a)
  | None =>
      match f_create a with
      | Some e => (Err e, None)
      | None => (Ok (), Some s)
      end
  end.

Definition get_secret (a : secret_api) : result Secret :=
  match f_get a, stored a with
  | Some e, _ => Err e
  | None, Some existing => Ok existing
  | None, None => Err (EApi NotFound "not found")
  end.

(** [ApplySecret] of a secret without string data: its error and what is
    stored afterwards. *)
Definition ApplySecret (required : Secret) (a : secret_api) : result unit * option Secret :=
  match get_secret a with
  | Err e =>
      if negb (IsNotFound e) then (Err e, stored a)
      else match f_create a, stored a with
           | Some e, _ => (Err e, stored a)
           | None, Some _ => (Err (EApi AlreadyExists "already exists"), stored a)
           | None, None => (Ok (), Some (defaulted required))
           end
  | Ok existing =>
          let copy := merged_secret existing required in
          if decide (copy = existing) then (Ok (), Some existing)
          else if String.eqb (s_type copy) (s_type existing) then
            match f_update a with
            | None => (Ok (), Some copy)
            | Some e => if negb (Contains (error_string e) "field is immutable") then (Err e, Some existing)
                        else replace_secret copy a
            end
          else replace_secret copy a
  end.

(** ** Times *)

Definition duration_max : Z := 2 ^ 63 - 1.
Definition duration_min : Z := - 2 ^ 63.

(** [Time.Sub]: saturates. *)
Definition time_Sub (t u : Z) : Z := Z.max duration_min (Z.min duration_max (t - u)).

Definition sec : Z := 1000000000.
Definition NotBefore (c : Certificate) : Z := t_notBefore (fields c) * sec.
Definition NotAfter (c : Certificate) : Z := t_notAfter (fields c) * sec.

(** [latestTime]: when a fifth of the lifetime is left. *)
Definition latestTime (c : Certificate) : Z :=
  NotAfter c - Z.quot (time_Sub (NotAfter c) (NotBefore c)) 5.

(** ** The rotation *)

(** Why a new certificate is needed. *)
Inductive reason :=
| MissingTlsCrt | BadCertificate | MissingCertificate | AlreadyExpired | Expires
| IssuerNotInBundle | HostnamesMismatch | IPAddressesMismatch.

Section rotation.
Context `{C : Crypto}.
(** [Certificate.Issuer.CommonName] and [CheckSignatureFrom] of crypto/x509. *)
Context (IssuerCommonName : Certificate → string).
Context (CheckSignatureFrom : Certificate → Certificate → result unit).
(** [net.ParseIP], the address as its [String]. *)
Context (ParseIP : string → option string).
(** [EncodeKey]. *)
Context (EncodeKey : PrivateKey → result string).

(** [IPAddressesDNSNames]: addresses are names, too, after the others. *)
Definition IPAddressesDNSNames (hosts : list string) : list string * list string :=
  let ips := omap ParseIP hosts in
  (ips, filter (λ h, ParseIP h = None) hosts ++ ips)%list.

Definition set_equal (l k : list string) : bool :=
  bool_decide (list_to_set l =@{gset string} list_to_set k).

(** [needNewTargetCertKeyPair]; the clock is read at [now1] and [now2]. *)
Definition needNewTargetCertKeyPair (now1 now2 : Z) (s : Secret) (caBundleCerts : list Certificate)
    (hostnames : list string) : option reason :=
  let certData := default "" (s_data s !! "tls.crt") in
  if String.eqb certData "" then Some MissingTlsCrt else
  match ParseCertsPEM certData with
  | Err _ => Some BadCertificate
  | Ok [] => Some MissingCertificate
  | Ok (cert :: _) =>
      if NotAfter cert <? now1 then Some AlreadyExpired
      else if latestTime cert <? now2 then Some Expires
      else if negb (existsb (λ caCert, String.eqb (IssuerCommonName cert) (t_commonName (fields caCert)) &&
                                       is_ok (CheckSignatureFrom cert caCert)) caBundleCerts)
      then Some IssuerNotInBundle
      else
        let '(expectedIPs, expectedHosts) := IPAddressesDNSNames hostnames in
        if negb (set_equal expectedHosts (t_dnsNames (fields cert))) then Some HostnamesMismatch
        else if negb (set_equal expectedIPs (t_ips (fields cert))) then Some IPAddressesMismatch
        else None
  end.

(** [sets.List]: sorted, without duplicates. *)
Definition sets_List (l : list string) : list string := merge_sort str_le (remove_dups l).

(** [newServerCertificateTemplateForDuration] as [MakeServerCertForDuration]
    calls it, with the serial number of [SignCertificate]; the clock is read
    at [now1] and [now2].  [clientAuth]: the extension function that replaces
    the usage. *)
Definition server_template (hosts : list string) (lifetime now1 now2 serial : Z) (clientAuth : bool)
    : Template :=
  let '(ips, dns) := IPAddressesDNSNames (sets_List hosts) in
  MkTemplate (default "" (head (sets_List hosts))) [] dns ips serial
    ["KeyEncipherment"; "DigitalSignature"] [if clientAuth then "ClientAuth" else "ServerAuth"]
    ((now1 - sec) / sec) ((now2 + lifetime) / sec).

(** The readings of the clock by one run, in their order, the key and the
    serial number that it draws.  Drawing the key is taken to succeed: the
    code drops the error, and would use a nil key. *)
Record run_env := MkRun {
  n0 : Z; n1 : Z; n2 : Z; n3 : Z; n4 : Z;
  run_key : PrivateKey;
  run_serial : Z
}.

(** The lifetime of a new certificate: not past the signer. *)
Definition targetValidity (validity : Z) (signer : Certificate) (now : Z) : Z :=
  let remainingSignerValidity := time_Sub (NotAfter signer) (now + 2 * sec) in
  if remainingSignerValidity <? validity then remainingSignerValidity else validity.

(** [crypto.CA]: the certificate that signs, the ones after it, and the key. *)
Record signing_ca := MkCA {
  ca_signer : Certificate;
  ca_chain : list Certificate;
  ca_privateKey : PrivateKey
}.

(** The template of a run. *)
Definition run_template (validity : Z) (r : rotation) (ca : signing_ca) (e : run_env) : Template :=
  server_template (rot_sans r) (targetValidity validity (ca_signer ca) (n2 e)) (n3 e) (n4 e)
    (run_serial e) (rot_clientAuth r).

(** [NewCertificate] and [setTargetCertKeyPairSecret]: the new data. *)
Definition setTargetCertKeyPairSecret (validity : Z) (r : rotation) (ca : signing_ca) (e : run_env)
    (s : Secret) : result Secret :=
  match rot_sans r with
  | [] => Err (ENew "no hostnames set")
  | _ =>
      raw ← CreateCertificate (run_template validity r ca e) (ca_signer ca) (run_key e) (ca_privateKey ca);
      leaf ← ParseCertificate raw;
      key ← EncodeKey (run_key e);
      Ok (MkSecret (s_type s) (s_owners s)
            (<["tls.key" := key]>
               (<["tls.crt" := encode_certs (leaf :: ca_signer ca :: ca_chain ca)]> (s_data s))))
  end.

(** [EnsureTargetCertKeyPair]: its error and what is stored afterwards. *)
Definition EnsureTargetCertKeyPair (validity : Z) (ownerRef : option OwnerReference) (r : rotation)
    (ca : signing_ca) (caBundleCerts : list Certificate) (e : run_env)
    (lister : result Secret) (a : secret_api) : result unit * option Secret :=
  match (match lister with
         | Ok s => Ok s
         | Err err => if IsNotFound err then Ok (MkSecret "" [] ∅) else Err err
         end) with
  | Err err => (Err err, stored a)
  | Ok s =>
      let owners := match ownerRef with Some ref => [ref] | None => s_owners s end in
      let s := MkSecret SecretTypeTLS owners (s_data s) in
      match needNewTargetCertKeyPair (n0 e) (n1 e) s caBundleCerts (rot_sans r) with
      | None => (Ok (), stored a)
      | Some _ =>
          match setTargetCertKeyPairSecret validity r ca e s with
          | Err err => (Err err, stored a)
          | Ok s => ApplySecret s a
          end
      end
  end.
End rotation.

(** ** Names *)

Lemma elem_of_sets_List l x : x ∈ sets_List l ↔ x ∈ l.
Proof. unfold sets_List. by rewrite merge_sort_Permutation, elem_of_remove_dups. Qed.

Lemma set_equal_spec l k : set_equal l k = true ↔ ∀ x, x ∈ l ↔ x ∈ k.
Proof.
  unfold set_equal. rewrite bool_decide_eq_true, set_eq.
  by setoid_rewrite elem_of_list_to_set.
Qed.

(** The addresses and the names depend on the set of hosts only. *)
Lemma IPAddressesDNSNames_sets ParseIP hosts :
  set_equal (IPAddressesDNSNames ParseIP hosts).1 (IPAddressesDNSNames ParseIP (sets_List hosts)).1 = true ∧
  set_equal (IPAddressesDNSNames ParseIP hosts).2 (IPAddressesDNSNames ParseIP (sets_List hosts)).2 = true.
Proof.
  unfold IPAddressesDNSNames. cbn [fst snd].
  split; apply set_equal_spec; intros x;
    rewrite ?elem_of_app, ?list_elem_of_filter, ?list_elem_of_omap;
    by setoid_rewrite elem_of_sets_List.
Qed.

(** Every host that is not an address is a name of the certificate. *)
Lemma server_template_name ParseIP hosts lifetime now1 now2 serial clientAuth h :
  h ∈ hosts → ParseIP h = None →
  h ∈ t_dnsNames (server_template ParseIP hosts lifetime now1 now2 serial clientAuth).
Proof.
  intros Hh Hp. cbn. apply elem_of_app. left. apply list_elem_of_filter. split; [done|].
  by apply elem_of_sets_List.
Qed.

(** ** Secrets *)

Lemma get_secret_ok a s : get_secret a = Ok s → stored a = Some s.
Proof. unfold get_secret. destruct (f_get a), (stored a); intros; by inv_ok. Qed.

(** A successful run leaves the data and the type that it wanted. *)
Lemma ApplySecret_ok required a st :
  s_type required = SecretTypeTLS → ApplySecret required a = (Ok (), st) →
  ∃ s, st = Some s ∧ s_type s = SecretTypeTLS ∧ s_data s = s_data required.
Proof.
  destruct required as [ty owners data]. cbn [s_type]. intros ->. unfold ApplySecret, replace_secret.
  destruct (get_secret a) as [existing|e] eqn:Eg.
  2: { destruct (negb (IsNotFound e)); [done|]. destruct (f_create a); [done|].
       destruct (stored a); [done|]. intros E. injection E as <-. by eexists. }
  apply get_secret_ok in Eg as Hst. rewrite ?Hst.
  set (copy := merged_secret _ _).
  assert (s_type copy = SecretTypeTLS ∧ s_data copy = data) as [Ht Hd] by done.
  destruct (decide (copy = existing)) as [Hc|_].
  { intros E. injection E as <-. exists copy. split; [congruence|done]. }
  destruct (String.eqb _ _); [destruct (f_update a); [destruct (negb _); [done|]|]|];
    try (destruct (f_delete a); [done|]; destruct (f_create a); [done|]);
    intros E; injection E as <-; by eexists.
Qed.

(** ** Times *)

Definition day : Z := 86400 * sec.
(** What both controllers ask for. *)
Definition rotation_validity : Z := 180 * day.

Lemma targetValidity_bounds validity signer now :
  validity ≤ duration_max → duration_min ≤ NotAfter signer - (now + 2 * sec) →
  targetValidity validity signer now = Z.min validity (NotAfter signer - (now + 2 * sec)).
Proof. unfold targetValidity, time_Sub. case_match eqn:E; lia. Qed.

(** The fifth of a lifetime that is not negative is within it. *)
Lemma latestTime_le c : NotBefore c ≤ NotAfter c → latestTime c ≤ NotAfter c.
Proof.
  intros H. unfold latestTime. pose proof (Z.quot_pos (time_Sub (NotAfter c) (NotBefore c)) 5).
  enough (0 ≤ time_Sub (NotAfter c) (NotBefore c)) by lia. unfold time_Sub, duration_max, duration_min. lia.
Qed.

(** ** Runs that issue a certificate *)

(** What crypto/x509 says of a certificate that it created: it names the
    issuer and its signature checks, where the parent may sign. *)
Class X509Laws `{C : Crypto} (IssuerCommonName : Certificate → string)
    (CheckSignatureFrom : Certificate → Certificate → result unit) (IsAuthority : Certificate → Prop) : Prop := {
  Created_issuer t parent k signer raw c :
    CreateCertificate t parent k signer = Ok raw → ParseCertificate raw = Ok c →
    IssuerCommonName c = t_commonName (fields parent);
  Created_signature t parent k signer raw c :
    CreateCertificate t parent k signer = Ok raw → ParseCertificate raw = Ok c →
    IsAuthority parent → CheckSignatureFrom c parent = Ok ()
}.

Section issuing.
Context `{L : CryptoLaws}.
Context (IssuerCommonName : Certificate → string).
Context (CheckSignatureFrom : Certificate → Certificate → result unit).
Context (IsAuthority : Certificate → Prop).
Context `{!X509Laws IssuerCommonName CheckSignatureFrom IsAuthority}.
Context (ParseIP : string → option string) (EncodeKey : PrivateKey → result string).

#[local] Abbreviation ensure := (EnsureTargetCertKeyPair IssuerCommonName CheckSignatureFrom ParseIP EncodeKey).
#[local] Abbreviation needNew := (needNewTargetCertKeyPair IssuerCommonName CheckSignatureFrom ParseIP).

(** The secret that a run starts from. *)
Definition listed (lister : result Secret) : Secret :=
  match lister with Ok s => s | Err _ => MkSecret "" [] ∅ end.

(** The leaf of a secret, as the run issued it. *)
Record issued (validity : Z) (r : rotation) (ca : signing_ca) (e : run_env) (s : Secret)
    (leaf : Certificate) : Prop := {
  issued_type : s_type s = SecretTypeTLS;
  issued_crt : s_data s !! "tls.crt" = Some (encode_certs (leaf :: ca_signer ca :: ca_chain ca));
  issued_parsed : parsed leaf;
  issued_fields : fields leaf = run_template ParseIP validity r ca e;
  issued_by : IssuerCommonName leaf = t_commonName (fields (ca_signer ca));
  issued_signed : IsAuthority (ca_signer ca) → CheckSignatureFrom leaf (ca_signer ca) = Ok ()
}.

Lemma setTarget_issued validity r ca e s s' :
  s_type s = SecretTypeTLS →
  setTargetCertKeyPairSecret ParseIP EncodeKey validity r ca e s = Ok s' → ∃ leaf, issued validity r ca e s' leaf.
Proof.
  unfold setTargetCertKeyPairSecret. intros Ht H. destruct (rot_sans r) eqn:Hsans; [done|].
  apply bind_ok in H as (raw & Hraw & H). apply bind_ok in H as (leaf & Hleaf & H).
  apply bind_ok in H as (key & _ & H). inv_ok. exists leaf. split; cbn [s_type s_data].
  - done.
  - by rewrite lookup_insert_ne, lookup_insert_eq.
  - by eapply Parse_parsed.
  - by eapply Created_fields.
  - by eapply Created_issuer.
  - by eapply Created_signature.
Qed.

(** A successful run either found the secret good or issued a leaf. *)
Lemma ensure_ok validity ownerRef r ca bundle e lister a st :
  ensure validity ownerRef r ca bundle e lister a = (Ok (), st) →
  (needNew (n0 e) (n1 e) (listed lister) bundle (rot_sans r) = None ∧ st = stored a) ∨
  ∃ s leaf, st = Some s ∧ issued validity r ca e s leaf.
Proof.
  unfold EnsureTargetCertKeyPair. intros H.
  assert (∀ s, (let s' := MkSecret SecretTypeTLS
       (match ownerRef with Some ref => [ref] | None => s_owners s end) (s_data s) in
     match needNew (n0 e) (n1 e) s' bundle (rot_sans r) with
     | None => (Ok (), stored a)
     | Some _ => match setTargetCertKeyPairSecret ParseIP EncodeKey validity r ca e s' with
                 | Err err => (Err err, stored a)
                 | Ok s => ApplySecret s a
                 end
     end) = (Ok (), st) →
   (needNew (n0 e) (n1 e) s bundle (rot_sans r) = None ∧ st = stored a) ∨
   ∃ s leaf, st = Some s ∧ issued validity r ca e s leaf) as Hs.
  { intros s. cbv zeta. unfold needNewTargetCertKeyPair at 1 2. cbn [s_data].
    fold (needNew (n0 e) (n1 e) s bundle (rot_sans r)).
    destruct (needNew _ _ s _ _) as [why|]; [|intros E; injection E as <-; by left].
    destruct (setTargetCertKeyPairSecret _ _ _ _ _ _ _) as [s'|] eqn:E; [|done].
    apply setTarget_issued in E as [leaf Hl]; [|done]. intros Ha.
    apply ApplySecret_ok in Ha as (s2 & -> & Ht & Hd); [|apply Hl].
    right. exists s2, leaf. split; [done|]. destruct Hl. by split; rewrite ?Hd. }
  destruct lister as [s|err]; [by apply (Hs s)|].
  destruct (IsNotFound err); [by apply (Hs (MkSecret "" [] ∅))|done].
Qed.

(** When an issued leaf needs a successor: with time only. *)
Lemma issued_needNew validity r ca e s leaf bundle now1 now2 :
  issued validity r ca e s leaf → IsAuthority (ca_signer ca) → ca_signer ca ∈ bundle →
  Forall parsed (ca_signer ca :: ca_chain ca) →
  needNew now1 now2 s bundle (rot_sans r) =
    (if NotAfter leaf <? now1 then Some AlreadyExpired
     else if latestTime leaf <? now2 then Some Expires else None).
Proof.
  intros [_ Hcrt Hp Hf Hby Hsig] Hca Hin Hchain. unfold needNewTargetCertKeyPair.
  rewrite Hcrt. cbn [from_option id].
  assert (String.eqb (encode_certs (leaf :: ca_signer ca :: ca_chain ca)) "" = false) as -> by done.
  rewrite ParseCertsPEM_encode; [|by constructor|done].
  assert (existsb (λ caCert, String.eqb (IssuerCommonName leaf) (t_commonName (fields caCert)) &&
            is_ok (CheckSignatureFrom leaf caCert)) bundle = true) as ->.
  { apply existsb_exists_elem. exists (ca_signer ca). split; [done|].
    by rewrite Hby, String.eqb_refl, (Hsig Hca). }
  destruct (IPAddressesDNSNames_sets ParseIP (rot_sans r)) as [Hips Hdns].
  rewrite Hf. unfold run_template, server_template.
  destruct (IPAddressesDNSNames ParseIP (sets_List _)) as [ips dns].
  destruct (IPAddressesDNSNames ParseIP (rot_sans r)) as [ips' dns'].
  cbn [fst snd negb t_dnsNames t_ips] in *. by rewrite Hips, Hdns.
Qed.

(** A run that finds the listed secret good calls nothing. *)
Lemma ensure_good validity ownerRef r ca bundle e s a :
  needNew (n0 e) (n1 e) s bundle (rot_sans r) = None →
  ensure validity ownerRef r ca bundle e (Ok s) a = (Ok (), stored a).
Proof.
  intros H. unfold EnsureTargetCertKeyPair. unfold needNewTargetCertKeyPair at 1. cbn [s_data].
  fold (needNew (n0 e) (n1 e) s bundle (rot_sans r)). by rewrite H.
Qed.

(** C26: rotation settles.  A run that found the certificate wanting and
    succeeds leaves a TLS secret whose chain is a new leaf followed by the
    authority, the leaf has exactly the requested names, and from then on
    only time asks for another: a later run on that secret does nothing up
    to the renewal time of the leaf, whatever the owner it is configured
    with, and after it, but not before, a new certificate is needed. *)
Theorem rotation_settles validity ownerRef r ca bundle e lister a st :
  IsAuthority (ca_signer ca) → ca_signer ca ∈ bundle → Forall parsed (ca_signer ca :: ca_chain ca) →
  needNew (n0 e) (n1 e) (listed lister) bundle (rot_sans r) ≠ None →
  ensure validity ownerRef r ca bundle e lister a = (Ok (), st) →
  ∃ s leaf,
    st = Some s ∧ s_type s = SecretTypeTLS ∧
    ParseCertsPEM (default "" (s_data s !! "tls.crt")) = Ok (leaf :: ca_signer ca :: ca_chain ca) ∧
    fields leaf = run_template ParseIP validity r ca e ∧
    (∀ e' owner' validity' a', n0 e' ≤ NotAfter leaf → n1 e' ≤ latestTime leaf →
       ensure validity' owner' r ca bundle e' (Ok s) a' = (Ok (), stored a')) ∧
    (∀ now1 now2, latestTime leaf < now2 → needNew now1 now2 s bundle (rot_sans r) ≠ None).
Proof.
  intros Hca Hin Hchain Hneed H. apply ensure_ok in H as [[Hn _]|(s & leaf & -> & Hi)]; [done|].
  pose proof (λ now1 now2, issued_needNew _ _ _ _ _ _ bundle now1 now2 Hi Hca Hin Hchain) as Hnew.
  destruct Hi as [Ht Hcrt Hp Hf _ _]. exists s, leaf. split; [done|]. split; [done|].
  split; [rewrite Hcrt; apply ParseCertsPEM_encode; by try constructor|]. split; [done|]. split.
  - intros e' owner' validity' a' H0 H1. apply ensure_good. rewrite Hnew.
    by rewrite (proj2 (Z.ltb_ge _ _) H0), (proj2 (Z.ltb_ge _ _) H1).
  - intros now1 now2 H2. rewrite Hnew, (proj2 (Z.ltb_lt _ _) H2). by destruct (_ <? _).
Qed.

(** C27: a certificate does not outlive its authority.  Where issuing takes
    at most the two seconds that the code reserves, the leaf of a run that
    issued one ends by the end of its signer, and by the validity asked
    for; where the signer lasts, the leaf is valid from the second before
    it was made and renewal is due a fifth of the lifetime, at least 36 of
    180 days, before it ends.  But under an expired signer the leaf is
    expired from the start, and every later run issues another. *)
Theorem leaf_bounded_by_signer validity ownerRef r ca bundle e lister a st :
  IsAuthority (ca_signer ca) → ca_signer ca ∈ bundle → Forall parsed (ca_signer ca :: ca_chain ca) →
  n2 e ≤ n3 e ≤ n4 e → n4 e ≤ n2 e + 2 * sec → validity ≤ duration_max →
  duration_min ≤ NotAfter (ca_signer ca) - (n2 e + 2 * sec) →
  needNew (n0 e) (n1 e) (listed lister) bundle (rot_sans r) ≠ None →
  ensure validity ownerRef r ca bundle e lister a = (Ok (), st) →
  ∃ s leaf, st = Some s ∧ issued validity r ca e s leaf ∧
    NotAfter leaf ≤ NotAfter (ca_signer ca) ∧ NotAfter leaf ≤ n4 e + validity ∧
    (rotation_validity ≤ validity → n2 e + 2 * sec + validity ≤ NotAfter (ca_signer ca) →
       NotBefore leaf < n3 e < NotAfter leaf ∧ latestTime leaf ≤ NotAfter leaf - 36 * day) ∧
    (∀ now1 now2, NotAfter (ca_signer ca) < now1 →
       needNew now1 now2 s bundle (rot_sans r) = Some AlreadyExpired).
Proof.
  intros Hca Hin Hchain Hn Hfast Hv Hrange Hneed H.
  apply ensure_ok in H as [[? _]|(s & leaf & -> & Hi)]; [done|].
  pose proof (λ now1 now2, issued_needNew _ _ _ _ _ _ bundle now1 now2 Hi Hca Hin Hchain) as Hnew.
  exists s, leaf. split; [done|]. split; [done|].
  assert (NotBefore leaf = (n3 e - sec) / sec * sec) as Hb.
  { unfold NotBefore. by rewrite (issued_fields _ _ _ _ _ _ Hi). }
  assert (NotAfter leaf = (n4 e + Z.min validity (NotAfter (ca_signer ca) - (n2 e + 2 * sec))) / sec * sec) as Ha.
  { unfold NotAfter at 1. rewrite (issued_fields _ _ _ _ _ _ Hi), <- targetValidity_bounds; done. }
  pose proof (Z.div_mod (n3 e - sec) sec). pose proof (Z.mod_pos_bound (n3 e - sec) sec).
  set (stop := n4 e + Z.min _ _) in *.
  pose proof (Z.div_mod stop sec). pose proof (Z.mod_pos_bound stop sec).
  assert (NotAfter leaf ≤ NotAfter (ca_signer ca)) as Hle by (unfold sec in *; lia).
  split; [done|]. split; [unfold sec in *; lia|]. split.
  - intros H180 Hlong. unfold rotation_validity, day in *. unfold latestTime, time_Sub, duration_min, duration_max in *.
    unfold sec in *. split; [lia|].
    set (lifetime := Z.max _ _). assert (180 * (86400 * 1000000000) ≤ lifetime) by lia.
    pose proof (Z.quot_le_mono (180 * (86400 * 1000000000)) lifetime 5). 
    change (Z.quot (180 * (86400 * 1000000000)) 5) with (36 * (86400 * 1000000000)) in *. lia.
  - intros now1 now2 Hlate. by rewrite Hnew, (proj2 (Z.ltb_lt (NotAfter leaf) now1)) by lia.
Qed.

(** C25: the certificate that the registered controller keeps for the
    service-proxies.  A run of its rotation that issues one stores a leaf
    for server authentication, signed by the authority that is sent with
    it, and the leaf is valid for the host under which the hub reaches the
    service-proxy of any cluster. *)
Theorem serving_leaf_covers_clusters certNamespace secretName secretNamespace
    validity ownerRef ca bundle e lister a st :
  let r := serverCertRotation (registerCertController certNamespace secretName secretNamespace).1 in
  IsAuthority (ca_signer ca) → Forall parsed (ca_signer ca :: ca_chain ca) →
  ParseIP "*.open-cluster-management.proxy" = None →
  needNew (n0 e) (n1 e) (listed lister) bundle (rot_sans r) ≠ None →
  ensure validity ownerRef r ca bundle e lister a = (Ok (), st) →
  ∃ s leaf, st = Some s ∧
    ParseCertsPEM (default "" (s_data s !! "tls.crt")) = Ok (leaf :: ca_signer ca :: ca_chain ca) ∧
    CheckSignatureFrom leaf (ca_signer ca) = Ok () ∧
    t_extKeyUsage (fields leaf) = ["ServerAuth"] ∧
    ∀ clusterName, VerifyHostname (t_dnsNames (fields leaf)) (GenerateServiceProxyHost clusterName) = true.
Proof.
  intros r Hca Hchain Hip Hneed H. apply ensure_ok in H as [[? _]|(s & leaf & -> & Hi)]; [done|].
  destruct Hi as [Ht Hcrt Hp Hf _ Hsig]. exists s, leaf. split; [done|].
  split; [rewrite Hcrt; apply ParseCertsPEM_encode; by try constructor|]. split; [by apply Hsig|].
  rewrite Hf. split; [done|]. intros clusterName. apply existsb_exists_elem.
  exists "*.open-cluster-management.proxy". split; [|by apply wildcard_covers].
  apply server_template_name; [|done]. subst r. cbn. set_solver.
Qed.
End issuing.

(** ** Failures *)

Lemma ApplySecret_err required a err st :
  s_type required = SecretTypeTLS → ApplySecret required a = (Err err, st) →
  st = stored a ∨
  (st = None ∧ f_delete a = None ∧ f_create a = Some err ∧
   ∃ existing, stored a = Some existing ∧
     (s_type existing ≠ SecretTypeTLS ∨
      ∃ u, f_update a = Some u ∧ Contains (error_string u) "field is immutable" = true)).
Proof.
  destruct required as [ty owners data]. cbn [s_type]. intros ->. unfold ApplySecret, replace_secret.
  destruct (get_secret a) as [existing|e] eqn:Eg.
  2: { destruct (negb (IsNotFound e)); [intros E; simplify_eq; by left|].
       destruct (f_create a), (stored a) eqn:Hst; intros E; simplify_eq; by left. }
  apply get_secret_ok in Eg as Hst. rewrite ?Hst.
  set (copy := merged_secret _ _). assert (s_type copy = SecretTypeTLS) as Ht by done.
  destruct (decide (copy = existing)); [done|].
  destruct (String.eqb_spec (s_type copy) (s_type existing)) as [Hty|Hty].
  - destruct (f_update a) as [u|] eqn:Hu; [|done]. destruct (Contains _ _) eqn:Hc; cbn [negb].
    2: { intros E. simplify_eq. by left. }
    destruct (f_delete a); [intros E; simplify_eq; by left|].
    destruct (f_create a); intros E; simplify_eq. right. repeat (split; [done|]).
    exists existing. split; [done|]. right. by exists u.
  - destruct (f_delete a); [intros E; simplify_eq; by left|].
    destruct (f_create a); intros E; simplify_eq. right. repeat (split; [done|]).
    exists existing. split; [done|]. left. congruence.
Qed.

(** Owners are added to a secret without any, never replaced. *)
Lemma ApplySecret_owners required a s existing :
  ApplySecret required a = (Ok (), Some s) → stored a = Some existing → s_owners existing ≠ [] →
  s_owners s = s_owners existing.
Proof.
  intros H Hst Ho. unfold ApplySecret, replace_secret, get_secret in H. rewrite Hst in H.
  assert (s_owners (merged_secret existing required) = s_owners existing) as Hm.
  { unfold merged_secret. cbn. by destruct (s_owners existing). }
  repeat case_match; simplify_eq; try done; by rewrite ?Hm.
Qed.

(** C28: a rotation that fails leaves the secret as it was, so that the
    certificate in use stays, with one exception: where the secret had to be
    deleted, because its type was another or because the server called a
    field immutable, and creating it anew failed, it is gone.  A rotation
    that succeeds keeps the owners of a secret that has some. *)
Theorem failed_rotation_keeps_secret `{C : Crypto} IssuerCommonName CheckSignatureFrom ParseIP EncodeKey
    validity ownerRef r ca bundle e lister a res st :
  EnsureTargetCertKeyPair IssuerCommonName CheckSignatureFrom ParseIP EncodeKey
    validity ownerRef r ca bundle e lister a = (res, st) →
  match res with
  | Err err =>
      st = stored a ∨
      (st = None ∧ f_delete a = None ∧ f_create a = Some err ∧
       ∃ existing, stored a = Some existing ∧
         (s_type existing ≠ SecretTypeTLS ∨
          ∃ u, f_update a = Some u ∧ Contains (error_string u) "field is immutable" = true))
  | Ok _ =>
      ∀ s existing, st = Some s → stored a = Some existing → s_owners existing ≠ [] →
      s_owners s = s_owners existing
  end.
Proof.
  unfold EnsureTargetCertKeyPair. destruct (match lister with Ok s => Ok s | Err _ => _ end) as [s|err].
  2: { intros E. injection E as <- <-. by left. }
  destruct (needNewTargetCertKeyPair _ _ _ _ _ _ _ _).
  2: { intros E. injection E as <- <-. intros ? ? ? ? ?. congruence. }
  destruct (setTargetCertKeyPairSecret _ _ _ _ _ _ _) as [s'|err] eqn:Es.
  2: { intros E. injection E as <- <-. by left. }
  assert (s_type s' = SecretTypeTLS) as Ht.
  { unfold setTargetCertKeyPairSecret in Es. destruct (rot_sans r); [done|].
    apply bind_ok in Es as (? & _ & Es). apply bind_ok in Es as (? & _ & Es).
    apply bind_ok in Es as (? & _ & Es). by inv_ok. }
  intros H. destruct res as [[]|err]; [|by apply ApplySecret_err in H].
  intros s2 existing -> Hst Ho. by eapply ApplySecret_owners.
Qed.

(** ** A concrete run *)

(** One authority, which certifies one template. *)
Module RotationSample.

Definition ParseIP (h : string) : option string :=
  if String.eqb h "127.0.0.1" then Some h else None.

Definition ca_fields : Template :=
  MkTemplate AddonFullName [] [] [] 1 ["CertSign"] [] 0 (3650 * 86400).
Definition leaf_fields : Template :=
  server_template ParseIP server_host_names rotation_validity (1000 * sec) (1001 * sec) 5 false.

Definition parse (data : string) : result Certificate :=
  if String.eqb data "ca" then Ok (MkCertificate data ca_fields)
  else if String.eqb data "leaf" then Ok (MkCertificate data leaf_fields)
  else Err (ENew "malformed certificate").

Definition create (t : Template) (parent : Certificate) : result string :=
  if bool_decide (t = leaf_fields) && bool_decide (fields parent = ca_fields) then Ok "leaf"
  else Err (ENew "not encodable").

Definition sample_crypto : Crypto := {|
  PrivateKey := string;
  Decode := strict;
  GenerateKey _ := Ok "key";
  NewSelfSignedCACert _ _ _ := Err (ENew "no generator");
  ParseCertificate := parse;
  CreateCertificate t parent _ _ := create t parent;
  MarshalPKCS8PrivateKey k := Ok k;
  ParsePKCS8PrivateKey data := Ok (Some data)
|}.
#[local] Existing Instance sample_crypto.

#[export] Instance sample_crypto_laws : CryptoLaws sample_crypto.
Proof.
  split; cbn [Decode ParseCertificate NewSelfSignedCACert CreateCertificate sample_crypto
              MarshalPKCS8PrivateKey ParsePKCS8PrivateKey].
  - apply strict_decoder.
  - unfold parse. intros data c H. repeat case_match; by inv_ok.
  - done.
  - unfold create. intros t p _ _ raw c Hc Hp. case_match eqn:E; [|done]. inv_ok. cbn in Hp. inv_ok.
    cbn. apply andb_true_iff in E as [E _]. by apply bool_decide_eq_true in E.
  - intros k data H. by inv_ok.
Qed.

Definition IssuerCommonName (c : Certificate) : string := AddonFullName.
Definition CheckSignatureFrom (c p : Certificate) : result unit :=
  if String.eqb (Raw c) "leaf" then Ok () else Err (ENew "verification error").
Definition EncodeKey (k : string) : result string := Ok k.
Definition IsAuthority (p : Certificate) : Prop := Raw p = "ca".

#[export] Instance sample_x509_laws : X509Laws IssuerCommonName CheckSignatureFrom IsAuthority.
Proof.
  split; cbn [ParseCertificate CreateCertificate sample_crypto]; unfold create;
    intros t p _ _ raw c Hc Hp; case_match eqn:E; try done; inv_ok; cbn in Hp; inv_ok; [|done].
  apply andb_true_iff in E as [_ E]. apply bool_decide_eq_true in E. by rewrite E.
Qed.

Definition ca : signing_ca := MkCA (MkCertificate "ca" ca_fields) [] ("signer" : PrivateKey).
Definition server_rotation : rotation := serverCertRotation (registerCertController "hub" "signer" "hub").1.
Definition run : run_env :=
  MkRun (998 * sec) (999 * sec) (999 * sec) (1000 * sec) (1001 * sec) ("key" : PrivateKey) 5.
Definition empty_api : secret_api := MkSecretApi None None None None None.
Definition ensure : result Secret → secret_api → result unit * option Secret :=
  EnsureTargetCertKeyPair IssuerCommonName CheckSignatureFrom ParseIP EncodeKey rotation_validity None
    server_rotation ca [ca_signer ca] run.

Definition missing : result Secret := Err (EApi NotFound "not found").
Definition rotated : option Secret := (ensure missing empty_api).2.

(** The server refuses the update of an immutable secret; creating it anew
    fails. *)
Definition stuck_api : secret_api :=
  MkSecretApi (Some (MkSecret SecretTypeTLS [] ∅)) None (Some (ENew "quota")) (Some (ENew "field is immutable"))
    None.

Lemma ca_parsed : Forall parsed (ca_signer ca :: ca_chain ca).
Proof. by repeat constructor. Qed.

Lemma ca_listed : ca_signer ca ∈ [ca_signer ca].
Proof. apply list_elem_of_singleton. reflexivity. Qed.

Lemma run_rotates : ensure missing empty_api = (Ok (), rotated).
Proof. vm_compute. reflexivity. Qed.

Lemma run_needed :
  needNewTargetCertKeyPair IssuerCommonName CheckSignatureFrom ParseIP (n0 run) (n1 run) (listed missing)
    [ca_signer ca] (rot_sans server_rotation) ≠ None.
Proof. done. Qed.

Lemma rotation_settles_witness :
  ensure missing empty_api = (Ok (), rotated) ∧
  ∃ s leaf, rotated = Some s ∧
    ParseCertsPEM (default "" (s_data s !! "tls.crt")) = Ok [leaf; ca_signer ca] ∧
    t_dnsNames (fields leaf) = ["*"; "*.open-cluster-management.proxy"; "localhost"; "127.0.0.1"].
Proof.
  split; [exact run_rotates|].
  destruct (rotation_settles (C := sample_crypto) IssuerCommonName CheckSignatureFrom IsAuthority ParseIP EncodeKey
    rotation_validity None server_rotation ca [ca_signer ca] run missing empty_api rotated
    eq_refl ca_listed ca_parsed run_needed run_rotates) as (s & leaf & Hs & _ & Hp & Hf & _).
  exists s, leaf. split; [exact Hs|]. split; [exact Hp|]. rewrite Hf. vm_compute. reflexivity.
Defined.

Lemma leaf_bounded_by_signer_witness :
  ∃ s leaf, rotated = Some s ∧ (NotAfter leaf ≤ NotAfter (ca_signer ca))%Z ∧
    (latestTime leaf ≤ NotAfter leaf - 36 * day)%Z.
Proof.
  assert (n2 run ≤ n3 run ≤ n4 run)%Z as H1 by (vm_compute; split; congruence).
  assert (n4 run ≤ n2 run + 2 * sec)%Z as H2 by (vm_compute; congruence).
  assert (rotation_validity ≤ duration_max)%Z as H3 by (vm_compute; congruence).
  assert (duration_min ≤ NotAfter (ca_signer ca) - (n2 run + 2 * sec))%Z as H4 by (vm_compute; congruence).
  assert (n2 run + 2 * sec + rotation_validity ≤ NotAfter (ca_signer ca))%Z as H5 by (vm_compute; congruence).
  destruct (leaf_bounded_by_signer (C := sample_crypto) IssuerCommonName CheckSignatureFrom IsAuthority ParseIP EncodeKey
    rotation_validity None server_rotation ca [ca_signer ca] run missing empty_api rotated
    eq_refl ca_listed ca_parsed H1 H2 H3 H4 run_needed run_rotates)
    as (s & leaf & Hs & _ & Hle & _ & Hfull & _).
  exists s, leaf. split; [exact Hs|]. split; [exact Hle|]. apply Hfull; [lia|exact H5].
Defined.

Lemma serving_leaf_covers_clusters_witness :
  ∃ s leaf, rotated = Some s ∧ CheckSignatureFrom leaf (ca_signer ca) = Ok () ∧
    VerifyHostname (t_dnsNames (fields leaf)) (GenerateServiceProxyHost "cluster1") = true.
Proof.
  destruct (serving_leaf_covers_clusters (C := sample_crypto) IssuerCommonName CheckSignatureFrom IsAuthority ParseIP EncodeKey
    "hub" "signer" "hub" rotation_validity None ca [ca_signer ca] run missing empty_api rotated
    eq_refl ca_parsed eq_refl run_needed run_rotates) as (s & leaf & Hs & _ & Hsig & _ & Hv).
  exists s, leaf. split; [exact Hs|]. split; [exact Hsig|]. apply Hv.
Defined.

Lemma failed_rotation_keeps_secret_witness :
  ensure missing stuck_api = (Err (ENew "quota"), None) ∧
  ((None : option Secret) = stored stuck_api ∨ f_create stuck_api = Some (ENew "quota")).
Proof.
  assert (ensure missing stuck_api = (Err (ENew "quota"), None)) as E by (vm_compute; reflexivity).
  split; [exact E|].
  destruct (failed_rotation_keeps_secret (C := sample_crypto) IssuerCommonName CheckSignatureFrom ParseIP EncodeKey
    rotation_validity None server_rotation ca [ca_signer ca] run missing stuck_api _ _ E)
    as [H|(_ & _ & H & _)]; [left; exact H|right; exact H].
Defined.
End RotationSample.
