(* ===== verification/Agent.v ===== *)
(** * The agent add-on (pkg/proxyagent/agent, pkg/config/agent.go,
      pkg/common/cluster.go)

    The add-on manager computes, for every managed cluster, the values of
    the chart that deploys the agent there: the identifiers under which the
    agent registers with the tunnel, the entry point it dials, the images,
    the CA it trusts.  The properties tie them to the other components: the
    host registered is the host the user-server dials, the CA is kept when
    an environment proxy brings its own bundle. *)

From Stdlib Require Import Sorted.
From S2P Require Import Prelude GoStrings Sha256 Naming Manifests Api Controller Pem Certificates.

Local Open Scope string_scope.
Local Open Scope api_scope.

(** ** Images (pkg/config/agent.go) *)

(** The variable of pkg/config that a flag of the addon-manager sets once,
    before anything reads it. *)
Class PackageConfig := { DefaultAddonInstallNamespace : string }.

Definition default_package_config : PackageConfig :=
  {| DefaultAddonInstallNamespace := "open-cluster-management-cluster-proxy" |}.

(** [imgParts[0:len-1]] and [imgParts[len-1]]; [Split] is never empty. *)
Definition ParseImage (imageName : string) : string * string * string :=
  let imgParts := Split "/" imageName in
  let registry := Join (removelast imgParts) "/" in
  let parts := Split ":" (List.last imgParts "") in
  let image := List.hd "" parts in
  let tag := if (2 <=? length parts)%nat then List.last parts "" else "latest" in
  (registry, image, tag).

(** The package variable [AgentImageName] is passed in and out: a call with
    the variable unset sets it. *)
Definition GetParsedAgentImage (AgentImageName defaultAgentImageName : string)
  : (string * string * string) * string :=
  let AgentImageName :=
    if (String.length AgentImageName =? 0)%nat then defaultAgentImageName else AgentImageName in
  (ParseImage AgentImageName, AgentImageName).

(** ** Clusters *)

Record ManagedCluster := MkCluster {
  cluster_name : string;
  cluster_labels : gmap string string;
  cluster_annotations : gmap string string;
  HubAcceptsClient : bool
}.

Definition SelfManagedClusterLabelKey : string := "local-cluster".
Definition annotationNodeSelector : string := "open-cluster-management/nodeSelector".

Definition IsClusterSelfManaged (cluster : ManagedCluster) : bool :=
  if bool_decide (cluster_labels cluster = ∅) then false
  else match cluster_labels cluster !! SelfManagedClusterLabelKey with
       | Some val => EqualFold val "true"
       | None => false
       end.

(** ** Chart values *)

(** The Go values that the functions put into the map. *)
Inductive go_value :=
| GString (s : string)
| GBool (b : bool)
| GInt (z : Z)
| GStrings (l : option (list string))          (* [None] is a nil slice *)
| GStringMap (m : option (gmap string string)) (* [None] is a nil map *)
| GServices (l : list (string * string))       (* host, externalName *)
| GTolerations (l : option (list string))
| GEnabled (b : bool).                         (* {"enabled": b} *)

(** What JSON makes of them; objects of strings and flags only. *)
Inductive scalar := SString (s : string) | SBool (b : bool).

Inductive value :=
| VNull
| VString (s : string)
| VBool (b : bool)
| VNumber (z : Z)
| VStrings (l : list string)
| VServices (l : list (string * string))
| VTolerations (l : list string)
| VMap (m : gmap string scalar).

Definition normalize (v : go_value) : value :=
  match v with
  | GString s => VString s
  | GBool b => VBool b
  | GInt z => VNumber z
  | GStrings None => VNull
  | GStrings (Some l) => VStrings l
  | GStringMap None => VNull
  | GStringMap (Some m) => VMap (SString <$> m)
  | GServices l => VServices l
  | GTolerations None => VNull
  | GTolerations (Some l) => VTolerations l
  | GEnabled b => VMap {["enabled" := SBool b]}
  end.

(** [addonfactory.JsonStructToValues] on these values. *)
Definition JsonStructToValues (values : gmap string go_value) : gmap string value :=
  normalize <$> values.

(** [addonfactory.MergeValues]: the second map wins; objects are merged. *)
Definition merge_value (a b : value) : value :=
  match a, b with
  | VMap ma, VMap mb => VMap (mb ∪ ma)
  | _, _ => b
  end.

Definition MergeValues (a b : gmap string value) : gmap string value :=
  union_with (λ x y, Some (merge_value x y)) a b.

(** A value function reads the cluster through the API and may set the
    package variable [AgentImageName]. *)
Definition GetValuesFunc : Type := string → M (gmap string go_value * string).

Fixpoint merge_funcs (values : gmap string value) (getValuesFuncs : list GetValuesFunc)
    (AgentImageName : string) : M (gmap string value * string) :=
  match getValuesFuncs with
  | [] => ret (values, AgentImageName)
  | getValues :: rest =>
      r <- getValues AgentImageName;;
      let '(newValues, AgentImageName) := r in
      merge_funcs (MergeValues values (JsonStructToValues newValues)) rest AgentImageName
  end.

Definition mergeAndNormalizeValuesFuncs (getValuesFuncs : list GetValuesFunc)
    (AgentImageName : string) : M (gmap string value * string) :=
  merge_funcs ∅ getValuesFuncs AgentImageName.

(** ** The agent's values (agent.go) *)

Record ProxyAgentSpec := MkProxyAgent {
  pa_image : string;
  pa_replicas : Z;
  AdditionalArgs : option (list string);
  AdditionalServiceProxyArgs : option (list string);
  ImagePullSecrets : option (list string);
  AdditionalServiceCAConfigMap : string
}.

Definition serviceDomain : string := "svc.cluster.local".

(** [ingress] is [Status.LoadBalancer.Ingress] of a service, as the IPs. *)
Definition service_entry_point (ingress : object → list string) (config : ManagedProxyConfiguration)
  : M (string * list string) :=
  let ps := ProxyServer config in
  match ps_entrypoint ps with
  | None => panic
  | Some ep =>
      match ep_type ep with
      | EntryPointTypeHostname =>
          match Hostname ep with Some h => ret (h, []) | None => panic end
      | EntryPointTypeLoadBalancerService =>
          match LoadBalancerService ep with
          | None => panic
          | Some (name, _) =>
              entrySvc <- wrapf "failed getting proxy loadbalancer"
                            (api_get ("Service", ps_namespace ps, name));;
              match ingress entrySvc with
              | [] => fail (ENew "the load-balancer service for proxy-server ingress is not yet provisioned")
              | ip :: _ => ret (ip, [])
              end
          end
      | EntryPointTypePortForward => ret ("127.0.0.1", ["--enable-port-forward-proxy=true"])
      end
  end.

Definition entry_point_port (config : ManagedProxyConfiguration) : Z :=
  match ps_entrypoint (ProxyServer config) with
  | Some ep => if (ep_port ep =? 0)%Z then 8091 else ep_port ep
  | None => 8091
  end.

(** The identifiers under which the agent registers; there are no services
    to expose. *)
Definition agent_identifiers (clusterName namespace : string) (enableKubeApiProxy : bool) : string :=
  Join (("host=" ++ GenerateServiceProxyHost clusterName)%string ::
        (if enableKubeApiProxy
         then ["host=" ++ clusterName; "host=" ++ clusterName ++ "." ++ namespace]
         else [])) "&".

(** The arguments of the add-on agent (cmd/addon-agent). *)
Definition addon_agent_args (clusterName : string) (config : ManagedProxyConfiguration)
    (portForwardArgs : list string) : list string :=
  (["--hub-kubeconfig=/etc/kubeconfig/kubeconfig";
    "--cluster-name=" ++ clusterName;
    "--proxy-server-namespace=" ++ ps_namespace (ProxyServer config)]%string ++ portForwardArgs)%list.

(** [getConfig] is what reading the configuration returned. *)
Definition GetClusterProxyValueFunc `{Conf : PackageConfig} (ingress : object → list string)
    (getConfig : result (ManagedProxyConfiguration * ProxyAgentSpec)) (caCertData : string)
    (enableKubeApiProxy : bool) (cluster : ManagedCluster) (addonNamespace : string)
  : GetValuesFunc := λ AgentImageName,
  proxyConfig <- lift getConfig;;
  let '(config, agent) := proxyConfig in
  entry <- service_entry_point ingress config;;
  let '(serviceEntryPoint, portForwardArgs) := entry in
  let addonAgentArgs := addon_agent_args (cluster_name cluster) config portForwardArgs in
  let '((registry, image, tag), AgentImageName) := GetParsedAgentImage AgentImageName (pa_image agent) in
  let namespace := if (0 <? String.length addonNamespace)%nat then addonNamespace
                   else DefaultAddonInstallNamespace in
  ret (list_to_map
    [("agentDeploymentName", GString "cluster-proxy-proxy-agent");
     ("serviceDomain", GString serviceDomain);
     ("includeNamespaceCreation", GBool true);
     ("spokeAddonNamespace", GString namespace);
     ("additionalProxyAgentArgs", GStrings (AdditionalArgs agent));
     ("additionalServiceProxyArgs", GStrings (AdditionalServiceProxyArgs agent));
     ("clusterName", GString (cluster_name cluster));
     ("registry", GString registry);
     ("image", GString image);
     ("tag", GString tag);
     ("proxyAgentImage", GString (pa_image agent));
     ("proxyAgentImagePullSecrets", GStrings (ImagePullSecrets agent));
     ("replicas", GInt (pa_replicas agent));
     ("base64EncodedCAData", GString (EncodeToString caCertData));
     ("serviceEntryPoint", GString serviceEntryPoint);
     ("serviceEntryPointPort", GInt (entry_point_port config));
     ("agentDeploymentAnnotations",
        GStringMap (Some {[AnnotationKeyConfigurationGeneration := Itoa (Generation config)]}));
     ("addonAgentArgs", GStrings (Some addonAgentArgs));
     ("additionalServiceCAConfigMap", GString (AdditionalServiceCAConfigMap agent));
     ("agentIdentifiers", GString (agent_identifiers (cluster_name cluster) namespace enableKubeApiProxy));
     ("serviceProxyHost", GString (GenerateServiceProxyHost (cluster_name cluster)));
     ("servicesToExpose", GServices []);
     ("enableKubeApiProxy", GBool enableKubeApiProxy)], AgentImageName).

(** ** Additional values (additional_values.go) *)

Section additional.
(** JSON's [Unmarshal] into a map of strings, and the image override of the
    add-on framework, which reads the cluster's annotations. *)
Context (Unmarshal : string → result (gmap string string)).
Context (OverrideImageByAnnotation : gmap string string → string → result string).

(** [fmt.Errorf] with the cause's text at the end. *)
Definition errorf_at {A} (msg : string) (r : result A) : result A :=
  match r with Ok a => Ok a | Err e => Err (ENew (msg ++ error_string e)) end.

Definition getNodeSelector (managedCluster : ManagedCluster) : result (gmap string string) :=
  if IsClusterSelfManaged managedCluster then
    match cluster_annotations managedCluster !! annotationNodeSelector with
    | Some nodeSelectorString =>
        errorf_at ("failed to unmarshal nodeSelector annotation of cluster " ++
                   cluster_name managedCluster ++ ", ") (Unmarshal nodeSelectorString)
    | None => Ok ∅
    end
  else Ok ∅.

Definition secret_field (o : object) (field : string) : option string :=
  match o_content o with CSecret data => data !! field | _ => None end.

(** The key first, then the certificate. *)
Definition getServerCertificatesFromSecret (secretNamespace : string) : M (string * string) :=
  r <- attempt (api_get ("Secret", secretNamespace, ServerCertSecretName));;
  match r with
  | Err e => fail (ENew ("failed to get secret " ++ ServerCertSecretName ++ " in the namespace " ++
                         secretNamespace ++ ": " ++ error_string e))
  | Ok secret =>
      match secret_field secret "tls.crt" with
      | None => fail (ENew ("secret " ++ ServerCertSecretName ++ " does not contain tls.crt"))
      | Some cert =>
          match secret_field secret "tls.key" with
          | None => fail (ENew ("secret " ++ ServerCertSecretName ++ " does not contain tls.key"))
          | Some key => ret (key, cert)
          end
      end
  end.

Definition GetClusterProxyAdditionalValueFunc
    (getConfig : result (ManagedProxyConfiguration * ProxyAgentSpec)) (signerNamespace : string)
    (enableServiceProxy enableNetworkPolicies : bool) (cluster : ManagedCluster)
  : GetValuesFunc := λ AgentImageName,
  proxyConfig <- lift getConfig;;
  let '(_, agent) := proxyConfig in
  clusterProxyAddonImage <- lift (OverrideImageByAnnotation (cluster_annotations cluster) (pa_image agent));;
  let clusterProxyImage := if (String.length AgentImageName =? 0)%nat then clusterProxyAddonImage
                           else AgentImageName in
  clusterProxyImage <- lift (OverrideImageByAnnotation (cluster_annotations cluster) clusterProxyImage);;
  let '(registry, image, tag) := ParseImage clusterProxyImage in
  let values := list_to_map
    [("registry", GString registry);
     ("image", GString image);
     ("tag", GString tag);
     ("proxyAgentImage", GString clusterProxyAddonImage);
     ("networkPolicies", GEnabled enableNetworkPolicies)] in
  nodeSelector <- lift (errorf_at "failed to get nodeSelector from managedCluster. " (getNodeSelector cluster));;
  let values := if bool_decide (nodeSelector = ∅) then values
                else <["nodeSelector" := GStringMap (Some nodeSelector)]> values in
  if enableServiceProxy then
    let values := <["enableServiceProxy" := GBool true]> values in
    kc <- getServerCertificatesFromSecret signerNamespace;;
    let '(serviceProxySecretKey, serviceProxySecretCert) := kc in
    ret (<["serviceProxySecretKey" := GString (EncodeToString serviceProxySecretKey)]>
          (<["serviceProxySecretCert" := GString (EncodeToString serviceProxySecretCert)]> values),
         AgentImageName)
  else ret (values, AgentImageName).
End additional.

(** ** Values of the deployment configuration *)

Record AddOnDeploymentConfig := MkDeploymentConfig {
  CustomizedVariables : list (string * string);
  NodePlacement : option (option (gmap string string) * option (list string));   (* nil-able *)
  HTTPProxy : string;
  HTTPSProxy : string;
  NoProxy : string;
  CABundle : string
}.

Definition toAgentAddOnChartValues `{Crypto} (caCertData : string) (config : AddOnDeploymentConfig)
  : result (gmap string go_value) :=
  let values := fold_left (λ m kv, <[kv.1 := GString kv.2]> m) (CustomizedVariables config)
                  (∅ : gmap string go_value) in
  let values := match NodePlacement config with
                | Some (nodeSelector, tolerations) =>
                    <["tolerations" := GTolerations tolerations]>
                      (<["nodeSelector" := GStringMap nodeSelector]> values)
                | None => values
                end in
  let values := <["proxyConfig" := GStringMap
      (Some (list_to_map [("HTTP_PROXY", HTTPProxy config); ("HTTPS_PROXY", HTTPSProxy config);
                          ("NO_PROXY", NoProxy config)]))]> values in
  if HasPrefix (HTTPSProxy config) "https" && negb (String.length (CABundle config) =? 0)%nat then
    caCert ← errorf_at "faield to merge proxy env ca. " (MergeCertificateData [CABundle config; caCertData]);
    Ok (<["base64EncodedCAData" := GString (EncodeToString caCert)]> values)
  else Ok values.

(** The value functions that [NewAgentAddon] composes; [deploymentConfig] is
    the configuration the framework found for the add-on, and [resources]
    its own translation of resource requirements. *)
Definition chart_values `{Crypto} `{Conf : PackageConfig}
    (ingress : object → list string) (Unmarshal : string → result (gmap string string))
    (OverrideImageByAnnotation : gmap string string → string → result string)
    (resources : AddOnDeploymentConfig → result (gmap string go_value))
    (getConfig : result (ManagedProxyConfiguration * ProxyAgentSpec)) (signerNamespace : string)
    (caCertData : string) (enableKubeApiProxy enableServiceProxy enableNetworkPolicies : bool)
    (deploymentConfig : result (option AddOnDeploymentConfig))
    (cluster : ManagedCluster) (addonNamespace AgentImageName : string)
  : M (gmap string value * string) :=
  mergeAndNormalizeValuesFuncs
    [GetClusterProxyValueFunc ingress getConfig caCertData enableKubeApiProxy cluster addonNamespace;
     GetClusterProxyAdditionalValueFunc Unmarshal OverrideImageByAnnotation getConfig signerNamespace
       enableServiceProxy enableNetworkPolicies cluster;
     λ name, lift (found ← deploymentConfig;
                   match found with
                   | None => Ok (∅, name)
                   | Some dc => v ← toAgentAddOnChartValues caCertData dc;
                                r ← resources dc;
                                Ok (r ∪ v, name)
                   end)]
    AgentImageName.

(** [agentInstallNamespaceFunc], given what the deployment configuration's
    own function returns. *)
Definition agentInstallNamespaceFunc `{Conf : PackageConfig} (fromConfig : result string) : string * option goerror :=
  match fromConfig with
  | Err e => (DefaultAddonInstallNamespace, Some e)
  | Ok ns => (if (String.length ns =? 0)%nat then DefaultAddonInstallNamespace else ns, None)
  end.

(** ** Registration *)

Definition ProxyAgentSignerName : string := "open-cluster-management.io/proxy-agent-signer".
Definition SubjectUserClusterProxyAgent : string := "open-cluster-management:cluster-proxy:proxy-agent".
Definition SubjectUserClusterAddonAgent : string := "open-cluster-management:cluster-proxy:addon-agent".

Inductive RegistrationConfig :=
| KubeClientRegistration (user : string) (groups : list string)
| CustomSignerRegistration (signerName user : string) (groups organizationUnits : list string).

(** [fmt.Sprintf("%x", s)] on a string. *)
Definition hex_string (s : string) : string := hex (bytes_of_string s).

Definition string_of_bytes (l : list Z) : string := String.string_of_list_ascii (map b64_byte l).

(** The registrations that [NewAgentAddon] installs for the signer's CA:
    the organization unit carries the digest of the CA, so that a new CA
    makes the agents ask for new certificates. *)
Definition registration_configs (signerCAData : string) : list RegistrationConfig :=
  [KubeClientRegistration SubjectUserClusterAddonAgent [SubjectGroupClusterProxy];
   CustomSignerRegistration ProxyAgentSignerName SubjectUserClusterProxyAgent
     [SubjectGroupClusterProxy]
     [("signer-" ++ hex_string (EncodeToString (string_of_bytes (Sum256 signerCAData))))%string]].

Definition CSRApproveCheck (cluster : ManagedCluster) : bool := HubAcceptsClient cluster.

(** [sign] is the framework's signer for the CA. *)
Definition CustomSignerWithExpiry {CSR : Type} (customSignerName : string) (signerName : CSR → string)
    (sign : CSR → result string) (csr : CSR) : result (option string) :=
  if negb (String.eqb (signerName csr) customSignerName) then Ok None
  else cert ← sign csr; Ok (Some cert).

(** ** Services to expose *)

Fixpoint remove_dup (encountered : gset string) (services : list (string * string))
  : list (string * string) :=
  match services with
  | [] => []
  | s :: rest =>
      if bool_decide (s.1 ∈ encountered) then remove_dup encountered rest
      else s :: remove_dup ({[s.1]} ∪ encountered) rest
  end.

(** Sorting by host; hosts are distinct here, so every sort gives the same
    list. *)
Fixpoint insert_service (s : string * string) (l : list (string * string)) : list (string * string) :=
  match l with
  | [] => [s]
  | x :: rest => if String.ltb s.1 x.1 then s :: l else x :: insert_service s rest
  end.

Definition sort_services (l : list (string * string)) : list (string * string) :=
  fold_right insert_service [] l.

Definition removeDupAndSortServices (services : list (string * string)) : list (string * string) :=
  sort_services (remove_dup ∅ services).

(** ** Lemmas *)

(** What a later function does not set stays; what it sets wins, unless both
    are objects. *)
Lemma MergeValues_old a b k : b !! k = None → MergeValues a b !! k = a !! k.
Proof. intros E. unfold MergeValues. rewrite lookup_union_with, E. by destruct (a !! k). Qed.

Lemma MergeValues_new a b k v :
  b !! k = Some v → (∀ m, v ≠ VMap m) → MergeValues a b !! k = Some v.
Proof.
  intros E Hv. unfold MergeValues. rewrite lookup_union_with, E.
  destruct (a !! k) as [x|]; [|done]. cbn. f_equal.
  destruct x, v; try done. by destruct (Hv m0).
Qed.

Lemma Json_lookup values k : JsonStructToValues values !! k = normalize <$> (values !! k).
Proof. apply lookup_fmap. Qed.

Lemma ParseImage_shape registry last :
  has_byte "/" last = false →
  ParseImage (registry ++ "/" ++ last) =
  (registry, List.hd "" (Split ":" last),
   if (2 <=? length (Split ":" last))%nat then List.last (Split ":" last) "" else "latest").
Proof.
  intros H. unfold ParseImage.
  change ("/" ++ last) with (String "/" last). rewrite Split_app.
  rewrite (Split_no_sep "/" last H). rewrite removelast_last, List.last_last.
  change "/" with (String "/" ""). by rewrite Join_Split.
Qed.

Lemma done_inj {A} (a b : A) (w w' : world) : (Done a, w) = (Done b, w') → a = b ∧ w = w'.
Proof. intros H. by injection H as -> ->. Qed.

Lemma pair_inj {A B} (a c : A) (b d : B) : (a, b) = (c, d) → a = c ∧ b = d.
Proof. intros H. by injection H as -> ->. Qed.

(** A lookup in a map written as a list. *)
Fixpoint assoc {A} (k : string) (l : list (string * A)) : option A :=
  match l with
  | [] => None
  | (k', v) :: l => if String.eqb k' k then Some v else assoc k l
  end.

Lemma lookup_assoc {A} (l : list (string * A)) k :
  (list_to_map l : gmap string A) !! k = assoc k l.
Proof.
  induction l as [|[k' v] l IH]; [done|]. cbn [list_to_map foldr assoc fst snd].
  destruct (String.eqb k' k) eqn:E; bool_to_prop.
  - subst. by rewrite lookup_insert_eq.
  - by rewrite lookup_insert_ne.
Qed.

(** The values that the first function returns. *)
Lemma value_func_done `{Conf : PackageConfig} ingress getConfig ca kube cluster ns name w values name' w' :
  GetClusterProxyValueFunc ingress getConfig ca kube cluster ns name w = (Done (values, name'), w') →
  ∃ config agent, getConfig = Ok (config, agent) ∧
    name' = (GetParsedAgentImage name (pa_image agent)).2 ∧
    values !! "agentIdentifiers" = Some (GString (agent_identifiers (cluster_name cluster)
      (if (0 <? String.length ns)%nat then ns else DefaultAddonInstallNamespace) kube)) ∧
    values !! "serviceProxyHost" = Some (GString (GenerateServiceProxyHost (cluster_name cluster))) ∧
    values !! "base64EncodedCAData" = Some (GString (EncodeToString ca)) ∧
    values !! "registry" = Some (GString (ParseImage name').1.1) ∧
    values !! "image" = Some (GString (ParseImage name').1.2) ∧
    values !! "tag" = Some (GString (ParseImage name').2) ∧
    values !! "proxyAgentImage" = Some (GString (pa_image agent)).
Proof.
  intros H. apply bind_done in H as ([config agent] & w1 & Hc & H). apply lift_done in Hc as [Hc ->].
  apply bind_done in H as ([entry args] & w2 & He & H). exists config, agent. split; [done|].
  unfold GetParsedAgentImage in *. cbn [fst snd] in *.
  destruct (ParseImage _) as [[registry image] tag] eqn:Ep in H.
  apply done_inj in H as [H _]. apply pair_inj in H as [<- <-]. rewrite Ep, !lookup_assoc.
  split; [done|]. repeat split.
Qed.

(** The add-on agent's arguments and the entry point go together. *)
Lemma value_func_entry `{Conf : PackageConfig} ingress config agent ca kube cluster ns name w values name' w' :
  GetClusterProxyValueFunc ingress (Ok (config, agent)) ca kube cluster ns name w
    = (Done (values, name'), w') →
  ∃ ep args w1, service_entry_point ingress config w = (Done (ep, args), w1) ∧
    values !! "addonAgentArgs"
      = Some (GStrings (Some (addon_agent_args (cluster_name cluster) config args))) ∧
    values !! "serviceEntryPoint" = Some (GString ep) ∧
    values !! "serviceEntryPointPort" = Some (GInt (entry_point_port config)).
Proof.
  intros H. apply bind_done in H as (pc & w1 & Hc & H). apply lift_done in Hc as [[= <-] ->].
  apply bind_done in H as ([ep args] & w2 & He & H). exists ep, args, w2. split; [done|].
  cbn zeta in H. destruct (GetParsedAgentImage _ _) as [[[registry image] tag] nm].
  apply done_inj in H as [H _]. apply pair_inj in H as [<- _]. rewrite !lookup_assoc. repeat split.
Qed.

(** The keys that the second function may set. *)
Definition additional_keys : list string :=
  ["registry"; "image"; "tag"; "proxyAgentImage"; "networkPolicies"; "nodeSelector";
   "enableServiceProxy"; "serviceProxySecretKey"; "serviceProxySecretCert"].

Lemma additional_func_keys u o getConfig ns sp np cluster name w values name' w' k :
  GetClusterProxyAdditionalValueFunc u o getConfig ns sp np cluster name w = (Done (values, name'), w') →
  k ∉ additional_keys → values !! k = None.
Proof.
  intros H Hk. unfold additional_keys in Hk.
  apply bind_done in H as ([config agent] & w1 & _ & H). apply bind_done in H as (img & w2 & _ & H).
  apply bind_done in H as (img' & w3 & _ & H). destruct (ParseImage img') as [[registry image] tag].
  apply bind_done in H as (sel & w4 & _ & H).
  set (base := list_to_map _) in H. set (vs := if bool_decide (sel = ∅) then _ else _) in H.
  assert (vs !! k = None) as Hvs.
  { assert (base !! k = None) as Hb.
    { unfold base. apply not_elem_of_list_to_map_1. cbn. set_solver. }
    unfold vs. destruct (bool_decide (sel = ∅)); [done|]. by rewrite lookup_insert_ne by set_solver. }
  clearbody vs. destruct sp.
  - apply bind_done in H as ([key cert] & w5 & _ & H). apply done_inj in H as [H _].
    apply pair_inj in H as [<- _]. rewrite !lookup_insert_ne by set_solver. done.
  - apply done_inj in H as [H _]. by apply pair_inj in H as [<- _].
Qed.

Lemma customized_lookup vars k : ∀ m : gmap string go_value,
  k ∉ map fst vars → fold_left (λ m kv, <[kv.1 := GString kv.2]> m) vars m !! k = m !! k.
Proof.
  induction vars as [|[k' v] vars IH]; intros m H; cbn [fold_left]; [done|]. cbn in H.
  rewrite IH by set_solver. cbn. by rewrite lookup_insert_ne by set_solver.
Qed.

(** The deployment configuration sets the customized variables, four keys of
    its own, and the CA only for a proxy over TLS with a bundle. *)
Lemma deployment_lookup `{Crypto} ca dc values k :
  toAgentAddOnChartValues ca dc = Ok values → k ∉ map fst (CustomizedVariables dc) →
  k ∉ ["tolerations"; "nodeSelector"; "proxyConfig"] →
  values !! k = None ∨
  (k = "base64EncodedCAData" ∧ CABundle dc ≠ "" ∧
   ∃ out, MergeCertificateData [CABundle dc; ca] = Ok out ∧
          values !! k = Some (GString (EncodeToString out))).
Proof.
  intros Hv Hc Hk. unfold toAgentAddOnChartValues in Hv.
  set (vars := fold_left _ _ _) in Hv. set (placed := match NodePlacement dc with Some _ => _ | None => _ end) in Hv.
  set (values' := <["proxyConfig" := _]> placed) in Hv.
  assert (values' !! k = None) as Hn.
  { unfold values'. rewrite lookup_insert_ne by set_solver.
    assert (vars !! k = None) as Hvars by (unfold vars; by rewrite customized_lookup).
    unfold placed. destruct (NodePlacement dc) as [[sel tol]|]; [|done].
    by rewrite !lookup_insert_ne by set_solver. }
  clearbody values'. destruct (HasPrefix _ _ && _) eqn:E; [|inv_ok; by left].
  bool_to_prop. apply bind_ok in Hv as (out & Ho & Hv). inv_ok.
  destruct (decide (k = "base64EncodedCAData")) as [->|Hne].
  - right. split; [done|]. split; [intros Eb; by rewrite Eb in *|].
    exists out. rewrite lookup_insert_eq. split; [|done].
    unfold errorf_at in Ho. destruct (MergeCertificateData _) as [out'|e]; [congruence|done].
  - left. by rewrite lookup_insert_ne by done.
Qed.

(** ** Properties *)

Section chart.
Context `{L : CryptoLaws} `{Conf : PackageConfig}.
Context (ingress : object → list string) (Unmarshal : string → result (gmap string string)).
Context (OverrideImageByAnnotation : gmap string string → string → result string).
Context (resources : AddOnDeploymentConfig → result (gmap string go_value)).
(** The framework's resource requirements are below the key "global". *)
Hypothesis resources_global : ∀ dc r, resources dc = Ok r → ∀ k, k ≠ "global" → r !! k = None.

Context (getConfig : result (ManagedProxyConfiguration * ProxyAgentSpec)) (signerNamespace : string).
Context (caCertData : string) (kube serviceProxy networkPolicies : bool).
Context (deploymentConfig : option AddOnDeploymentConfig).
Context (cluster : ManagedCluster) (addonNamespace AgentImageName : string).

Definition the_chart : M (gmap string value * string) :=
  chart_values ingress Unmarshal OverrideImageByAnnotation resources getConfig signerNamespace
    caCertData kube serviceProxy networkPolicies (Ok deploymentConfig) cluster addonNamespace
    AgentImageName.

(** The administrator did not set the variable [k]. *)
Definition not_customized (k : string) : Prop :=
  ∀ dc, deploymentConfig = Some dc → k ∉ map fst (CustomizedVariables dc).

(** A key that only the first function sets, but for the merged CA. *)
Lemma chart_lookup k w values name' w' :
  the_chart w = (Done (values, name'), w') → not_customized k →
  k ∉ ["tolerations"; "nodeSelector"; "proxyConfig"; "global"] → k ∉ additional_keys →
  ∃ v1 n1 w1,
    GetClusterProxyValueFunc ingress getConfig caCertData kube cluster addonNamespace
      AgentImageName w = (Done (v1, n1), w1) ∧
    (values !! k = normalize <$> v1 !! k ∨
     k = "base64EncodedCAData" ∧ ∃ dc out, deploymentConfig = Some dc ∧ CABundle dc ≠ "" ∧
       MergeCertificateData [CABundle dc; caCertData] = Ok out ∧
       values !! k = Some (VString (EncodeToString out))).
Proof.
  intros H Hc Hk Ha. apply bind_done in H as ([v1 n1] & w1 & H1 & H).
  exists v1, n1, w1. split; [done|].
  apply bind_done in H as ([v2 n2] & w2 & H2 & H). apply bind_done in H as ([v3 n3] & w3 & H3 & H).
  apply lift_done in H3 as [H3 ->]. apply done_inj in H as [H _]. apply pair_inj in H as [<- _].
  pose proof (additional_func_keys _ _ _ _ _ _ _ _ _ _ _ _ _ H2 Ha) as Hv2.
  assert (∀ a, MergeValues a (JsonStructToValues v2) !! k = a !! k) as E2.
  { intros a. apply MergeValues_old. by rewrite Json_lookup, Hv2. }
  assert (MergeValues ∅ (JsonStructToValues v1) !! k = normalize <$> v1 !! k) as E1.
  { unfold MergeValues. rewrite lookup_union_with, lookup_empty, Json_lookup. by destruct (v1 !! k). }
  assert (v3 !! k = None → MergeValues (MergeValues (MergeValues ∅ (JsonStructToValues v1))
    (JsonStructToValues v2)) (JsonStructToValues v3) !! k = normalize <$> v1 !! k) as Hold.
  { intros E. rewrite MergeValues_old, E2, E1; [done|]. by rewrite Json_lookup, E. }
  cbn [mbind result_bind] in H3. destruct deploymentConfig as [dc|] eqn:Ed.
  - apply bind_ok in H3 as (v & Hv & H3). apply bind_ok in H3 as (r & Hr & H3).
    injection H3 as <- _. specialize (Hc dc Ed).
    assert ((r ∪ v) !! k = v !! k) as Er
      by (rewrite lookup_union_r; [done|]; by apply (resources_global _ _ Hr); set_solver).
    destruct (deployment_lookup _ _ _ k Hv Hc) as [Hn|(-> & Hb & out & Ho & Hs)]; [set_solver| |].
    + left. apply Hold. by rewrite Er.
    + right. split; [done|]. exists dc, out. split; [done|]. split; [done|]. split; [done|].
      apply MergeValues_new; [|done]. by rewrite Json_lookup, Er, Hs.
  - injection H3 as <- _. left. apply Hold. done.
Qed.

Lemma host_no_amp clusterName : has_byte "&" ("host=" ++ GenerateServiceProxyHost clusterName) = false.
Proof.
  assert (has_byte "&" (str_take 48 (sha256_hex clusterName)) = false) as E.
  { apply (all_bytes_no_byte is_hex_digit); [done|]. apply all_bytes_take, sha256_hex_is_hex. }
  by rewrite service_proxy_host_shape, !has_byte_app, E.
Qed.

Lemma identifiers_split clusterName namespace b :
  ∃ rest, Split "&" (agent_identifiers clusterName namespace b)
          = ("host=" ++ GenerateServiceProxyHost clusterName) :: rest.
Proof.
  unfold agent_identifiers. destruct b.
  - rewrite Join_cons by done. change ("&" ++ ?s) with (String "&" s).
    rewrite Split_app, (Split_no_sep "&" _ (host_no_amp clusterName)). by eexists.
  - cbn [Join]. rewrite (Split_no_sep "&" _ (host_no_amp clusterName)). by eexists.
Qed.

(** C24: the agent of every cluster registers with the tunnel under the very
    host that the user-server dials for that cluster, whatever the add-on's
    configuration, unless an administrator overrides that value by name. *)
Theorem agent_registers_dialed_host w values name' w' :
  the_chart w = (Done (values, name'), w') →
  not_customized "agentIdentifiers" → not_customized "serviceProxyHost" →
  ∃ host ids,
    serviceProxyURL (cluster_name cluster) = ("https://" ++ host ++ ":7443")%string ∧
    values !! "agentIdentifiers" = Some (VString ids) ∧ ("host=" ++ host)%string ∈ Split "&" ids ∧
    values !! "serviceProxyHost" = Some (VString host).
Proof.
  intros H Hc1 Hc2.
  destruct (chart_lookup "agentIdentifiers" w values name' w' H Hc1) as (v1 & n1 & w1 & H1 & E1);
    [set_solver|unfold additional_keys; set_solver|].
  destruct (chart_lookup "serviceProxyHost" w values name' w' H Hc2) as (v1' & n1' & w1' & H1' & E2);
    [set_solver|unfold additional_keys; set_solver|].
  rewrite H1 in H1'. injection H1' as <- <- <-.
  destruct E1 as [E1|[E1 _]]; [|done]. destruct E2 as [E2|[E2 _]]; [|done].
  apply value_func_done in H1 as (config & agent & _ & _ & Hi & Hh & _).
  rewrite Hi in E1. rewrite Hh in E2.
  destruct (identifiers_split (cluster_name cluster)
    (if (0 <? String.length addonNamespace)%nat then addonNamespace else DefaultAddonInstallNamespace) kube)
    as [rest Hs].
  eexists _, _. split; [reflexivity|]. split; [exact E1|]. split; [rewrite Hs; by left|exact E2].
Qed.

(** The CA data that agents receive always holds the certificates of the
    hub's own authority: an HTTPS proxy's bundle is merged with it and never
    replaces it. *)
Theorem agents_trust_hub_authority w values name' w' hubCerts :
  the_chart w = (Done (values, name'), w') →
  not_customized "base64EncodedCAData" → ParseCertsPEM caCertData = Ok hubCerts →
  ∃ s data certs,
    values !! "base64EncodedCAData" = Some (VString s) ∧ b64_decode s = Some data ∧
    ParseCertsPEM data = Ok certs ∧ ∀ c, c ∈ hubCerts → c ∈ certs.
Proof.
  intros H Hc Hp.
  destruct (chart_lookup "base64EncodedCAData" w values name' w' H Hc) as (v1 & n1 & w1 & H1 & E);
    [set_solver|unfold additional_keys; set_solver|].
  destruct E as [E|(_ & dc & out & Hd & Hb & Hm & E)].
  - apply value_func_done in H1 as (config & agent & _ & _ & _ & _ & Hca & _). rewrite Hca in E.
    eexists _, caCertData, hubCerts. split; [exact E|]. split; [apply b64_decode_encode|done].
  - destruct (merged_holds (CABundle dc) caCertData out hubCerts Hb Hp Hm) as (certs & Hcerts & Hin).
    eexists _, out, certs. split; [exact E|]. split; [apply b64_decode_encode|done].
Qed.
End chart.

(** As long as the agent image is not set by a flag, the first
    configuration that is rendered fixes the add-on agent's image for the
    life of the manager: a later configuration with another image changes
    the proxy agent's image only, not the add-on agent's. *)
Theorem agent_image_pinned `{Conf : PackageConfig} ingress config1 agent1 ca1 kube1 cluster1 ns1 w v1 name1 w1
    config2 agent2 ca2 kube2 cluster2 ns2 w' v2 name2 w2 :
  pa_image agent1 ≠ "" →
  GetClusterProxyValueFunc ingress (Ok (config1, agent1)) ca1 kube1 cluster1 ns1 "" w
    = (Done (v1, name1), w1) →
  GetClusterProxyValueFunc ingress (Ok (config2, agent2)) ca2 kube2 cluster2 ns2 name1 w'
    = (Done (v2, name2), w2) →
  v2 !! "registry" = v1 !! "registry" ∧ v2 !! "image" = v1 !! "image" ∧ v2 !! "tag" = v1 !! "tag" ∧
  v2 !! "proxyAgentImage" = Some (GString (pa_image agent2)).
Proof.
  intros Hne H1 H2.
  apply value_func_done in H1 as (? & ? & [= <- <-] & Hn1 & _ & _ & _ & R1 & I1 & T1 & _).
  apply value_func_done in H2 as (? & ? & [= <- <-] & Hn2 & _ & _ & _ & R2 & I2 & T2 & P2).
  assert (name2 = name1) as ->.
  { subst. unfold GetParsedAgentImage. cbn [String.length Nat.eqb snd]. by destruct (pa_image agent1). }
  by rewrite R1, R2, I1, I2, T1, T2, P2.
Qed.

(** An image reference with a tag is taken apart into the registry
    (with its port and path), the name and the tag, and one without a tag
    gets "latest"; putting the parts together gives the reference back. *)
Theorem ParseImage_roundtrip registry image tag :
  has_byte "/" image = false → has_byte ":" image = false →
  has_byte "/" tag = false → has_byte ":" tag = false →
  ParseImage (registry ++ "/" ++ image ++ ":" ++ tag) = (registry, image, tag) ∧
  ParseImage (registry ++ "/" ++ image) = (registry, image, "latest").
Proof.
  intros Hi1 Hi2 Ht1 Ht2. split.
  - rewrite ParseImage_shape by (change (":" ++ tag) with (String ":" tag); rewrite has_byte_app, Hi1; cbn; done).
    change (":" ++ tag) with (String ":" tag). rewrite Split_app, (Split_no_sep ":" image Hi2), (Split_no_sep ":" tag Ht2).
    done.
  - rewrite ParseImage_shape by done. by rewrite (Split_no_sep ":" image Hi2).
Qed.

(** ** The entry point and the certificates *)

(** What both sides read of the load balancer's service. *)
Lemma service_entry_point_done ingress config w ep args w' :
  service_entry_point ingress config w = (Done (ep, args), w') →
  ∃ e, ps_entrypoint (ProxyServer config) = Some e ∧
  match ep_type e with
  | EntryPointTypeHostname => Hostname e = Some ep
  | EntryPointTypePortForward => ep = "127.0.0.1"
  | EntryPointTypeLoadBalancerService =>
      ∃ name an svc rest, LoadBalancerService e = Some (name, an) ∧
        store w' !! ("Service", ps_namespace (ProxyServer config), name) = Some svc ∧
        ingress svc = ep :: rest
  end.
Proof.
  unfold service_entry_point. destruct (ps_entrypoint _) as [e|]; [|done].
  intros H. exists e. split; [done|]. destruct (ep_type e).
  - destruct (LoadBalancerService e) as [[name an]|]; [|done].
    apply bind_done in H as (svc & w1 & Hg & H). apply wrapf_done, api_get_done in Hg.
    destruct (ingress svc) as [|ip rest] eqn:Ei; [done|].
    apply done_inj in H as [H <-]. apply pair_inj in H as [-> _]. eauto 10.
  - destruct (Hostname e); [|done]. apply done_inj in H as [H _]. by apply pair_inj in H as [-> _].
  - apply done_inj in H as [H _]. by apply pair_inj in H as [-> _].
Qed.

(** The extra argument is given exactly for port forwarding. *)
Lemma service_entry_point_args ingress config w ep args w' :
  service_entry_point ingress config w = (Done (ep, args), w') →
  ∃ e, ps_entrypoint (ProxyServer config) = Some e ∧
  args = (if bool_decide (ep_type e = EntryPointTypePortForward)
          then ["--enable-port-forward-proxy=true"] else []).
Proof.
  unfold service_entry_point. destruct (ps_entrypoint _) as [e|]; [|done].
  intros H. exists e. split; [done|]. destruct (ep_type e).
  - destruct (LoadBalancerService e) as [[name an]|]; [|done].
    apply bind_done in H as (svc & w1 & Hg & H).
    destruct (ingress svc) as [|ip rest]; [done|].
    apply done_inj in H as [H _]. by apply pair_inj in H as [_ <-].
  - destruct (Hostname e); [|done]. apply done_inj in H as [H _]. by apply pair_inj in H as [_ <-].
  - apply done_inj in H as [H _]. by apply pair_inj in H as [_ <-].
Qed.

Lemma ensureEntrypoint_lb c config e name an w entrypoint w' :
  ps_entrypoint (ProxyServer config) = Some e → ep_type e = EntryPointTypeLoadBalancerService →
  LoadBalancerService e = Some (name, an) →
  ensureEntrypoint c config w = (Done entrypoint, w') →
  ∃ svc rest, store w' !! ("Service", ps_namespace (ProxyServer config), name) = Some svc ∧
    Controller.ingress c svc = entrypoint :: rest.
Proof.
  intros He Ht Hl H. unfold ensureEntrypoint in H. rewrite He, Ht, Hl in H.
  rewrite bool_decide_true in H by done.
  apply bind_done in H as (r & w1 & _ & H). apply bind_done in H as (u & w2 & _ & H).
  apply bind_done in H as (svc & w3 & Hg & H). apply wrapf_done, api_get_done in Hg.
  destruct (Controller.ingress c svc) as [|ip rest] eqn:Ei; [done|].
  apply done_inj in H as [-> <-]. eauto.
Qed.

(** The entry point that agents are told to dial is a name of the
    certificates which the controller keeps for the proxy-server, for every
    kind of entry point, when both see the same load-balancer service and
    the balancer has an IP address. *)
Theorem agent_entry_point_covered c config w ep args w' wc entrypoint wc' sans :
  service_entry_point (Controller.ingress c) config w = (Done (ep, args), w') →
  ensureEntrypoint c config wc = (Done entrypoint, wc') →
  proxy_server_sans config entrypoint = Some sans →
  (∀ name, store w' !! ("Service", ps_namespace (ProxyServer config), name)
         = store wc' !! ("Service", ps_namespace (ProxyServer config), name)) →
  ep ≠ "" → ep ∈ sans.
Proof.
  intros H Hc Hs Hsame Hne. apply service_entry_point_done in H as (e & He & H).
  apply (proxy_server_sans_covers _ _ _ Hs). destruct (ep_type e) eqn:Et.
  - destruct H as (name & an & svc & rest & Hl & Hsvc & Hi).
    destruct (ensureEntrypoint_lb _ _ _ _ _ _ _ _ He Et Hl Hc) as (svc' & rest' & Hsvc' & Hi').
    rewrite Hsame in Hsvc. assert (svc' = svc) as -> by congruence.
    assert (entrypoint = ep) as -> by congruence. right; right; left. done.
  - right; right; right. eauto.
  - left. subst. set_solver.
Qed.

(** ** Services to expose *)

Lemma remove_dup_hosts l : ∀ seen,
  NoDup (map fst (remove_dup seen l)) ∧
  (∀ s, s ∈ remove_dup seen l → s ∈ l ∧ s.1 ∉ seen) ∧
  (∀ h, h ∈ map fst l → h ∈ seen ∨ h ∈ map fst (remove_dup seen l)).
Proof.
  induction l as [|[h v] l IH]; intros seen; cbn [remove_dup].
  { split; [constructor|]. split; [set_solver|]. set_solver. }
  cbn [fst]. case_bool_decide as Hin.
  - destruct (IH seen) as (H1 & H2 & H3). split; [done|]. split; [|set_solver].
    intros s Hs. destruct (H2 s Hs). split; [by right|done].
  - destruct (IH ({[h]} ∪ seen)) as (H1 & H2 & H3). cbn [map fst]. split; [|split].
    + constructor; [|done]. intros Hh. apply list_elem_of_fmap in Hh as (s & -> & Hs).
      destruct (H2 s Hs). set_solver.
    + intros s [->|Hs]%elem_of_cons; [split; [by left|done]|].
      destruct (H2 s Hs). split; [by right|set_solver].
    + intros h' [->|Hh]%elem_of_cons; [set_solver|]. destruct (H3 h' Hh); set_solver.
Qed.

Lemma insert_service_perm s l : insert_service s l ≡ₚ s :: l.
Proof.
  induction l as [|x l IH]; cbn; [done|]. destruct (String.ltb s.1 x.1); [done|].
  rewrite IH. apply Permutation_swap.
Qed.

Lemma sort_services_perm l : sort_services l ≡ₚ l.
Proof.
  induction l as [|s l IH]; cbn; [done|]. rewrite insert_service_perm. by constructor.
Qed.

Definition not_after (a b : string * string) : Prop := String.ltb b.1 a.1 = false.

Lemma insert_service_sorted s l :
  LocallySorted not_after l → LocallySorted not_after (insert_service s l).
Proof.
  induction l as [|x l IH]; cbn; [constructor|]. intros H.
  destruct (String.ltb s.1 x.1) eqn:E.
  - constructor; [done|]. unfold not_after. apply not_true_iff_false. intros E'.
    unfold String.ltb in E, E'. rewrite String.compare_antisym in E.
    by destruct (String.compare x.1 s.1).
  - inversion H as [|? |? y l' Hy Hl]; subst; cbn in *.
    + constructor; [constructor|done].
    + specialize (IH Hy). destruct (String.ltb s.1 y.1); constructor; done.
Qed.

(** The services keep the first entry of every host, and come sorted. *)
Theorem removeDupAndSortServices_correct services :
  let out := removeDupAndSortServices services in
  LocallySorted not_after out ∧ NoDup (map fst out) ∧
  (∀ s, s ∈ out → s ∈ services) ∧ (∀ h, h ∈ map fst services ↔ h ∈ map fst out).
Proof.
  cbn zeta. unfold removeDupAndSortServices.
  destruct (remove_dup_hosts services ∅) as (H1 & H2 & H3).
  pose proof (sort_services_perm (remove_dup ∅ services)) as Hp.
  split; [|split; [by rewrite Hp|split]].
  - generalize (remove_dup ∅ services). intros l. induction l as [|s l IH]; [constructor|].
    cbn. by apply insert_service_sorted.
  - intros s Hs. rewrite Hp in Hs. by apply H2 in Hs as [? _].
  - intros h. rewrite Hp. split; [intros Hh; destruct (H3 h Hh); set_solver|].
    intros Hh. apply list_elem_of_fmap in Hh as (s & -> & Hs). apply H2 in Hs as [Hs _].
    apply list_elem_of_fmap. eauto.
Qed.

(** ** Concrete runs *)

Import Sample.

#[local] Existing Instance default_package_config.

Definition sample_agent (image : string) : ProxyAgentSpec :=
  MkProxyAgent image 3 None None None "".

Definition sample_cluster : ManagedCluster :=
  MkCluster "cluster1" {["local-cluster" := "True"]} {[annotationNodeSelector := "zone"]} true.

Definition sample_unmarshal (s : string) : result (gmap string string) := Ok {[s := "a"]}.
Definition sample_override (_ : gmap string string) (image : string) : result string := Ok image.
Definition sample_resources (_ : AddOnDeploymentConfig) : result (gmap string go_value) := Ok ∅.

Definition proxied : AddOnDeploymentConfig :=
  MkDeploymentConfig [("replicas", "2")] None "" "https://proxy:3128" "" (bundle ["5"]).

Definition sample_chart : M (gmap string value * string) :=
  the_chart (λ _, []) sample_unmarshal sample_override sample_resources
    (Ok (demo_config, sample_agent "quay.io/ocm/agent:v1")) "hub" (bundle ["7"]) true false true
    (Some proxied) sample_cluster "" "".

Definition sample_values : gmap string value :=
  match (sample_chart empty_world).1 with Done (v, _) => v | _ => ∅ end.

Lemma sample_resources_global dc r :
  sample_resources dc = Ok r → ∀ k, k ≠ "global" → r !! k = None.
Proof. intros [= <-] k _. apply lookup_empty. Qed.

Lemma sample_chart_done :
  sample_chart empty_world = (Done (sample_values, "quay.io/ocm/agent:v1"), empty_world).
Proof. vm_cast_no_check (@eq_refl (outcome (gmap string value * string) * world)
  (Done (sample_values, "quay.io/ocm/agent:v1"), empty_world)). Qed.

Lemma sample_not_customized k : k ≠ "replicas" → not_customized (Some proxied) k.
Proof. intros Hk dc [= <-]. cbn. set_solver. Qed.

Lemma agent_registers_dialed_host_witness :
  ∃ host ids, serviceProxyURL "cluster1" = ("https://" ++ host ++ ":7443")%string ∧
    sample_values !! "agentIdentifiers" = Some (VString ids) ∧
    ("host=" ++ host)%string ∈ Split "&" ids ∧
    sample_values !! "serviceProxyHost" = Some (VString host).
Proof.
  exact (agent_registers_dialed_host _ _ _ _ sample_resources_global _ _ _ _ _ _ _ _ _ _ _ _ _ _
    sample_chart_done (sample_not_customized "agentIdentifiers" ltac:(done))
    (sample_not_customized "serviceProxyHost" ltac:(done))).
Defined.

Lemma agents_trust_hub_authority_witness :
  ∃ s data certs, sample_values !! "base64EncodedCAData" = Some (VString s) ∧
    b64_decode s = Some data ∧ ParseCertsPEM data = Ok certs ∧
    ∀ c, c ∈ [MkCertificate "7" (fields_of 7)] → c ∈ certs.
Proof.
  exact (agents_trust_hub_authority _ _ _ _ sample_resources_global _ _ _ _ _ _ _ _ _ _ _ _ _ _ _
    sample_chart_done (sample_not_customized "base64EncodedCAData" ltac:(done)) eq_refl).
Defined.

Definition no_ingress (_ : object) : list string := [].

Abbreviation render image :=
  (GetClusterProxyValueFunc no_ingress (Ok (demo_config, sample_agent image)) "" true sample_cluster "").

Definition rendered (image name : string) : gmap string go_value :=
  match (render image name empty_world).1 with Done (v, _) => v | _ => ∅ end.

Lemma render_v1 : render "agent:v1" "" empty_world
  = (Done (rendered "agent:v1" "", "agent:v1"), empty_world).
Proof.
  vm_cast_no_check (@eq_refl (outcome (gmap string go_value * string) * world)
    (Done (rendered "agent:v1" "", "agent:v1"), empty_world)).
Qed.

Lemma render_v2 : render "agent:v2" "agent:v1" empty_world
  = (Done (rendered "agent:v2" "agent:v1", "agent:v1"), empty_world).
Proof.
  vm_cast_no_check (@eq_refl (outcome (gmap string go_value * string) * world)
    (Done (rendered "agent:v2" "agent:v1", "agent:v1"), empty_world)).
Qed.

(** The second configuration asks for v2 and gets v1. *)
Lemma agent_image_pinned_witness :
  rendered "agent:v2" "agent:v1" !! "tag" = Some (GString "v1") ∧
  rendered "agent:v2" "agent:v1" !! "tag" = rendered "agent:v1" "" !! "tag".
Proof.
  split; [vm_compute; reflexivity|].
  exact (proj1 (proj2 (proj2 (agent_image_pinned no_ingress demo_config (sample_agent "agent:v1") _ _ _ _ _ _ _ _ demo_config
    (sample_agent "agent:v2") _ _ _ _ _ _ _ _ ltac:(done) render_v1 render_v2)))).
Defined.

Lemma ParseImage_roundtrip_witness :
  ParseImage "quay.io:443/ocm/agent:v1" = ("quay.io:443/ocm", "agent", "v1").
Proof. exact (proj1 (ParseImage_roundtrip "quay.io:443/ocm" "agent" "v1" eq_refl eq_refl eq_refl eq_refl)). Defined.

Lemma agent_entry_point_covered_witness :
  ∃ sans, proxy_server_sans demo_config "" = Some sans ∧ "hub.example.com" ∈ sans.
Proof.
  eexists. split; [reflexivity|].
  apply (agent_entry_point_covered demo_reconciler demo_config empty_world "hub.example.com" [] empty_world
           empty_world "" empty_world); [reflexivity|reflexivity|reflexivity|done|done].
Defined.
