(* ===== verification/ClusterProfile.v ===== *)
(** * The cluster profile controller
      (pkg/proxyserver/controllers/clusterprofile_controller.go)

    Every cluster profile managed by Open Cluster Management gets an access
    provider: the URL of the user-server for that cluster, and the
    user-server's certificate as the CA.  The properties tie the URL to the
    user-server's own routing and certificate. *)

From S2P Require Import Prelude GoStrings Sha256 Naming Http GoUrl Routing Manifests Api Controller.
From S2P Require Import Pem Certificates.

Local Open Scope string_scope.
Local Open Scope api_scope.

Definition ClusterProfileManagerName : string := "open-cluster-management".
Definition OCMAccessProviderName : string := "open-cluster-management".
Definition LabelClusterManagerKey : string := "x-k8s.io/cluster-manager".
Definition ClusterNameLabelKey : string := "open-cluster-management.io/cluster-name".

Record AccessProvider := MkAccessProvider {
  ap_name : string;
  ap_server : string;
  CertificateAuthorityData : string;
  ap_extensions : list (string * string)       (* name, raw JSON *)
}.

#[export] Instance AccessProvider_eq_dec : EqDecision AccessProvider.
Proof. solve_decision. Defined.

(** [None] is a nil slice. *)
Record Profile := MkProfile {
  cp_namespace : string;
  cp_name : string;
  cp_labels : gmap string string;
  AccessProviders : option (list AccessProvider);
  cp_conditions : option (list Condition)
}.

(** The predicate of [SetupWithManager], on profiles. *)
Definition cpFilter (cp : Profile) : bool :=
  String.eqb (default "" (cp_labels cp !! LabelClusterManagerKey)) ClusterProfileManagerName &&
  bool_decide (is_Some (cp_labels cp !! ClusterNameLabelKey)).

(** [json.Marshal] of the extension; a profile's name is a DNS name, in
    which JSON escapes nothing. *)
Definition quoted (s : string) : string := String dquote (s ++ String dquote "").
Definition execClusterConfig (clusterName : string) : string :=
  "{" ++ quoted "clusterName" ++ ":" ++ quoted clusterName ++ "}".

(** The first provider of the name is replaced, or one is appended. *)
Fixpoint replace_provider (l : list AccessProvider) (p : AccessProvider) : list AccessProvider :=
  match l with
  | [] => [p]
  | x :: rest => if String.eqb (ap_name x) OCMAccessProviderName then p :: rest
                 else x :: replace_provider rest p
  end.

Definition setAccessProvider (cp : Profile) (p : AccessProvider) : Profile :=
  MkProfile (cp_namespace cp) (cp_name cp) (cp_labels cp)
    (Some (replace_provider (default [] (AccessProviders cp)) p)) (cp_conditions cp).

Definition provider_for (config : ManagedProxyConfiguration) (cp : Profile) (caData : string)
  : AccessProvider :=
  MkAccessProvider OCMAccessProviderName
    ("https://" ++ UserServerServiceName ++ "." ++ ps_namespace (ProxyServer config) ++ ":9092/" ++
     cp_name cp)
    caData
    [("client.authentication.k8s.io/exec", execClusterConfig (cp_name cp))].

(** What a reconciliation asks for: nothing, or to be called in a minute. *)
Inductive requeue := NoRequeue | RequeueAfterMinute.

(** [getProfile] and [getConfig] are the results of the two reads;
    [update] is the status update, which is the only write.  The result is
    paired with the profile that was handed to it. *)
Definition ReconcileProfile (getProfile : result Profile) (getConfig : result ManagedProxyConfiguration)
    (update : Profile → result unit) : M (requeue * option Profile) :=
  match getProfile with
  | Err e => if IsNotFound e then ret (NoRequeue, None) else fail e
  | Ok cp =>
      match getConfig with
      | Err e => if IsNotFound e then ret (RequeueAfterMinute, None) else fail e
      | Ok config =>
          r <- attempt (api_get ("Secret", ps_namespace (ProxyServer config), UserServerSecretName));;
          match r with
          | Err e => if IsNotFound e then ret (RequeueAfterMinute, None) else fail e
          | Ok caSecret =>
              match o_content caSecret with
              | CSecret data =>
                  match data !! "tls.crt" with
                  | None => fail (ENew "tls.crt not found in secret")
                  | Some caData =>
                      let cp := setAccessProvider cp (provider_for config cp caData) in
                      let cp := MkProfile (cp_namespace cp) (cp_name cp) (cp_labels cp)
                                  (AccessProviders cp) (Some (default [] (cp_conditions cp))) in
                      lift (update cp);;;
                      ret (NoRequeue, Some cp)
                  end
              | _ => fail (ENew "tls.crt not found in secret")
              end
          end
      end
  end.

(** ** Lemmas *)



(** ** Properties *)


(** The two ways in which a profile is left alone: it is gone, or what it
    would point to is not there yet. *)
Theorem profile_waits getProfile getConfig update w r w' :
  ReconcileProfile getProfile getConfig update w = (Done (r, None), w') →
  (∃ e, getProfile = Err e ∧ IsNotFound e = true ∧ r = NoRequeue) ∨ r = RequeueAfterMinute.
Proof.
  unfold ReconcileProfile. destruct getProfile as [cp|e].
  2: { destruct (IsNotFound e) eqn:E; [|done]. intros [= <- <-]. left. eauto. }
  destruct getConfig as [config|e]; [|destruct (IsNotFound e); [intros [= <- <-]; by right|done]].
  intros H. apply bind_done in H as (o & w1 & _ & H).
  destruct o as [caSecret|e]; [|destruct (IsNotFound e); [injection H as <- <-; by right|done]].
  destruct (o_content caSecret); try done. destruct (data !! "tls.crt"); [|done].
  by apply bind_done in H as (u & w2 & _ & H).
Qed.

(** ** Concrete runs *)




