(* ===== verification/PortForward.v ===== *)
(** * The local port-forward proxy (pkg/util/portforward.go)

    With the entry point "PortForward" an add-on agent listens on a local
    port and forwards each connection over a stream to one of the
    proxy-server's pods.  [handle] has a sequential part, up to the dialled
    connection, and a concurrent part: the handler itself, a reader of the
    error stream and two copiers.  The concurrent part is a labelled state
    machine in the style of [HttpServer]: a move of the handler or of a
    goroutine is a label, and a run is any interleaving. *)

From S2P Require Import Prelude GoStrings Http.

Local Open Scope string_scope.

(** ** Data *)

Definition PortForwardProtocolV1Name : string := "portforward.k8s.io".

(** The [int] of a 64-bit machine. *)
Definition wrap64 (z : Z) : Z := ((z + 2 ^ 63) mod 2 ^ 64 - 2 ^ 63)%Z.

Record roundRobin := MkRoundRobin {
  proxyServerNamespace : string;
  podSelector : string;
  targetPort : Z;
  reqID : Z;
  firstConnReceived : bool             (* shared with the readiness probe *)
}.

Definition NewRoundRobinLocalProxyWithReqId (readiness : bool) (podNamespace podSelector : string)
    (targetPort reqId : Z) : roundRobin :=
  MkRoundRobin podNamespace podSelector targetPort reqId readiness.

Definition NewRoundRobinLocalProxy (readiness : bool) (podNamespace podSelector : string)
    (targetPort : Z) : roundRobin :=
  NewRoundRobinLocalProxyWithReqId readiness podNamespace podSelector targetPort 0.

Record Pod := MkPod {
  pod_name : string;
  pod_phase : string;
  pod_labels : gmap string string
}.

(** ** Accepting connections: the loop of [Listen] *)

Record accept_state := MkAccept {
  running : bool;
  handlers : list nat;                 (* connections handed to [handle], newest first *)
  reported : list string               (* errors given to runtime.HandleError, newest first *)
}.

Definition closed_message : string := "use of closed network connection".

(** One round: the context is looked at, then [Accept] returns.  After the
    error of a closed listener the connection is nil and nothing happens. *)
Definition accept_round (port : Z) (st : accept_state) (round : bool * result nat) : accept_state :=
  if negb (running st) then st
  else
    let '(ctxDone, accepted) := round in
    if (ctxDone : bool) then MkAccept false (handlers st) (reported st)
    else match accepted with
         | Err e =>
             if negb (Contains (ToLower (error_string e)) closed_message)
             then MkAccept true (handlers st)
                    (("error accepting connection on port " ++ Itoa port ++ ": " ++ error_string e)%string
                     :: reported st)
             else st
         | Ok conn => MkAccept true (conn :: handlers st) (reported st)
         end.

Definition accept_loop (port : Z) (rounds : list (bool * result nat)) : accept_state :=
  fold_left (accept_round port) rounds (MkAccept true [] []).

(** [Listen]: no listener, no loop. *)
Definition Listen (r : roundRobin) (listen : result unit) : result accept_state :=
  match listen with
  | Err e => Err (ENew ("unable to create listener: Error " ++ error_string e))
  | Ok _ => Ok (accept_loop (targetPort r) [])
  end.

(** ** A connection, up to its stream connection *)

(** What the calls of one [handle] return. *)
Record conn_env := MkConnEnv {
  RoundTripperFor : result unit;
  NewForConfig : result unit;
  ListPods : string → string → result (list Pod);    (* namespace, selector *)
  Intn : nat → nat;
  Dial : string → result unit                         (* the request's path *)
}.

Definition running_pods (pods : list Pod) : list Pod :=
  List.filter (λ p, String.eqb (pod_phase p) "Running") pods.

Definition portforward_path (namespace pod : string) : string :=
  "/api/v1/namespaces/" ++ namespace ++ "/pods/" ++ pod ++ "/portforward".

(** The identifier is taken under the lock, after a candidate was found. *)
Definition take_id (r : roundRobin) : Z * roundRobin :=
  (reqID r, MkRoundRobin (proxyServerNamespace r) (podSelector r) (targetPort r)
              (wrap64 (reqID r + 1)) (firstConnReceived r)).

Definition handle_setup (env : conn_env) (r : roundRobin) : result (Pod * Z) * roundRobin :=
  match RoundTripperFor env with
  | Err e => (Err e, r)
  | Ok _ =>
  match NewForConfig env with
  | Err e => (Err e, r)
  | Ok _ =>
  match ListPods env (proxyServerNamespace r) (podSelector r) with
  | Err e => (Err e, r)
  | Ok podList =>
      let candidates := running_pods podList in
      match candidates with
      | [] => (Err (ENew "no valid proxy server pod instances found"), r)
      | first :: _ =>
          let '(currentID, r) := take_id r in
          let podIdx := Intn env (length candidates) in
          let pod := nth podIdx candidates first in
          match Dial env (portforward_path (proxyServerNamespace r) (pod_name pod)) with
          | Err e => (Err e, r)
          | Ok _ => (Ok (pod, currentID), r)
          end
      end
  end end end.

(** The headers of the two streams; the second set is the first with its
    type replaced. *)
Definition error_stream_headers (port id : Z) : header :=
  hset (hset (hset ∅ "streamType" "error") "port" (Itoa port)) "requestID" (Itoa id).
Definition data_stream_headers (port id : Z) : header :=
  hset (error_stream_headers port id) "streamType" "data".

(** ** The streams *)

Inductive main_at :=
| MDialed                              (* about to create the error stream *)
| MErrorStream                         (* about to create the data stream *)
| MStreams                             (* the copiers run; readiness not stored yet *)
| MSelect                              (* the select *)
| MDone (e : option goerror).          (* returned, deferred calls made *)

Inductive reader_at :=
| ENotStarted
| EReading                             (* io.ReadAll *)
| ESending (e : goerror)               (* blocked on the unbuffered channel *)
| EFinished.                           (* the channel is closed *)

Inductive copier_at := CNotStarted | CCopying | CFinished.

Record session := MkSession {
  s_main : main_at;
  s_reader : reader_at;
  s_remote : copier_at;                (* remote to local *)
  s_local : copier_at;                 (* local to remote *)
  remoteDone : bool;                   (* channel closed *)
  localError : bool;                   (* channel closed *)
  connOpen : bool;                     (* the accepted connection *)
  streamConnOpen : bool;
  ready : bool                         (* firstConnReceived *)
}.

Definition session_start (ready : bool) : session :=
  MkSession MDialed ENotStarted CNotStarted CNotStarted false false true true ready.

Inductive label :=
| LErrorStream (e : option goerror)    (* CreateStream for errors *)
| LDataStream (e : option goerror)     (* CreateStream for data *)
| LReady                               (* firstConnReceived.Store(true) *)
| LRead (r : result string)            (* the error stream was read to its end *)
| LRemoteCopied (e : option goerror)
| LLocalCopied (e : option goerror)
| LSelRemote
| LSelLocal
| LSelError.

(** An error before the deferred close of the connection is registered:
    only the stream connection is closed. *)
Definition fail_early (s : session) (e : goerror) : session :=
  MkSession (MDone (Some e)) (s_reader s) (s_remote s) (s_local s) (remoteDone s) (localError s)
    (connOpen s) false (ready s).

(** Leaving the select: both deferred calls run. *)
Definition leave (s : session) (reader : reader_at) : session :=
  MkSession (MDone None) reader (s_remote s) (s_local s) (remoteDone s) (localError s)
    false false (ready s).

Definition is_closed_error (e : goerror) : bool := Contains (error_string e) closed_message.

Definition ports (port : Z) : string := Itoa port ++ " -> " ++ Itoa port ++ ": ".

(** What the reader does with what it read. *)
Definition read_outcome (port : Z) (r : result string) : reader_at :=
  match r with
  | Err e => ESending (ENew ("error reading from error stream for port " ++ ports port ++ error_string e))
  | Ok "" => EFinished
  | Ok m => ESending (ENew ("an error occurred forwarding " ++ ports port ++ m))
  end.
#[global] Arguments read_outcome : simpl never.

Definition exec (port : Z) (s : session) (l : label) : option session :=
  match l, s_main s with
  | LErrorStream None, MDialed =>
      Some (MkSession MErrorStream EReading (s_remote s) (s_local s) (remoteDone s) (localError s)
              (connOpen s) (streamConnOpen s) (ready s))
  | LErrorStream (Some e), MDialed => Some (fail_early s e)
  | LDataStream None, MErrorStream =>
      Some (MkSession MStreams (s_reader s) CCopying CCopying (remoteDone s) (localError s)
              (connOpen s) (streamConnOpen s) (ready s))
  | LDataStream (Some e), MErrorStream => Some (fail_early s e)
  | LReady, MStreams =>
      Some (MkSession MSelect (s_reader s) (s_remote s) (s_local s) (remoteDone s) (localError s)
              (connOpen s) (streamConnOpen s) true)
  | LSelRemote, MSelect => if remoteDone s then Some (leave s (s_reader s)) else None
  | LSelLocal, MSelect => if localError s then Some (leave s (s_reader s)) else None
  | LSelError, MSelect =>
      match s_reader s with
      | ESending _ | EFinished => Some (leave s EFinished)
      | _ => None
      end
  | LRead r, _ =>
      match s_reader s with
      | EReading =>
          Some (MkSession (s_main s) (read_outcome port r) (s_remote s) (s_local s) (remoteDone s) (localError s)
                  (connOpen s) (streamConnOpen s) (ready s))
      | _ => None
      end
  | LRemoteCopied _, _ =>
      match s_remote s with
      | CCopying => Some (MkSession (s_main s) (s_reader s) CFinished (s_local s) true (localError s)
                            (connOpen s) (streamConnOpen s) (ready s))
      | _ => None
      end
  | LLocalCopied e, _ =>
      match s_local s with
      | CCopying =>
          let failed := match e with Some e => negb (is_closed_error e) | None => false end in
          Some (MkSession (s_main s) (s_reader s) (s_remote s) CFinished (remoteDone s)
                  (localError s || failed) (connOpen s) (streamConnOpen s) (ready s))
      | _ => None
      end
  | _, _ => None
  end.

Definition session_step (port : Z) (s s' : session) : Prop := ∃ l, exec port s l = Some s'.

Fixpoint run_session (port : Z) (s : session) (ls : list label) : option session :=
  match ls with
  | [] => Some s
  | l :: ls => s' ← exec port s l; run_session port s' ls
  end.

(** ** Invariant *)

(** What each point of the handler means for the goroutines and for the two
    connections; [r0] is the readiness before this connection. *)
Definition session_inv (r0 : bool) (s : session) : Prop :=
  match s_main s with
  | MDialed =>
      s_reader s = ENotStarted ∧ s_remote s = CNotStarted ∧ s_local s = CNotStarted ∧
      connOpen s = true ∧ streamConnOpen s = true ∧ ready s = r0
  | MErrorStream =>
      s_reader s ≠ ENotStarted ∧ s_remote s = CNotStarted ∧ s_local s = CNotStarted ∧
      connOpen s = true ∧ streamConnOpen s = true ∧ ready s = r0
  | MStreams =>
      s_reader s ≠ ENotStarted ∧ s_remote s ≠ CNotStarted ∧ s_local s ≠ CNotStarted ∧
      connOpen s = true ∧ streamConnOpen s = true ∧ ready s = r0
  | MSelect =>
      s_reader s ≠ ENotStarted ∧ s_remote s ≠ CNotStarted ∧ s_local s ≠ CNotStarted ∧
      connOpen s = true ∧ streamConnOpen s = true ∧ ready s = true
  | MDone None => connOpen s = false ∧ streamConnOpen s = false ∧ ready s = true
  | MDone (Some _) =>
      s_remote s = CNotStarted ∧ s_local s = CNotStarted ∧
      connOpen s = true ∧ streamConnOpen s = false ∧ ready s = r0
  end ∧
  (remoteDone s = true ↔ s_remote s = CFinished) ∧
  (localError s = true → s_local s = CFinished).

Ltac session_cases H :=
  unfold exec, leave, fail_early in H; repeat (break_in H; cbn in *; try done); inv_ok; cbn in *.

Lemma read_outcome_weight port r :
  read_outcome port r ≠ ENotStarted ∧ read_outcome port r ≠ EReading.
Proof. unfold read_outcome. by destruct r as [[|]|]. Qed.

Lemma session_inv_step port r0 s s' :
  session_inv r0 s → session_step port s s' → session_inv r0 s'.
Proof.
  unfold session_inv. intros (Hm & Hr & Hl) [l H]. destruct s as [m rd rc lc rD lE co so ry].
  destruct l as [| | |r| | | | |]; try pose proof (read_outcome_weight port r);
    session_cases H; try (destruct m as [| | | |[]]); destruct_and?; subst; split_and?;
    try done; try tauto; try (destruct Hr; naive_solver).
Qed.

Lemma session_reachable_inv port r0 s :
  steps (session_step port) (session_start r0) s → session_inv r0 s.
Proof.
  apply steps_invariant; [|eauto using session_inv_step]. by repeat split.
Qed.

(** ** Termination *)

Definition main_weight (m : main_at) : nat :=
  match m with MDialed => 4 | MErrorStream => 3 | MStreams => 2 | MSelect => 1 | MDone _ => 0 end.
Definition reader_weight (r : reader_at) : nat :=
  match r with ENotStarted | EReading => 2 | ESending _ => 1 | EFinished => 0 end.
#[global] Arguments reader_weight : simpl never.
Definition copier_weight (c : copier_at) : nat :=
  match c with CNotStarted | CCopying => 1 | CFinished => 0 end.

Definition session_measure (s : session) : nat :=
  8 * main_weight (s_main s) + reader_weight (s_reader s) + copier_weight (s_remote s) +
  copier_weight (s_local s).

Lemma reader_weight_bound r : (reader_weight r <= 2)%nat.
Proof. destruct r; cbv; lia. Qed.

Lemma read_outcome_decreases port r : (reader_weight (read_outcome port r) < 2)%nat.
Proof. unfold read_outcome. destruct r as [[|]|]; cbv; lia. Qed.

Lemma session_step_decreases port s s' :
  session_step port s s' → (session_measure s' < session_measure s)%nat.
Proof.
  intros [l H]. unfold session_measure. destruct s as [m rd rc lc rD lE co so ry].
  pose proof (reader_weight_bound rd). change (reader_weight EFinished) with 0%nat.
  destruct l as [| | |r| | | | |]; try pose proof (read_outcome_decreases port r);
    session_cases H; change (reader_weight EReading) with 2%nat;
    change (reader_weight EFinished) with 0%nat; try lia;
    destruct rc, lc; cbn; lia.
Qed.

(** A handler that has not returned has a move, of its own or of one of the
    copies. *)
Lemma session_progress port r0 s :
  session_inv r0 s → (∃ r, s_main s = MDone r) ∨ ∃ s', session_step port s s'.
Proof.
  unfold session_inv, session_step, exec. intros (Hm & Hr & Hl).
  destruct (s_main s) as [| | | |r] eqn:Em; [..|by left; exists r]; right; destruct_and?.
  - by eexists _, (LErrorStream None).
  - by eexists _, (LDataStream None).
  - by eexists _, LReady.
  - destruct (s_remote s) eqn:Er; [done| |].
    + by eexists _, (LRemoteCopied None).
    + eexists _, LSelRemote. by rewrite (proj2 Hr eq_refl).
Qed.

Lemma session_wf port : well_founded (λ s' s, session_step port s s').
Proof.
  apply (wf_projected lt session_measure); [|apply lt_wf]. intros s' s. apply session_step_decreases.
Qed.

(** Once the handler has returned, nobody receives from the error channel. *)
Lemma sender_stuck port s s' e :
  (∃ r, s_main s = MDone r) → s_reader s = ESending e → session_step port s s' →
  (∃ r, s_main s' = MDone r) ∧ s_reader s' = ESending e.
Proof.
  intros [r Hm] Hr [l H]. destruct s as [m rd rc lc rD lE co so ry]. cbn in *. subst.
  destruct l; session_cases H; eauto.
Qed.

Lemma run_session_steps port ls : ∀ s s',
  run_session port s ls = Some s' → steps (session_step port) s s'.
Proof.
  induction ls as [|l ls IH]; intros s s' H; cbn in H.
  - inv_ok. constructor.
  - apply bind_Some in H as (s1 & H1 & H). eapply steps_trans; [|by apply IH].
    apply steps_one. by exists l.
Qed.

(** ** A whole connection *)

(** [handle]: what the streams do is the list of labels. *)
Definition handle (env : conn_env) (r : roundRobin) (ls : list label) : option session * roundRobin :=
  match handle_setup env r with
  | (Err e, r) =>
      (Some (MkSession (MDone (Some e)) ENotStarted CNotStarted CNotStarted false false true false
               (firstConnReceived r)), r)
  | (Ok _, r) =>
      let s := run_session (targetPort r) (session_start (firstConnReceived r)) ls in
      (s, MkRoundRobin (proxyServerNamespace r) (podSelector r) (targetPort r) (reqID r)
            (match s with Some s => ready s | None => firstConnReceived r end))
  end.

Lemma handle_setup_frame env r res r' :
  handle_setup env r = (res, r') →
  firstConnReceived r' = firstConnReceived r ∧ targetPort r' = targetPort r ∧
  match res with
  | Ok (_, id) => id = reqID r ∧ reqID r' = wrap64 (reqID r + 1)
  | Err _ => reqID r' = reqID r ∨ reqID r' = wrap64 (reqID r + 1)
  end.
Proof.
  unfold handle_setup, take_id. intros H. repeat (break_in H; cbn in * ); injection H as <- <-; cbn; auto.
Qed.

(** The pod that was picked, given that [rand.Intn] keeps its contract. *)
Lemma handle_setup_pod env r pod id r' :
  (∀ n, (0 < n)%nat → (Intn env n < n)%nat) →
  handle_setup env r = (Ok (pod, id), r') →
  ∃ pods, ListPods env (proxyServerNamespace r) (podSelector r) = Ok pods ∧ pod ∈ pods ∧
    pod_phase pod = "Running" ∧
    Dial env (portforward_path (proxyServerNamespace r) (pod_name pod)) = Ok ().
Proof.
  intros Hi H. unfold handle_setup, take_id in H.
  destruct (RoundTripperFor env), (NewForConfig env); try done.
  destruct (ListPods env _ _) as [pods|]; [|done].
  destruct (running_pods pods) as [|first rest] eqn:Ec; [done|].
  set (l := first :: rest) in *. set (p := nth _ l first) in H.
  cbn [proxyServerNamespace] in H.
  destruct (Dial env _) as [[]|] eqn:Ed; [|done]. injection H as <- <- <-.
  assert (p ∈ running_pods pods) as Hp.
  { rewrite Ec. apply list_elem_of_In, nth_In, Hi. cbn. lia. }
  apply list_elem_of_In, filter_In in Hp as [Hin Hr]. apply String.eqb_eq in Hr.
  exists pods. split; [done|]. split; [by apply list_elem_of_In|]. done.
Qed.

(** ** Request identifiers *)

Definition in_int64 (z : Z) : Prop := (- 2 ^ 63 <= z < 2 ^ 63)%Z.

Lemma wrap64_id z : in_int64 z → wrap64 z = z.
Proof. unfold in_int64, wrap64. intros H. rewrite Z.mod_small; lia. Qed.

Lemma wrap64_range z : in_int64 (wrap64 z).
Proof. unfold in_int64, wrap64. pose proof (Z.mod_pos_bound (z + 2 ^ 63) (2 ^ 64)). lia. Qed.

Lemma wrap64_add x y : wrap64 (wrap64 x + y) = wrap64 (x + y).
Proof.
  unfold wrap64. f_equal. replace ((x + 2 ^ 63) mod 2 ^ 64 - 2 ^ 63 + y + 2 ^ 63)%Z
    with ((x + 2 ^ 63) mod 2 ^ 64 + y)%Z by lia.
  rewrite Zplus_mod_idemp_l. f_equal. lia.
Qed.

Lemma wrap64_inj x d : in_int64 x → (0 < d < 2 ^ 64)%Z → wrap64 (x + d) ≠ x.
Proof.
  unfold in_int64, wrap64. intros Hx Hd E.
  assert ((x + d + 2 ^ 63) mod 2 ^ 64 = x + 2 ^ 63)%Z as H by lia.
  pose proof (Z.div_mod (x + d + 2 ^ 63) (2 ^ 64) ltac:(lia)) as Hq. rewrite H in Hq.
  assert (d = 2 ^ 64 * ((x + d + 2 ^ 63) / 2 ^ 64))%Z as Hd' by lia. nia.
Qed.

(** The identifiers of the connections that were dialled, in the order in
    which the handlers took the lock. *)
Fixpoint dialled_ids (envs : list conn_env) (r : roundRobin) : list Z :=
  match envs with
  | [] => []
  | env :: envs =>
      match handle_setup env r with
      | (Ok (_, id), r) => id :: dialled_ids envs r
      | (Err _, r) => dialled_ids envs r
      end
  end.

Lemma dialled_ids_range envs : ∀ r id,
  in_int64 (reqID r) → id ∈ dialled_ids envs r →
  ∃ k, (0 <= k < Z.of_nat (length envs))%Z ∧ id = wrap64 (reqID r + k).
Proof.
  induction envs as [|env envs IH]; intros r id Hr Hid; cbn in Hid; [by inversion Hid|].
  destruct (handle_setup env r) as [res r'] eqn:E.
  apply handle_setup_frame in E as (_ & _ & E). cbn [length].
  assert (∀ d, (0 <= d <= 1)%Z → reqID r' = wrap64 (reqID r + d) → id ∈ dialled_ids envs r' →
    ∃ k, (0 <= k < Z.of_nat (S (length envs)))%Z ∧ id = wrap64 (reqID r + k)) as Hnext.
  { intros d Hd Er Hin. destruct (IH r' id) as (k & Hk & ->); [rewrite Er; apply wrap64_range|done|].
    exists (d + k)%Z. split; [lia|]. rewrite Er, wrap64_add. f_equal. lia. }
  destruct res as [[pod id']|e].
  - destruct E as [-> Er]. apply elem_of_cons in Hid as [->|Hid].
    + exists 0%Z. split; [lia|]. by rewrite Z.add_0_r, wrap64_id.
    + apply (Hnext 1%Z); [lia|done|done].
  - destruct E as [Er|Er]; [apply (Hnext 0%Z)|apply (Hnext 1%Z)]; try lia; try done.
    by rewrite Z.add_0_r, wrap64_id.
Qed.

(** ** Properties *)

(** C39: in every reachable state of a forwarded connection, whatever the
    order in which the handler, the error reader and the two copiers move:
    both connections are open until the handler returns; then the stream
    connection is closed, and the accepted connection is closed exactly when
    the handler returned without error, which is also when the probe has
    been told that a connection arrived.  On every error path the accepted
    connection is left open. *)
Theorem forwarding_releases port r0 s :
  steps (session_step port) (session_start r0) s →
  match s_main s with
  | MDone r =>
      streamConnOpen s = false ∧ (connOpen s = false ↔ r = None) ∧
      ready s = (match r with None => true | Some _ => r0 end)
  | _ => streamConnOpen s = true ∧ connOpen s = true
  end.
Proof.
  intros H. apply session_reachable_inv in H as (Hm & _). destruct (s_main s) as [| | | |[]];
    destruct_and?; split_and?; try done; split; congruence.
Qed.

(** A forwarded connection ends: no run is infinite, and a run can only
    stop where the handler has returned; in particular the handler is never
    stuck, whichever stream ends first. *)
Theorem forwarding_terminates port r0 s :
  steps (session_step port) (session_start r0) s →
  Acc (λ s' s, session_step port s s') s ∧
  ((∀ s', ¬ session_step port s s') → ∃ r, s_main s = MDone r).
Proof.
  intros H. split; [apply session_wf|]. intros Hn. apply session_reachable_inv in H.
  destruct (session_progress port r0 s H) as [?|[s' Hs]]; [done|]. by destruct (Hn s').
Qed.

(** When the handler has returned before the error stream was read, a
    message or a read error (which closing the stream connection causes)
    leaves the reader blocked on its channel for ever: nobody receives, and
    the goroutine is never freed. *)
Theorem error_reader_leaks port r0 s r x s1 s' :
  steps (session_step port) (session_start r0) s → s_main s = MDone r →
  exec port s (LRead x) = Some s1 → x ≠ Ok "" →
  steps (session_step port) s1 s' → ∃ e, s_reader s' = ESending e.
Proof.
  intros _ Hm Hx Hne Hs.
  assert (∃ e, s_reader s1 = ESending e) as [e He].
  { destruct s as [m rd rc lc rD lE co so ry]. cbn in *. subst. destruct rd; try done. inv_ok. cbn.
    unfold read_outcome. destruct x as [[|c m]|]; [done|eauto|eauto]. }
  assert (∃ r, s_main s1 = MDone r) as Hd.
  { destruct s as [m rd rc lc rD lE co so ry]. cbn in *. subst. destruct rd; try done. inv_ok. eauto. }
  exists e. assert ((∃ r, s_main s' = MDone r) ∧ s_reader s' = ESending e) as [_ ?]; [|done].
  apply (steps_invariant (session_step port) (λ s, (∃ r, s_main s = MDone r) ∧ s_reader s = ESending e) s1);
    [done| |done]. intros a b [Ha Hb] Hstep. by eapply sender_stuck.
Qed.

(** The two streams of a connection carry the same request identifier
    and port and differ in their type, and no two connections that are
    dialled within 2^64 attempts share an identifier, although the counter
    is a machine integer that wraps around. *)
Theorem request_ids_distinct envs r :
  in_int64 (reqID r) → (Z.of_nat (length envs) <= 2 ^ 64)%Z →
  NoDup (dialled_ids envs r) ∧
  ∀ id, hget (error_stream_headers (targetPort r) id) "requestID" = Itoa id ∧
        hget (data_stream_headers (targetPort r) id) "requestID" = Itoa id ∧
        hget (error_stream_headers (targetPort r) id) "port" = Itoa (targetPort r) ∧
        hget (data_stream_headers (targetPort r) id) "port" = Itoa (targetPort r) ∧
        hget (error_stream_headers (targetPort r) id) "streamType" = "error" ∧
        hget (data_stream_headers (targetPort r) id) "streamType" = "data".
Proof.
  intros Hr Hn. split.
  - revert r Hr Hn. induction envs as [|env envs IH]; intros r Hr Hn; cbn [dialled_ids]; [constructor|].
    cbn [length] in Hn. destruct (handle_setup env r) as [res r'] eqn:E.
    apply handle_setup_frame in E as (_ & _ & E).
    assert (in_int64 (reqID r')) as Hr'.
    { destruct res as [[]|]; [destruct E as [_ ->]|destruct E as [->| ->]]; done || apply wrap64_range. }
    destruct res as [[pod id]|e]; [|apply IH; [done|lia]]. destruct E as [-> Er].
    constructor; [|apply IH; [done|lia]]. intros Hin.
    apply dialled_ids_range in Hin as (k & Hk & Ek); [|done].
    rewrite Er, wrap64_add in Ek. symmetry in Ek. revert Ek.
    replace (reqID r + 1 + k)%Z with (reqID r + (1 + k))%Z by lia. apply wrap64_inj; [done|lia].
  - intros id. unfold data_stream_headers, error_stream_headers, hget, hset.
    change (CanonicalHeaderKey "streamType") with "Streamtype".
    change (CanonicalHeaderKey "port") with "Port".
    change (CanonicalHeaderKey "requestID") with "Requestid".
    split_and!; repeat (rewrite lookup_insert_eq || rewrite lookup_insert_ne by done); done.
Qed.

(** A connection is forwarded to a pod that the selector found and that
    was running, and to no other; without a running pod it is refused. *)
Theorem forwarded_to_running_pod env r :
  (∀ n, (0 < n)%nat → (Intn env n < n)%nat) →
  match handle_setup env r with
  | (Ok (pod, _), _) =>
      ∃ pods, ListPods env (proxyServerNamespace r) (podSelector r) = Ok pods ∧ pod ∈ pods ∧
        pod_phase pod = "Running" ∧
        Dial env (portforward_path (proxyServerNamespace r) (pod_name pod)) = Ok ()
  | (Err _, _) => True
  end ∧
  (∀ pods, ListPods env (proxyServerNamespace r) (podSelector r) = Ok pods →
     Forall (λ p, pod_phase p ≠ "Running") pods → is_ok (handle_setup env r).1 = false ∧
     (handle_setup env r).2 = r).
Proof.
  intros Hi. split.
  - destruct (handle_setup env r) as [[[pod id]|e] r'] eqn:E; [|done]. by eapply handle_setup_pod.
  - intros pods Hp Hf. unfold handle_setup. rewrite Hp.
    assert (running_pods pods = []) as ->.
    { clear Hp. unfold running_pods. induction Hf as [|p ps Hne _ IH]; [done|]. cbn.
      apply String.eqb_neq in Hne. by rewrite Hne. }
    by destruct (RoundTripperFor env), (NewForConfig env).
Qed.

(** The connections accepted before the context is found done. *)
Fixpoint accepted (rounds : list (bool * result nat)) : list nat :=
  match rounds with
  | (false, Ok c) :: rest => c :: accepted rest
  | (false, Err _) :: rest => accepted rest
  | _ => []
  end.

Lemma accept_loop_from port rounds : ∀ hs rs,
  let st := fold_left (accept_round port) rounds (MkAccept true hs rs) in
  handlers st = (rev (accepted rounds) ++ hs)%list ∧
  running st = forallb (λ x, negb x.1) rounds.
Proof.
  assert (∀ rounds hs rs, fold_left (accept_round port) rounds (MkAccept false hs rs) = MkAccept false hs rs)
    as Hstop.
  { intros l hs rs. induction l as [|x l IH]; [done|exact IH]. }
  induction rounds as [|[[] a] rounds IH]; intros hs rs; [done| |]; cbn [fold_left].
  - change (accept_round port (MkAccept true hs rs) (true, a)) with (MkAccept false hs rs).
    by rewrite Hstop.
  - destruct a as [c|e]; cbn [accept_round running negb handlers reported accepted].
    + destruct (IH (c :: hs) rs) as [H1 H2]. cbn [rev forallb negb andb fst]. split; [|done].
      rewrite H1. by rewrite <- app_assoc.
    + destruct (negb (Contains _ _)); apply IH.
Qed.

(** Every accepted connection gets one handler, in order, until the context
    is found done, and only that ends the loop: with a closed listener and a
    live context it runs on, round after round, without doing anything. *)
Theorem accept_loop_correct port rounds :
  handlers (accept_loop port rounds) = rev (accepted rounds) ∧
  running (accept_loop port rounds) = forallb (λ x, negb x.1) rounds ∧
  (∀ st e, Contains (ToLower (error_string e)) closed_message = true →
     running st = true → accept_round port st (false, Err e) = st).
Proof.
  destruct (accept_loop_from port rounds [] []) as [H1 H2]. rewrite app_nil_r in H1.
  split; [exact H1|]. split; [exact H2|]. intros st e He Hr. unfold accept_round. by rewrite Hr, He.
Qed.

(** ** Concrete runs *)

Definition sample_pods : list Pod :=
  [MkPod "proxy-0" "Pending" ∅; MkPod "proxy-1" "Running" ∅; MkPod "proxy-2" "Running" ∅].

Definition sample_env : conn_env :=
  MkConnEnv (Ok ()) (Ok ()) (λ _ _, Ok sample_pods) (λ n, n - 1)%nat (λ _, Ok ()).

(** The counter is about to wrap around. *)
Definition sample_proxy : roundRobin :=
  NewRoundRobinLocalProxyWithReqId false "hub" "app=proxy" 8091 (2 ^ 63 - 1).

(** The remote side closes, the handler leaves, and only then does the error
    stream report that it was reset. *)
Definition sample_labels : list label :=
  [LErrorStream None; LDataStream None; LReady; LRemoteCopied None; LSelRemote].

Definition sample_end : session :=
  MkSession (MDone None) EReading CFinished CCopying true false false false true.

Lemma sample_run : run_session 8091 (session_start false) sample_labels = Some sample_end.
Proof. reflexivity. Qed.

Lemma forwarding_releases_witness :
  steps (session_step 8091) (session_start false) sample_end ∧
  streamConnOpen sample_end = false ∧ (connOpen sample_end = false ↔ @None goerror = None).
Proof.
  assert (steps (session_step 8091) (session_start false) sample_end) as H
    by (eapply run_session_steps, sample_run).
  split; [exact H|]. destruct (forwarding_releases 8091 false sample_end H) as (H1 & H2 & _).
  split; [exact H1|exact H2].
Defined.

Lemma forwarding_terminates_witness :
  Acc (λ s' s, session_step 8091 s s') sample_end.
Proof. exact (proj1 (forwarding_terminates 8091 false sample_end (run_session_steps _ _ _ _ sample_run))). Defined.

Definition sample_leaked : session :=
  MkSession (MDone None) (read_outcome 8091 (Err (ENew "stream reset"))) CFinished CCopying true false false false true.

Lemma error_reader_leaks_witness :
  exec 8091 sample_end (LRead (Err (ENew "stream reset"))) = Some sample_leaked ∧
  ∃ e, s_reader sample_leaked = ESending e.
Proof.
  split; [reflexivity|].
  apply (error_reader_leaks 8091 false sample_end None (Err (ENew "stream reset")) sample_leaked sample_leaked);
    [eapply run_session_steps, sample_run|reflexivity|reflexivity|done|apply steps_refl].
Defined.

Lemma request_ids_distinct_witness :
  dialled_ids [sample_env; sample_env] sample_proxy = [2 ^ 63 - 1; - 2 ^ 63]%Z ∧
  NoDup (dialled_ids [sample_env; sample_env] sample_proxy).
Proof.
  split; [vm_compute; reflexivity|].
  apply (request_ids_distinct [sample_env; sample_env] sample_proxy); [split; cbn; lia|cbn; lia].
Defined.

Lemma forwarded_to_running_pod_witness :
  (handle_setup sample_env sample_proxy).1 = Ok (MkPod "proxy-2" "Running" ∅, 2 ^ 63 - 1)%Z ∧
  ∃ pods, ListPods sample_env "hub" "app=proxy" = Ok pods ∧ MkPod "proxy-2" "Running" ∅ ∈ pods.
Proof.
  split; [reflexivity|].
  destruct (forwarded_to_running_pod sample_env sample_proxy) as [(pods & H1 & H2 & _) _];
    [cbn; lia|]. exists pods. split; [exact H1|exact H2].
Defined.
