(* ===== verification/AddonAgent.v ===== *)
(** * The add-on agent's command (cmd/addon-agent/main.go)

    The process that runs beside the tunnel's agent on every managed
    cluster: it renews a lease while the tunnel is up, serves a health
    probe, and with the entry point "PortForward" runs the local proxy of
    [PortForward].  The properties tie its flags to the arguments that the
    add-on manager renders ([Agent]), its pod selector to the pods of the
    rendered deployment and its API calls to the rendered role
    ([Manifests]), and its probe to the connections it forwarded. *)

From S2P Require Import Prelude GoStrings Sha256 Naming Http Manifests Api Controller.
From S2P Require Import Pem Certificates Agent PortForward GoFlag.

Local Open Scope string_scope.

(** ** Flags *)

Definition addon_agent_flags : flag_set :=
  list_to_map
    [("hub-kubeconfig", StringFlag "");
     ("cluster-name", StringFlag "");
     ("proxy-server-namespace", StringFlag "open-cluster-management-addon");
     ("enable-port-forward-proxy", BoolFlag false);
     ("enable-proxy-agent-health-check", BoolFlag true)].

(** ** Probes *)

Definition proxyAgentHealthAddr : string := "localhost:8093".

(** [checkProxyAgentReadiness]: [get] is the HTTP client, which returns the
    status code. *)
Definition checkProxyAgentReadiness (get : string → result Z) : bool :=
  match get ("http://" ++ proxyAgentHealthAddr ++ "/readyz") with
  | Err _ => false
  | Ok status => (status =? 200)%Z
  end.

(** The checks of /healthz, and the status of the response: all must pass. *)
Definition health_checkers (certificates : result unit) (readiness : bool)
  : list (string * result unit) :=
  [("certificates", certificates);
   ("port forward proxy readiness", if readiness then Ok () else Err (ENew "not ready"))].

Definition healthz_status (checks : list (string * result unit)) : Z :=
  if forallb (λ c, is_ok c.2) checks then 200 else 500.

(** [serveHealthProbes]: no listener, no server. *)
Definition serveHealthProbes (listen : result unit) : bool := is_ok listen.

(** ** The process *)

Definition label_selector : string := LabelKeyComponentName ++ "=" ++ ComponentNameProxyServer.

(** What the process finds and what its calls return. *)
Record agent_env := MkAgentEnv {
  library_flags : flag_set;                       (* of klog and controller-runtime *)
  args : list string;
  BuildConfigFromFlags : string → result unit;
  inCluster : bool;                               (* ctrl.GetConfigOrDie *)
  newSpokeClient : result unit;
  POD_NAMESPACE : string;
  listen : result unit;
  NewConfigChecker : string → string → result unit;
  listenProbes : result unit
}.

Record agent_process := MkProcess {
  lease_cluster : string;
  lease_namespace : string;
  lease_checks : bool;                            (* the lease waits for the tunnel *)
  local_proxy : option roundRobin;
  readiness : bool;
  probes : bool
}.

Inductive agent_outcome :=
| AgentExit (code : Z)
| AgentPanic (msg : string)
| AgentRuns (p : agent_process).

Definition addon_agent_main (env : agent_env) : agent_outcome :=
  match Parse (addon_agent_flags ∪ library_flags env) (args env) with
  | Err _ => AgentExit 2                          (* flag.ExitOnError *)
  | Ok fs =>
  match BuildConfigFromFlags env (string_value fs "hub-kubeconfig") with
  | Err e => AgentPanic (error_string e)
  | Ok _ =>
  if negb (inCluster env) then AgentExit 1
  else
  match newSpokeClient env with
  | Err e => AgentPanic ("failed to create spoke client, err: " ++ error_string e)
  | Ok _ =>
  if (String.length (POD_NAMESPACE env) =? 0)%nat
  then AgentPanic "Pod namespace is empty, please set the ENV for POD_NAMESPACE"
  else
    let checks := bool_value fs "enable-proxy-agent-health-check" in
    let forward := bool_value fs "enable-port-forward-proxy" in
    let rr := NewRoundRobinLocalProxy false (string_value fs "proxy-server-namespace")
                label_selector 8091 in
    match (if forward then Listen rr (listen env) else Ok (MkAccept false [] [])) with
    | Err e => AgentPanic (error_string e)
    | Ok _ =>
    match NewConfigChecker env "/etc/tls/tls.crt" "/etc/tls/tls.key" with
    | Err _ => AgentExit 255                      (* klog.Fatalf *)
    | Ok _ =>
        AgentRuns (MkProcess (string_value fs "cluster-name") (POD_NAMESPACE env) checks
                     (if forward then Some rr else None) (negb forward)
                     (serveHealthProbes (listenProbes env)))
    end end
  end end end.

(** Does a lease round renew the lease?  The framework asks every check. *)
Definition lease_renewed (p : agent_process) (get : string → result Z) : bool :=
  if lease_checks p then checkProxyAgentReadiness get else true.

(** The connections that the local proxy handles, one [handle] each, and
    what the probe answers afterwards. *)
Definition serve_connections (r : roundRobin) (conns : list (conn_env * list label)) : roundRobin :=
  fold_left (λ r c, (handle c.1 r c.2).2) conns r.

Definition probe_after (p : agent_process) (certificates : result unit)
    (conns : list (conn_env * list label)) : Z :=
  healthz_status (health_checkers certificates
    (match local_proxy p with
     | Some r => firstConnReceived (serve_connections r conns)
     | None => readiness p
     end)).

(** ** Selectors and permissions *)

(** A selector of one equality, against the labels of a pod. *)
Definition match_selector (selector : string) (labels : gmap string string) : bool :=
  let '(k, v, found) := Cut "=" selector in
  (found : bool) && bool_decide (labels !! k = Some v).

(** An RBAC rule for a verb on a resource of an API group. *)
Definition rule_allows (r : PolicyRule) (group verb resource : string) : bool :=
  existsb (λ x, String.eqb x "*" || String.eqb x group) (apiGroups r) &&
  existsb (λ x, String.eqb x "*" || String.eqb x verb) (verbs r) &&
  existsb (λ x, String.eqb x "*" || String.eqb x resource) (resources r).

Definition role_allows (role : object) (group verb resource : string) : bool :=
  match o_content role with
  | CRole rules => existsb (λ r, rule_allows r group verb resource) rules
  | _ => false
  end.

(** The binding gives the role to a group. *)
Definition binds_group (binding role : object) (group : string) : bool :=
  match o_content binding with
  | CRoleBinding kind name subjects =>
      String.eqb kind "Role" && String.eqb name (o_name role) &&
      String.eqb (o_namespace binding) (o_namespace role) &&
      existsb (λ s, String.eqb s.1 "Group" && String.eqb s.2 group) subjects
  | _ => false
  end.

(** The groups of the kube client that the add-on registers. *)
Definition kube_client_groups (configs : list RegistrationConfig) : list string :=
  concat (map (λ c, match c with KubeClientRegistration _ gs => gs | _ => [] end) configs).

(** ** Lemmas *)

Lemma flag_registered lib name v :
  addon_agent_flags !! name = Some v → (addon_agent_flags ∪ lib) !! name = Some v.
Proof. intros H. by apply lookup_union_Some_l. Qed.

(** The flags after parsing the rendered arguments. *)
Definition rendered_flags (lib : flag_set) (clusterName : string) (config : ManagedProxyConfiguration)
    (forward : bool) : flag_set :=
  let fs := <["proxy-server-namespace" := StringFlag (ps_namespace (ProxyServer config))]>
    (<["cluster-name" := StringFlag clusterName]>
      (<["hub-kubeconfig" := StringFlag "/etc/kubeconfig/kubeconfig"]> (addon_agent_flags ∪ lib))) in
  if forward then <["enable-port-forward-proxy" := BoolFlag true]> fs else fs.

Ltac flag_side :=
  first [ reflexivity
        | rewrite ?lookup_insert_ne by done; by apply flag_registered ].

Lemma parse_rendered lib clusterName config (forward : bool) :
  Parse (addon_agent_flags ∪ lib)
    (addon_agent_args clusterName config
       (if forward then ["--enable-port-forward-proxy=true"] else []))
  = Ok (rendered_flags lib clusterName config forward).
Proof.
  unfold Parse, addon_agent_args, rendered_flags.
  change "--hub-kubeconfig=/etc/kubeconfig/kubeconfig"
    with (assignment "hub-kubeconfig" "/etc/kubeconfig/kubeconfig").
  change ("--cluster-name=" ++ clusterName) with (assignment "cluster-name" clusterName).
  change ("--proxy-server-namespace=" ++ ps_namespace (ProxyServer config))
    with (assignment "proxy-server-namespace" (ps_namespace (ProxyServer config))).
  change "--enable-port-forward-proxy=true" with (assignment "enable-port-forward-proxy" "true").
  cbn [app length].
  rewrite (parse_args_assignment _ _ "hub-kubeconfig" (StringFlag "") _ (StringFlag _)) by flag_side.
  rewrite (parse_args_assignment _ _ "cluster-name" (StringFlag "") _ (StringFlag _)) by flag_side.
  rewrite (parse_args_assignment _ _ "proxy-server-namespace" (StringFlag "open-cluster-management-addon") _ (StringFlag _)) by flag_side.
  destruct forward; [|done]. cbn [length].
  by rewrite (parse_args_assignment _ _ "enable-port-forward-proxy" (BoolFlag false) _ (BoolFlag true)) by flag_side.
Qed.

Lemma rendered_flags_values lib clusterName config forward :
  let fs := rendered_flags lib clusterName config forward in
  string_value fs "hub-kubeconfig" = "/etc/kubeconfig/kubeconfig" ∧
  string_value fs "cluster-name" = clusterName ∧
  string_value fs "proxy-server-namespace" = ps_namespace (ProxyServer config) ∧
  bool_value fs "enable-port-forward-proxy" = forward ∧
  bool_value fs "enable-proxy-agent-health-check" = true.
Proof.
  cbn zeta. unfold rendered_flags, string_value, bool_value.
  pose proof (flag_registered lib "enable-proxy-agent-health-check" (BoolFlag true) eq_refl) as Hc.
  pose proof (flag_registered lib "enable-port-forward-proxy" (BoolFlag false) eq_refl) as Hf.
  destruct forward; split_and!;
    repeat (rewrite lookup_insert_eq || rewrite lookup_insert_ne by done); try done;
    by rewrite ?Hc, ?Hf.
Qed.

(** ** Properties *)

(** C40: the arguments that the add-on manager renders for a cluster are
    flags that the add-on agent accepts, and they mean what was rendered:
    the process renews the lease of that cluster only while the tunnel is
    up, and runs the local proxy, into the proxy-server's namespace, exactly
    for the entry point "PortForward".  (The chart itself puts the verbosity
    flag of klog before the rendered arguments.) *)
Theorem rendered_arguments_understood `{Conf : PackageConfig} ingress config agent ca kube cluster ns name w values name' w'
    env argv :
  GetClusterProxyValueFunc ingress (Ok (config, agent)) ca kube cluster ns name w
    = (Done (values, name'), w') →
  values !! "addonAgentArgs" = Some (GStrings (Some argv)) → args env = argv →
  addon_agent_main env ≠ AgentExit 2 ∧
  ∀ p, addon_agent_main env = AgentRuns p →
    lease_cluster p = cluster_name cluster ∧ lease_checks p = true ∧
    ∃ e, ps_entrypoint (ProxyServer config) = Some e ∧
      local_proxy p =
        (if bool_decide (ep_type e = EntryPointTypePortForward)
         then Some (NewRoundRobinLocalProxy false (ps_namespace (ProxyServer config)) label_selector 8091)
         else None) ∧
      readiness p = negb (bool_decide (ep_type e = EntryPointTypePortForward)).
Proof.
  intros H Hargs Henv.
  apply value_func_entry in H as (ep & extra & w1 & He & Ha & _). rewrite Hargs in Ha. injection Ha as Ha.
  apply service_entry_point_args in He as (e & He & ->).
  set (forward := bool_decide _) in *.
  assert (args env = addon_agent_args (cluster_name cluster) config
            (if forward then ["--enable-port-forward-proxy=true"] else [])) as E by congruence.
  pose proof (parse_rendered (library_flags env) (cluster_name cluster) config forward) as Hp.
  rewrite <- E in Hp. unfold addon_agent_main. rewrite Hp.
  destruct (rendered_flags_values (library_flags env) (cluster_name cluster) config forward)
    as (-> & -> & -> & -> & ->).
  split; [repeat case_match; done|]. intros p Hr.
  destruct (BuildConfigFromFlags env _); [|done]. destruct (inCluster env); [|done]. cbn [negb] in Hr.
  destruct (newSpokeClient env); [|done]. destruct (String.length _ =? 0)%nat; [done|].
  destruct (if forward then Listen _ _ else Ok _); [|done]. destruct (NewConfigChecker env _ _); [|done].
  injection Hr as <-. cbn. split; [done|]. split; [done|]. exists e. done.
Qed.

(** What the local proxy does on the hub is what the controller set up
    for it: its selector picks the pods of the rendered deployment (and only
    pods of that component), and the rendered role, bound to the group of
    the add-on's own client, lets it list pods and open port-forwards in the
    namespace it asks for. *)
Theorem port_forward_is_provided config pull cipher version tls caData :
  ∃ d, o_content (newProxyServerDeployment cipher version config pull tls) = CDeployment d ∧
    match_selector label_selector (dp_podLabels d) = true ∧
    (∀ labels, match_selector label_selector labels = true →
       labels !! LabelKeyComponentName = Some ComponentNameProxyServer) ∧
    role_allows (newProxyServerRole config) "" "list" "pods" = true ∧
    role_allows (newProxyServerRole config) "" "create" "pods/portforward" = true ∧
    Forall (λ g, binds_group (newProxyServerRoleBinding config) (newProxyServerRole config) g = true)
      (kube_client_groups (registration_configs caData)) ∧
    kube_client_groups (registration_configs caData) ≠ [] ∧
    o_namespace (newProxyServerRole config)
      = proxyServerNamespace (NewRoundRobinLocalProxy false (ps_namespace (ProxyServer config)) label_selector 8091).
Proof.
  eexists. split; [reflexivity|]. cbn [dp_podLabels].
  assert (Cut "=" label_selector = (LabelKeyComponentName, ComponentNameProxyServer, true)) as Hc by done.
  split_and!; try done.
  - intros labels. unfold match_selector. rewrite Hc. cbn [andb]. apply bool_decide_eq_true_1.
  - constructor; [|constructor]. unfold binds_group, newProxyServerRoleBinding, newProxyServerRole, owned.
    cbn [o_content o_name o_namespace existsb fst snd]. by rewrite !String.eqb_refl.
Qed.

(** For the entry point "PortForward" the tunnel's agent dials the port
    on which the local proxy listens exactly when the configured port is the
    default: another port is handed to the agents, but the local proxy
    always listens on 8091. *)
Theorem port_forward_needs_default_port config e :
  ps_entrypoint (ProxyServer config) = Some e → ep_type e = EntryPointTypePortForward →
  entry_point_port config
    = targetPort (NewRoundRobinLocalProxy false (ps_namespace (ProxyServer config)) label_selector 8091) ↔
  ep_port e = 0%Z ∨ ep_port e = 8091%Z.
Proof.
  intros He _. unfold entry_point_port. rewrite He. cbn.
  destruct (Z.eqb_spec (ep_port e) 0); lia.
Qed.

(** One connection sets the flag only by announcing itself. *)
Lemma handle_announces env r ls :
  firstConnReceived r = false → firstConnReceived (handle env r ls).2 = true → LReady ∈ ls.
Proof.
  unfold handle. destruct (handle_setup env r) as [[x|e] r'] eqn:E; cbn [snd]; intros H0;
    apply handle_setup_frame in E as (Ef & _ & _); [|congruence].
  cbn [firstConnReceived]. rewrite Ef, H0.
  assert (∀ ls s s', ready s = false → run_session (targetPort r') s ls = Some s' → ready s' = true → LReady ∈ ls)
    as Hrun.
  { clear. induction ls as [|l ls IH]; intros s s' Hs H H1; cbn in H; [inv_ok; congruence|].
    apply bind_Some in H as (s1 & H & Hr). destruct (decide (ready s1 = true)) as [E|E].
    - assert (l = LReady) as ->; [|by left]. destruct s as [m rd rc lc rD lE co so ry]. cbn in Hs. subst.
      destruct l; session_cases H; done.
    - right. apply (IH s1 s'); [by destruct (ready s1)|done|done]. }
  destruct (run_session _ _ ls) as [s|] eqn:Er; [|done]. by apply (Hrun ls (session_start false) s).
Qed.

(** With port forwarding the health probe fails until a connection of
    the tunnel has gone through the local proxy; without it, and in both
    cases when the certificates on disk have changed, the probe answers for
    the certificates alone. *)
Theorem probe_waits_for_connection env p certificates conns :
  addon_agent_main env = AgentRuns p →
  (probe_after p certificates conns = 200%Z →
   certificates = Ok () ∧
   (local_proxy p = None ∨ ∃ c, c ∈ conns ∧ LReady ∈ c.2)) ∧
  (local_proxy p = None → certificates = Ok () → probe_after p certificates conns = 200%Z).
Proof.
  intros H.
  assert (readiness p = true ↔ local_proxy p = None) as Hr.
  { unfold addon_agent_main in H. repeat (case_match; try done); injection H as <-; cbn; by destruct (bool_value _ _). }
  assert (∀ r, local_proxy p = Some r → firstConnReceived r = false) as Hf.
  { unfold addon_agent_main in H. repeat (case_match; try done); injection H as <-; cbn; intros r' Hx;
      destruct (bool_value _ "enable-port-forward-proxy"); by simplify_eq. }
  unfold probe_after, healthz_status, health_checkers. split.
  - destruct certificates as [[]|e]; [|done]. intros Hp. split; [done|].
    destruct (local_proxy p) as [r|]; [right|by left]. cbn in Hp.
    specialize (Hf r eq_refl). clear Hr H. revert r Hf Hp.
    induction conns as [|c conns IH]; intros r Hf Hp; cbn in Hp; [by rewrite Hf in Hp|].
    destruct (firstConnReceived (handle c.1 r c.2).2) eqn:E.
    + exists c. split; [left|]. by eapply handle_announces.
    + destruct (IH _ E Hp) as (c' & Hin & Hl). exists c'. split; [by right|done].
  - intros Hn ->. rewrite Hn. cbn. by rewrite (proj2 Hr Hn).
Qed.

(** ** Concrete runs *)

#[local] Existing Instance default_package_config.

Definition forward_config : ManagedProxyConfiguration :=
  MkMPC "cluster-proxy" "uid" 2 None "server-cert" "client-cert" "agent-cert"
    (MkProxyServerSpec "img" 3 "proxy-entrypoint" "ocm"
       (Some (MkEntrypoint EntryPointTypePortForward None None 8443)) [] ∅ [])
    None (MkStatus 0 []).

Definition rendered_args : list string :=
  addon_agent_args "cluster1" forward_config ["--enable-port-forward-proxy=true"].

Definition sample_agent_env : agent_env :=
  MkAgentEnv ∅ rendered_args (λ _, Ok ()) true (Ok ()) "agents" (Ok ()) (λ _ _, Ok ()) (Ok ()).

Definition sample_process : agent_process :=
  MkProcess "cluster1" "agents" true
    (Some (NewRoundRobinLocalProxy false "ocm" label_selector 8091)) false true.

Lemma sample_process_runs : addon_agent_main sample_agent_env = AgentRuns sample_process.
Proof. vm_compute. reflexivity. Qed.

Abbreviation sample_func :=
  (GetClusterProxyValueFunc no_ingress (Ok (forward_config, sample_agent "agent:v1")) "" true sample_cluster "").

Definition forward_values : gmap string go_value :=
  match (sample_func "" Sample.empty_world).1 with Done (v, _) => v | _ => ∅ end.

Lemma forward_values_done :
  sample_func "" Sample.empty_world = (Done (forward_values, "agent:v1"), Sample.empty_world).
Proof.
  vm_cast_no_check (@eq_refl (outcome (gmap string go_value * string) * world)
    (Done (forward_values, "agent:v1"), Sample.empty_world)).
Qed.

Lemma rendered_arguments_understood_witness :
  addon_agent_main sample_agent_env = AgentRuns sample_process ∧ lease_cluster sample_process = "cluster1".
Proof.
  split; [exact sample_process_runs|].
  destruct (rendered_arguments_understood no_ingress forward_config (sample_agent "agent:v1") "" true
    sample_cluster "" "" Sample.empty_world forward_values "agent:v1" Sample.empty_world sample_agent_env
    rendered_args forward_values_done) as [_ H]; [vm_compute; reflexivity|reflexivity|].
  exact (proj1 (H sample_process sample_process_runs)).
Defined.

(** Port 8443 is configured; the local proxy does not listen there. *)
Lemma port_forward_needs_default_port_witness :
  entry_point_port forward_config = 8443%Z ∧
  (entry_point_port forward_config
     = targetPort (NewRoundRobinLocalProxy false "ocm" label_selector 8091) ↔
   8443%Z = 0%Z ∨ 8443%Z = 8091%Z).
Proof.
  split; [reflexivity|].
  exact (port_forward_needs_default_port forward_config
    (MkEntrypoint EntryPointTypePortForward None None 8443) eq_refl eq_refl).
Defined.

Lemma probe_waits_for_connection_witness :
  probe_after sample_process (Ok ()) [] = 500%Z ∧
  probe_after sample_process (Ok ()) [(sample_env, sample_labels)] = 200%Z ∧
  ∃ c, c ∈ [(sample_env, sample_labels)] ∧ LReady ∈ c.2.
Proof.
  split; [reflexivity|]. split; [reflexivity|].
  destruct (probe_waits_for_connection sample_agent_env sample_process (Ok ()) [(sample_env, sample_labels)]
    sample_process_runs) as [H _].
  destruct (H eq_refl) as [_ [E|E]]; [discriminate E|exact E].
Defined.
