(* ===== verification/Features.v ===== *)
(** * Feature gates (pkg/features/features.go)

    The gates of cluster-proxy, on the part of k8s.io/component-base's
    featuregate that the addon-manager uses: [Add] of unversioned features,
    [SetFromMap] and [Enabled].  Go visits a map in an order of its own at
    every range; the orders are arguments here, and the properties hold for
    all of them. *)

From S2P Require Import Prelude GoStrings.

Local Open Scope string_scope.

Inductive prerelease := PreAlpha | Alpha | Beta | GA | Deprecated.

#[export] Instance prerelease_eq_dec : EqDecision prerelease.
Proof. solve_decision. Defined.

Record FeatureSpec := MkFeatureSpec {
  Default : bool;
  LockToDefault : bool;
  PreRelease : prerelease
}.

Abbreviation gates := (gmap string bool).

(** ** cluster-proxy's own *)

Definition ClusterProfile : string := "ClusterProfile".

Definition DefaultClusterProxyFeatureGates : list (string * FeatureSpec) :=
  [(ClusterProfile, MkFeatureSpec false false Alpha)].

(** ** featuregate *)

Definition allAlphaGate : string := "AllAlpha".
Definition allBetaGate : string := "AllBeta".

Definition defaultFeatures : list (string * FeatureSpec) :=
  [(allAlphaGate, MkFeatureSpec false false Alpha); (allBetaGate, MkFeatureSpec false false Beta)].

Record featureGate := MkGate {
  known : list (string * FeatureSpec);
  enabled : gates;
  enabledRaw : gates
}.

Definition NewFeatureGate : featureGate := MkGate defaultFeatures ∅ ∅.

(** [Add], for names that are not known yet. *)
Definition Add (f : featureGate) (features : list (string * FeatureSpec)) : featureGate :=
  MkGate (known f ++ features)%list (enabled f) (enabledRaw f).

(** The variable FeatureGates after the package's init. *)
Definition FeatureGates : featureGate := Add NewFeatureGate DefaultClusterProxyFeatureGates.

Definition spec_of (f : featureGate) (key : string) : option FeatureSpec :=
  snd <$> find (λ kv, String.eqb kv.1 key) (known f).

(** [setUnsetAlphaGates] and [setUnsetBetaGates], visiting [visited]. *)
Fixpoint setUnsetGates (stage : prerelease) (visited : list (string * FeatureSpec)) (val : bool)
    (en : gates) : gates :=
  match visited with
  | [] => en
  | (k, spec) :: rest =>
      setUnsetGates stage rest val
        (if String.eqb k allAlphaGate || String.eqb k allBetaGate then en
         else if bool_decide (PreRelease spec = stage) && bool_decide (en !! k = None)
         then <[k := val]> en else en)
  end.

Definition special (key : string) : option prerelease :=
  if String.eqb key allAlphaGate then Some Alpha
  else if String.eqb key allBetaGate then Some Beta else None.

Section set_gates.
Context (f : featureGate).
(** The order of the range over the known features, for a special gate. *)
Context (visited : string → list (string * FeatureSpec)).

(** The loop of [unsafeSetFromMap]: an unknown feature ends it.  None of the
    features has dependencies, and nothing is checked after the loop. *)
Fixpoint unsafeSetFromMap (en : gates) (errs : list goerror) (m : list (string * bool))
  : gates * list goerror :=
  match m with
  | [] => (en, errs)
  | (k, v) :: rest =>
      match spec_of f k with
      | None => (en, errs ++ [ENew ("unrecognized feature gate: " ++ k)])%list
      | Some spec =>
          if LockToDefault spec && negb (Bool.eqb (Default spec) v)
          then unsafeSetFromMap en
                 (errs ++ [ENew ("cannot set feature gate " ++ k ++ ", feature is locked")])%list rest
          else match special k with
               | Some stage =>
                   unsafeSetFromMap (<[k := v]> (setUnsetGates stage (visited k) v en)) errs rest
               | None =>
                   if bool_decide (PreRelease spec = PreAlpha)
                   then unsafeSetFromMap en
                          (errs ++ [ENew ("cannot set feature gate " ++ k ++ ", feature is PreAlpha")])%list rest
                   else unsafeSetFromMap (<[k := v]> en) errs rest
               end
      end
  end.
End set_gates.

(** [order] is the order of the range over the raw settings. *)
Definition SetFromMap (f : featureGate) (visited : string → list (string * FeatureSpec))
    (order : gates → list (string * bool)) (m : gates) : list goerror * featureGate :=
  let raw := m ∪ enabledRaw f in
  let '(en, errs) := unsafeSetFromMap f visited (enabled f) [] (order raw) in
  match errs with
  | [] => ([], MkGate (known f) en raw)
  | _ => (errs, MkGate (known f) (enabled f) raw)
  end.

(** [None] is the panic on a feature that is not registered. *)
Definition Enabled (f : featureGate) (key : string) : option bool :=
  match enabled f !! key with
  | Some v => Some v
  | None => Default <$> spec_of f key
  end.

(** An order visits what is there, once. *)
Definition visits (f : featureGate) (visited : string → list (string * FeatureSpec))
    (order : gates → list (string * bool)) : Prop :=
  (∀ k, visited k ≡ₚ known f) ∧ (∀ m, order m ≡ₚ map_to_list m).

(** ** Lemmas *)

(** A range over the known features sets the stage's unset ones. *)
Lemma setUnsetGates_other stage visited val key : ∀ en,
  key ∉ map fst visited → setUnsetGates stage visited val en !! key = en !! key.
Proof.
  induction visited as [|[k s] l IH]; intros en Hk; [done|].
  cbn [setUnsetGates]. cbn [map fst] in Hk. rewrite IH by set_solver.
  repeat case_match; try done. rewrite lookup_insert_ne; [done|]. set_solver.
Qed.

Lemma setUnsetGates_key stage visited val key spec : ∀ en,
  NoDup (map fst visited) → (key, spec) ∈ visited → key ≠ allAlphaGate → key ≠ allBetaGate →
  setUnsetGates stage visited val en !! key =
  if bool_decide (PreRelease spec = stage) then Some (default val (en !! key)) else en !! key.
Proof.
  induction visited as [|[k s] l IH]; intros en Hnd Hin Ha Hb; [set_solver|].
  cbn [map fst] in Hnd. apply NoDup_cons in Hnd as [Hk Hnd]. cbn [setUnsetGates].
  apply elem_of_cons in Hin as [[= -> ->]|Hin].
  - rewrite setUnsetGates_other by done.
    apply String.eqb_neq in Ha, Hb. rewrite Ha, Hb. cbn [orb].
    case_bool_decide as E1; [|done]. destruct (en !! k) as [b|] eqn:E2; cbn [andb].
    + by rewrite bool_decide_false, E2 by done.
    + by rewrite bool_decide_true, lookup_insert_eq by done.
  - rewrite (IH _ Hnd Hin Ha Hb).
    assert (k ≠ key) as Hne.
    { intros ->. apply Hk. apply list_elem_of_fmap. by exists (key, spec). }
    assert (∀ b : bool, (if b then <[k := val]> en else en) !! key = en !! key) as E
      by (intros []; by rewrite ?lookup_insert_ne).
    destruct (_ || _); [done|]. by rewrite E.
Qed.

Lemma gate_cases k :
  k = allAlphaGate ∨ k = allBetaGate ∨ k = ClusterProfile ∨
  (spec_of FeatureGates k = None ∧ k ∉ map fst (known FeatureGates)).
Proof.
  destruct (decide (k = allAlphaGate)) as [|N1]; [by left|].
  destruct (decide (k = allBetaGate)) as [|N2]; [by right; left|].
  destruct (decide (k = ClusterProfile)) as [|N3]; [by right; right; left|].
  do 3 right. split; [|change (k ∉ [allAlphaGate; allBetaGate; ClusterProfile]); set_solver].
  apply not_eq_sym, String.eqb_neq in N1, N2, N3.
  unfold spec_of. cbn [known FeatureGates Add NewFeatureGate defaultFeatures
    DefaultClusterProxyFeatureGates app find fst]. by rewrite N1, N2, N3.
Qed.

Lemma stage_sets visited k v en stage :
  (∀ k, visited k ≡ₚ known FeatureGates) → k ≠ ClusterProfile →
  (<[k := v]> (setUnsetGates stage (visited k) v en) : gates) !! ClusterProfile =
  if bool_decide (Alpha = stage) then Some (default v (en !! ClusterProfile))
  else en !! ClusterProfile.
Proof.
  intros Hv Hk. rewrite lookup_insert_ne by done.
  apply (setUnsetGates_key stage (visited k) v ClusterProfile (MkFeatureSpec false false Alpha)); [| |done|done].
  - rewrite (Hv k). apply (bool_decide_unpack _). by vm_compute.
  - rewrite (Hv k). do 2 right. left.
Qed.

(** The loop, on the gates of cluster-proxy: it fails exactly on a feature
    that is not known, and leaves the explicit setting of the feature, or
    else what was there, or else that of its stage. *)
Lemma unsafeSetFromMap_spec visited m : ∀ en,
  (∀ k, visited k ≡ₚ known FeatureGates) → NoDup (map fst m) →
  let '(en', errs) := unsafeSetFromMap FeatureGates visited en [] m in
  (errs = [] ↔ ∀ k, k ∈ map fst m → k ∈ map fst (known FeatureGates)) ∧
  (errs = [] → en' !! ClusterProfile =
     match (list_to_map m : gates) !! ClusterProfile, en !! ClusterProfile with
     | Some v, _ | None, Some v => Some v
     | None, None => (list_to_map m : gates) !! allAlphaGate
     end).
Proof.
  induction m as [|[k v] m IH]; intros en Hv Hnd.
  { split; [split; [set_solver|done]|]. intros _. cbn. by destruct (en !! ClusterProfile). }
  cbn [map fst] in Hnd. apply NoDup_cons in Hnd as [Hk Hnd].
  assert ((list_to_map m : gates) !! k = None) as Hn by by apply not_elem_of_list_to_map_1.
  assert (∀ errs : list goerror, k ∈ map fst (known FeatureGates) →
    (errs = [] ↔ ∀ k0, k0 ∈ map fst m → k0 ∈ map fst (known FeatureGates)) →
    (errs = [] ↔ ∀ k0, k0 ∈ map fst ((k, v) :: m) → k0 ∈ map fst (known FeatureGates))) as Hgrow
    by (intros errs ? ->; cbn [map fst]; set_solver).
  cbn [list_to_map foldr fst snd]. change (foldr _ _ m) with (list_to_map m : gates).
  destruct (gate_cases k) as [->|[->|[->|[Hs Hu]]]].
  - pose proof (stage_sets visited allAlphaGate v en Alpha Hv ltac:(done)) as Hset.
    specialize (IH (<[allAlphaGate := v]> (setUnsetGates Alpha (visited allAlphaGate) v en)) Hv Hnd).
    cbn [unsafeSetFromMap]. change (spec_of FeatureGates allAlphaGate) with (Some (MkFeatureSpec false false Alpha)).
    change (special allAlphaGate) with (Some Alpha). cbn [LockToDefault andb].
    destruct (unsafeSetFromMap _ _ _ _ m) as [en' errs]. destruct IH as [H1 H2].
    split; [apply Hgrow; [apply (bool_decide_unpack _); by vm_compute|done]|]. intros He. rewrite (H2 He), Hset.
    rewrite lookup_insert_ne, lookup_insert_eq by done. cbn.
    destruct (list_to_map m !! ClusterProfile); [done|]. by destruct (en !! ClusterProfile).
  - pose proof (stage_sets visited allBetaGate v en Beta Hv ltac:(done)) as Hset.
    specialize (IH (<[allBetaGate := v]> (setUnsetGates Beta (visited allBetaGate) v en)) Hv Hnd).
    cbn [unsafeSetFromMap]. change (spec_of FeatureGates allBetaGate) with (Some (MkFeatureSpec false false Beta)).
    change (special allBetaGate) with (Some Beta). cbn [LockToDefault andb].
    destruct (unsafeSetFromMap _ _ _ _ m) as [en' errs]. destruct IH as [H1 H2].
    split; [apply Hgrow; [apply (bool_decide_unpack _); by vm_compute|done]|]. intros He. rewrite (H2 He), Hset.
    by rewrite !lookup_insert_ne by done.
  - specialize (IH (<[ClusterProfile := v]> en) Hv Hnd).
    cbn [unsafeSetFromMap]. change (spec_of FeatureGates ClusterProfile) with (Some (MkFeatureSpec false false Alpha)).
    change (special ClusterProfile) with (@None prerelease). cbn [LockToDefault andb PreRelease].
    rewrite bool_decide_false by done.
    destruct (unsafeSetFromMap _ _ _ _ m) as [en' errs]. destruct IH as [H1 H2].
    split; [apply Hgrow; [apply (bool_decide_unpack _); by vm_compute|done]|]. intros He.
    by rewrite (H2 He), Hn, !lookup_insert_eq.
  - cbn [unsafeSetFromMap]. rewrite Hs. split; [|done]. split; [done|].
    intros H. exfalso. apply Hu, H. cbn. set_solver.
Qed.

(** ** Properties *)

(** Setting the feature gates does what the settings say, whatever order
    the maps are visited in: it fails exactly on a feature nobody registered
    (and then changes no gate), and otherwise ClusterProfile is on iff it
    was switched on itself, or all alpha features were and it was not
    switched off. *)
Theorem feature_gates_order_irrelevant visited order m :
  visits FeatureGates visited order →
  let '(errs, f) := SetFromMap FeatureGates visited order m in
  (errs = [] ↔ ∀ k, is_Some (m !! k) → k ∈ [allAlphaGate; allBetaGate; ClusterProfile]) ∧
  Enabled f ClusterProfile =
    Some (if bool_decide (errs = [])
          then default (default false (m !! allAlphaGate)) (m !! ClusterProfile) else false).
Proof.
  intros [Hv Ho]. unfold SetFromMap. cbn [enabledRaw FeatureGates Add NewFeatureGate].
  rewrite map_union_empty.
  assert (NoDup (map fst (order m))) as Hnd by (rewrite (Ho m); apply NoDup_fst_map_to_list).
  assert (list_to_map (order m) = m) as Hm.
  { rewrite <- (list_to_map_to_list m) at 2. by apply list_to_map_proper. }
  pose proof (unsafeSetFromMap_spec visited (order m) ∅ Hv Hnd) as H. rewrite Hm in H.
  change (enabled FeatureGates) with (∅ : gates).
  destruct (unsafeSetFromMap _ _ _ _ _) as [en errs]. destruct H as [He Hen].
  assert (errs = [] ↔ ∀ k, is_Some (m !! k) → k ∈ [allAlphaGate; allBetaGate; ClusterProfile]) as Hk.
  { rewrite He. change (map fst (known FeatureGates)) with [allAlphaGate; allBetaGate; ClusterProfile].
    split; intros H k Hin; apply H.
    - destruct Hin as [v Hin]. apply list_elem_of_fmap. exists (k, v). split; [done|].
      rewrite (Ho m). by apply elem_of_map_to_list.
    - apply list_elem_of_fmap in Hin as ([k' v] & -> & Hin). rewrite (Ho m) in Hin.
      apply elem_of_map_to_list in Hin. by eexists. }
  destruct errs as [|e errs].
  - split; [done|]. rewrite bool_decide_true by done. unfold Enabled. cbn [enabled].
    rewrite (Hen eq_refl), lookup_empty. cbn.
    destruct (m !! ClusterProfile); [done|]. by destruct (m !! allAlphaGate).
  - split; [done|]. by rewrite bool_decide_false by done.
Qed.

(** ** Concrete runs *)

Lemma gates_visited : visits FeatureGates (λ _, known FeatureGates) map_to_list.
Proof. done. Qed.

(** All alpha features, but not this one. *)
Definition sample_gates : gates := <[ClusterProfile := false]> {[allAlphaGate := true]}.

Lemma feature_gates_order_irrelevant_witness :
  let '(errs, f) := SetFromMap FeatureGates (λ _, known FeatureGates) map_to_list sample_gates in
  errs = [] ∧ Enabled f ClusterProfile = Some false.
Proof.
  pose proof (feature_gates_order_irrelevant (λ _, known FeatureGates) map_to_list sample_gates
    gates_visited) as H.
  destruct (SetFromMap _ _ _ _) as [errs f] eqn:E. vm_compute in E. injection E as <- <-.
  split; [reflexivity|]. exact (proj2 H).
Defined.
