(* ===== verification/AddonManager.v ===== *)
(** * The addon-manager's command (cmd/addon-manager/main.go)

    The hub's manager process from its arguments to its exit: the flags, the
    feature gates, the signer, the registration of the controllers and of
    the agent add-on ([NewAgentAddon]), the probes, and the start.  A start-up
    is a computation that reads and writes the API server, records what it
    sets up, and may end the process; the properties say what a process that
    got as far as starting has set up, and that the parts of the program
    that need the signer are given the same one. *)

From S2P Require Import Prelude GoStrings Sha256 Naming Http Manifests Api Controller.
From S2P Require Import Pem Certificates Agent GoFlag Features.

Local Open Scope string_scope.

(** ** Start-up computations *)

(** How a process ends: [os.Exit], a panic; [Spins] is a start-up that used
    up the fuel of the signer's retries. *)
Inductive stop := Exit (code : Z) | Panics | Spins.

Section process.
Context {Act : Type}.

(** The result, what was set up in order, and the API server. *)
Definition P (A : Type) : Type := world → (stop + A) * (list Act * world).

Definition pret {A} (a : A) : P A := λ w, (inr a, ([], w)).
Definition exit {A} (code : Z) : P A := λ w, (inl (Exit code), ([], w)).
Definition act (a : Act) : P unit := λ w, (inr (), ([a], w)).

Definition pbind {A B} (m : P A) (f : A → P B) : P B := λ w,
  match m w with
  | (inl s, (t, w1)) => (inl s, (t, w1))
  | (inr a, (t, w1)) => let '(r, (t2, w2)) := f a w1 in (r, (t ++ t2, w2))%list
  end.

(** [if err != nil { log; os.Exit(1) }]. *)
Definition must {A} (r : result A) : P A :=
  match r with Ok a => pret a | Err _ => exit 1 end.

(** The same, for a call that talks to the API server. *)
Definition must_api {A} (m : M A) : P A := λ w,
  match m w with
  | (Done a, w1) => (inr a, ([], w1))
  | (Fails _, w1) => (inl (Exit 1), ([], w1))
  | (Panicked, w1) => (inl Panics, ([], w1))
  | (OutOfFuel, w1) => (inl Spins, ([], w1))
  end.
End process.

Declare Scope process_scope.
Delimit Scope process_scope with process.
Notation "x <- m ;; f" := (pbind m (λ x, f))
  (at level 100, m at next level, right associativity) : process_scope.
Notation "m ;;; f" := (pbind m (λ _, f))
  (at level 100, right associativity) : process_scope.

(** ** Flags *)

(** The package variables have their initial values as defaults. *)
Definition addon_manager_flags : flag_set :=
  list_to_map
    [("metrics-bind-address", StringFlag ":58080");
     ("health-probe-bind-address", StringFlag ":58081");
     ("leader-elect", BoolFlag false);
     ("signer-secret-namespace", StringFlag "default");
     ("signer-secret-name", StringFlag "cluster-proxy-signer");
     ("agent-image-name", StringFlag "");
     ("enable-kube-api-proxy", BoolFlag true);
     ("enable-service-proxy", BoolFlag true);
     ("enable-network-policies", BoolFlag false);
     ("agent-install-namespace", StringFlag (@DefaultAddonInstallNamespace default_package_config));
     ("image-pull-policy", StringFlag "IfNotPresent");
     ("feature-gates", MapFlag ∅)].

(** ** The agent add-on *)

Record agent_addon := MkAddon {
  aa_name : string;
  aa_registrations : list RegistrationConfig;
  aa_approve : ManagedCluster → bool;
  aa_role : string * list PolicyRule;             (* of the cluster's namespace *)
  aa_cluster_role : string * list PolicyRule;
  (* the signer name, the authority's key and certificate, the expiry in seconds *)
  aa_sign : string * string * string * Z;
  aa_config_gvrs : list (string * string * string);
  (* the configuration, the add-on's deployment configuration, the cluster,
     the add-on's namespace, and the variable AgentImageName *)
  aa_values : result (ManagedProxyConfiguration * ProxyAgentSpec) → option AddOnDeploymentConfig →
              ManagedCluster → string → string → M (gmap string value * string);
  aa_install_namespace : result string → string * option goerror
}.

Section new_agent_addon.
Context `{C : Crypto} `{Conf : PackageConfig}.
(** [x509.MarshalPKCS1PrivateKey]; the libraries behind the chart's values. *)
Context (MarshalPKCS1PrivateKey : PrivateKey → string).
Context (ingress : object → list string) (Unmarshal : string → result (gmap string string)).
Context (OverrideImageByAnnotation : gmap string string → string → result string).
Context (resources : AddOnDeploymentConfig → result (gmap string go_value)).

(** [GetPEMBytes] of the authority: its keys are RSA. *)
Definition GetPEMBytes (ca : list Certificate * PrivateKey) : string * string :=
  (encode_certs ca.1, EncodeToMemory "RSA PRIVATE KEY" (MarshalPKCS1PrivateKey ca.2)).

(** [build] is the framework's [BuildHelmAgentAddon]. *)
Definition NewAgentAddon (build : agent_addon → result unit) (signer : selfSigner)
    (signerNamespace : string) (enableKubeApiProxy enableServiceProxy enableNetworkPolicies : bool)
  : result agent_addon :=
  let '(caCertData, caKeyData) := GetPEMBytes (CA signer) in
  let addon :=
    MkAddon "cluster-proxy" (registration_configs (Certificates.CAData signer)) CSRApproveCheck
      ("cluster-proxy-addon-agent", [MkRule ["coordination.k8s.io"] ["*"] ["leases"]])
      ("cluster-proxy-addon-agent-tokenreview",
       [MkRule ["authentication.k8s.io"] ["create"] ["tokenreviews"]])
      (ProxyAgentSignerName, caKeyData, caCertData, 3600 * 24 * 180)%Z
      [("proxy.open-cluster-management.io", "v1alpha1", "managedproxyconfigurations");
       ("addon.open-cluster-management.io", "v1beta1", "addondeploymentconfigs")]
      (λ getConfig deploymentConfig cluster addonNamespace AgentImageName,
         chart_values ingress Unmarshal OverrideImageByAnnotation resources getConfig signerNamespace
           caCertData enableKubeApiProxy enableServiceProxy enableNetworkPolicies
           (Ok deploymentConfig) cluster addonNamespace AgentImageName)
      agentInstallNamespaceFunc in
  _ ← build addon; Ok addon.
End new_agent_addon.

(** ** Registration of the controllers *)

(** [RegisterClusterManagementAddonReconciler]: the reconciler's fields.
    [libs] carries the library functions that the reconciler calls; the
    rotations sign with the signer's authority and are owned by the owner. *)
Section register.
Context `{C : Crypto}.
Context (libs : reconciler).
Context (EnsureTargetCertKeyPair : option OwnerReference → rotation → list Certificate * PrivateKey →
                                   result unit).

Definition RegisterClusterManagementAddonReconciler (signer : selfSigner) (policy : string)
    (owner : option OwnerReference) (tls : TLSConfig) : reconciler :=
  MkReconciler (specHash libs) (ObjectKinds libs) (Certificates.CAData signer) policy (Some tls)
    (cipherString libs) (versionString libs)
    (λ r, EnsureTargetCertKeyPair owner r (CA signer))
    (Controller.ingress libs) (status_replicas libs) (pem_decode libs) (parse_cert libs)
    (time_string libs) (qualifiedName libs) (validLabelValue libs) (now libs).
End register.

(** [managedProxyConfigurationOwnerHandler]: the requests for an event of an
    object, one per owner reference of the kind, in whichever version;
    configurations have no namespace.  A version that does not parse ends
    the walk. *)
Definition ParseGroupVersion (gv : string) : option (string * string) :=
  match Split "/" gv with
  | [""] => Some ("", "")
  | [v] => Some ("", v)
  | [g; v] => Some (g, v)
  | _ => None
  end.

Fixpoint owner_requests (refs : list OwnerReference) : list string :=
  match refs with
  | [] => []
  | ref :: rest =>
      match ParseGroupVersion (owner_apiVersion ref) with
      | None => []
      | Some (group, _) =>
          if String.eqb (owner_kind ref) "ManagedProxyConfiguration" &&
             String.eqb group "proxy.open-cluster-management.io"
          then owner_name ref :: owner_requests rest else owner_requests rest
      end
  end.

(** An object owned by a configuration asks for that configuration, with the
    references of the signer's secrets and those of the rendered resources. *)
Lemma owner_requests_config config :
  owner_requests [NewOwnerReferenceFromConfig config] = [mpc_name config] ∧
  owner_requests [newOwnerReference config] = [mpc_name config].
Proof. split; reflexivity. Qed.

(** ** The process *)

Record manager_options := MkOptions {
  BindAddress : string;
  HealthProbeBindAddress : string;
  LeaderElection : bool;
  LeaderElectionID : string
}.

(** What happens once the manager runs: the election, an error of the
    add-on manager, the end of [mgr.Start]. *)
Inductive event := Elected | AddonManagerFails | ManagerReturns (r : result unit).

Inductive controller :=
| ManagedProxyConfigurationController (r : reconciler)
| ClusterProfileController.

(** What a process sets up and starts. *)
Inductive action :=
| ASetConfig (agentImageName installNamespace : string)  (* the package variables *)
| ANewManager (o : manager_options)
| AWatchTLSConfig (namespace : string)
| AInformer (kind : string)                       (* of the informer factory *)
| ARegister (c : controller)
| AHealthz (name : string)
| AReadyz (name : string)
| AAddAgent (a : agent_addon)
| AStartInformers
| AStartManager
| AStartAddonManager.

(** The calls' results; a client's constructor fails or not. *)
Record manager_env := MkManagerEnv {
  e_library_flags : flag_set;
  e_args : list string;
  e_visited : string → list (string * FeatureSpec);
  e_order : gates → list (string * bool);
  e_kubeConfig : bool;
  e_newManager : manager_options → result unit;
  e_newNativeClient : result unit;
  e_newAddonClient : result unit;
  e_newProxyClient : result unit;
  e_getConfiguration : string → result ManagedProxyConfiguration;
  e_podNamespace : string;
  e_watchTLSConfig : string → result TLSConfig;
  e_setup : string → result unit;                 (* a controller, by name *)
  e_addCheck : string → result unit;
  e_newAddonManager : result unit;
  e_build : agent_addon → result unit;
  e_addAgent : agent_addon → result unit;
  e_events : list event
}.

(** The goroutine that waits for the election, and the end of main. *)
Fixpoint run_phase (elected : bool) (events : list event) : list action * option Z :=
  match events with
  | [] => ([], None)
  | Elected :: rest =>
      let '(t, code) := run_phase true rest in
      (if elected then t else AStartAddonManager :: t, code)
  | AddonManagerFails :: rest => if elected then ([], Some 1%Z) else run_phase elected rest
  | ManagerReturns (Err _) :: _ => ([], Some 1%Z)
  | ManagerReturns (Ok _) :: _ => ([], Some 0%Z)
  end.

Definition running (events : list event) : P (Act := action) unit := λ w,
  let '(t, code) := run_phase false events in
  (match code with Some c => inl (Exit c) | None => inr () end, (t, w)).

Section main.
Context `{C : Crypto}.
Context (MarshalPKCS1PrivateKey : PrivateKey → string).
Context (ingress : object → list string) (Unmarshal : string → result (gmap string string)).
Context (OverrideImageByAnnotation : gmap string string → string → result string).
Context (resources : AddOnDeploymentConfig → result (gmap string go_value)).
Context (libs : reconciler).
Context (EnsureTargetCertKeyPair : option OwnerReference → rotation → list Certificate * PrivateKey →
                                   result unit).

Local Open Scope process_scope.

(** A controller is registered when its set-up succeeds. *)
Definition setup (env : manager_env) (name : string) (c : controller) : P unit :=
  must (e_setup env name);;; act (ARegister c).

Definition add_agent (env : manager_env) (a : agent_addon) : P unit :=
  must (e_addAgent env a);;; act (AAddAgent a).

Definition addon_manager_main (fuel : nat) (env : manager_env) : P unit :=
  match Parse (addon_manager_flags ∪ e_library_flags env) (e_args env) with
  | Err _ => exit 2                               (* flag.ExitOnError *)
  | Ok fs =>
  act (ASetConfig (string_value fs "agent-image-name") (string_value fs "agent-install-namespace"));;;
  let '(errs, featureGates) :=
    SetFromMap FeatureGates (e_visited env) (e_order env) (map_value fs "feature-gates") in
  if negb (bool_decide (errs = [])) then exit 1
  else
  (if e_kubeConfig env then pret () else exit 1);;;
  let options := MkOptions (string_value fs "metrics-bind-address")
                   (string_value fs "health-probe-bind-address") (bool_value fs "leader-elect")
                   "cluster-proxy-addon-manager" in
  must (e_newManager env options);;;
  act (ANewManager options);;;
  must (e_newNativeClient env);;;
  must (e_newAddonClient env);;;
  must (e_newProxyClient env);;;
  proxyConfig <- must (e_getConfiguration env "cluster-proxy");;
  let ownerRef := NewOwnerReferenceFromConfig proxyConfig in
  selfSigner <- must_api (NewSelfSignerFromSecretOrGenerate fuel
                  (string_value fs "signer-secret-namespace") (string_value fs "signer-secret-name")
                  (Some ownerRef));;
  (if negb (String.length (e_podNamespace env) =? 0)%nat then pret ()
   else exit 255);;;                              (* klog.Fatalf *)
  sdkTLSConfig <- must (e_watchTLSConfig env (e_podNamespace env));;
  act (AWatchTLSConfig (e_podNamespace env));;;
  act (AInformer "Secret");;;
  setup env "ClusterManagementAddonReconciler"
    (ManagedProxyConfigurationController
       (RegisterClusterManagementAddonReconciler libs EnsureTargetCertKeyPair selfSigner
          (string_value fs "image-pull-policy") (Some ownerRef) sdkTLSConfig));;;
  match Enabled featureGates ClusterProfile with
  | None => λ w, (inl Panics, ([], w))
  | Some true => setup env "ClusterProfileReconciler" ClusterProfileController
  | Some false => pret ()
  end;;;
  must (e_addCheck env "healthz");;;
  act (AHealthz "healthz");;;
  must (e_addCheck env "readyz");;;
  act (AReadyz "readyz");;;
  must (e_newAddonManager env);;;
  clusterProxyAddon <- must (NewAgentAddon
      (Conf := {| DefaultAddonInstallNamespace := string_value fs "agent-install-namespace" |})
      MarshalPKCS1PrivateKey ingress Unmarshal OverrideImageByAnnotation resources
      (e_build env) selfSigner (string_value fs "signer-secret-namespace")
      (bool_value fs "enable-kube-api-proxy") (bool_value fs "enable-service-proxy")
      (bool_value fs "enable-network-policies"));;
  add_agent env clusterProxyAddon;;;
  act AStartInformers;;;
  act AStartManager;;;
  running (e_events env)
  end.
End main.

(** ** Lemmas *)

(** [Q] holds of the outcome of [m] in [w]. *)
Definition post {Act A} (m : P (Act := Act) A) (w : world)
    (Q : stop + A → list Act → world → Prop) : Prop :=
  match m w with (r, (t, w')) => Q r t w' end.

Lemma post_bind {Act A B} (m : P (Act := Act) A) (f : A → P B) w Q :
  post m w (λ r t w1,
    match r with
    | inl s => Q (inl s) t w1
    | inr a => post (f a) w1 (λ r2 t2 w2, Q r2 (t ++ t2)%list w2)
    end) → post (pbind m f) w Q.
Proof.
  unfold post, pbind. destruct (m w) as [[s|a] [t w1]]; [done|].
  by destruct (f a w1) as [r [t2 w2]].
Qed.

Lemma post_act {Act} (a : Act) w Q : Q (inr ()) [a] w → post (act a) w Q.
Proof. done. Qed.

Lemma post_must {Act A} (r : result A) w (Q : stop + A → list Act → world → Prop) :
  (∀ e, r = Err e → Q (inl (Exit 1)) [] w) → (∀ a, r = Ok a → Q (inr a) [] w) → post (must r) w Q.
Proof. intros H1 H2. destruct r as [a|e]; [by apply H2|by eapply H1]. Qed.

Lemma post_guard {Act} (b : bool) code w (Q : stop + unit → list Act → world → Prop) :
  (b = false → Q (inl (Exit code)) [] w) → (b = true → Q (inr ()) [] w) →
  post (if b then pret () else exit code) w Q.
Proof. intros H1 H2. destruct b; [by apply H2|by apply H1]. Qed.

Lemma post_must_api {Act A} (m : M A) w (Q : stop + A → list Act → world → Prop) :
  (∀ s w1, s ≠ Exit 0 → (s = Spins → (m w).1 = OutOfFuel) → Q (inl s) [] w1) → (∀ a w1, m w = (Done a, w1) → Q (inr a) [] w1) →
  post (must_api m) w Q.
Proof.
  intros H1 H2. unfold post, must_api. destruct (m w) as [[a|e| |] w1] eqn:E; [by apply H2|..]; by apply H1.
Qed.

Lemma post_run {Act A} (m : P (Act := Act) A) w Q r t w' :
  post m w Q → m w = (r, (t, w')) → Q r t w'.
Proof. unfold post. intros H E. by rewrite E in H. Qed.

(** What is not a start. *)
Definition sets_up (a : action) : bool :=
  match a with AStartInformers | AStartManager | AStartAddonManager => false | _ => true end.

(** All that is set up before the start, in order. *)
Definition setup_trace (fs : flag_set) (podNamespace : string) (rec : reconciler) (profile : bool)
    (addon : agent_addon) : list action :=
  ([ASetConfig (string_value fs "agent-image-name") (string_value fs "agent-install-namespace");
    ANewManager (MkOptions (string_value fs "metrics-bind-address")
      (string_value fs "health-probe-bind-address") (bool_value fs "leader-elect")
      "cluster-proxy-addon-manager");
    AWatchTLSConfig podNamespace; AInformer "Secret";
    ARegister (ManagedProxyConfigurationController rec)] ++
   (if profile then [ARegister ClusterProfileController] else []) ++
   [AHealthz "healthz"; AReadyz "readyz"; AAddAgent addon])%list.

Lemma setup_trace_holds fs ns rec profile addon :
  forallb sets_up (setup_trace fs ns rec profile addon) = true ∧
  ARegister (ManagedProxyConfigurationController rec) ∈ setup_trace fs ns rec profile addon ∧
  AAddAgent addon ∈ setup_trace fs ns rec profile addon ∧
  AHealthz "healthz" ∈ setup_trace fs ns rec profile addon ∧
  AReadyz "readyz" ∈ setup_trace fs ns rec profile addon ∧
  AInformer "Secret" ∈ setup_trace fs ns rec profile addon ∧
  (ARegister ClusterProfileController ∈ setup_trace fs ns rec profile addon ↔ profile = true) ∧
  (∀ a, AAddAgent a ∈ setup_trace fs ns rec profile addon → a = addon).
Proof. unfold setup_trace. destruct profile; split_and!; set_solver. Qed.

Section main_lemmas.
Context `{L : CryptoLaws}.
Context (MarshalPKCS1PrivateKey : PrivateKey → string).
Context (ingress : object → list string) (Unmarshal : string → result (gmap string string)).
Context (OverrideImageByAnnotation : gmap string string → string → result string).
Context (resources : AddOnDeploymentConfig → result (gmap string go_value)).
Context (libs : reconciler).
Context (EnsureTargetCertKeyPair : option OwnerReference → rotation → list Certificate * PrivateKey →
                                   result unit).

Abbreviation main := (addon_manager_main MarshalPKCS1PrivateKey ingress Unmarshal
  OverrideImageByAnnotation resources libs EnsureTargetCertKeyPair).

(** What a process that starts has gone through. *)
Record started (fuel : nat) (env : manager_env) (w w' : world) (t : list action) : Type := MkStarted {
  st_flags : flag_set;
  st_gates : featureGate;
  st_config : ManagedProxyConfiguration;
  st_signer : selfSigner;
  st_tls : TLSConfig;
  st_profile : bool;
  st_addon : agent_addon;
  st_events : list action;
  st_parsed : Parse (addon_manager_flags ∪ e_library_flags env) (e_args env) = Ok st_flags;
  st_set : SetFromMap FeatureGates (e_visited env) (e_order env) (map_value st_flags "feature-gates")
           = ([], st_gates);
  st_profile_gate : Enabled st_gates ClusterProfile = Some st_profile;
  st_get : e_getConfiguration env "cluster-proxy" = Ok st_config;
  st_loaded : NewSelfSignerFromSecretOrGenerate fuel
      (string_value st_flags "signer-secret-namespace") (string_value st_flags "signer-secret-name")
      (Some (NewOwnerReferenceFromConfig st_config)) w = (Done st_signer, w');
  st_new : NewAgentAddon
      (Conf := {| DefaultAddonInstallNamespace := string_value st_flags "agent-install-namespace" |})
      MarshalPKCS1PrivateKey ingress Unmarshal OverrideImageByAnnotation resources
      (e_build env) st_signer (string_value st_flags "signer-secret-namespace")
      (bool_value st_flags "enable-kube-api-proxy") (bool_value st_flags "enable-service-proxy")
      (bool_value st_flags "enable-network-policies") = Ok st_addon;
  st_run : st_events = (run_phase false (e_events env)).1;
  st_trace : t = (setup_trace st_flags (e_podNamespace env)
                    (RegisterClusterManagementAddonReconciler libs EnsureTargetCertKeyPair st_signer
                        (string_value st_flags "image-pull-policy")
                        (Some (NewOwnerReferenceFromConfig st_config)) st_tls) st_profile st_addon ++
                  AStartInformers :: AStartManager :: st_events)%list
}.

Ltac nothing_started := left; split; [by eexists|by repeat case_match].

Ltac step :=
  match goal with
  | |- post (pbind _ _) _ _ => apply post_bind
  | |- post (setup _ _ _) _ _ => unfold setup
  | |- post (add_agent _ _) _ _ => unfold add_agent
  | |- post (act _) _ _ => apply post_act
  | |- post (must _) _ _ => apply post_must; [intros ? _; nothing_started|intros ? ?]
  | |- post (must_api _) _ _ => apply post_must_api; [intros ? ? ? Hspin; left; split; [eexists; split_and!; [done|done|intros ? ->; by eapply load_fuel_enough, Hspin]|done]|intros ? ? ?]
  | |- post (if _ then pret () else exit _) _ _ => apply post_guard; [intros _; nothing_started|intros ?]
  end.

(** A process starts after everything is in place, or starts nothing. *)
Lemma main_trace fuel env w :
  post (main fuel env) w (λ r t w',
    (∃ s, r = inl s ∧ s ≠ Exit 0 ∧ ((length (schedule w) < fuel)%nat → s ≠ Spins)) ∧ forallb sets_up t = true ∨ inhabited (started fuel env w w' t)).
Proof.
  unfold addon_manager_main.
  destruct (Parse _ _) as [fs|] eqn:Hfs; [|nothing_started].
  destruct (SetFromMap _ _ _ _) as [errs gate] eqn:Hg.
  step. step. case_bool_decide as He; cbn [negb]; [|nothing_started]. subst errs.
  repeat step.
  destruct (Enabled gate ClusterProfile) as [b|] eqn:Hb; [|nothing_started].
  assert (∀ Q : stop + unit → list action → world → Prop,
    Q (inl (Exit 1)) [] w1 → Q (inr ()) (if b then [ARegister ClusterProfileController] else []) w1 →
    post (if b then setup env "ClusterProfileReconciler" ClusterProfileController else pret ()) w1 Q)
    as Hp.
  { intros Q HQ1 HQ2. destruct b; [|done]. apply post_bind, post_must; by intros. }
  apply Hp; [nothing_started|].
  repeat step.
  unfold post, running. destruct (run_phase false (e_events env)) as [t2 code] eqn:Hr.
  right. constructor. eapply (MkStarted _ _ _ _ _ fs gate _ _ _ b); try eassumption; [by rewrite Hr|by destruct b].
Qed.

Lemma NewAgentAddon_ok `{Conf : PackageConfig} build s ns kube sp np addon :
  NewAgentAddon MarshalPKCS1PrivateKey ingress Unmarshal OverrideImageByAnnotation resources
    build s ns kube sp np = Ok addon →
  aa_registrations addon = registration_configs (Certificates.CAData s) ∧
  aa_sign addon = (ProxyAgentSignerName, (GetPEMBytes MarshalPKCS1PrivateKey (CA s)).2,
                   (GetPEMBytes MarshalPKCS1PrivateKey (CA s)).1, 15552000%Z) ∧
  aa_values addon = λ getConfig deploymentConfig,
    the_chart ingress Unmarshal OverrideImageByAnnotation resources getConfig ns
      (GetPEMBytes MarshalPKCS1PrivateKey (CA s)).1 kube sp np deploymentConfig.
Proof.
  unfold NewAgentAddon. destruct (GetPEMBytes _ _) as [cert key]. intros H.
  apply bind_ok in H as (u & _ & H). injection H as <-. done.
Qed.

(** The add-on manager starts once, and not before the election. *)
Lemma run_phase_elected events : ∀ e t code,
  run_phase e events = (t, code) →
  (t = [] ∨ t = [AStartAddonManager]) ∧ (e = true → t = []) ∧ (t ≠ [] → Elected ∈ events).
Proof.
  induction events as [|ev events IH]; intros e t code H; cbn [run_phase] in H.
  - injection H as <- _. set_solver.
  - destruct ev as [| |[|]].
    + destruct (run_phase true events) as [t1 c1] eqn:E. injection H as <- _.
      destruct (IH _ _ _ E) as (_ & Hn & _). rewrite (Hn eq_refl). destruct e; set_solver.
    + destruct e; [injection H as <- _; set_solver|].
      destruct (IH _ _ _ H) as (H1 & H2 & H3). split; [done|]. split; [done|]. set_solver.
    + injection H as <- _. set_solver.
    + injection H as <- _. set_solver.
Qed.

Lemma run_phase_actions events a :
  a ∈ (run_phase false events).1 → a = AStartAddonManager ∧ Elected ∈ events.
Proof.
  destruct (run_phase false events) as [t code] eqn:E.
  destruct (run_phase_elected _ _ _ _ E) as ([->| ->] & _ & He); cbn; [by intros ?%not_elem_of_nil|].
  intros ->%list_elem_of_singleton. split; [done|]. by apply He.
Qed.

Lemma started_cases fuel env w r t w' :
  main fuel env w = (r, (t, w')) → AStartManager ∈ t → inhabited (started fuel env w w' t).
Proof.
  intros H Hin. destruct (post_run _ _ _ _ _ _ (main_trace fuel env w) H) as [[_ Hs]|Hs]; [|exact Hs].
  exfalso. apply list_elem_of_In in Hin. by apply (proj1 (forallb_forall _ _) Hs) in Hin.
Qed.

(** The authority's certificate, as the agents' chart carries it, parses
    back to the certificate in the signer secret. *)
Lemma authority_parses w k s o :
  holds_authority w k s o →
  ∃ block rest, Decode (secret_data o TLSCACert) = Some (block, rest) ∧
    ParseCertificate (b_bytes block) = Ok (caCert s) ∧
    ParseCertsPEM (GetPEMBytes MarshalPKCS1PrivateKey (CA s)).1 = Ok [caCert s].
Proof.
  intros (_ & s0 & Hs & Hca). unfold NewSelfSignerWithCAData in Hs.
  destruct (Decode (secret_data o TLSCACert)) as [[block rest]|]; [|done].
  apply bind_done in Hs as (cert & w1 & Hc & Hs). apply wrap_done in Hc as [Hc ->].
  destruct (Decode (secret_data o TLSCAKey)) as [[kb ?]|]; [|done].
  apply bind_done in Hs as (key & w2 & Hk & Hs). apply wrap_done in Hk as [Hk ->].
  destruct key as [key|]; [|done]. injection Hs as <-.
  destruct s as [c0 k0 n0]. injection Hca as <- _. exists block, rest. split; [done|]. split; [done|].
  cbn [GetPEMBytes CA fst caCert NewSelfSignerWithCA]. apply ParseCertsPEM_encode; [|done].
  constructor; [|constructor]. by eapply Parse_parsed.
Qed.
End main_lemmas.

(** ** Properties *)

Section main_theorems.
Context `{L : CryptoLaws}.
Context (MarshalPKCS1PrivateKey : PrivateKey → string).
Context (ingress : object → list string) (Unmarshal : string → result (gmap string string)).
Context (OverrideImageByAnnotation : gmap string string → string → result string).
Context (resources : AddOnDeploymentConfig → result (gmap string go_value)).
Context (libs : reconciler).
Context (EnsureTargetCertKeyPair : option OwnerReference → rotation → list Certificate * PrivateKey →
                                   result unit).

Abbreviation main := (addon_manager_main MarshalPKCS1PrivateKey ingress Unmarshal
  OverrideImageByAnnotation resources libs EnsureTargetCertKeyPair).

(** A manager process that cannot be set up starts nothing, neither
    informers nor controllers nor the add-on manager, and ends with a
    failure; and start-up itself always ends, however often other managers
    get in the way of loading the signer. *)
Theorem failed_setup_starts_nothing fuel env w r t w' :
  main fuel env w = (r, (t, w')) → AStartManager ∉ t →
  (AStartInformers ∉ t) ∧ (AStartAddonManager ∉ t) ∧
  ∃ s, r = inl s ∧ s ≠ Exit 0 ∧ ((length (schedule w) < fuel)%nat → s ≠ Spins).
Proof.
  intros H Hn.
  destruct (post_run _ _ _ _ _ _ (main_trace MarshalPKCS1PrivateKey ingress Unmarshal
    OverrideImageByAnnotation resources libs EnsureTargetCertKeyPair fuel env w) H) as [[Hr Hs]|[S]].
  - assert (∀ a, sets_up a = false → a ∉ t) as Hno.
    { intros a Ha Hin. apply list_elem_of_In in Hin.
      apply (proj1 (forallb_forall _ _) Hs) in Hin. congruence. }
    split; [by apply Hno|]. split; [by apply Hno|done].
  - exfalso. apply Hn. rewrite (st_trace _ _ _ _ _ _ _ _ _ _ _ _ S). set_solver.
Qed.

(** C21: a manager that starts has everything in place before: the signer it
    loaded is the authority in the signer secret, and that one authority
    serves the reconciler (certificates of the proxy-servers, their CA), the
    registration of the agents and the signing of their requests; the
    probes are answered, the informer that the rotations read is among those
    started; and the add-on manager runs only once the process is elected. *)
Theorem started_manager_complete fuel env w r t w' :
  keyed w → main fuel env w = (r, (t, w')) → AStartManager ∈ t →
  ∃ fs config signer secret rec addon pre later,
    Parse (addon_manager_flags ∪ e_library_flags env) (e_args env) = Ok fs ∧
    e_getConfiguration env "cluster-proxy" = Ok config ∧
    t = (pre ++ AStartInformers :: AStartManager :: later)%list ∧ forallb sets_up pre = true ∧
    holds_authority w' ("Secret", string_value fs "signer-secret-namespace",
                        string_value fs "signer-secret-name") signer secret ∧
    owned_by (Some (NewOwnerReferenceFromConfig config)) secret ∧
    ARegister (ManagedProxyConfigurationController rec) ∈ pre ∧
    Controller.CAData rec = Certificates.CAData signer ∧
    (∀ x, rotate rec x
          = EnsureTargetCertKeyPair (Some (NewOwnerReferenceFromConfig config)) x (CA signer)) ∧
    AAddAgent addon ∈ pre ∧ aa_registrations addon = registration_configs (Certificates.CAData signer) ∧
    aa_sign addon = (ProxyAgentSignerName, (GetPEMBytes MarshalPKCS1PrivateKey (CA signer)).2,
                     (GetPEMBytes MarshalPKCS1PrivateKey (CA signer)).1, 15552000%Z) ∧
    AHealthz "healthz" ∈ pre ∧ AReadyz "readyz" ∈ pre ∧ AInformer "Secret" ∈ pre ∧
    (AStartAddonManager ∈ later → Elected ∈ e_events env).
Proof.
  intros Hk H Hin. destruct (started_cases _ _ _ _ _ _ _ _ _ _ _ _ _ H Hin) as [[fs gate config s tls b
    addon later Hp _ _ Hc Hs Ha Hr Ht]].
  destruct (signer_agrees _ _ _ _ _ _ _ Hk Hs) as (o & Ho & Hown).
  apply NewAgentAddon_ok in Ha as (Hreg & Hsign & _).
  eexists fs, config, s, o, _, addon, _, later. split; [done|]. split; [done|]. split; [exact Ht|].
  destruct (setup_trace_holds fs (e_podNamespace env)
    (RegisterClusterManagementAddonReconciler libs EnsureTargetCertKeyPair s
       (string_value fs "image-pull-policy") (Some (NewOwnerReferenceFromConfig config)) tls) b addon)
    as (S1 & S2 & S3 & S4 & S5 & S6 & _).
  split_and!; try done. subst later. by intros [_ ?]%run_phase_actions.
Qed.

(** The ClusterProfile controller is registered exactly when the
    arguments ask for it: by its own gate, or by the gate of all alpha
    features without its own being off; whatever order the maps of gates
    are visited in. *)
Theorem profile_controller_gated fuel env w r t w' fs :
  visits FeatureGates (e_visited env) (e_order env) →
  Parse (addon_manager_flags ∪ e_library_flags env) (e_args env) = Ok fs →
  main fuel env w = (r, (t, w')) → AStartManager ∈ t →
  let m := map_value fs "feature-gates" in
  ARegister ClusterProfileController ∈ t ↔
  m !! ClusterProfile = Some true ∨ m !! ClusterProfile = None ∧ m !! allAlphaGate = Some true.
Proof.
  intros Hv Hp H Hin. destruct (started_cases _ _ _ _ _ _ _ _ _ _ _ _ _ H Hin) as [[fs' gate config s tls b
    addon later Hp' Hg Hb _ _ _ Hr Ht]].
  assert (fs' = fs) as -> by congruence. cbn zeta. set (m := map_value fs "feature-gates") in *.
  pose proof (feature_gates_order_irrelevant (e_visited env) (e_order env) m Hv) as Hspec.
  rewrite Hg in Hspec. destruct Hspec as [_ He].
  rewrite Hb in He. injection He as He.
  assert (ARegister ClusterProfileController ∈ t ↔ b = true) as ->.
  { rewrite Ht, elem_of_app. rewrite (proj1 (proj2 (proj2 (proj2 (proj2 (proj2 (proj2 (setup_trace_holds fs _ _ b addon)))))))).
    subst later. split; [|by left]. intros [|[?|[?|[? _]%run_phase_actions]%elem_of_cons]%elem_of_cons]; by subst. }
  rewrite He. destruct (m !! ClusterProfile) as [[]|], (m !! allAlphaGate) as [[]|]; cbn; naive_solver.
Qed.

(** C22: whatever chart a started manager's add-on renders, for any cluster
    and any deployment configuration that does not customize the variable
    "base64EncodedCAData" itself (a customized variable of that name replaces
    the value), the CA data in it holds the certificate of the signer secret:
    agents trust the authority that the proxy-servers' certificates are signed
    with.  The framework's translation of resource requirements is assumed to
    set nothing but "global". *)
Theorem agents_trust_signer_secret fuel env w r t w' addon getConfig dc cluster ns image wr values image' wr' :
  (∀ d x, resources d = Ok x → ∀ k, k ≠ "global" → x !! k = None) →
  keyed w → main fuel env w = (r, (t, w')) → AStartManager ∈ t → AAddAgent addon ∈ t →
  aa_values addon getConfig dc cluster ns image wr = (Done (values, image'), wr') →
  not_customized dc "base64EncodedCAData" →
  ∃ fs secret block rest cert text data certs,
    Parse (addon_manager_flags ∪ e_library_flags env) (e_args env) = Ok fs ∧
    store w' !! ("Secret", string_value fs "signer-secret-namespace",
                 string_value fs "signer-secret-name") = Some secret ∧
    Decode (secret_data secret TLSCACert) = Some (block, rest) ∧
    ParseCertificate (b_bytes block) = Ok cert ∧
    values !! "base64EncodedCAData" = Some (VString text) ∧ b64_decode text = Some data ∧
    ParseCertsPEM data = Ok certs ∧ cert ∈ certs.
Proof.
  intros Hres Hk H Hin Hadd Hv Hc.
  destruct (started_cases _ _ _ _ _ _ _ _ _ _ _ _ _ H Hin) as [[fs gate config s tls b
    addon' later Hp _ _ _ Hs Ha Hr Ht]].
  assert (addon = addon') as ->.
  { rewrite Ht, elem_of_app in Hadd.
    destruct (setup_trace_holds fs (e_podNamespace env)
      (RegisterClusterManagementAddonReconciler libs EnsureTargetCertKeyPair s
         (string_value fs "image-pull-policy") (Some (NewOwnerReferenceFromConfig config)) tls) b addon')
      as (_ & _ & _ & _ & _ & _ & _ & S). destruct Hadd as [Hadd|Hadd]; [by apply S|].
    subst later. by apply elem_of_cons in Hadd as [?|[?|[? _]%run_phase_actions]%elem_of_cons]. }
  destruct (signer_agrees _ _ _ _ _ _ _ Hk Hs) as (o & Ho & _).
  destruct (authority_parses MarshalPKCS1PrivateKey _ _ _ _ Ho) as (block & rest & Hd & Hpc & Hpem).
  apply NewAgentAddon_ok in Ha as (_ & _ & Hval). rewrite Hval in Hv.
  destruct (agents_trust_hub_authority _ _ _ _ Hres _ _ _ _ _ _ _ _ _ _ _ _ _ _ [caCert s] Hv Hc Hpem)
    as (text & data & certs & E1 & E2 & E3 & E4).
  exists fs, o, block, rest, (caCert s), text, data, certs. split_and!; try done; [apply Ho|].
  apply E4. by left.
Qed.
End main_theorems.

(** ** Concrete runs *)

Import Sample.

Module ManagerSample.
Definition the_args : list string :=
  ["--leader-elect=true"; "--signer-secret-namespace=hub"; "--enable-service-proxy=false";
   "--feature-gates=ClusterProfile=true"].

Definition env (newManager : result unit) (events : list event) : manager_env :=
  MkManagerEnv ∅ the_args (λ _, known FeatureGates) map_to_list true (λ _, newManager) (Ok ()) (Ok ())
    (Ok ()) (λ _, Ok demo_config) "hub" (λ _, Ok (MkTLSConfig [] VersionTLS12)) (λ _, Ok ()) (λ _, Ok ())
    (Ok ()) (λ _, Ok ()) (λ _, Ok ()) events.

Definition good : manager_env := env (Ok ()) [Elected; ManagerReturns (Ok ())].
Definition bad : manager_env := env (Err (ENew "no API server")) [].

Definition ensure (_ : option OwnerReference) (_ : rotation) (_ : list Certificate * PrivateKey)
  : result unit := Ok ().

Definition run (e : manager_env) : P (Act := action) unit :=
  addon_manager_main (λ _, "der") no_ingress sample_unmarshal sample_override sample_resources
    demo_reconciler ensure 2 e.

Definition good_trace : list action := (run good Sample.empty_world).2.1.
Definition good_world : world := (run good Sample.empty_world).2.2.

Lemma good_runs : run good Sample.empty_world = (inl (Exit 0), (good_trace, good_world)).
Proof.
  assert ((run good Sample.empty_world).1 = inl (Exit 0)) as E by (vm_compute; reflexivity).
  unfold good_trace, good_world. destruct (run good Sample.empty_world) as [r [t w]].
  cbn [fst snd] in *. by rewrite E.
Qed.

Lemma bad_runs :
  run bad Sample.empty_world
  = (inl (Exit 1), ([ASetConfig "" "open-cluster-management-cluster-proxy"], Sample.empty_world)).
Proof. vm_compute. reflexivity. Qed.

Definition is_start (a : action) : bool := match a with AStartManager => true | _ => false end.

Lemma good_starts : AStartManager ∈ good_trace.
Proof.
  assert (existsb is_start good_trace = true) as H by (vm_compute; reflexivity).
  apply existsb_exists in H as (a & Hin & Ha). apply list_elem_of_In in Hin. by destruct a.
Qed.

Definition agents (t : list action) : list agent_addon :=
  concat (map (λ a, match a with AAddAgent x => [x] | _ => [] end) t).

Lemma agents_added x t : x ∈ agents t → AAddAgent x ∈ t.
Proof.
  unfold agents. induction t as [|a t IH]; cbn [map concat]; [by intros ?%not_elem_of_nil|].
  rewrite elem_of_app, elem_of_cons. intros [H|H]; [|by right; apply IH].
  left. destruct a; try by apply not_elem_of_nil in H. by apply list_elem_of_singleton in H as ->.
Qed.

(** The add-on that was registered, and a chart that it renders. *)
Definition the_addon : agent_addon := hd (MkAddon "" [] CSRApproveCheck ("", []) ("", [])
  ("", "", "", 0%Z) [] (λ _ _ _ _ _, panic) (λ _, ("", None))) (agents good_trace).

Lemma the_addon_added : AAddAgent the_addon ∈ good_trace.
Proof.
  apply agents_added. unfold the_addon.
  assert (length (agents good_trace) = 1%nat) as E by (vm_compute; reflexivity).
  destruct (agents good_trace) as [|x l]; [discriminate E|]. left.
Qed.

Abbreviation the_render :=
  (aa_values the_addon (Ok (demo_config, sample_agent "agent:v1")) (Some proxied) sample_cluster "" "").

Definition the_values : gmap string value * string :=
  match (the_render good_world).1 with Done v => v | _ => (∅, "") end.

Lemma the_render_done :
  the_render good_world = (Done (the_values.1, the_values.2), (the_render good_world).2).
Proof.
  assert (match (the_render good_world).1 with Done _ => true | _ => false end = true) as E
    by (vm_compute; reflexivity).
  unfold the_values. destruct (the_render good_world) as [[[v n]|e| |] w1]; cbn [fst] in E; try discriminate E.
  reflexivity.
Qed.

Lemma ok_inj {A} (a b : A) : Ok a = Ok b → a = b.
Proof. by intros [=]. Qed.

Definition good_flags : flag_set :=
  match Parse (addon_manager_flags ∪ ∅) the_args with Ok fs => fs | Err _ => ∅ end.

Lemma good_parsed : Parse (addon_manager_flags ∪ ∅) the_args = Ok good_flags.
Proof. vm_cast_no_check (@eq_refl (result flag_set) (Ok good_flags)). Qed.

Lemma empty_keyed : keyed Sample.empty_world.
Proof. apply map_Forall_empty. Qed.
End ManagerSample.
Import ManagerSample.

Lemma failed_setup_starts_nothing_witness :
  AStartInformers ∉ [ASetConfig "" "open-cluster-management-cluster-proxy"].
Proof.
  refine (proj1 (failed_setup_starts_nothing (λ _, "der") no_ingress sample_unmarshal sample_override
    sample_resources demo_reconciler ensure 2 bad Sample.empty_world _ _ _ bad_runs _)).
  intros [[=]|H%not_elem_of_nil]%elem_of_cons. exact H.
Defined.

Lemma started_manager_complete_witness :
  ∃ secret, store good_world !! ("Secret", "hub", "cluster-proxy-signer") = Some secret.
Proof.
  destruct (started_manager_complete (λ _, "der") no_ingress sample_unmarshal sample_override
    sample_resources demo_reconciler ensure 2 good Sample.empty_world _ _ _ empty_keyed good_runs good_starts)
    as (fs & config & s & o & rec & addon & pre & later & Hp & _ & _ & _ & Ho & _).
  exists o. pose proof (ok_inj _ _ (eq_trans (eq_sym Hp) good_parsed)) as E. subst fs.
  exact (proj1 Ho).
Defined.

Lemma profile_controller_gated_witness : ARegister ClusterProfileController ∈ good_trace.
Proof.
  refine (proj2 (profile_controller_gated (λ _, "der") no_ingress sample_unmarshal sample_override
    sample_resources demo_reconciler ensure 2 good Sample.empty_world _ _ _ good_flags gates_visited
    _ good_runs good_starts) _).
  - exact good_parsed.
  - left. vm_compute. reflexivity.
Defined.

Lemma agents_trust_signer_secret_witness :
  ∃ text data certs, (the_values.1 : gmap string value) !! "base64EncodedCAData" = Some (VString text) ∧
    b64_decode text = Some data ∧ ParseCertsPEM data = Ok certs ∧ certs ≠ [].
Proof.
  destruct (agents_trust_signer_secret (λ _, "der") no_ingress sample_unmarshal sample_override
    sample_resources demo_reconciler ensure 2 good Sample.empty_world (inl (Exit 0)) good_trace good_world
    the_addon (Ok (demo_config, sample_agent "agent:v1")) (Some proxied) sample_cluster "" ""
    good_world the_values.1 the_values.2 (the_render good_world).2
    sample_resources_global empty_keyed good_runs good_starts the_addon_added the_render_done
    (sample_not_customized "base64EncodedCAData" ltac:(discriminate)))
    as (fs & o & block & rest & cert & text & data & certs & _ & _ & _ & _ & H1 & H2 & H3 & H4).
  exists text, data, certs. split; [exact H1|]. split; [exact H2|]. split; [exact H3|].
  intros ->. exact (not_elem_of_nil _ H4).
Defined.
