(* ===== verification/ManagerClient.v ===== *)
(** * The addon-manager's reading of its configuration

    cmd/addon-manager/main.go, 150-162: the manager makes a generated
    clientset for its API server, gets the configuration "cluster-proxy" and
    makes the signer secret a dependent of it.  The start-up of
    [AddonManager] is composed with the client of [Clientset]. *)

From S2P Require Import Prelude GoStrings Http GoUrl Manifests RestClient Clientset.
From S2P Require Import Api Controller Pem Certificates Agent GoFlag Features AddonManager.

Local Open Scope string_scope.

(** [proxyClient.ProxyV1alpha1().ManagedProxyConfigurations().Get] with empty
    options. *)
Definition read_configuration (exchange : wire_request → response) (c : RESTClient) (name : string)
    : result ManagedProxyConfiguration :=
  match Clientset.Get exchange c name (MkGetOptions "") with
  | (_, Some e) => Err e
  | (o, None) => Ok (c_object o)
  end.

(** What a read returned, from the answer that it got. *)
Definition answered (r : response) (config : ManagedProxyConfiguration) : Prop :=
  match r with
  | RespError _ => False
  | RespConfiguration o => config = c_object o
  | _ => config = zero_object
  end.

Lemma read_configuration_ok exchange c name config :
  rc_GroupVersion c = SchemeGroupVersion → rc_versionedAPIPath c = abs_path versioned_segments →
  read_configuration exchange c name = Ok config →
  ∃ req, w_method req = "GET" ∧ w_scheme req = GoUrl.Scheme (rc_base c) ∧
    w_host req = Host (rc_base c) ∧ w_body req = None ∧
    Split "/" (w_path req) = "" :: components true (Path (rc_base c)) ++
      ["apis"; "proxy.open-cluster-management.io"; "v1alpha1"; "managedproxyconfigurations"; name] ∧
    answered (exchange req) config.
Proof.
  intros Hgv Hv. unfold read_configuration, Clientset.Get, send.
  pose proof (op_sent_spec (λ _ _, Err (ENew "")) c (OpGet name (MkGetOptions "")) Hgv Hv) as Hs.
  cbn [op_sent op_request] in Hs. destruct (prepared _) as [req|e]; [|done].
  destruct Hs as (_ & Hm & Hsc & Hh & Hp & _ & Hb & _). cbn [op_body] in Hb.
  intros Hr. exists req. split_and!; try done. unfold Into in Hr.
  destruct (exchange req); cbn; by simplify_eq.
Qed.

Section manager.
Context `{L : CryptoLaws}.
Context (MarshalPKCS1PrivateKey : PrivateKey → string).
Context (ingress : object → list string) (Unmarshal : string → result (gmap string string)).
Context (OverrideImageByAnnotation : gmap string string → string → result string).
Context (resources : AddOnDeploymentConfig → result (gmap string go_value)).
Context (libs : reconciler).
Context (EnsureTargetCertKeyPair : option OwnerReference → rotation → list Certificate * PrivateKey →
  result unit).

Abbreviation main := (addon_manager_main MarshalPKCS1PrivateKey ingress Unmarshal
  OverrideImageByAnnotation resources libs EnsureTargetCertKeyPair).

(** C34: the configuration that owns the signer secret of a manager that
    started was read by one GET of the resource "cluster-proxy" of this API,
    at the server that the manager is configured with; it is the object in
    the answer, or, since the client takes an answer of another kind for
    success, the empty object, whose name and identity the owner reference
    then carries. *)
Theorem manager_reads_its_configuration `{UrlParse} UA TransportFor cfg fresh cs n exchange
    fuel env w r t w' :
  keyed w → Clientset.NewForConfig UA TransportFor cfg fresh = (Ok cs, n) →
  (∀ name, e_getConfiguration env name = read_configuration exchange (ProxyV1alpha1 cs) name) →
  main fuel env w = (r, (t, w')) → AStartManager ∈ t →
  ∃ base req config fs signer secret,
    DefaultServerUrlFor (setConfigDefaults UA cfg) =
      Ok (base, "/apis/proxy.open-cluster-management.io/v1alpha1") ∧
    w_method req = "GET" ∧ w_scheme req = GoUrl.Scheme base ∧ w_host req = Host base ∧
    w_body req = None ∧
    Split "/" (w_path req) = "" :: components true (Path base) ++
      ["apis"; "proxy.open-cluster-management.io"; "v1alpha1"; "managedproxyconfigurations";
       "cluster-proxy"] ∧
    answered (exchange req) config ∧
    Parse (addon_manager_flags ∪ e_library_flags env) (e_args env) = Ok fs ∧
    holds_authority w' ("Secret", string_value fs "signer-secret-namespace",
                        string_value fs "signer-secret-name") signer secret ∧
    owned_by (Some (NewOwnerReferenceFromConfig config)) secret.
Proof.
  intros Hk (Hgv & Hv & base & Hb & Hs & Hh & Hpath)%clientset_proxy_client Hget Hrun Hin.
  destruct (started_cases _ _ _ _ _ _ _ _ _ _ _ _ _ Hrun Hin) as [[fs gate config s tls b
    addon later Hp _ _ Hc Hsig _ _ _]].
  rewrite Hget in Hc. apply (read_configuration_ok _ _ _ _ Hgv Hv) in Hc
    as (req & Hm & Hrs & Hrh & Hrb & Hrp & Ha).
  destruct (signer_agrees _ _ _ _ _ _ _ Hk Hsig) as (secret & Ho & Hown).
  exists base, req, config, fs, s, secret.
  rewrite Hrs, Hrh, Hrp, Hpath. by split_and!.
Qed.
End manager.

(** ** A run: the client's server knows the configuration *)

Import Sample.
Import ManagerSample.

Module ReadSample.
Definition exchange (_ : wire_request) : response := RespConfiguration (MkConfiguration "" ∅ "1" demo_config).

Definition clientset : Clientset :=
  match ClientSample.made.1 with Ok cs => cs | Err _ => New ClientSample.client end.

Definition env : manager_env :=
  MkManagerEnv ∅ the_args (λ _, known FeatureGates) map_to_list true (λ _, Ok ()) (Ok ()) (Ok ())
    (Ok ()) (read_configuration exchange (ProxyV1alpha1 clientset)) "hub"
    (λ _, Ok (MkTLSConfig [] VersionTLS12)) (λ _, Ok ()) (λ _, Ok ())
    (Ok ()) (λ _, Ok ()) (λ _, Ok ()) [Elected; ManagerReturns (Ok ())].

Lemma sample_clientset_made : ClientSample.made = (Ok clientset, 2).
Proof. by vm_compute. Qed.

Definition outcome : world := (run env Sample.empty_world).2.2.
Definition trace : list action := (run env Sample.empty_world).2.1.

Lemma env_runs : run env Sample.empty_world = (inl (Exit 0), (trace, outcome)).
Proof.
  assert ((run env Sample.empty_world).1 = inl (Exit 0)) as E by (vm_compute; reflexivity).
  unfold trace, outcome. destruct (run env Sample.empty_world) as [r [t w]].
  cbn [fst snd] in *. by rewrite E.
Qed.

Lemma env_starts : AStartManager ∈ trace.
Proof.
  assert (existsb is_start trace = true) as H by (vm_compute; reflexivity).
  apply existsb_exists in H as (a & Hin & Ha). apply list_elem_of_In in Hin. by destruct a.
Qed.

Lemma manager_reads_its_configuration_witness :
  ∃ req secret, w_host req = "10.0.0.1:6443" ∧
    (∃ key, store outcome !! key = Some secret) ∧
    owned_by (Some (NewOwnerReferenceFromConfig demo_config)) secret.
Proof.
  destruct (manager_reads_its_configuration (λ _, "der") no_ingress sample_unmarshal sample_override
    sample_resources demo_reconciler ensure (H := go_url) "agent" ClientSample.TransportFor
    ClientSample.config 0 clientset 2 exchange 2 env Sample.empty_world (inl (Exit 0)) trace outcome
    empty_keyed sample_clientset_made (λ _, eq_refl) env_runs env_starts)
    as (base & req & config & fs & s & o & Hb & _ & _ & Hh & _ & _ & Ha & _ & Ho & Hown).
  exists req, o. split_and!.
  - rewrite Hh. vm_compute in Hb. injection Hb as <-. reflexivity.
  - eexists. exact (proj1 Ho).
  - cbn in Ha. by rewrite <- Ha.
Defined.
End ReadSample.
