(* ===== verification/Command.v ===== *)
(** * The cluster-proxy command (cmd/cluster-proxy/main.go, pkg/controllers/manager.go)

    The binary of the hub's user-server, of its certificate controller and
    of the clusters' service-proxy: the root command with its sub-commands,
    what [runMain] makes of their errors, and the sub-command "controllers"
    from its flags to the start of its manager.  The properties relate the
    latter to the addon-manager: the two commands must agree on the signer
    secret, which one writes and the other signs with. *)

From S2P Require Import Prelude GoStrings Sha256 Naming Http Manifests Api Controller.
From S2P Require Import Pem Certificates Agent GoFlag Features AddonManager.

Local Open Scope string_scope.

(** ** runMain and the root command *)

(** A command returns an error or nil, or panics. *)
Inductive ran := Returned (e : option goerror) | Panicking.

Record process_end := MkEnd {
  exit_code : option Z;                           (* [None] is a panic *)
  printed : list string;                          (* lines on stderr *)
  flushes : nat
}.

(** [flushLogs] is deferred. *)
Definition runMain (executeCommand : ran) (stderr : list string) : process_end :=
  match executeCommand with
  | Panicking => MkEnd None stderr 1
  | Returned (Some e) => MkEnd (Some 1%Z) (stderr ++ [error_string e])%list 1
  | Returned None => MkEnd (Some 0%Z) stderr 1
  end.

Record command := MkCommand {
  use : string;
  SilenceErrors : bool;
  SilenceUsage : bool;
  RunE : ran;
  silences_usage : bool                           (* RunE sets SilenceUsage *)
}.

Record command_tree := MkTree {
  root : command;
  Version : string;
  subcommands : list command
}.

(** [help] is what writing the help text returns. *)
Definition newClusterProxyCommand (gitVersion : string) (help : option goerror)
    (userServer serviceProxy controllers : ran) : command_tree :=
  MkTree
    (MkCommand "cluster-proxy" true false
       (Returned (Some (match help with Some e => e | None => ENew "a subcommand is required" end)))
       (match help with Some _ => false | None => true end))
    (if (String.length gitVersion =? 0)%nat then "<unknown>" else gitVersion)
    [MkCommand "user-server" false false userServer false;
     MkCommand "service-proxy" false false serviceProxy false;
     MkCommand "controllers" false false controllers false].

(** [ExecuteC] of cobra, for a command line whose first argument that is not
    a flag is [name]; cobra's own commands (help, completion) are left out.
    The result comes with the lines that cobra printed itself. *)
Definition ErrPrefix : string := "Error:".

Definition find_command (t : command_tree) (name : option string) : result command :=
  match name with
  | None => Ok (root t)
  | Some n =>
      match find (λ c, String.eqb (use c) n) (subcommands t) with
      | Some c => Ok c
      | None => Err (ENew ("unknown command " ++ Quote n ++ " for " ++ Quote (use (root t))))
      end
  end.

Definition ExecuteC (t : command_tree) (usage : command → string) (name : option string)
  : ran * list string :=
  match find_command t name with
  | Err e =>
      (Returned (Some e),
       if SilenceErrors (root t) then []
       else [ErrPrefix ++ " " ++ error_string e; "Run '" ++ use (root t) ++ " --help' for usage."])
  | Ok cmd =>
      match RunE cmd with
      | Returned (Some e) =>
          (Returned (Some e),
           ((if SilenceErrors cmd || SilenceErrors (root t) then []
             else [(ErrPrefix ++ " " ++ error_string e)%string]) ++
            (if SilenceUsage cmd || silences_usage cmd || SilenceUsage (root t) then []
             else [usage cmd]))%list)
      | r => (r, [])
      end
  end.

(** [main]. *)
Definition cluster_proxy_main (t : command_tree) (usage : command → string) (name : option string)
  : process_end :=
  let '(r, lines) := ExecuteC t usage name in runMain r lines.

(** ** The sub-command "controllers" *)

Definition addFlags : list (string * flag_value) :=
  [("metrics-addr", StringFlag ":8080"); ("health-probe-addr", StringFlag ":8081");
   ("enable-leader-election", BoolFlag false)].

Definition addFlagsForCertController : list (string * flag_value) :=
  [("certificates-namespace", StringFlag "default");
   ("signer-secret-name", StringFlag "cluster-proxy-signer");
   ("signer-secret-namespace", StringFlag "default");
   ("agent-image", StringFlag "")].

Definition controllers_flags : flag_set := list_to_map (addFlags ++ addFlagsForCertController)%list.

Inductive cert_action :=
| CInformer (kind : string)                       (* of the informer factory *)
| CStartInformers
| CNewManager (o : manager_options)
| CRegister (r : reconcileServerCertificates) (filter : object → bool)
| CStartManager.

Record controllers_env := MkControllersEnv {
  c_kubeConfig : result unit;
  c_newNativeClient : result unit;
  c_newManager : manager_options → result unit;
  c_newProxyClient : result unit;
  c_getConfiguration : string → result ManagedProxyConfiguration;
  c_register : result unit;
  c_managerStart : result unit
}.

(** The trace goes on after a step that succeeded, and ends with its
    wrapped error otherwise. *)
Definition step {A} (msg : string) (r : result A) (k : A → list cert_action * result unit)
  : list cert_action * result unit :=
  match r with
  | Ok a => k a
  | Err e => ([], Err (EWrap (msg ++ ": " ++ error_string e) e))
  end.

Definition did (a : cert_action) (k : list cert_action * result unit)
  : list cert_action * result unit := (a :: k.1, k.2).

Definition runControllerManager (fs : flag_set) (env : controllers_env)
  : list cert_action * result unit :=
  step "get Kubernetes config" (c_kubeConfig env) (λ _,
  step "create Kubernetes client" (c_newNativeClient env) (λ _,
  did (CInformer "Secret") (
  did CStartInformers (
  let options := MkOptions (string_value fs "metrics-addr") (string_value fs "health-probe-addr")
                   (bool_value fs "enable-leader-election") "cluster-proxy-service-proxy" in
  step "set up controller manager" (c_newManager env options) (λ _,
  did (CNewManager options) (
  step "set up proxy client" (c_newProxyClient env) (λ _,
  step ("get ManagedProxyConfiguration " ++ Quote "cluster-proxy")
    (c_getConfiguration env "cluster-proxy") (λ proxyConfig,
  let '(rec, filter) :=
    registerCertController (string_value fs "certificates-namespace")
      (string_value fs "signer-secret-name") (string_value fs "signer-secret-namespace") in
  step "set up cert controller" (c_register env) (λ _,
  did (CRegister rec filter) (
  did CStartManager (
  step "run controller manager" (c_managerStart env) (λ _, ([], Ok ()))))))))))))).

(** ** Lemmas *)

Lemma find_command_cases t name cmd :
  find_command t name = Ok cmd →
  cmd = root t ∧ name = None ∨ cmd ∈ subcommands t ∧ name = Some (use cmd).
Proof.
  unfold find_command. destruct name as [n|]; intros H; [|injection H as <-; by left].
  destruct (find _ _) as [c|] eqn:E; [|done]. injection H as <-. right.
  apply find_some in E as [Hin Hn]. apply list_elem_of_In in Hin. apply String.eqb_eq in Hn. by subst n.
Qed.

Lemma find_command_found gitVersion help us sp cs cmd :
  let t := newClusterProxyCommand gitVersion help us sp cs in
  cmd ∈ subcommands t → find_command t (Some (use cmd)) = Ok cmd.
Proof.
  cbn. intros Hin. repeat (apply elem_of_cons in Hin as [->|Hin]; [reflexivity|]).
  by apply not_elem_of_nil in Hin.
Qed.

(** The controllers' manager registers what its flags name, after the
    informer that the rotation reads was requested and started. *)
Lemma controllers_trace fs env t r :
  runControllerManager fs env = (t, r) → CStartManager ∈ t →
  let '(rec, filter) :=
    registerCertController (string_value fs "certificates-namespace")
      (string_value fs "signer-secret-name") (string_value fs "signer-secret-namespace") in
  t = [CInformer "Secret"; CStartInformers;
       CNewManager (MkOptions (string_value fs "metrics-addr") (string_value fs "health-probe-addr")
         (bool_value fs "enable-leader-election") "cluster-proxy-service-proxy");
       CRegister rec filter; CStartManager] ∧
  is_ok r = is_ok (c_managerStart env).
Proof.
  unfold runControllerManager, step, did.
  destruct (registerCertController _ _ _) as [rec filter].
  destruct (c_kubeConfig env); [|intros [= <- <-]; set_solver].
  destruct (c_newNativeClient env); [|intros [= <- <-]; set_solver].
  destruct (c_newManager env _); [|intros [= <- <-]; set_solver].
  destruct (c_newProxyClient env); [|intros [= <- <-]; set_solver].
  destruct (c_getConfiguration env _); [|intros [= <- <-]; set_solver].
  destruct (c_register env); [|intros [= <- <-]; set_solver].
  destruct (c_managerStart env); by intros [= <- <-].
Qed.

(** ** Properties *)

(** The command's exit status tells how it ended: 0 exactly when a
    sub-command was asked for, ran and returned nil, 1 for an error, which
    is printed once, last, by [runMain] and not by cobra too, after at most
    the usage text; and the logs are flushed once in every case, panics
    included. *)
Theorem command_reports_once gitVersion help userServer serviceProxy controllers usage name :
  let t := newClusterProxyCommand gitVersion help userServer serviceProxy controllers in
  let p := cluster_proxy_main t usage name in
  flushes p = 1%nat ∧
  (exit_code p = Some 0%Z ↔ ∃ cmd, cmd ∈ subcommands t ∧ name = Some (use cmd) ∧ RunE cmd = Returned None) ∧
  (∀ e, (ExecuteC t usage name).1 = Returned (Some e) →
     exit_code p = Some 1%Z ∧
     (printed p = [error_string e] ∨
      ∃ cmd, cmd ∈ root t :: subcommands t ∧ printed p = [usage cmd; error_string e])).
Proof.
  cbn zeta. set (t := newClusterProxyCommand _ _ _ _ _).
  assert (∀ cmd, cmd ∈ subcommands t → find_command t (Some (use cmd)) = Ok cmd) as Hfound
    by (intros cmd; apply find_command_found).
  unfold cluster_proxy_main, ExecuteC.
  destruct (find_command t name) as [cmd|e] eqn:Ef.
  - destruct (find_command_cases _ _ _ Ef) as [[-> ->]|[Hin ->]].
    + destruct help as [e|]; (split; [done|]; split;
        [split; [done|intros (c & _ & [=] & _)]|intros e' [= <-]; split; [done|]]).
      * right. exists (root t). split; [by left|done].
      * by left.
    + change (SilenceErrors (root t)) with true. rewrite orb_true_r.
      destruct (RunE cmd) as [[e|]|] eqn:Er; cbn [runMain flushes exit_code printed fst app].
      * split; [done|]. split; [split; [done|]|].
        { intros (c & Hc & [= Hu] & Hr). apply Hfound in Hc. congruence. }
        intros e' [= <-]. split; [done|]. destruct (_ || _ || _); [by left|].
        right. exists cmd. split; [by right|done].
      * split; [done|]. split; [|done]. split; [|done]. intros _. by exists cmd.
      * split; [done|]. split; [|done]. split; [done|].
        intros (c & Hc & [= Hu] & Hr). apply Hfound in Hc. congruence.
  - cbn. split; [done|]. split; [split; [done|]|].
    + intros (c & Hc & -> & Hr). apply Hfound in Hc. congruence.
    + intros e' [= <-]. split; [done|]. by left.
Qed.

(** C23: the certificate controller works on the authority that the
    addon-manager made: run without flags the two name the same signer
    secret; and whenever they name the same one, after a manager has started,
    the secret it leaves behind is what the controller's event filter lets
    through and what its reconciliation signs the serving certificate with. *)
Theorem cert_controller_follows_signer `{L : CryptoLaws} MarshalPKCS1 ingress unmarshal override resources
    libs ensure fuel env w r t w' fs cfs cenv ct cr
    (GetCAFromBytes : string → string → result (list Certificate * PrivateKey))
    (EnsureTargetCertKeyPair : rotation → list Certificate → result unit) :
  keyed w →
  addon_manager_main MarshalPKCS1 ingress unmarshal override resources libs ensure fuel env w
    = (r, (t, w')) → AStartManager ∈ t →
  Parse (addon_manager_flags ∪ e_library_flags env) (e_args env) = Ok fs →
  runControllerManager cfs cenv = (ct, cr) → CStartManager ∈ ct →
  (string_value addon_manager_flags "signer-secret-namespace",
   string_value addon_manager_flags "signer-secret-name") =
  (string_value controllers_flags "signer-secret-namespace",
   string_value controllers_flags "signer-secret-name") ∧
  (string_value fs "signer-secret-namespace" = string_value cfs "signer-secret-namespace" →
   string_value fs "signer-secret-name" = string_value cfs "signer-secret-name" → quiet w' →
   ∃ rec filter secret signer,
     CRegister rec filter ∈ ct ∧ filter secret = true ∧
     o_key secret = ("Secret", string_value cfs "signer-secret-namespace",
                     string_value cfs "signer-secret-name") ∧
     holds_authority w' (o_key secret) signer secret ∧
     ReconcileServerCertificates GetCAFromBytes EnsureTargetCertKeyPair rec w' =
       match GetCAFromBytes (secret_data secret TLSCACert) (secret_data secret TLSCAKey) with
       | Ok ca => server_rotate EnsureTargetCertKeyPair (serverCertRotation rec) ca w'
       | Err e => (Fails e, w')
       end).
Proof.
  intros Hk H Hin Hp Hc Hcin. split; [reflexivity|]. intros Ens Ename Hq.
  destruct (started_cases _ _ _ _ _ _ _ _ _ _ _ _ _ H Hin)
    as [[fs' gate config s tls b addon later Hp' _ _ _ Hs _ _ _]].
  assert (fs' = fs) as -> by congruence.
  destruct (signer_agrees _ _ _ _ _ _ _ Hk Hs) as (o & Ho & _).
  pose proof (load_keyed fuel (string_value fs "signer-secret-namespace")
    (string_value fs "signer-secret-name") (Some (NewOwnerReferenceFromConfig config)) w Hk) as Hk'.
  rewrite Hs in Hk'. pose proof (Hk' _ _ (proj1 Ho)) as Hkey.
  pose proof (controllers_trace _ _ _ _ Hc Hcin) as Ht.
  destruct (registerCertController _ _ _) as [rec filter] eqn:Er. destruct Ht as [-> _].
  injection Er as <- <-. rewrite Ens, Ename in *.
  eexists _, _, o, s. split; [do 3 right; left|]. split.
  { unfold o_key in Hkey. injection Hkey as _ -> ->. by rewrite !String.eqb_refl. }
  split; [done|]. split; [by rewrite Hkey|].
  unfold ReconcileServerCertificates, bind. cbn [signer_secret_namespace signer_secret_name].
  rewrite api_get_quiet by done. rewrite (proj1 Ho). by destruct (GetCAFromBytes _ _).
Qed.

(** ** Concrete runs *)

Import Sample ManagerSample.

Definition cert_flags : flag_set :=
  <["signer-secret-namespace" := StringFlag "hub"]> controllers_flags.

Definition cert_env : controllers_env :=
  MkControllersEnv (Ok ()) (Ok ()) (λ _, Ok ()) (Ok ()) (λ _, Ok demo_config) (Ok ()) (Ok ()).

Definition cert_run : list cert_action * result unit := runControllerManager cert_flags cert_env.

Lemma cert_run_starts : CStartManager ∈ cert_run.1.
Proof. unfold cert_run. cbn. do 4 right. left. Qed.

Lemma cert_controller_follows_signer_witness :
  ∃ filter secret, filter secret = true ∧ o_key secret = ("Secret", "hub", "cluster-proxy-signer").
Proof.
  destruct (cert_controller_follows_signer (λ _, "der") no_ingress sample_unmarshal sample_override
    sample_resources demo_reconciler ManagerSample.ensure 2 good Sample.empty_world (inl (Exit 0)) good_trace good_world
    good_flags cert_flags cert_env cert_run.1 cert_run.2 sample_ca sample_ensure empty_keyed good_runs
    good_starts good_parsed eq_refl cert_run_starts) as [_ H].
  destruct (H eq_refl eq_refl eq_refl) as (rec & filter & secret & signer & _ & Hf & Hkey & _).
  exists filter, secret. split; [exact Hf|exact Hkey].
Defined.
